(* ===== verification/_CoqProject ===== *)
-Q . S2P
Prelude.v
Kernel.v
Protocol.v
Wp.v
Vfs.v
GlobalParam.v
Netlink.v
UserCom.v
Requests.v
Daemon.v
Client.v
ClientMain.v
Session.v
File.v
Mmap.v
Buffered.v
Miscdev.v
Concurrent.v
Super.v
Lookup.v
Refs.v
Dentry.v
Inode.v
Main.v
Tables.v
Log.v
ThreadPool.v
PoolExit.v
Pevents.v
PeventsSteps.v
PeventsInv.v
PeventsSafe.v
PeventsWait.v
PeventsWake.v
PeventsAsleep.v
PeventsRefine.v
PeventsRuns.v
PeventsTime.v
Process.v
Demo.v
Witness.v
WitnessFs.v
