(* ===== verification/Prelude.v ===== *)
(** TEADFS: a stacked Linux file system whose files are enciphered by a process
    in user space.

    * The program

    The kernel module ([TEADFS/src]) puts an upper file system over a lower one.
    It asks a user process, over netlink, what to do with a file: OPEN is
    answered with a mode (nothing to do, prohibited, deliver enciphered, deliver
    deciphered), RELEASE tells that the last opener has left, READ and WRITE
    hand over a page and take back the transformed one.  The process
    ([TEADFS-utils]) receives the packets, runs the five callbacks of
    [include/lib_tead_fs.h] and replies; [test/test.cpp] is the client that
    ships with the file system: it labels text files with a 256-byte header and
    enciphers them with xor.

    * The files of the development

    - [Prelude]: machine integers, byte lists ([slice], [splice], little-endian
      numbers) and their lemmas.
    - [Kernel]: the storage model.  A pointer is null or a block and an offset;
      blocks are live or freed; an access out of a block, through null, to
      nothing, or a double free is the outcome [Ub].  [M] is the monad of
      functions on the module's state [kstate]: heap, global parameters, the
      queue of waiting requests, packets sent, lower file system, files,
      inodes, dentries, pages, super blocks, references held, mutexes held.
      [KernelEnv] is what the kernel gives, the lower file system included: each
      of its fields is a parameter of everything that follows.  Reading a freed
      block is possible and counted ([m_uaf]), because the code does it.
    - [Wp]: [wp m Q s], total correctness of [m] from [s], and its rules.
    - [Vfs] ([teadfs_header.h] and what the code uses of the kernel's VFS):
      references are a multiset, and giving back one that is not held is [Ub];
      so are a mutex locked twice or unlocked by someone else, and an inode
      attached to a dentry that has one; the accessors of private data.
    - [Protocol] ([protocol.h]): the packet's C structures, the layout computed
      from them, fields as offset and width, laws of [get] and [put].
    - [GlobalParam] ([global_param.c]), [Netlink] ([netlink.c]),
      [UserCom] ([user_com.c]): one definition per C function, under its name.
    - [Requests]: what the request functions of [user_com.c] do.
    - [Daemon] ([main.cpp], [netlink.cpp], [request.cpp] of [TEADFS-utils]):
      the process's turn on a datagram.
    - [Client] ([test/test.cpp]): the callbacks; [ClientMain]: what is around
      them.
    - [Session]: the module and the process together.
    - [File] ([file.c]) and [Mmap] ([mmap.c]): the upper file system's
      operations.
    - [Buffered]: the turns of the kernel's read and write loops around
      [readpage], [write_begin] and [write_end], and the refinement of a labelled
      file, pages and all, to its plaintext ([spec_op], [serving]).
    - [Miscdev] ([miscdev.c]), with [Opener], overlapping opens.
    - [Concurrent]: requests and replies interleaved at the granularity of
      their accesses to shared storage.
    - [Super] ([super.c]), [Lookup] ([lookup.c]) with the kernel's inode cache,
      [Dentry] ([dentry.c]), [Inode] ([inode.c]), [Main] ([main.c]): names,
      inodes and mounts, one definition per C function.  [Refs] has the
      accounting of references, mutexes and new inodes the theorems on names
      share: the invariant [icache_ok], the judgement [bal] and its rules, and
      the class [LowerLaws] of what is asked of the lower file system.
    - [Tables]: the tables of operations the module gives the kernel, as records
      of the definitions above, and which operations an inode serves.
    - [Log] ([teadfs_log.c]): the module's log, on a state of its own.
    - [ThreadPool] ([thread_pool.h]): [Event], an event as its users see it, and
      [Pool], the interleaving of the thread that adds tasks, the pool's and its
      workers.  [PoolExit]: the pool's destructor, interleaved with all of them.
    - [Pevents] ([pevents.cpp]): waits for one event or several, sets, resets,
      pulses and destruction, called by any number of threads that interleave
      access by access.  [PeventsSteps] has its moves as rules, [PeventsInv] who
      holds which mutex and what reference counts count; [PeventsSafe],
      [PeventsWait], [PeventsWake], [PeventsAsleep] and [PeventsRefine] each an
      invariant and the theorems it is for; [PeventsRuns] particular runs;
      [PeventsTime] the deadlines, and the build for Windows.
    - [Process] ([main.cpp], [netlink.cpp]): [StartTEADFS], the receive thread,
      the pool and the dispatcher interleaved, and closing the socket.
    - [Demo]: a concrete kernel, process and file system; [Witness] and
      [WitnessFs]: the theorems applied to it.

    * What the theorems show

    Communication.  Each request sends one packet made of the caller's data and
    returns what the reply says, or an error ([Requests]); a reply reaches the
    request it answers ([Netlink.reply_routed], and for every interleaving
    [Concurrent.reply_is_own], [Concurrent.no_use_after_free],
    [Concurrent.queue_lock_released]); ids do not repeat
    ([GlobalParam.msg_ids_unique]).  With the modelled process at the other end
    the requests implement their abstract contract: the result is that of the
    callback ([Session.open_answered], [Session.read_answered]).

    Files.  Opening follows the process's answer ([File]); reading a page of a
    labelled file gives the plaintext ([Mmap.readpage_labelled]); what is
    written in decrypt mode is read back ([Mmap.decrypt_round_trip]); any
    sequence of reads and writes through the page cache gives what it gives on
    the plaintext ([Buffered.pages_are_file]); growing a
    file ends with the size asked for ([Mmap.truncate_grows]).  The client's
    label and cipher are correct ([Client]).

    Names.  Creating, linking and removing names keeps one upper inode per lower
    inode, with one reference each, and gives back every other reference and
    every mutex, whatever the lower file system answers ([Inode.names_balanced]);
    what creation, renaming, changes of attributes and links do is stated
    operation by operation ([Inode]); extended attributes are the lower file
    system's ([Inode.xattr_relays]); lookups find the one upper inode of a lower
    one ([Lookup.lookup_finds], [Lookup.get_inode_unique]), which serves the
    operations of its type ([Tables.get_inode_serves]); a name looked up and
    released, and a mount and its unmount, leave nothing behind
    ([Dentry.lookup_released], [Main.mount_umount]); reading a directory is
    reading the lower one ([File.readdir_relays]).

    The pool.  The pool implements a queue ([Pool.pool_refines]): no task is lost,
    doubled or overtaken ([Pool.pool_accounts]), a worker is destroyed when it has
    returned and not used again ([Pool.destroyed_unused]), but a task can be left
    in the queue ([Pool.pool_strands_task]).  Its destructor is safe exactly when
    every thread has returned by its end ([PoolExit.destructor_safe_iff]), which
    nobody waits for; the pool's own thread would need a bounded number of turns
    ([PoolExit.told_leaves]).  The process as a whole answers every
    message it finishes, once ([Process.process_answers]).

    Events.  With one event per wait the library is what the pool takes it for:
    each call takes effect at one point, as [ThreadPool.Event] has it
    ([PeventsRefine.events_atomic]).  With several, nothing that was deleted is
    touched and no count goes wrong ([PeventsSafe.events_no_fault],
    [PeventsSafe.waiter_in_use]); what a wait returns is true
    ([PeventsWait.multiple_wait_result]); an event lets as many waits through as it
    was set ([PeventsWait.auto_reset_exclusive]); nobody sleeps on for nothing
    ([PeventsAsleep.no_lost_wakeup]).  But two waits and two sets can wait for each
    other, a wait that is late can keep a set, and an event destroyed after a wait
    for it may still be in use ([PeventsRuns]).

    The log keeps every line, up to 4095 bytes of it, when it could be opened
    ([Log.log_session], [Log.log_runs]).

    Faults.  Where the code does not do what it means to, a theorem states what
    it does: memory that is never freed or is read after it was, replies lost
    to a race, unchecked offsets and lengths, enciphered bytes reported as
    plaintext, lower files that are never closed, directories left locked,
    creations that fail and report success, references that leak, inodes
    written to after they were freed.

    * Choices

    The kernel is one before 3.11 ([config.h]): [vfs_readdir], no backing
    device in the super block. Functions run to completion, one at a time,
    except in [Concurrent], [Miscdev.Opener], [ThreadPool], [PoolExit], [Pevents]
    and [Process], where memory is sequentially consistent; a wait for an answer
    lets the netlink socket receive what [deliveries] says, given everything
    sent so far. Integers wrap where the C types do. [struct teadfs_msg_ctx]
    and [struct teadfs_file_info] are blocks that hold a record, everything
    else on the heap is bytes. The calls of the log are left out of the
    functions that make them. Loops: the copy loop of [Client.release] gets
    one unit of fuel per byte of the source and one more
    ([Client.release_labels] shows that is enough); [truncate_loop] one per
    page and one more ([Mmap.truncate_grows]). Calls into the VFS whose effect
    is outside the model are logged in order ([ks_calls]) and take their
    result from the environment.

    Hypotheses on the environment state what the code relies on: [kzalloc_total]
    and [nlmsg_total] that memory is there, [connected_to] that the answers are
    those of the modelled process, whatever fills the bytes nobody
    initialises, [stale_kept] that a freed block has not been reused yet,
    [LowerLaws] that the lower file system changes only the names it is told to,
    [LowerBytes] that its files are byte strings, [Log.appends] that a file opened
    for appending is written at its end.

    * Not modelled

    The destructors of the process's objects other than the pool, its workers
    and the socket; the console loop of the client; what the arguments of the
    log's calls read; weak memory; two names looked up or created at the same time, which
    the VFS excludes for one directory; pages written beyond the end of a
    file, whose holes [write_begin] fills by [teadfs_truncate]
    ([Mmap.truncate_grows] has that). *)
From stdpp Require Export gmultiset prelude gmap list strings.
From Stdlib Require Export ZArith Lia.
From Stdlib Require Strings.Byte.

Set Default Goal Selector "!".

Declare Scope tead_scope.
Delimit Scope tead_scope with tead.

(** * Machine integers

    C integers are [Z] with the wrap-around written out. *)

Definition u8 (z : Z) : Z := (z mod 2 ^ 8)%Z.
Definition u32 (z : Z) : Z := (z mod 2 ^ 32)%Z.
Definition u64 (z : Z) : Z := (z mod 2 ^ 64)%Z.
Definition s32 (z : Z) : Z := ((z + 2 ^ 31) mod 2 ^ 32 - 2 ^ 31)%Z.
Definition s64 (z : Z) : Z := ((z + 2 ^ 63) mod 2 ^ 64 - 2 ^ 63)%Z.

Lemma u8_small z : (0 ≤ z < 2 ^ 8)%Z → u8 z = z.
Proof. apply Z.mod_small. Qed.

Lemma u32_small z : (0 ≤ z < 2 ^ 32)%Z → u32 z = z.
Proof. apply Z.mod_small. Qed.

Lemma u64_small z : (0 ≤ z < 2 ^ 64)%Z → u64 z = z.
Proof. apply Z.mod_small. Qed.

Lemma s32_small z : (- 2 ^ 31 ≤ z < 2 ^ 31)%Z → s32 z = z.
Proof. intros ?. unfold s32. rewrite Z.mod_small; lia. Qed.

Lemma s64_small z : (- 2 ^ 63 ≤ z < 2 ^ 63)%Z → s64 z = z.
Proof. intros ?. unfold s64. rewrite Z.mod_small; lia. Qed.

Lemma u32_range z : (0 ≤ u32 z < 2 ^ 32)%Z.
Proof. apply Z.mod_pos_bound. done. Qed.

Lemma u64_range z : (0 ≤ u64 z < 2 ^ 64)%Z.
Proof. apply Z.mod_pos_bound. done. Qed.

Lemma s32_range z : (- 2 ^ 31 ≤ s32 z < 2 ^ 31)%Z.
Proof.
  unfold s32. pose proof (Z.mod_pos_bound (z + 2 ^ 31) (2 ^ 32) eq_refl). lia.
Qed.

Create Rewrite HintDb tead_int.
#[export] Hint Rewrite u8_small u32_small u64_small s32_small s64_small using lia
  : tead_int.

(** * Bytes and little-endian fields *)

Abbreviation byte := Corelib.Init.Byte.byte.
Abbreviation bytes := (list Corelib.Init.Byte.byte).

#[export] Instance byte_eq_dec : EqDecision byte := Byte.byte_eq_dec.

Definition zero_byte : byte := Byte.x00.

Definition byte_val (b : byte) : Z := Z.of_N (Byte.to_N b).

Definition byte_of (z : Z) : byte :=
  default zero_byte (Byte.of_N (Z.to_N (u8 z))).

Lemma byte_val_range b : (0 ≤ byte_val b < 2 ^ 8)%Z.
Proof. unfold byte_val. pose proof (Byte.to_N_bounded b). lia. Qed.

Lemma byte_val_of z : byte_val (byte_of z) = u8 z.
Proof.
  unfold byte_of, byte_val.
  pose proof (Z.mod_pos_bound z (2 ^ 8) eq_refl) as Hr. fold (u8 z) in Hr.
  destruct (Byte.of_N (Z.to_N (u8 z))) as [b|] eqn:E.
  - apply Byte.to_of_N in E. simpl. rewrite E. lia.
  - apply Byte.of_N_None_iff in E. lia.
Qed.

Lemma byte_of_val b : byte_of (byte_val b) = b.
Proof.
  unfold byte_of. rewrite u8_small by apply byte_val_range.
  unfold byte_val. rewrite N2Z.id, Byte.of_to_N. done.
Qed.

Lemma byte_val_inj b1 b2 : byte_val b1 = byte_val b2 → b1 = b2.
Proof. intros E. rewrite <- (byte_of_val b1), E. apply byte_of_val. Qed.

(** The [n]-byte little-endian image of [z], and its value. *)
Fixpoint le_encode (n : nat) (z : Z) : bytes :=
  match n with
  | O => []
  | S n => byte_of z :: le_encode n (z / 2 ^ 8)
  end.

Fixpoint le_decode (bs : bytes) : Z :=
  match bs with
  | [] => 0
  | b :: bs => byte_val b + 2 ^ 8 * le_decode bs
  end%Z.

Lemma length_le_encode n z : length (le_encode n z) = n.
Proof. revert z. induction n; intros; simpl; auto. Qed.

Lemma le_decode_range bs : (0 ≤ le_decode bs < 2 ^ (8 * Z.of_nat (length bs)))%Z.
Proof.
  induction bs as [|b bs IH]; simpl; [done|].
  pose proof (byte_val_range b).
  replace (8 * Z.of_nat (S (length bs)))%Z
    with (8 + 8 * Z.of_nat (length bs))%Z by lia.
  rewrite Z.pow_add_r by lia. nia.
Qed.

Lemma le_decode_encode n z :
  le_decode (le_encode n z) = (z mod 2 ^ (8 * Z.of_nat n))%Z.
Proof.
  revert z. induction n as [|n IH]; intros z; simpl.
  - rewrite Z.mod_1_r. done.
  - rewrite IH, byte_val_of. unfold u8.
    replace (8 * Z.of_nat (S n))%Z with (8 + 8 * Z.of_nat n)%Z by lia.
    rewrite Z.pow_add_r, Z.rem_mul_r by lia. done.
Qed.

Lemma le_decode_encode_small n z :
  (0 ≤ z < 2 ^ (8 * Z.of_nat n))%Z → le_decode (le_encode n z) = z.
Proof. intros. rewrite le_decode_encode. by apply Z.mod_small. Qed.

Lemma le_encode_decode bs : le_encode (length bs) (le_decode bs) = bs.
Proof.
  induction bs as [|b bs IH]; simpl; [done|].
  pose proof (byte_val_range b). f_equal.
  - apply byte_val_inj. rewrite byte_val_of. unfold u8.
    rewrite Z.mul_comm, Z.mod_add by lia. apply u8_small. lia.
  - rewrite Z.mul_comm, Z.div_add, Z.div_small, Z.add_0_l by lia. done.
Qed.

(** Zero-filled storage, as [kzalloc] and [std::string::resize] give. *)
Definition zeros (n : Z) : bytes := replicate (Z.to_nat n) zero_byte.

(** * Slices of a byte buffer

    Offsets and sizes are [Z], as the C code computes them; [in_range] is the
    condition under which an access stays inside the buffer. *)

(** ASCII text. *)
Definition str (s : String.string) : bytes := String.list_byte_of_string s.

Definition blen (bs : bytes) : Z := Z.of_nat (length bs).

Definition in_range (o n : Z) (bs : bytes) : bool :=
  (0 <=? o)%Z && (0 <=? n)%Z && (o + n <=? blen bs)%Z.

Definition slice (o n : Z) (bs : bytes) : bytes :=
  take (Z.to_nat n) (drop (Z.to_nat o) bs).

Definition splice (o : Z) (new bs : bytes) : bytes :=
  take (Z.to_nat o) bs ++ new ++ drop (Z.to_nat o + length new) bs.

Lemma in_range_spec o n bs :
  in_range o n bs = true ↔ (0 ≤ o ∧ 0 ≤ n ∧ o + n ≤ blen bs)%Z.
Proof. unfold in_range. lia. Qed.

Lemma blen_nonneg bs : (0 ≤ blen bs)%Z.
Proof. unfold blen. lia. Qed.

Lemma blen_app xs ys : blen (xs ++ ys) = (blen xs + blen ys)%Z.
Proof. unfold blen. rewrite length_app. lia. Qed.

Lemma blen_zeros n : (0 ≤ n)%Z → blen (zeros n) = n.
Proof. unfold blen, zeros. rewrite length_replicate. lia. Qed.

Lemma blen_le_encode n z : blen (le_encode n z) = Z.of_nat n.
Proof. unfold blen. by rewrite length_le_encode. Qed.

Lemma blen_slice o n bs : in_range o n bs = true → blen (slice o n bs) = n.
Proof.
  rewrite in_range_spec. unfold blen, slice. intros.
  rewrite length_take, length_drop. lia.
Qed.

Lemma blen_splice o new bs :
  in_range o (blen new) bs = true → blen (splice o new bs) = blen bs.
Proof.
  rewrite in_range_spec. unfold blen, splice. intros.
  rewrite !length_app, length_take, length_drop. lia.
Qed.

Lemma slice_all bs : slice 0 (blen bs) bs = bs.
Proof. unfold slice, blen. rewrite Nat2Z.id. simpl. apply firstn_all. Qed.

Lemma slice_app_l o n xs ys :
  (0 ≤ o)%Z → (o + n ≤ blen xs)%Z → slice o n (xs ++ ys) = slice o n xs.
Proof.
  unfold slice, blen. intros.
  destruct (decide (0 ≤ n)%Z).
  - rewrite drop_app_le by lia. rewrite take_app_le; [done|].
    rewrite length_drop. lia.
  - by replace (Z.to_nat n) with 0 by lia.
Qed.

Lemma slice_app_r o n xs ys :
  (blen xs ≤ o)%Z → slice o n (xs ++ ys) = slice (o - blen xs) n ys.
Proof.
  unfold slice, blen. intros. f_equal. rewrite drop_app_ge by lia.
  f_equal. lia.
Qed.

Lemma slice_suffix xs ys : slice (blen xs) (blen ys) (xs ++ ys) = ys.
Proof. rewrite slice_app_r, Z.sub_diag by lia. apply slice_all. Qed.

Lemma slice_prefix xs ys : slice 0 (blen xs) (xs ++ ys) = xs.
Proof. rewrite slice_app_l by lia. apply slice_all. Qed.

Lemma slice_splice_same o new bs :
  in_range o (blen new) bs = true → slice o (blen new) (splice o new bs) = new.
Proof.
  rewrite in_range_spec. intros. unfold splice.
  assert (o = blen (take (Z.to_nat o) bs)) as E.
  { unfold blen in *. rewrite length_take. lia. }
  rewrite E at 1. rewrite slice_app_r, Z.sub_diag by lia.
  apply slice_prefix.
Qed.

Lemma slice_splice_before o n p new bs :
  (0 ≤ o)%Z → (o + n ≤ p)%Z → in_range p (blen new) bs = true →
  slice o n (splice p new bs) = slice o n bs.
Proof.
  rewrite in_range_spec. intros. unfold splice.
  rewrite slice_app_l by (unfold blen in *; rewrite ?length_take; lia).
  rewrite <- (take_drop (Z.to_nat p) bs) at 2.
  by rewrite slice_app_l by (unfold blen in *; rewrite ?length_take; lia).
Qed.

Lemma slice_splice_after o n p new bs :
  (p + blen new ≤ o)%Z → in_range p (blen new) bs = true →
  slice o n (splice p new bs) = slice o n bs.
Proof.
  rewrite in_range_spec. intros. unfold splice.
  rewrite slice_app_r by (unfold blen in *; rewrite ?length_take; lia).
  rewrite slice_app_r by (unfold blen in *; rewrite ?length_take; lia).
  unfold slice. f_equal. rewrite drop_drop. f_equal.
  unfold blen in *. rewrite length_take. lia.
Qed.

Lemma splice_all new bs : blen new = blen bs → splice 0 new bs = new.
Proof.
  unfold splice, blen. intros. simpl. rewrite drop_ge by lia. apply app_nil_r.
Qed.

Lemma slice_splice_inside o n p new bs :
  (p ≤ o)%Z → (o + n ≤ p + blen new)%Z → in_range p (blen new) bs = true →
  slice o n (splice p new bs) = slice (o - p) n new.
Proof.
  rewrite in_range_spec. intros. unfold splice.
  assert (blen (take (Z.to_nat p) bs) = p) as E.
  { unfold blen in *. rewrite length_take. lia. }
  rewrite slice_app_r by lia. rewrite E. apply slice_app_l; lia.
Qed.

Lemma slice_slice a b o n bs :
  (0 ≤ a)%Z → (0 ≤ o)%Z → (a + b ≤ n)%Z → slice a b (slice o n bs) = slice (o + a) b bs.
Proof.
  intros. unfold slice. destruct (decide (0 ≤ b)%Z).
  - rewrite skipn_firstn_comm, drop_drop, take_take.
    f_equal; [lia|]. f_equal. lia.
  - by replace (Z.to_nat b) with 0 by lia.
Qed.

(** Two writes in a row are one. *)
Lemma splice_splice_next p x y bs : (0 ≤ p ≤ blen bs)%Z →
  splice (p + blen x) y (splice p x bs) = splice p (x ++ y) bs.
Proof.
  unfold blen. intros Hp. unfold splice.
  replace (Z.to_nat (p + Z.of_nat (length x))) with (Z.to_nat p + length x) by lia.
  set (h := take (Z.to_nat p) bs).
  assert (Hh : length h = Z.to_nat p) by (unfold h; rewrite length_take; lia).
  rewrite (app_assoc h x). rewrite take_app_length' by (rewrite length_app; lia).
  rewrite drop_app_ge by (rewrite length_app; lia).
  rewrite drop_drop, !length_app, <- !app_assoc. do 4 f_equal. lia.
Qed.

(** A write over a write of the same place and size. *)
Lemma splice_splice_over o x y bs : in_range o (blen y) bs = true → blen x = blen y →
  splice o x (splice o y bs) = splice o x bs.
Proof.
  rewrite in_range_spec. unfold blen. intros Hin Hl. unfold splice.
  set (h := take (Z.to_nat o) bs).
  assert (Hh : length h = Z.to_nat o) by (unfold h; rewrite length_take; lia).
  rewrite take_app_length' by done. do 2 f_equal.
  rewrite app_assoc, drop_app_length'; [f_equal; lia|]. rewrite length_app. lia.
Qed.

(** Position by position; [splice] may reach past the end. *)
Lemma lookup_splice o new bs (i : nat) : (0 ≤ o ≤ blen bs)%Z →
  splice o new bs !! i =
    if decide (Z.of_nat i < o)%Z then bs !! i
    else if decide (Z.of_nat i < o + blen new)%Z then new !! (i - Z.to_nat o) else bs !! i.
Proof.
  unfold blen, splice. intros Ho.
  assert (Hl : length (take (Z.to_nat o) bs) = Z.to_nat o) by (rewrite length_take; lia).
  repeat case_decide.
  - rewrite lookup_app_l by lia. apply lookup_take_lt. lia.
  - rewrite lookup_app_r, lookup_app_l by lia. f_equal. lia.
  - rewrite lookup_app_r, lookup_app_r, lookup_drop by lia. f_equal. lia.
Qed.

Lemma lookup_slice o n bs (i : nat) : (0 ≤ o)%Z → (Z.of_nat i < n)%Z →
  slice o n bs !! i = bs !! (Z.to_nat o + i).
Proof. intros. unfold slice. rewrite lookup_take_lt by lia. apply lookup_drop. Qed.

Lemma blen_splice_max o new bs : (0 ≤ o ≤ blen bs)%Z →
  blen (splice o new bs) = Z.max (blen bs) (o + blen new).
Proof. unfold blen, splice. intros. rewrite !length_app, length_take, length_drop. lia. Qed.

Lemma map_splice f o new bs : map f (splice o new bs) = splice o (map f new) (map f bs).
Proof. unfold splice. by rewrite !map_app, firstn_map, skipn_map, length_map. Qed.

Lemma splice_app_r o new xs ys : (blen xs ≤ o)%Z →
  splice o new (xs ++ ys) = xs ++ splice (o - blen xs) new ys.
Proof.
  unfold blen, splice. intros. rewrite take_app_ge, drop_app_ge by lia. rewrite <- app_assoc.
  by replace (Z.to_nat (o - Z.of_nat (length xs))) with (Z.to_nat o - length xs) by lia;
    replace (Z.to_nat o + length new - length xs) with (Z.to_nat o - length xs + length new) by lia.
Qed.

Lemma map_slice f o n bs : map f (slice o n bs) = slice o n (map f bs).
Proof. unfold slice. by rewrite skipn_map, firstn_map. Qed.

Lemma blen_slice_le o n bs : (0 ≤ n)%Z → (blen (slice o n bs) ≤ n)%Z.
Proof. intros. unfold blen, slice. rewrite length_take. lia. Qed.

Create Rewrite HintDb tead_len.
#[export] Hint Rewrite blen_app blen_le_encode : tead_len.
#[export] Hint Rewrite blen_zeros using lia : tead_len.
