(* ===== verification/Kernel.v ===== *)
(** The C storage model and the kernel module's state.

    - pointers, live and freed heap blocks, and the accesses of the C code to
      them ([load_bytes], [store_bytes], [memcpy], [kzalloc], [kfree]), with
      undefined behaviour as an outcome;
    - the structures of [teadfs_header.h] that live on that heap;
    - [KernelEnv], the kernel services the module calls;
    - [M], the state-and-undefined-behaviour monad in which the C functions
      are written, and [wp], its total-correctness predicate transformer. *)
From S2P Require Import Prelude.

(** * Pointers and structures *)

(** A pointer to storage: null, or a byte offset into a block. *)
Inductive ptr := NULL | Ptr (b : positive) (o : Z).

(** A kernel object pointer as [IS_ERR]/[PTR_ERR] see it. *)
Inductive kptr := KNull | KErr (e : Z) | KObj (id : positive).

#[export] Instance ptr_eq_dec : EqDecision ptr.
Proof. solve_decision. Defined.
#[export] Instance kptr_eq_dec : EqDecision kptr.
Proof. solve_decision. Defined.

Definition padd (p : ptr) (n : Z) : ptr :=
  match p with NULL => NULL | Ptr b o => Ptr b (o + n) end.

(** [struct teadfs_msg_ctx]; its list link is the queue of the state, its
    mutex and wait queue appear in the interleaving model only. *)
Definition TEADFS_MSG_CTX_STATE_FREE : Z := 1.
Definition TEADFS_MSG_CTX_STATE_PENDING : Z := 2.
Definition TEADFS_MSG_CTX_STATE_DONE : Z := 3.
Definition TEADFS_MSG_CTX_STATE_NO_REPLY : Z := 4.

Record teadfs_msg_ctx := MsgCtx {
  state : Z;
  msg_id : Z;
  request_msg_size : Z;
  request_msg : ptr;
  response_msg_size : Z;
  response_msg : ptr;
}.

(** [enum OPEN_FILE_RESULT] and [enum RELEASE_FILE_RESULT]. *)
Definition OFR_INIT : Z := 1.
Definition OFR_PROHIBIT : Z := 2.
Definition OFR_ENCRYPT : Z := 3.
Definition OFR_DECRYPT : Z := 4.
Definition RFR_NORMAL : Z := 1.
Definition RFR_ENCRYPT : Z := 2.

(** [struct teadfs_file_info]. *)
Record teadfs_file_info := FileInfo {
  lower_file : kptr;
  access : Z;
  file_path : ptr;
  file_path_length : Z;
  file_path_buf : ptr;
}.

(** What a heap block holds. *)
Inductive obj :=
  | OBytes (bs : bytes)
  | OCtx (c : teadfs_msg_ctx)
  | OFileInfo (fi : teadfs_file_info).

(** * Errno values *)

Definition EIO : Z := 5.
Definition ENOMEM : Z := 12.
Definition EACCES : Z := 13.
Definition EFAULT : Z := 14.
Definition EBUSY : Z := 16.
Definition EINVAL : Z := 22.

(** * The heap *)

Record memory := Memory {
  m_live : gmap positive obj;
  m_dead : gmap positive obj;    (* freed blocks, with what they held *)
  m_allocs : nat;                (* calls to [kzalloc] so far *)
  m_uaf : nat;                   (* reads of freed blocks so far *)
}.

Definition mem_blocks (m : memory) : gset positive := dom (m_live m) ∪ dom (m_dead m).
Definition mem_fresh (m : memory) : positive := fresh (mem_blocks m).

Definition mem_put (b : positive) (o : obj) (m : memory) : memory :=
  Memory (<[b := o]> (m_live m)) (m_dead m) (m_allocs m) (m_uaf m).
Definition mem_kill (b : positive) (o : obj) (m : memory) : memory :=
  Memory (delete b (m_live m)) (<[b := o]> (m_dead m)) (m_allocs m) (m_uaf m).
Definition mem_tick (m : memory) : memory :=
  Memory (m_live m) (m_dead m) (S (m_allocs m)) (m_uaf m).
Definition mem_mark_uaf (m : memory) : memory :=
  Memory (m_live m) (m_dead m) (m_allocs m) (S (m_uaf m)).

Lemma mem_fresh_live m : m_live m !! mem_fresh m = None.
Proof.
  apply not_elem_of_dom. pose proof (is_fresh (mem_blocks m)) as H.
  unfold mem_blocks in H at 2. set_solver.
Qed.

Lemma mem_fresh_ne m b : is_Some (m_live m !! b) → mem_fresh m ≠ b.
Proof. intros [o E] <-. by rewrite mem_fresh_live in E. Qed.

(** * The module's global state *)

(** [struct global_param] of [global_param.c]. *)
Record global_param := GlobalParam {
  unique_id : Z;    (* __u64 *)
  pid : Z;          (* pid_t *)
  connect : Z;      (* int *)
}.

(** A lower path: a dentry and a mount, each possibly null. *)
Record path := Path { p_dentry : option positive; p_mnt : option positive }.

(** [struct address_space], the fields [file.c] touches. *)
Record address_space := AddressSpace {
  a_ops : Z; host : positive; as_flags : Z; gfp_mask : Z;
  private_data : Z; backing_dev_info : Z; writeback_index : Z;
}.

(** The attributes [fsstack_copy_attr_all] copies between inodes. *)
Record attr := Attr {
  at_mode : Z;
  at_uid : Z; at_gid : Z; at_rdev : Z;
  at_atime : Z; at_mtime : Z; at_ctime : Z;
  at_blkbits : Z; at_flags : Z;
  at_nlink : Z;
}.

(** The tables of operations an inode can have: [i_op] and [i_fop]. *)
Inductive iops := NoIops | teadfs_symlink_iops | teadfs_dir_iops | teadfs_main_iops.
Inductive fops := NoFops | teadfs_dir_fops | teadfs_main_fops | SpecialFops (mode rdev : Z).

(** The rest of [struct inode]. *)
Record imeta := IMeta {
  i_sb : positive;
  i_ino : Z;
  i_version : Z;
  i_blocks : Z;
  i_op : iops;
  i_fop : fops;
  i_new : bool;              (* I_NEW in i_state *)
}.

(** [struct teadfs_inode_info] with the [struct inode] inside it. *)
Record inode := Inode {
  i_attr : attr;
  i_meta : imeta;
  i_size : Z;
  lower_inode : option positive;
  lower_file_count : Z;      (* atomic_t *)
  file_decrypt : Z;
  i_mapping : address_space;
  i_decrypt : address_space;
}.
Definition i_mode (i : inode) : Z := at_mode (i_attr i).

(** [struct dentry]; [d_fsdata] points to its [struct teadfs_dentry_info], which
    holds the lower path, or is null. *)
Record dentry := Dentry {
  d_inode : option positive;
  d_fsdata : option path;
  d_name : bytes;
  d_parent : positive;
  d_hashed : bool;
}.
Definition lower_path (x : dentry) : path := default (Path None None) (d_fsdata x).

(** [struct super_block] of the upper layer; [s_fs_info] points to its
    [struct teadfs_sb_info], which holds the lower super block, or is null. *)
Record super := Super {
  s_fs_info : option (option positive);
  s_flags : Z;
  s_maxbytes : Z;
  s_blocksize : Z;
  s_magic : Z;
  s_root : option positive;
  s_bdi : Z;
  s_ops_set : bool;          (* s_op and s_d_op are the module's *)
}.

(** Which of an inode's two page caches a file goes through. *)
Inductive mapping := MUpper | MDecrypt.

(** [struct file] of the upper layer. *)
Record file := File {
  f_dentry : option positive;
  f_mnt : option positive;
  f_inode : option positive;
  f_flags : Z;
  f_private : ptr;           (* private_data: struct teadfs_file_info* *)
  f_mapping : mapping;
}.

(** A page of an inode's page cache: its index, the storage [kmap] maps, and
    the state the address-space operations change. *)
Record page := Page {
  pg_host : positive;
  pg_index : Z;
  pg_virt : ptr;
  pg_uptodate : bool;
  pg_locked : bool;
  pg_count : Z;
}.

(** Methods of a lower file, which may be absent. *)
Inductive lower_method := LM_flush | LM_fasync | LM_unlocked_ioctl | LM_compat_ioctl.

(** What the module asks the lower file system to do to its names and inodes.
    Lower dentries, inodes and super blocks are numbers of their own.
    [ia_rest] is what [struct iattr] says of mode, owner and times. *)
Record iattr := IAttr { ia_valid : Z; ia_size : Z; ia_file : kptr; ia_rest : attr }.
Inductive lower_op :=
  | LO_create (dir d : positive) (mode : Z) (want_excl : bool)
  | LO_link (old dir new : positive)
  | LO_unlink (dir d : positive)
  | LO_symlink (dir d : positive) (symname : bytes)
  | LO_mkdir (dir d : positive) (mode : Z)
  | LO_rmdir (dir d : positive)
  | LO_mknod (dir d : positive) (mode dev : Z)
  | LO_rename (old_dir old new_dir new : positive)
  | LO_notify_change (d : positive) (ia : iattr)
  | LO_setxattr (d : positive) (name value : bytes) (flags : Z)
  | LO_removexattr (d : positive) (name : bytes).
(** Operations a lower inode, or a lower dentry or super block, may lack. *)
Inductive lower_iop := IO_setxattr | IO_getxattr | IO_listxattr | IO_removexattr
  | IO_d_revalidate | IO_statfs.

(** A directory entry as [filldir] gets it. *)
Record dirent := Dirent { de_name : bytes; de_off : Z; de_ino : Z; de_type : Z }.

(** What the module holds a counted reference to. *)
Inductive ref :=
  | RDentry (d : positive)        (* a lower dentry: dget, dput *)
  | RMnt (m : positive)           (* a lower mount: mntget, mntput *)
  | RInode (i : positive)         (* a lower inode: igrab, iput *)
  | RUpDentry (d : positive)      (* an upper dentry *)
  | RUpInode (i : positive)       (* an upper inode *)
  | RSuper (sb : positive).       (* an upper super block *)
#[export] Instance ref_eq_dec : EqDecision ref.
Proof. solve_decision. Defined.
#[export] Instance ref_countable : Countable ref.
Proof.
  refine (inj_countable' (λ r, match r with
      | RDentry d => (0, d) | RMnt m => (1, m) | RInode i => (2, i)
      | RUpDentry d => (3, d) | RUpInode i => (4, i) | RSuper b => (5, b) end)
    (λ p : nat * positive, match p with
      | (0, d) => RDentry d | (1, m) => RMnt m | (2, i) => RInode i
      | (3, d) => RUpDentry d | (4, i) => RUpInode i | (_, b) => RSuper b end) _).
  by intros [].
Defined.

(** Calls into the rest of the kernel: the model logs them and takes their
    result from the environment; an effect the module relies on is modelled
    where the call is made. *)
Inductive vcall :=
  | VC_mark_inode_dirty_sync (i : option positive)
  | VC_filemap_write_and_wait (f : positive) (m : mapping)
  | VC_invalidate_lower (lf : kptr)
  | VC_invalidate_upper (i : option positive)
  | VC_touch_atime (p : path)
  | VC_truncate_setsize (i : positive) (sz : Z)
  | VC_path_get (lf : kptr)
  | VC_path_put (lf : kptr)
  | VC_generic_file_aio_read (f : positive) (pos : Z)
  | VC_generic_file_aio_write (f : positive) (pos : Z)
  | VC_wait_on_sync_kiocb (f : positive)
  | VC_generic_file_llseek (f : positive) (offset whence : Z)
  | VC_vfs_fsync (lf : kptr) (datasync : Z)
  | VC_lower_method (lf : positive) (m : lower_method)
  | VC_misc_register
  | VC_misc_deregister
  | VC_flush_dcache_page (pg : positive)
  | VC_inode_change_ok (i : positive) (ia : iattr)
  | VC_vfs_getattr (p : path)
  | VC_permission (lower : positive) (mask : Z)
  | VC_generic_readlink (d : positive) (buflen : Z)
  | VC_getxattr (d : positive) (name : bytes) (size : Z)
  | VC_listxattr (d : positive) (size : Z)
  | VC_d_revalidate (d : positive) (flags : Z)
  | VC_statfs (d : positive)
  | VC_truncate_inode_pages (i : positive)
  | VC_clear_inode (i : positive)
  | VC_call_rcu (i : positive)
  | VC_sget
  | VC_d_make_root
  | VC_register_filesystem
  | VC_unregister_filesystem
  | VC_netlink_kernel_create
  | VC_netlink_kernel_release (sock : kptr)
  | VC_log_create
  | VC_log_release.

(** * What the kernel gives the module

    Services that are not in the repository: the allocator, netlink, the path
    printer, the lower file system, and what the user process sends back. *)
Class KernelEnv := {
  (* does the n-th call of kzalloc, for this many bytes, succeed *)
  kzalloc_ok : nat → Z → bool;
  (* sizeof(struct teadfs_msg_ctx), which holds kernel types *)
  sizeof_msg_ctx : Z;
  (* likewise struct teadfs_inode_info, teadfs_dentry_info, teadfs_sb_info *)
  sizeof_inode_info : Z;
  sizeof_dentry_info : Z;
  sizeof_sb_info : Z;
  (* what a freed block that held these bytes reads as *)
  stale : bytes → bytes;
  (* storage nobody initialised: byte i of it *)
  junk : nat → byte;
  (* task_tgid_vnr(current) *)
  current_tgid : Z;
  (* d_path for a path and a buffer length: an error pointer, or the offset of
     the returned pointer in the buffer and the buffer's new contents *)
  d_path : path → Z → option (Z * bytes);
  (* nlmsg_new: does the message asked for at this point of the allocation
     history, of this size, get its buffer *)
  nlmsg_new_ok : nat → Z → bool;
  (* netlink_unicast's result for this port and payload *)
  netlink_unicast : Z → bytes → Z;
  (* the datagrams the netlink socket receives while a request waits, given
     every (port, payload) sent so far *)
  deliveries : list (Z * bytes) → list bytes;
  (* the lower file system with its open files *)
  lfs : Type;
  dentry_open : lfs → path → Z → lfs * kptr;
  fput : lfs → positive → lfs;
  (* a negative error, or the bytes read *)
  kernel_read : lfs → positive → Z → Z → Z + bytes;
  kernel_write : lfs → positive → bytes → Z → Z * lfs;
  (* the size of the lower inode, which fsstack_copy_inode_size reads *)
  lower_i_size : lfs → positive → Z;
  lower_i_blocks : lfs → positive → Z;
  (* the lower inode's attributes, number and super block *)
  lower_attr : lfs → positive → attr;
  lower_i_ino : lfs → positive → Z;
  lower_i_sb : lfs → positive → positive;
  (* d_inode, d_parent and d_sb of a lower dentry *)
  lower_d_inode : lfs → positive → option positive;
  lower_d_parent : lfs → positive → positive;
  (* lookup_one_len: a lower dentry, referenced, or an error *)
  lower_lookup : lfs → positive → bytes → lfs * kptr;
  (* the vfs_ functions *)
  lower_do : lfs → lower_op → Z * lfs;
  lower_has_op : lfs → positive → lower_iop → bool;
  (* the number of blocks vfs_getattr reports for a lower path *)
  lower_stat_blocks : lfs → path → Z;
  (* kern_path: a negative error, or a path with both references taken *)
  kern_path : lfs → bytes → Z + path;
  (* d_sb of a lower dentry, and what the module reads of it *)
  lower_d_sb : lfs → positive → positive;
  lower_s_type : lfs → positive → bytes;
  lower_s_flags : lfs → positive → Z;
  lower_s_maxbytes : lfs → positive → Z;
  lower_s_blocksize : lfs → positive → Z;
  (* the entries of an open lower directory from a position on, and what its
     readdir returns, and its position, when it has passed on this many *)
  lower_entries : lfs → positive → Z → list dirent;
  lower_readdir_end : lfs → positive → Z → nat → Z * Z;
  lower_file_inode : lfs → positive → positive;
  (* the dentry lock_rename finds between two directories *)
  lower_trap : lfs → positive → positive → option positive;
  (* can the lower inode still be referenced *)
  igrab_ok : lfs → positive → bool;
  (* the lower readlink: a negative error, or the link's text, not terminated *)
  lower_readlink : lfs → positive → Z + bytes;
  (* the address of a struct file, which identifies it to the process *)
  file_addr : positive → Z;
  (* does the lower file have this method *)
  lower_has : positive → lower_method → bool;
  (* the result of a call whose effect is outside the model, given the calls
     made before it *)
  vcall_rc : list vcall → vcall → Z;
}.

Section Kernel.
Context `{KernelEnv}.

Record kstate := KState {
  ks_mem : memory;
  ks_global : global_param;
  ks_queue : list positive;         (* g_comm_msg_queue.msg_ctx_queue *)
  ks_sent : list (Z * bytes);       (* datagrams given to netlink_unicast *)
  ks_lfs : lfs;
  ks_files : gmap positive file;
  ks_inodes : gmap positive inode;
  ks_dentries : gmap positive dentry;
  ks_pages : gmap positive page;
  ks_supers : gmap positive super;
  ks_refs : gmultiset ref;          (* references the module holds *)
  ks_locks : gmultiset positive;    (* lower inodes whose i_mutex it holds *)
  ks_calls : list vcall;            (* logged calls, oldest first *)
}.

Definition set_mem (f : memory → memory) (s : kstate) : kstate :=
  KState (f (ks_mem s)) (ks_global s) (ks_queue s) (ks_sent s) (ks_lfs s) (ks_files s)
    (ks_inodes s) (ks_dentries s) (ks_pages s) (ks_supers s) (ks_refs s) (ks_locks s) (ks_calls s).
Definition set_global (f : global_param → global_param) (s : kstate) : kstate :=
  KState (ks_mem s) (f (ks_global s)) (ks_queue s) (ks_sent s) (ks_lfs s) (ks_files s)
    (ks_inodes s) (ks_dentries s) (ks_pages s) (ks_supers s) (ks_refs s) (ks_locks s) (ks_calls s).
Definition set_queue (f : list positive → list positive) (s : kstate) : kstate :=
  KState (ks_mem s) (ks_global s) (f (ks_queue s)) (ks_sent s) (ks_lfs s) (ks_files s)
    (ks_inodes s) (ks_dentries s) (ks_pages s) (ks_supers s) (ks_refs s) (ks_locks s) (ks_calls s).
Definition set_sent (f : list (Z * bytes) → list (Z * bytes)) (s : kstate) : kstate :=
  KState (ks_mem s) (ks_global s) (ks_queue s) (f (ks_sent s)) (ks_lfs s) (ks_files s)
    (ks_inodes s) (ks_dentries s) (ks_pages s) (ks_supers s) (ks_refs s) (ks_locks s) (ks_calls s).
Definition set_lfs (f : lfs → lfs) (s : kstate) : kstate :=
  KState (ks_mem s) (ks_global s) (ks_queue s) (ks_sent s) (f (ks_lfs s)) (ks_files s)
    (ks_inodes s) (ks_dentries s) (ks_pages s) (ks_supers s) (ks_refs s) (ks_locks s) (ks_calls s).
Definition set_files (f : gmap positive file → gmap positive file) (s : kstate) : kstate :=
  KState (ks_mem s) (ks_global s) (ks_queue s) (ks_sent s) (ks_lfs s) (f (ks_files s))
    (ks_inodes s) (ks_dentries s) (ks_pages s) (ks_supers s) (ks_refs s) (ks_locks s) (ks_calls s).
Definition set_inodes (f : gmap positive inode → gmap positive inode) (s : kstate) : kstate :=
  KState (ks_mem s) (ks_global s) (ks_queue s) (ks_sent s) (ks_lfs s) (ks_files s)
    (f (ks_inodes s)) (ks_dentries s) (ks_pages s) (ks_supers s) (ks_refs s) (ks_locks s) (ks_calls s).
Definition set_dentries (f : gmap positive dentry → gmap positive dentry) (s : kstate) : kstate :=
  KState (ks_mem s) (ks_global s) (ks_queue s) (ks_sent s) (ks_lfs s) (ks_files s)
    (ks_inodes s) (f (ks_dentries s)) (ks_pages s) (ks_supers s) (ks_refs s) (ks_locks s) (ks_calls s).
Definition set_pages (f : gmap positive page → gmap positive page) (s : kstate) : kstate :=
  KState (ks_mem s) (ks_global s) (ks_queue s) (ks_sent s) (ks_lfs s) (ks_files s)
    (ks_inodes s) (ks_dentries s) (f (ks_pages s)) (ks_supers s) (ks_refs s) (ks_locks s) (ks_calls s).
Definition set_supers (f : gmap positive super → gmap positive super) (s : kstate) : kstate :=
  KState (ks_mem s) (ks_global s) (ks_queue s) (ks_sent s) (ks_lfs s) (ks_files s)
    (ks_inodes s) (ks_dentries s) (ks_pages s) (f (ks_supers s)) (ks_refs s) (ks_locks s) (ks_calls s).
Definition set_refs (f : gmultiset ref → gmultiset ref) (s : kstate) : kstate :=
  KState (ks_mem s) (ks_global s) (ks_queue s) (ks_sent s) (ks_lfs s) (ks_files s)
    (ks_inodes s) (ks_dentries s) (ks_pages s) (ks_supers s) (f (ks_refs s)) (ks_locks s) (ks_calls s).
Definition set_locks (f : gmultiset positive → gmultiset positive) (s : kstate) : kstate :=
  KState (ks_mem s) (ks_global s) (ks_queue s) (ks_sent s) (ks_lfs s) (ks_files s)
    (ks_inodes s) (ks_dentries s) (ks_pages s) (ks_supers s) (ks_refs s) (f (ks_locks s)) (ks_calls s).
Definition set_calls (f : list vcall → list vcall) (s : kstate) : kstate :=
  KState (ks_mem s) (ks_global s) (ks_queue s) (ks_sent s) (ks_lfs s) (ks_files s)
    (ks_inodes s) (ks_dentries s) (ks_pages s) (ks_supers s) (ks_refs s) (ks_locks s) (f (ks_calls s)).

(** The block [b] holds [o]. *)
Definition upd (b : positive) (o : obj) (s : kstate) : kstate := set_mem (mem_put b o) s.

Definition live (s : kstate) : gmap positive obj := m_live (ks_mem s).

(** * The monad *)

(** [Deadlock]: a thread waits for a mutex it holds; [Unbalanced]: a reference
    or a mutex is given back that is not held; [Bug]: a [BUG_ON] of the kernel. *)
Inductive ub := NullDeref | WildPointer | OutOfBounds | DoubleFree | BadObject
  | Deadlock | Unbalanced | Bug.

Inductive outcome (A : Type) := Ret (a : A) (s : kstate) | Ub (u : ub).
Arguments Ret {A} a s.
Arguments Ub {A} u.

Definition M (A : Type) : Type := kstate → outcome A.

#[global] Instance M_ret : MRet M := λ A a s, Ret a s.
#[global] Instance M_bind : MBind M := λ A B f m s,
  match m s with Ret a s' => f a s' | Ub u => Ub u end.

Definition fail_ub {A} (u : ub) : M A := λ _, Ub u.
Definition gets {A} (f : kstate → A) : M A := λ s, Ret (f s) s.
Definition modify (f : kstate → kstate) : M () := λ s, Ret () (f s).

(** ** Storage accesses *)

Definition load_bytes (p : ptr) (n : Z) : M bytes := λ s,
  match p with
  | NULL => Ub NullDeref
  | Ptr b o =>
      match m_live (ks_mem s) !! b, m_dead (ks_mem s) !! b with
      | Some (OBytes bs), _ =>
          if in_range o n bs then Ret (slice o n bs) s else Ub OutOfBounds
      | Some _, _ => Ub BadObject
      | None, Some (OBytes bs) =>
          if in_range o n bs then Ret (slice o n (stale bs)) (set_mem mem_mark_uaf s)
          else Ub OutOfBounds
      | None, Some _ => Ub BadObject
      | None, None => Ub WildPointer
      end
  end.

Definition store_bytes (p : ptr) (new : bytes) : M () := λ s,
  match p with
  | NULL => Ub NullDeref
  | Ptr b o =>
      match m_live (ks_mem s) !! b with
      | Some (OBytes bs) =>
          if in_range o (blen new) bs
          then Ret () (set_mem (mem_put b (OBytes (splice o new bs))) s)
          else Ub OutOfBounds
      | Some _ => Ub BadObject
      | None => Ub WildPointer
      end
  end.

Definition load_le (p : ptr) (n : Z) : M Z :=
  bs ← load_bytes p n; mret (le_decode bs).

Definition store_le (p : ptr) (n : nat) (z : Z) : M () :=
  store_bytes p (le_encode n z).

Definition memcpy (dst src : ptr) (n : Z) : M () :=
  bs ← load_bytes src n; store_bytes dst bs.

(** [strlen]: the distance to the first zero byte; running off the block is
    undefined. *)
Fixpoint find_nul (bs : bytes) : option nat :=
  match bs with
  | [] => None
  | b :: bs => if decide (b = zero_byte) then Some O else S <$> find_nul bs
  end.

Definition strlen (p : ptr) : M Z := λ s,
  match p with
  | NULL => Ub NullDeref
  | Ptr b o =>
      match m_live (ks_mem s) !! b with
      | Some (OBytes bs) =>
          if (0 <=? o)%Z then
            match find_nul (drop (Z.to_nat o) bs) with
            | Some n => Ret (Z.of_nat n) s
            | None => Ub OutOfBounds
            end
          else Ub OutOfBounds
      | Some _ => Ub BadObject
      | None => Ub WildPointer
      end
  end.

(** An allocation of [n] bytes that will hold [o]. *)
Definition zalloc_obj (n : Z) (o : obj) : M ptr := λ s,
  let m := mem_tick (ks_mem s) in
  if kzalloc_ok (m_allocs (ks_mem s)) n
  then Ret (Ptr (mem_fresh m) 0) (set_mem (λ _, mem_put (mem_fresh m) o m) s)
  else Ret NULL (set_mem (λ _, m) s).

Definition teadfs_zalloc (n : Z) : M ptr := zalloc_obj n (OBytes (zeros n)).

Definition teadfs_free (p : ptr) : M () := λ s,
  match p with
  | NULL => Ret () s
  | Ptr b o =>
      match m_live (ks_mem s) !! b with
      | Some ob =>
          if (o =? 0)%Z then Ret () (set_mem (mem_kill b ob) s) else Ub WildPointer
      | None =>
          match m_dead (ks_mem s) !! b with
          | Some _ => Ub DoubleFree
          | None => Ub WildPointer
          end
      end
  end.

(** A local variable of [n] bytes, which nobody initialised, and its end. *)
Definition stack_alloc (n : Z) : M ptr := λ s,
  let b := mem_fresh (ks_mem s) in
  Ret (Ptr b 0) (set_mem (mem_put b (OBytes (map junk (seq 0 (Z.to_nat n))))) s).
Definition stack_pop (p : ptr) : M () := teadfs_free p.

Definition load_obj (p : ptr) : M obj := λ s,
  match p with
  | NULL => Ub NullDeref
  | Ptr b _ =>
      match m_live (ks_mem s) !! b with Some o => Ret o s | None => Ub WildPointer end
  end.

Definition store_obj (p : ptr) (o : obj) : M () := λ s,
  match p with
  | NULL => Ub NullDeref
  | Ptr b _ =>
      match m_live (ks_mem s) !! b with
      | Some _ => Ret () (set_mem (mem_put b o) s)
      | None => Ub WildPointer
      end
  end.

Definition is_null (p : ptr) : bool := bool_decide (p = NULL).

Definition load_ctx (p : ptr) : M teadfs_msg_ctx :=
  o ← load_obj p; match o with OCtx c => mret c | _ => fail_ub BadObject end.

(** ** Kernel objects and calls *)

Definition get_file (f : positive) : M file := λ s,
  match ks_files s !! f with Some x => Ret x s | None => Ub WildPointer end.
Definition put_file (f : positive) (x : file) : M () := modify (set_files (insert f x)).
Definition get_inode (i : positive) : M inode := λ s,
  match ks_inodes s !! i with Some x => Ret x s | None => Ub WildPointer end.
Definition put_inode (i : positive) (x : inode) : M () := modify (set_inodes (insert i x)).
Definition get_page (p : positive) : M page := λ s,
  match ks_pages s !! p with Some x => Ret x s | None => Ub WildPointer end.
Definition put_page (p : positive) (x : page) : M () := modify (set_pages (insert p x)).

Definition get_dentry (d : positive) : M dentry := λ s,
  match ks_dentries s !! d with Some x => Ret x s | None => Ub WildPointer end.
Definition put_dentry (d : positive) (x : dentry) : M () := modify (set_dentries (insert d x)).
Definition get_super (b : positive) : M super := λ s,
  match ks_supers s !! b with Some x => Ret x s | None => Ub WildPointer end.
Definition put_super (b : positive) (x : super) : M () := modify (set_supers (insert b x)).
(** Dereference a pointer that may be null. *)
Definition deref {A} (p : option A) : M A :=
  match p with Some a => mret a | None => fail_ub NullDeref end.

(** Make a call whose effect is outside the model. *)
Definition vfs (c : vcall) : M Z := λ s,
  Ret (vcall_rc (ks_calls s) c) (set_calls (λ l, l ++ [c]) s).

Definition load_file_info (p : ptr) : M teadfs_file_info :=
  o ← load_obj p; match o with OFileInfo fi => mret fi | _ => fail_ub BadObject end.

End Kernel.

Arguments Ret {_ A} a s.
Arguments Ub {_ A} u.
