(* ===== verification/Protocol.v ===== *)
(** The wire format of [TEADFS/src/protocol.h].

    The structures are C types under the x86-64 ABI; their sizes and field
    offsets are computed, not assumed.  A packet is the byte buffer the C code
    casts to [struct teadfs_packet_info*]; its fields are read and written at
    the computed offsets. *)
From S2P Require Import Prelude.
Local Open Scope Z_scope.

(** * C types and their layout *)

#[warnings="-register-all"]
Inductive cty :=
  | CInt (n : nat)                (* an n-byte integer, aligned to n *)
  | CStruct (fs : list cty)
  | CUnion (fs : list cty).

(** The least multiple of [a] that is at least [o]. *)
Definition align_up (o a : Z) : Z := (o + a - 1) / a * a.

Fixpoint alignof (t : cty) : Z :=
  match t with
  | CInt n => Z.of_nat n
  | CStruct fs | CUnion fs => foldr (λ f m, Z.max (alignof f) m) 1 fs
  end.

(** Field offsets of a structure whose fields have these sizes and
    alignments, starting at [o]; the end of the last field comes with them. *)
Fixpoint place (fs : list (Z * Z)) (o : Z) : list Z * Z :=
  match fs with
  | [] => ([], o)
  | (n, a) :: fs =>
      let o' := align_up o a in
      let '(os, e) := place fs (o' + n) in (o' :: os, e)
  end.

Fixpoint sizeof (t : cty) : Z :=
  match t with
  | CInt n => Z.of_nat n
  | CStruct fs =>
      align_up (place (map (λ f, (sizeof f, alignof f)) fs) 0).2 (alignof t)
  | CUnion fs => align_up (foldr (λ f m, Z.max (sizeof f) m) 0 fs) (alignof t)
  end.

Definition offset_of (t : cty) (i : nat) : Z :=
  match t with
  | CStruct fs => default 0 ((place (map (λ f, (sizeof f, alignof f)) fs) 0).1 !! i)
  | _ => 0
  end.

(** * The structures of protocol.h *)

Definition c_u8 : cty := CInt 1.
Definition c_u32 : cty := CInt 4.
Definition c_u64 : cty := CInt 8.
Definition c_int : cty := CInt 4.
Definition pid_t : cty := CInt 4.
(* kuid_t and kgid_t: a one-field structure in the kernel ... *)
Definition kuid_t_kernel : cty := CStruct [c_u32].
(* ... and uid_t/gid_t, by the #define, in user space *)
Definition kuid_t_user : cty := c_u32.

Definition PR_MSG_HELLO : Z := 1.
Definition PR_MSG_CLOSE : Z := 2.
Definition PR_MSG_USER : Z := 3.
Definition PR_MSG_OPEN : Z := PR_MSG_USER + 1.
Definition PR_MSG_RELEASE : Z := PR_MSG_USER + 2.
Definition PR_MSG_READ : Z := PR_MSG_USER + 3.
Definition PR_MSG_WRITE : Z := PR_MSG_USER + 4.
Definition PR_MSG_CLEANUP : Z := PR_MSG_USER + 5.
Definition ENCRYPT_FILE_HEADER_SIZE : Z := 256.

Definition teadfs_protocol_binary : cty := CStruct [c_u32; c_u32].
Definition teadfs_packet_header_of (kuid : cty) : cty :=
  CStruct [c_u32; c_u64; c_u8; c_u8; pid_t; kuid; kuid].
Definition teadfs_hello_info : cty := CStruct [pid_t].
Definition teadfs_open_info : cty := CStruct [c_u64; teadfs_protocol_binary].
Definition teadfs_release_info : cty := CStruct [c_u64; teadfs_protocol_binary].
Definition teadfs_read_info : cty := CStruct [c_int; c_u64; teadfs_protocol_binary].
Definition teadfs_write_info : cty := CStruct [c_int; c_u64; teadfs_protocol_binary].
Definition teadfs_delete_info : cty := CStruct [teadfs_protocol_binary].
Definition teadfs_cleanup_info : cty := CStruct [c_u64].
Definition teadfs_result_code_info : cty := CStruct [c_int].
Definition packet_data : cty :=
  CUnion [teadfs_hello_info; teadfs_open_info; teadfs_release_info;
          teadfs_read_info; teadfs_write_info; teadfs_delete_info;
          teadfs_result_code_info; teadfs_cleanup_info].
Definition teadfs_packet_info_of (kuid : cty) : cty :=
  CStruct [teadfs_packet_header_of kuid; packet_data].
Definition teadfs_packet_header_t : cty := teadfs_packet_header_of kuid_t_kernel.
Definition teadfs_packet_info : cty := teadfs_packet_info_of kuid_t_kernel.

Definition sizeof_packet_header : Z := sizeof teadfs_packet_header_t.
Definition sizeof_packet_info : Z := sizeof teadfs_packet_info.

(** * Fields *)

Record fld := Fld { f_off : Z; f_width : nat }.

Definition get (f : fld) (bs : bytes) : Z :=
  le_decode (slice (f_off f) (Z.of_nat (f_width f)) bs).
Definition put (f : fld) (z : Z) (bs : bytes) : bytes :=
  splice (f_off f) (le_encode (f_width f) z) bs.

(** The field at [i] of the header, and the field at [i] of member [t] of the
    union, which starts right after the header. *)
Definition hdr (i : nat) (w : nat) : fld := Fld (offset_of teadfs_packet_header_t i) w.
Definition data (t : cty) (i : nat) (w : nat) : fld :=
  Fld (offset_of teadfs_packet_info 1 + offset_of t i) w.
(** The two fields of a [teadfs_protocol_binary] at field [i] of [t]. *)
Definition data_bin (t : cty) (i j : nat) : fld :=
  Fld (offset_of teadfs_packet_info 1 + offset_of t i
       + offset_of teadfs_protocol_binary j) 4.

Definition h_size := hdr 0 4.
Definition h_msg_id := hdr 1 8.
Definition h_msg_type := hdr 2 1.
Definition h_initiator := hdr 3 1.
Definition h_pid := hdr 4 4.
Definition h_uid := hdr 5 4.
Definition h_gid := hdr 6 4.
Definition hello_pid := data teadfs_hello_info 0 4.
Definition open_file_id := data teadfs_open_info 0 8.
Definition open_path_size := data_bin teadfs_open_info 1 0.
Definition open_path_offset := data_bin teadfs_open_info 1 1.
Definition release_file_id := data teadfs_release_info 0 8.
Definition release_path_size := data_bin teadfs_release_info 1 0.
Definition release_path_offset := data_bin teadfs_release_info 1 1.
Definition read_code := data teadfs_read_info 0 4.
Definition read_offset := data teadfs_read_info 1 8.
Definition read_data_size := data_bin teadfs_read_info 2 0.
Definition read_data_offset := data_bin teadfs_read_info 2 1.
Definition write_code := data teadfs_write_info 0 4.
Definition write_offset := data teadfs_write_info 1 8.
Definition write_data_size := data_bin teadfs_write_info 2 0.
Definition write_data_offset := data_bin teadfs_write_info 2 1.
Definition error_code := data teadfs_result_code_info 0 4.
Definition cleanup_file_id := data teadfs_cleanup_info 0 8.

(** The whole header, for [response.header = packet->header]. *)
Definition header_bytes (bs : bytes) : bytes := slice 0 sizeof_packet_header bs.

(** * Layout lemmas *)

Lemma align_up_ge o a : 0 < a → o ≤ align_up o a.
Proof.
  intros. unfold align_up.
  pose proof (Z.mod_pos_bound (o + a - 1) a). pose proof (Z.div_mod (o + a - 1) a). lia.
Qed.

Lemma align_up_lt o a : 0 < a → align_up o a < o + a.
Proof.
  intros. unfold align_up.
  pose proof (Z.mod_pos_bound (o + a - 1) a). pose proof (Z.div_mod (o + a - 1) a). lia.
Qed.

Lemma align_up_mod o a : 0 < a → align_up o a mod a = 0.
Proof. intros. apply Z.mod_mul. lia. Qed.

Definition fields_ok (fs : list (Z * Z)) : Prop := Forall (λ f, 0 ≤ f.1 ∧ 0 < f.2) fs.

Lemma place_length fs o : length (place fs o).1 = length fs.
Proof.
  revert o. induction fs as [|[n a] fs IH]; intros o; simpl; [done|].
  destruct (place fs (align_up o a + n)) as [os e] eqn:E. simpl. f_equal.
  specialize (IH (align_up o a + n)). by rewrite E in IH.
Qed.

Lemma place_bounds fs o i oi n a :
  fields_ok fs →
  (place fs o).1 !! i = Some oi → fs !! i = Some (n, a) →
  o ≤ oi ∧ oi mod a = 0 ∧ oi + n ≤ (place fs o).2.
Proof.
  revert o i. induction fs as [|[n0 a0] fs IH]; intros o i Hok Ho Hf; [done|].
  apply Forall_cons in Hok as [[Hn0 Ha0] Hok]. simpl in *.
  pose proof (align_up_ge o a0 Ha0).
  destruct (place fs (align_up o a0 + n0)) as [os e] eqn:E. simpl in *.
  assert (Hend : align_up o a0 + n0 ≤ e).
  { clear -E Hok. revert E. generalize (align_up o a0 + n0) as o1. revert os e.
    induction fs as [|[n1 a1] fs IH]; intros os e o1 E; simpl in E; [by simplify_eq|].
    apply Forall_cons in Hok as [[Hn1 Ha1] Hok]. simpl in *.
    destruct (place fs (align_up o1 a1 + n1)) as [os' e'] eqn:E'. simplify_eq.
    apply IH in E'; [|done]. pose proof (align_up_ge o1 a1 Ha1). lia. }
  destruct i as [|i]; simpl in *; simplify_eq.
  - split_and!; [lia| |lia]. by apply align_up_mod.
  - specialize (IH (align_up o a0 + n0) i Hok). rewrite E in IH.
    destruct (IH Ho Hf) as (? & ? & ?). simpl in *. split_and!; [lia|done|done].
Qed.

Lemma place_disjoint fs o i j oi oj n a :
  fields_ok fs → (i < j)%nat →
  (place fs o).1 !! i = Some oi → (place fs o).1 !! j = Some oj →
  fs !! i = Some (n, a) → oi + n ≤ oj.
Proof.
  revert o i j. induction fs as [|[n0 a0] fs IH]; intros o i j Hok Hij Hi Hj Hf; [done|].
  apply Forall_cons in Hok as [[Hn0 Ha0] Hok]. simpl in *.
  destruct (place fs (align_up o a0 + n0)) as [os e] eqn:E. simpl in *.
  destruct i as [|i], j as [|j]; simpl in *; simplify_eq; try lia.
  - assert (∃ f, fs !! j = Some f) as [[n' a'] Hf'].
    { apply lookup_lt_is_Some. rewrite <- (place_length fs (align_up o a + n)), E.
      simpl. by eapply lookup_lt_Some. }
    pose proof (place_bounds fs (align_up o a + n) j oj n' a' Hok) as Hb.
    rewrite E in Hb. destruct (Hb Hj Hf'). lia.
  - specialize (IH (align_up o a0 + n0) i j Hok). rewrite E in IH.
    apply IH; [lia|done|done|done].
Qed.

(** * Field access lemmas *)

(** Evaluate the sizes and field offsets that occur in the goal and in the
    hypotheses, and finish by linear arithmetic. *)
Ltac eval_fld t :=
  let v := eval vm_compute in t in
  lazymatch isZcst v with true => change t with v in * end.
Ltac eval_width t :=
  let v := eval vm_compute in t in
  lazymatch isnatcst v with true => change t with v in * end.
Ltac pkt_consts :=
  change sizeof_packet_info with 56 in *; change sizeof_packet_header with 32 in *;
  repeat match goal with
    | |- context [f_off ?f] => eval_fld (f_off f)
    | |- context [f_width ?f] => eval_width (f_width f)
    | Hx : context [f_off ?f] |- _ => eval_fld (f_off f)
    | Hx : context [f_width ?f] |- _ => eval_width (f_width f)
    end.

Definition fld_in (f : fld) (bs : bytes) : bool :=
  in_range (f_off f) (Z.of_nat (f_width f)) bs.
Definition fld_disjoint (f g : fld) : bool :=
  (f_off f + Z.of_nat (f_width f) <=? f_off g)
  || (f_off g + Z.of_nat (f_width g) <=? f_off f).

Lemma get_range f bs : in_range (f_off f) (Z.of_nat (f_width f)) bs = true →
  0 ≤ get f bs < 2 ^ (8 * Z.of_nat (f_width f)).
Proof.
  intros Hin. unfold get.
  pose proof (le_decode_range (slice (f_off f) (Z.of_nat (f_width f)) bs)) as Hr.
  apply blen_slice in Hin. unfold blen in Hin. by rewrite Hin in Hr.
Qed.

Lemma blen_put f z bs : fld_in f bs = true → blen (put f z bs) = blen bs.
Proof. intros. unfold put. apply blen_splice. by rewrite blen_le_encode. Qed.

Lemma get_put f z bs : fld_in f bs = true →
  get f (put f z bs) = z mod 2 ^ (8 * Z.of_nat (f_width f)).
Proof.
  intros. unfold get, put.
  rewrite <- (blen_le_encode (f_width f) z) at 1.
  rewrite slice_splice_same by (by rewrite blen_le_encode).
  apply le_decode_encode.
Qed.

Lemma slice_put o n f z bs :
  fld_in f bs = true → 0 ≤ o → 0 ≤ n →
  o + n ≤ f_off f ∨ f_off f + Z.of_nat (f_width f) ≤ o →
  slice o n (put f z bs) = slice o n bs.
Proof.
  intros Hin Ho Hn [?|?]; unfold put, fld_in in *.
  - apply slice_splice_before; [done|lia|by rewrite blen_le_encode].
  - apply slice_splice_after; [by rewrite blen_le_encode|by rewrite blen_le_encode].
Qed.

Lemma get_put_ne f g z bs :
  fld_in f bs = true → fld_in g bs = true → fld_disjoint f g = true →
  get f (put g z bs) = get f bs.
Proof.
  unfold fld_disjoint. intros Hf Hg Hd. unfold get. f_equal.
  apply in_range_spec in Hf. apply slice_put; [done|lia|lia|lia].
Qed.

(** ** Fields of a buffer that holds at least one packet *)

Definition fld_ok (f : fld) : bool :=
  (0 <=? f_off f) && (f_off f + Z.of_nat (f_width f) <=? sizeof_packet_info).
Definition pkt_sized (bs : bytes) : Prop := sizeof_packet_info ≤ blen bs.

Lemma fld_in_sized f bs : fld_ok f = true → pkt_sized bs → fld_in f bs = true.
Proof. unfold fld_ok, pkt_sized, fld_in. intros. apply in_range_spec. lia. Qed.

Lemma blen_put_sized f z bs : fld_ok f = true → pkt_sized bs → blen (put f z bs) = blen bs.
Proof. intros. by apply blen_put, fld_in_sized. Qed.

Lemma put_sized f z bs : fld_ok f = true → pkt_sized bs → pkt_sized (put f z bs).
Proof. unfold pkt_sized at 2. intros. by rewrite blen_put_sized. Qed.

Lemma zeros_sized n : sizeof_packet_info ≤ n → pkt_sized (zeros n).
Proof. unfold pkt_sized. change sizeof_packet_info with 56. intros. rewrite blen_zeros; lia. Qed.

Lemma get_put_sized f z bs : fld_ok f = true → pkt_sized bs →
  get f (put f z bs) = z mod 2 ^ (8 * Z.of_nat (f_width f)).
Proof. intros. by apply get_put, fld_in_sized. Qed.

Lemma get_put_ne_sized f g z bs :
  fld_ok f = true → fld_ok g = true → fld_disjoint f g = true → pkt_sized bs →
  get f (put g z bs) = get f bs.
Proof. intros. by apply get_put_ne; [apply fld_in_sized..|]. Qed.

(** The bytes after the packet header are no field of it. *)
Lemma get_splice_data f new bs :
  fld_ok f = true → sizeof_packet_info + blen new ≤ blen bs →
  get f (splice sizeof_packet_info new bs) = get f bs.
Proof.
  unfold fld_ok, get. intros Hf Hn. f_equal. apply slice_splice_before; [lia|lia|].
  apply in_range_spec. pose proof (blen_nonneg new). pkt_consts. lia.
Qed.

Create HintDb tead_pkt.
#[export] Hint Resolve fld_in_sized put_sized zeros_sized : tead_pkt.
#[export] Hint Extern 1 (fld_ok _ = true) => reflexivity : tead_pkt.
#[export] Hint Extern 1 (fld_disjoint _ _ = true) => reflexivity : tead_pkt.

Create Rewrite HintDb tead_get.
#[export] Hint Rewrite blen_put_sized using (solve [auto 20 with tead_pkt]) : tead_get.
#[export] Hint Rewrite get_put_sized using (solve [auto 20 with tead_pkt]) : tead_get.
#[export] Hint Rewrite get_put_ne_sized using (solve [auto 20 with tead_pkt]) : tead_get.
