(* ===== verification/Wp.v ===== *)
(** Reasoning about the C functions: [wp m Q s] says that [m], run in state
    [s], ends without undefined behaviour in a state and with a result that
    satisfy [Q].  One rule per primitive of [Kernel], and the tactics that
    apply them. *)
From S2P Require Import Prelude Kernel.
Local Open Scope Z_scope.

Section Wp.
Context `{KernelEnv}.

Definition wp {A} (m : M A) (Q : A → kstate → Prop) (s : kstate) : Prop :=
  match m s with Ret a s' => Q a s' | Ub _ => False end.

Lemma wp_elim {A} (m : M A) Q s :
  wp m Q s → ∃ a s', m s = Ret a s' ∧ Q a s'.
Proof. unfold wp. destruct (m s); [eauto|done]. Qed.

Lemma wp_intro {A} (m : M A) Q s a s' : m s = Ret a s' → Q a s' → wp m Q s.
Proof. unfold wp. by intros ->. Qed.

Lemma wp_mono {A} (m : M A) (Q Q' : A → kstate → Prop) s :
  wp m Q s → (∀ a s', Q a s' → Q' a s') → wp m Q' s.
Proof. unfold wp. destruct (m s); naive_solver. Qed.

Lemma wp_ret {A} (a : A) (Q : A → kstate → Prop) s : Q a s → wp (mret a) Q s.
Proof. done. Qed.

Lemma wp_bind {A B} (m : M A) (f : A → M B) Q s :
  wp m (λ a s', wp (f a) Q s') s → wp (m ≫= f) Q s.
Proof. unfold wp, mbind, M_bind. destruct (m s); done. Qed.

Lemma wp_bind_inv {A B} (m : M A) (f : A → M B) Q s :
  wp (m ≫= f) Q s → wp m (λ a s', wp (f a) Q s') s.
Proof. unfold wp, mbind, M_bind. destruct (m s); done. Qed.

(** Runs that end in undefined behaviour, for the findings. *)
Lemma ub_bind_wp {A B} (m : M A) (f : A → M B) u s :
  wp m (λ a s', f a s' = Ub u) s → (m ≫= f) s = Ub u.
Proof. unfold wp, mbind, M_bind. destruct (m s); done. Qed.

Lemma ub_bind {A B} (m : M A) (f : A → M B) u s : m s = Ub u → (m ≫= f) s = Ub u.
Proof. unfold mbind, M_bind. by intros ->. Qed.

Lemma wp_gets {A} (f : kstate → A) (Q : A → kstate → Prop) s : Q (f s) s → wp (gets f) Q s.
Proof. done. Qed.

Lemma wp_modify f (Q : () → kstate → Prop) s : Q () (f s) → wp (modify f) Q s.
Proof. done. Qed.

Lemma upd_upd b o o' s : upd b o' (upd b o s) = upd b o' s.
Proof.
  unfold upd, set_mem, mem_put. simpl. by rewrite insert_insert_eq.
Qed.

Lemma upd_comm b b' o o' s : b ≠ b' → upd b o (upd b' o' s) = upd b' o' (upd b o s).
Proof.
  intros. unfold upd, set_mem, mem_put. simpl. by rewrite insert_insert_ne.
Qed.

Lemma live_upd b o s : live (upd b o s) = <[b := o]> (live s).
Proof. done. Qed.

Lemma live_upd_eq b o s : live (upd b o s) !! b = Some o.
Proof. apply lookup_insert_eq. Qed.

Lemma live_upd_ne b b' o s : b ≠ b' → live (upd b o s) !! b' = live s !! b'.
Proof. apply lookup_insert_ne. Qed.

Lemma wp_load_bytes b o n bs (Q : bytes → kstate → Prop) s :
  live s !! b = Some (OBytes bs) → in_range o n bs = true →
  Q (slice o n bs) s → wp (load_bytes (Ptr b o) n) Q s.
Proof. unfold wp, load_bytes, live. by intros -> ->. Qed.

Lemma wp_load_stale b o n bs (Q : bytes → kstate → Prop) s :
  live s !! b = None → m_dead (ks_mem s) !! b = Some (OBytes bs) →
  in_range o n bs = true →
  Q (slice o n (stale bs)) (set_mem mem_mark_uaf s) → wp (load_bytes (Ptr b o) n) Q s.
Proof. unfold wp, load_bytes, live. by intros -> -> ->. Qed.

Lemma wp_store_bytes b o new bs (Q : () → kstate → Prop) s :
  live s !! b = Some (OBytes bs) → in_range o (blen new) bs = true →
  Q () (upd b (OBytes (splice o new bs)) s) →
  wp (store_bytes (Ptr b o) new) Q s.
Proof. unfold wp, store_bytes, live. by intros -> ->. Qed.

Lemma wp_load_le b o n bs (Q : Z → kstate → Prop) s :
  live s !! b = Some (OBytes bs) → in_range o n bs = true →
  Q (le_decode (slice o n bs)) s → wp (load_le (Ptr b o) n) Q s.
Proof. intros. apply wp_bind. by eapply wp_load_bytes. Qed.

Lemma wp_store_le b o n z bs (Q : () → kstate → Prop) s :
  live s !! b = Some (OBytes bs) → in_range o (Z.of_nat n) bs = true →
  Q () (upd b (OBytes (splice o (le_encode n z) bs)) s) →
  wp (store_le (Ptr b o) n z) Q s.
Proof. intros. unfold store_le. eapply wp_store_bytes; [done| |done]. by rewrite blen_le_encode. Qed.

Lemma wp_memcpy b o b' o' n bs bs' (Q : () → kstate → Prop) s :
  live s !! b' = Some (OBytes bs') → in_range o' n bs' = true →
  live s !! b = Some (OBytes bs) → in_range o n bs = true →
  Q () (upd b (OBytes (splice o (slice o' n bs') bs)) s) →
  wp (memcpy (Ptr b o) (Ptr b' o') n) Q s.
Proof.
  intros. apply wp_bind. eapply wp_load_bytes; [done..|].
  eapply wp_store_bytes; [done| |done]. by rewrite blen_slice.
Qed.

Definition tick (s : kstate) : kstate := set_mem mem_tick s.

Lemma tick_upd b o s : tick (upd b o s) = upd b o (tick s).
Proof. done. Qed.

Lemma wp_zalloc_obj n o (Q : ptr → kstate → Prop) s :
  (kzalloc_ok (m_allocs (ks_mem s)) n = true →
   ∀ r, live s !! r = None → Q (Ptr r 0) (upd r o (tick s))) →
  (kzalloc_ok (m_allocs (ks_mem s)) n = false → Q NULL (tick s)) →
  wp (zalloc_obj n o) Q s.
Proof.
  unfold wp, zalloc_obj. simpl. destruct (kzalloc_ok _ _); [|by auto].
  intros Hok _. apply Hok; [done|]. apply (mem_fresh_live (mem_tick (ks_mem s))).
Qed.

(** What a local variable of [n] bytes holds before anything is stored. *)
Definition junk_bytes (n : Z) : bytes := map junk (seq 0 (Z.to_nat n)).

Lemma wp_stack_alloc n (Q : ptr → kstate → Prop) s :
  (∀ r, live s !! r = None → Q (Ptr r 0) (upd r (OBytes (junk_bytes n)) s)) →
  wp (stack_alloc n) Q s.
Proof. intros HQ. unfold wp, stack_alloc. apply HQ, mem_fresh_live. Qed.

Lemma blen_junk_bytes n : 0 ≤ n → blen (junk_bytes n) = n.
Proof. intros. unfold blen, junk_bytes. rewrite length_map, length_seq. lia. Qed.

Lemma is_null_ptr b o : is_null (Ptr b o) = false.
Proof. by apply bool_decide_eq_false. Qed.

Lemma wp_free b ob (Q : () → kstate → Prop) s :
  live s !! b = Some ob →
  Q () (set_mem (mem_kill b ob) s) → wp (teadfs_free (Ptr b 0)) Q s.
Proof. unfold wp, teadfs_free, live. by intros ->. Qed.

Lemma wp_load_ctx b o c (Q : teadfs_msg_ctx → kstate → Prop) s :
  live s !! b = Some (OCtx c) → Q c s → wp (load_ctx (Ptr b o)) Q s.
Proof. unfold live. intros E ?. apply wp_bind. unfold wp at 1, load_obj. by rewrite E. Qed.

Lemma wp_load_file_info b o fi (Q : teadfs_file_info → kstate → Prop) s :
  live s !! b = Some (OFileInfo fi) → Q fi s → wp (load_file_info (Ptr b o)) Q s.
Proof. unfold live. intros E ?. apply wp_bind. unfold wp at 1, load_obj. by rewrite E. Qed.

Lemma wp_get_file f x (Q : file → kstate → Prop) s :
  ks_files s !! f = Some x → Q x s → wp (get_file f) Q s.
Proof. unfold wp, get_file. by intros ->. Qed.

Lemma wp_get_inode i x (Q : inode → kstate → Prop) s :
  ks_inodes s !! i = Some x → Q x s → wp (get_inode i) Q s.
Proof. unfold wp, get_inode. by intros ->. Qed.

Lemma wp_get_page p x (Q : page → kstate → Prop) s :
  ks_pages s !! p = Some x → Q x s → wp (get_page p) Q s.
Proof. unfold wp, get_page. by intros ->. Qed.

Lemma wp_vfs c (Q : Z → kstate → Prop) s :
  Q (vcall_rc (ks_calls s) c) (set_calls (λ l, l ++ [c]) s) → wp (vfs c) Q s.
Proof. done. Qed.

Lemma wp_store_obj b o ob ob' (Q : () → kstate → Prop) s :
  live s !! b = Some ob' →
  Q () (upd b ob s) → wp (store_obj (Ptr b o) ob) Q s.
Proof. unfold wp, store_obj, live. by intros ->. Qed.

End Wp.

Arguments live : simpl never.
Arguments upd : simpl never.
Arguments tick : simpl never.

(** Symbolic execution: peel binds and the primitives without side conditions,
    then leave the goal for the rule of the next storage access. *)
Ltac wp_simpl := cbn [ks_mem ks_global ks_queue ks_sent ks_lfs ks_files ks_inodes
  ks_dentries ks_pages ks_supers ks_refs ks_locks ks_calls set_mem set_global set_queue set_sent set_lfs set_files
  set_inodes set_dentries set_pages set_supers set_refs set_locks set_calls mem_put mem_kill mem_tick mem_mark_uaf m_live m_dead m_allocs m_uaf].
Ltac wp_step :=
  lazymatch goal with
  | |- wp (_ ≫= _) _ _ => apply wp_bind
  | |- wp (mret _) _ _ => apply wp_ret
  | |- wp (gets _) _ _ => apply wp_gets
  | |- wp (modify _) _ _ => apply wp_modify
  end.
Ltac wp_go := repeat wp_step; wp_simpl.

Section Strings.
Context `{KernelEnv}.

Lemma find_nul_lt bs n : find_nul bs = Some n → (n < length bs)%nat.
Proof.
  revert n. induction bs as [|b bs IH]; intros n; simpl; [done|].
  case_decide; [intros [= <-]; lia|]. destruct (find_nul bs); [|done].
  intros [= <-]. specialize (IH _ eq_refl). lia.
Qed.

Lemma find_nul_app_l (t r : bytes) n : find_nul t = Some n → find_nul (t ++ r) = Some n.
Proof.
  revert n. induction t as [|b t IH]; intros n; simpl; [done|]. case_decide; [done|].
  destruct (find_nul t) as [k|]; [|done]. intros [= <-]. by rewrite (IH k).
Qed.
Lemma find_nul_app_r (t r : bytes) : find_nul t = None → find_nul (t ++ zero_byte :: r) = Some (length t).
Proof.
  induction t as [|b t IH]; simpl; [done|]. case_decide; [done|].
  destruct (find_nul t); [done|]. intros _. by rewrite IH.
Qed.

(** Text up to its first zero byte; with a terminator after it, that is the C
    string at its start. *)
Definition c_text (t : bytes) : bytes := match find_nul t with Some n => take n t | None => t end.
Lemma c_text_terminated (t r : bytes) :
  ∃ k, find_nul (t ++ zero_byte :: r) = Some k ∧ take k (t ++ zero_byte :: r) = c_text t.
Proof.
  unfold c_text. destruct (find_nul t) as [k|] eqn:Hk.
  - exists k. split; [by apply find_nul_app_l|]. apply find_nul_lt in Hk. by rewrite take_app_le by lia.
  - exists (length t). split; [by apply find_nul_app_r|]. by rewrite take_app_length.
Qed.

Lemma wp_strlen b o n bs (Q : Z → kstate → Prop) s :
  live s !! b = Some (OBytes bs) → 0 ≤ o → find_nul (drop (Z.to_nat o) bs) = Some n →
  Q (Z.of_nat n) s → wp (strlen (Ptr b o)) Q s.
Proof. unfold wp, strlen, live. intros -> Ho -> ?. by rewrite (proj2 (Z.leb_le _ _)). Qed.
End Strings.

(** The heap of a state after an update. *)
Section Live.
Context `{KernelEnv}.
Lemma live_tick s : live (tick s) = live s.
Proof. done. Qed.
Lemma live_kill b o s : live (set_mem (mem_kill b o) s) = delete b (live s).
Proof. done. Qed.
Lemma live_set_global f s : live (set_global f s) = live s.
Proof. done. Qed.
Lemma live_set_queue f s : live (set_queue f s) = live s.
Proof. done. Qed.
Lemma live_set_sent f s : live (set_sent f s) = live s.
Proof. done. Qed.
Lemma live_set_lfs f s : live (set_lfs f s) = live s.
Proof. done. Qed.
Lemma live_set_files f s : live (set_files f s) = live s.
Proof. done. Qed.
Lemma live_set_inodes f s : live (set_inodes f s) = live s.
Proof. done. Qed.
Lemma live_set_pages f s : live (set_pages f s) = live s.
Proof. done. Qed.
Lemma live_set_calls f s : live (set_calls f s) = live s.
Proof. done. Qed.
End Live.

Create Rewrite HintDb tead_live.
#[export] Hint Rewrite @live_upd @live_tick @live_kill @live_set_global @live_set_queue
  @live_set_sent @live_set_lfs @live_set_files @live_set_inodes @live_set_pages
  @live_set_calls : tead_live.

(** Equality of heaps built by inserts and deletes, by cases on the block. *)
Ltac heap_eq :=
  autorewrite with tead_live; apply map_eq; intros ?;
  repeat (rewrite lookup_insert || rewrite lookup_delete); repeat case_decide; first [reflexivity | congruence].
