(* ===== verification/Vfs.v ===== *)
(** What the module uses of the VFS: counted references, the mutexes of the
    lower directories, the dentry cache, attributes, and the lower file
    system's names; with the accessors of [TEADFS/src/teadfs_header.h].

    The documented effect of [dget], [dput], [igrab], [iput], [mntget],
    [mntput] is on the multiset [ks_refs] of references the module holds; of
    [mutex_lock] and [lock_rename] on the multiset [ks_locks].  Giving back what
    is not held is [Unbalanced], locking twice is [Deadlock]. *)
From S2P Require Import Prelude Kernel Protocol Wp.
Local Open Scope Z_scope.

Definition EXDEV : Z := 18.
Definition ENOTEMPTY : Z := 39.
Definition ENOSYS : Z := 38.
Definition EOPNOTSUPP : Z := 95.
Definition ECHILD : Z := 10.
Definition ESTALE : Z := 116.
Definition ATTR_SIZE : Z := 8.
Definition ATTR_MODE : Z := 1.
Definition ATTR_KILL_SUID : Z := 2048.
Definition ATTR_KILL_SGID : Z := 4096.
Definition ATTR_FILE : Z := 8192.

Definition S_IFMT : Z := 61440.
Definition S_IFREG : Z := 32768.
Definition S_ISREG (mode : Z) : bool := Z.land mode S_IFMT =? S_IFREG.
Definition S_ISDIR (mode : Z) : bool := Z.land mode S_IFMT =? 16384.
Definition S_ISLNK (mode : Z) : bool := Z.land mode S_IFMT =? 40960.
(** Character and block devices, fifos and sockets. *)
Definition special_file (mode : Z) : bool :=
  let t := Z.land mode S_IFMT in (t =? 8192) || (t =? 24576) || (t =? 4096) || (t =? 49152).

Definition IS_ERR (p : kptr) : bool := match p with KErr _ => true | _ => false end.

(** What an initialiser that leaves the attributes out gives, and updates. *)
Definition zero_attr : attr := Attr 0 0 0 0 0 0 0 0 0 0.
Definition with_times (a b : attr) : attr :=
  Attr (at_mode a) (at_uid a) (at_gid a) (at_rdev a) (at_atime b) (at_mtime b) (at_ctime b)
    (at_blkbits a) (at_flags a) (at_nlink a).
Definition with_atime (a : attr) (t : Z) : attr :=
  Attr (at_mode a) (at_uid a) (at_gid a) (at_rdev a) t (at_mtime a) (at_ctime a)
    (at_blkbits a) (at_flags a) (at_nlink a).
Definition with_ctime (a : attr) (t : Z) : attr :=
  Attr (at_mode a) (at_uid a) (at_gid a) (at_rdev a) (at_atime a) (at_mtime a) t
    (at_blkbits a) (at_flags a) (at_nlink a).
Definition with_nlink (a : attr) (n : Z) : attr :=
  Attr (at_mode a) (at_uid a) (at_gid a) (at_rdev a) (at_atime a) (at_mtime a) (at_ctime a)
    (at_blkbits a) (at_flags a) n.

Definition set_attr (f : attr → attr) (i : inode) : inode :=
  Inode (f (i_attr i)) (i_meta i) (i_size i) (lower_inode i) (lower_file_count i) (file_decrypt i)
    (i_mapping i) (i_decrypt i).
Definition set_i_size (n : Z) (i : inode) : inode :=
  Inode (i_attr i) (i_meta i) n (lower_inode i) (lower_file_count i) (file_decrypt i) (i_mapping i) (i_decrypt i).
Definition set_lower_inode (l : option positive) (i : inode) : inode :=
  Inode (i_attr i) (i_meta i) (i_size i) l (lower_file_count i) (file_decrypt i) (i_mapping i) (i_decrypt i).
Definition set_meta (f : imeta → imeta) (i : inode) : inode :=
  Inode (i_attr i) (f (i_meta i)) (i_size i) (lower_inode i) (lower_file_count i) (file_decrypt i)
    (i_mapping i) (i_decrypt i).
Definition with_blocks (n : Z) (m : imeta) : imeta :=
  IMeta (i_sb m) (i_ino m) (i_version m) n (i_op m) (i_fop m) (i_new m).
Definition with_new (b : bool) (m : imeta) : imeta :=
  IMeta (i_sb m) (i_ino m) (i_version m) (i_blocks m) (i_op m) (i_fop m) b.

Section Vfs.
Context `{KernelEnv}.

(** An allocation whose storage is a record of the state: does it succeed. *)
Definition kzalloc_try (n : Z) : M bool := λ s,
  Ret (kzalloc_ok (m_allocs (ks_mem s)) n) (tick s).

(** ** References *)

Definition ref_get (r : ref) : M () := modify (set_refs (λ X, {[+ r +]} ⊎ X)).
Definition ref_put (r : ref) : M () := λ s,
  if decide (r ∈ ks_refs s) then Ret () (set_refs (λ X, X ∖ {[+ r +]}) s) else Ub Unbalanced.

Definition dget (d : positive) : M () := ref_get (RDentry d).
Definition dput (d : option positive) : M () :=
  match d with Some d => ref_put (RDentry d) | None => mret () end.
Definition mntget (m : option positive) : M () :=
  match m with Some m => ref_get (RMnt m) | None => mret () end.
Definition mntput (m : option positive) : M () :=
  match m with Some m => ref_put (RMnt m) | None => mret () end.
Definition path_put (p : path) : M () := dput (p_dentry p);; mntput (p_mnt p).
Definition iput (i : option positive) : M () :=
  match i with Some i => ref_put (RInode i) | None => mret () end.

(** ** Mutexes *)

Definition mutex_lock (i : positive) : M () := λ s,
  if decide (i ∈ ks_locks s) then Ub Deadlock else Ret () (set_locks (λ X, {[+ i +]} ⊎ X) s).
Definition mutex_unlock (i : positive) : M () := λ s,
  if decide (i ∈ ks_locks s) then Ret () (set_locks (λ X, X ∖ {[+ i +]}) s) else Ub Unbalanced.

(** ** The lower file system *)

Definition lower (op : lower_op) : M Z := λ s,
  let '(rc, l) := lower_do (ks_lfs s) op in Ret rc (set_lfs (λ _, l) s).
(** [d->d_inode] of a lower dentry, which may be null, and where it is used. *)
Definition lower_inode_of (d : positive) : M (option positive) := gets (λ s, lower_d_inode (ks_lfs s) d).
Definition lower_inode_at (d : positive) : M positive := i ← lower_inode_of d; deref i.
Definition lower_attr_of (i : positive) : M attr := gets (λ s, lower_attr (ks_lfs s) i).
Definition lower_size_of (i : positive) : M Z := gets (λ s, lower_i_size (ks_lfs s) i).

(** [dget_parent] of a lower dentry. *)
Definition lower_dget_parent (d : positive) : M positive :=
  p ← gets (λ s, lower_d_parent (ks_lfs s) d); dget p;; mret p.

(** [lock_rename] locks the directories (once, when they are the same) and
    returns the child of one that is an ancestor of the other. *)
Definition lock_rename (p1 p2 : positive) : M (option positive) :=
  i1 ← lower_inode_at p1;
  if decide (p1 = p2) then mutex_lock i1;; mret None
  else
    i2 ← lower_inode_at p2;
    mutex_lock i1;; mutex_lock i2;;
    gets (λ s, lower_trap (ks_lfs s) p1 p2).
Definition unlock_rename (p1 p2 : positive) : M () :=
  i1 ← lower_inode_at p1;
  mutex_unlock i1;;
  if decide (p1 = p2) then mret () else i2 ← lower_inode_at p2; mutex_unlock i2.

(** [notify_change], under the mutex of the inode. *)
Definition notify_change (d : positive) (ia : iattr) : M Z :=
  i ← lower_inode_at d;
  mutex_lock i;;
  rc ← lower (LO_notify_change d ia);
  i ← lower_inode_at d;
  mutex_unlock i;;
  mret rc.

(** ** Upper inodes and dentries *)

Definition update_inode (f : inode → inode) (i : positive) : M () :=
  x ← get_inode i; put_inode i (f x).
Definition i_size_write (i : positive) (n : Z) : M () := update_inode (set_i_size n) i.
Definition set_nlink (i : positive) (n : Z) : M () := update_inode (set_attr (λ a, with_nlink a n)) i.

(** [fsstack_copy_attr_all], [_times], [_atime] and [fsstack_copy_inode_size]
    from a lower inode. *)
Definition fsstack_copy_attr_all (i li : positive) : M () :=
  a ← lower_attr_of li; update_inode (set_attr (λ _, a)) i.
Definition fsstack_copy_attr_times (i li : positive) : M () :=
  a ← lower_attr_of li; update_inode (set_attr (λ b, with_times b a)) i.
Definition fsstack_copy_attr_atime (i li : positive) : M () :=
  a ← lower_attr_of li; update_inode (set_attr (λ b, with_atime b (at_atime a))) i.
Definition fsstack_copy_inode_size (i li : positive) : M () :=
  n ← lower_size_of li;
  b ← gets (λ s, lower_i_blocks (ks_lfs s) li);
  update_inode (λ x, set_meta (with_blocks b) (set_i_size n x)) i.

(** [d_instantiate], [d_add] and [d_drop]: the dentry takes over the caller's
    reference to the inode; instantiating a dentry twice is a [BUG_ON]. *)
Definition give_inode (i : option positive) : M () :=
  match i with Some i => ref_put (RUpInode i) | None => mret () end.
Definition attach_inode (hash : bool) (d : positive) (i : option positive) : M () :=
  x ← get_dentry d;
  match d_inode x with
  | Some _ => fail_ub Bug
  | None =>
    give_inode i;;
    put_dentry d (Dentry i (d_fsdata x) (d_name x) (d_parent x) (hash || d_hashed x))
  end.
Definition d_instantiate : positive → option positive → M () := attach_inode false.
Definition d_add : positive → option positive → M () := attach_inode true.
Definition d_drop (d : positive) : M () :=
  x ← get_dentry d; put_dentry d (Dentry (d_inode x) (d_fsdata x) (d_name x) (d_parent x) false).
(** [dget_parent] and [dput] of an upper dentry. *)
Definition upper_dget_parent (d : positive) : M positive :=
  x ← get_dentry d; ref_get (RUpDentry (d_parent x));; mret (d_parent x).
Definition upper_dput (d : positive) : M () := ref_put (RUpDentry d).

(** ** Accessors of teadfs_header.h *)

Definition teadfs_get_lower_path (dentry : option positive) : M path := λ s,
  match dentry with
  | None => Ub NullDeref
  | Some d => match ks_dentries s !! d with
              | Some x => match d_fsdata x with Some p => Ret p s | None => Ub NullDeref end
              | None => Ub WildPointer
              end
  end.
Definition set_fsdata (p : option path) (x : dentry) : dentry :=
  Dentry (d_inode x) p (d_name x) (d_parent x) (d_hashed x).
Definition teadfs_set_dentry_private (d : positive) (p : option path) : M () :=
  x ← get_dentry d; put_dentry d (set_fsdata p x).
Definition teadfs_set_lower_path (d : positive) (p : path) : M () :=
  x ← get_dentry d;
  match d_fsdata x with
  | Some _ => put_dentry d (set_fsdata (Some p) x)
  | None => fail_ub NullDeref
  end.
(** [teadfs_put_lower_path] gives nothing back; it takes the lock in the private
    data, so that must be there. *)
Definition teadfs_put_lower_path (d : positive) : M () := teadfs_get_lower_path (Some d);; mret ().
(** Nothing calls this one. *)
Definition wrapfs_put_reset_lower_path (d : positive) : M () :=
  lower_path ← teadfs_get_lower_path (Some d);
  teadfs_set_dentry_private d (Some (Path None None));;
  path_put lower_path.
Definition teadfs_superblock_to_lower (sb : positive) : M (option positive) :=
  x ← get_super sb; deref (s_fs_info x).
Definition teadfs_inode_to_lower (i : positive) : M (option positive) :=
  x ← get_inode i; mret (lower_inode x).
Definition teadfs_set_inode_lower (i : positive) (l : option positive) : M () :=
  update_inode (set_lower_inode l) i.

(** ** Rules *)

(** The dentry [d] has private data. *)
Definition dentry_at (s : kstate) (d : positive) (x : dentry) : Prop :=
  ks_dentries s !! d = Some x ∧ is_Some (d_fsdata x).

Lemma wp_get_lower_path d x (Q : path → kstate → Prop) s :
  dentry_at s d x → Q (lower_path x) s → wp (teadfs_get_lower_path (Some d)) Q s.
Proof.
  intros [Hx [p Hp]] HQ. unfold wp, teadfs_get_lower_path. rewrite Hx, Hp.
  unfold lower_path in HQ. by rewrite Hp in HQ.
Qed.

Lemma wp_put_lower_path d x (Q : () → kstate → Prop) s :
  dentry_at s d x → Q () s → wp (teadfs_put_lower_path d) Q s.
Proof. intros Hx HQ. apply wp_bind. eapply wp_get_lower_path; [done|]. by apply wp_ret. Qed.

Lemma wp_get_dentry d x (Q : dentry → kstate → Prop) s :
  ks_dentries s !! d = Some x → Q x s → wp (get_dentry d) Q s.
Proof. unfold wp, get_dentry. by intros ->. Qed.

Lemma wp_get_super b x (Q : super → kstate → Prop) s :
  ks_supers s !! b = Some x → Q x s → wp (get_super b) Q s.
Proof. unfold wp, get_super. by intros ->. Qed.

Lemma wp_deref {A} (a : A) (Q : A → kstate → Prop) s : Q a s → wp (deref (Some a)) Q s.
Proof. apply wp_ret. Qed.

Lemma wp_ref_get r (Q : () → kstate → Prop) s :
  Q () (set_refs (λ X, {[+ r +]} ⊎ X) s) → wp (ref_get r) Q s.
Proof. apply wp_modify. Qed.

Lemma wp_ref_put r X (Q : () → kstate → Prop) s :
  ks_refs s = {[+ r +]} ⊎ X → Q () (set_refs (λ _, X) s) → wp (ref_put r) Q s.
Proof.
  intros E HQ. unfold wp, ref_put. rewrite decide_True by (rewrite E; multiset_solver).
  replace (set_refs (λ X, X ∖ {[+ r +]}) s) with (set_refs (λ _, X) s); [done|].
  unfold set_refs. rewrite E. f_equal. multiset_solver.
Qed.

Lemma wp_attach hash d x i X (Q : () → kstate → Prop) s :
  ks_dentries s !! d = Some x → d_inode x = None → ks_refs s = {[+ RUpInode i +]} ⊎ X →
  Q () (set_dentries (insert d (Dentry (Some i) (d_fsdata x) (d_name x) (d_parent x) (hash || d_hashed x)))
    (set_refs (λ _, X) s)) →
  wp (attach_inode hash d (Some i)) Q s.
Proof.
  intros Hd Hn HX HQ. apply wp_bind. eapply wp_get_dentry; [exact Hd|]. rewrite Hn.
  apply wp_bind. eapply wp_ref_put; [exact HX|]. by apply wp_modify.
Qed.

Lemma wp_mutex_lock i (Q : () → kstate → Prop) s :
  i ∉ ks_locks s → Q () (set_locks (λ X, {[+ i +]} ⊎ X) s) → wp (mutex_lock i) Q s.
Proof. intros E HQ. unfold wp, mutex_lock. by rewrite decide_False. Qed.

Lemma wp_mutex_unlock i X (Q : () → kstate → Prop) s :
  ks_locks s = {[+ i +]} ⊎ X → Q () (set_locks (λ _, X) s) → wp (mutex_unlock i) Q s.
Proof.
  intros E HQ. unfold wp, mutex_unlock. rewrite decide_True by (rewrite E; multiset_solver).
  replace (set_locks (λ X, X ∖ {[+ i +]}) s) with (set_locks (λ _, X) s); [done|].
  unfold set_locks. rewrite E. f_equal. multiset_solver.
Qed.

Lemma wp_lower op (Q : Z → kstate → Prop) s :
  Q (lower_do (ks_lfs s) op).1 (set_lfs (λ _, (lower_do (ks_lfs s) op).2) s) → wp (lower op) Q s.
Proof. unfold wp, lower. by destruct (lower_do _ _). Qed.

Lemma wp_lower_inode_at d i (Q : positive → kstate → Prop) s :
  lower_d_inode (ks_lfs s) d = Some i → Q i s → wp (lower_inode_at d) Q s.
Proof. intros E HQ. apply wp_bind, wp_gets. rewrite E. by apply wp_deref. Qed.

Lemma wp_lower_dget_parent d (Q : positive → kstate → Prop) s :
  Q (lower_d_parent (ks_lfs s) d)
    (set_refs (λ X, {[+ RDentry (lower_d_parent (ks_lfs s) d) +]} ⊎ X) s) →
  wp (lower_dget_parent d) Q s.
Proof. intros HQ. apply wp_bind, wp_gets, wp_bind, wp_ref_get. by apply wp_ret. Qed.

Lemma wp_update_inode f i x (Q : () → kstate → Prop) s :
  ks_inodes s !! i = Some x → Q () (set_inodes (insert i (f x)) s) → wp (update_inode f i) Q s.
Proof. intros Hx HQ. apply wp_bind. eapply wp_get_inode; [exact Hx|]. by apply wp_modify. Qed.

Lemma wp_update_alter f i (Q : () → kstate → Prop) s :
  is_Some (ks_inodes s !! i) → Q () (set_inodes (alter f i) s) → wp (update_inode f i) Q s.
Proof.
  intros [x Hx] HQ. eapply wp_update_inode; [exact Hx|].
  assert (E : <[i := f x]> (ks_inodes s) = alter f i (ks_inodes s)).
  { apply map_eq. intros j. destruct (decide (i = j)) as [<-|].
    - by rewrite lookup_insert_eq, lookup_alter_eq, Hx.
    - by rewrite lookup_insert_ne, lookup_alter_ne. }
  unfold set_inodes in *. by rewrite E.
Qed.
Lemma alter_exists (f : inode → inode) i j (m : gmap positive inode) :
  is_Some (m !! j) → is_Some (alter f i m !! j).
Proof. rewrite lookup_alter_is_Some. done. Qed.

(** Several updates of one inode are one. *)
Lemma set_inodes_twice i x y s : set_inodes (insert i x) (set_inodes (insert i y) s) = set_inodes (insert i x) s.
Proof. unfold set_inodes. simpl. by rewrite insert_insert_eq. Qed.
Lemma wp_update_again f i x (Q : () → kstate → Prop) s :
  Q () (set_inodes (insert i (f x)) s) → wp (update_inode f i) Q (set_inodes (insert i x) s).
Proof. intros HQ. eapply wp_update_inode; [apply lookup_insert_eq|]. by rewrite set_inodes_twice. Qed.
Lemma wp_get_inode_again i x (Q : inode → kstate → Prop) s :
  Q x (set_inodes (insert i x) s) → wp (get_inode i) Q (set_inodes (insert i x) s).
Proof. apply wp_get_inode, lookup_insert_eq. Qed.

Lemma wp_notify_change d ia i (Q : Z → kstate → Prop) s :
  lower_d_inode (ks_lfs s) d = Some i → i ∉ ks_locks s →
  (let r := lower_do (ks_lfs s) (LO_notify_change d ia) in
   lower_d_inode r.2 d = Some i ∧ Q r.1 (set_lfs (λ _, r.2) s)) →
  wp (notify_change d ia) Q s.
Proof.
  intros Hi Hl. cbv zeta. intros [Hi' HQ].
  apply wp_bind. eapply wp_lower_inode_at; [exact Hi|].
  apply wp_bind, wp_mutex_lock; [done|]. apply wp_bind, wp_lower. simpl.
  apply wp_bind. eapply wp_lower_inode_at; [exact Hi'|].
  apply wp_bind. eapply (wp_mutex_unlock _ (ks_locks s)); [done|]. apply wp_ret. by destruct s.
Qed.

End Vfs.
