(* ===== verification/GlobalParam.v ===== *)
(** [TEADFS/src/global_param.c]: the message counter, the client's pid and the
    connection flag.  Each function takes the module's mutex for its whole
    body, so each is one step of the state. *)
From S2P Require Import Prelude Kernel Wp.
Local Open Scope Z_scope.

Section GlobalParam.
Context `{KernelEnv}.

(** [pid] and [connect] live in zero-initialised static storage and are not
    touched by the initialisation. *)
Definition teadfs_init_global_param : M Z :=
  modify (set_global (λ g, GlobalParam 1 (pid g) (connect g)));;
  modify (set_queue (λ _, []));;
  mret 0.

(** The body of the id generator on the counter alone. *)
Definition next_unique_id (u : Z) : Z :=
  let u := u64 (u + 1) in if u =? 0 then 1 else u.

Definition teadfs_get_next_msg_id : M Z :=
  g ← gets ks_global;
  let u := next_unique_id (unique_id g) in
  modify (set_global (λ g, GlobalParam u (pid g) (connect g)));;
  mret u.

Definition teadfs_get_msg_queue : M (list positive) := gets ks_queue.

Definition teadfs_get_client_pid : M Z := g ← gets ks_global; mret (pid g).
Definition teadfs_set_client_pid (p : Z) : M () :=
  modify (set_global (λ g, GlobalParam (unique_id g) p (connect g))).

Definition teadfs_get_client_connect : M Z := g ← gets ks_global; mret (connect g).
Definition teadfs_set_clinet_connect (c : Z) : M () :=
  modify (set_global (λ g, GlobalParam (unique_id g) (pid g) c)).

(** ** The id sequence *)

Definition id_ok (u : Z) : Prop := 1 ≤ u < 2 ^ 64.

Lemma next_unique_id_ok u : id_ok (next_unique_id u).
Proof.
  unfold next_unique_id, id_ok. pose proof (u64_range (u + 1)).
  case_match eqn:E; lia.
Qed.

(** Closed form: on the cycle 1 .. 2^64-1 the generator adds one modulo
    2^64-1. *)
Lemma next_unique_id_closed u : id_ok u → next_unique_id u = u mod (2 ^ 64 - 1) + 1.
Proof.
  unfold id_ok, next_unique_id, u64. intros.
  destruct (decide (u = 2 ^ 64 - 1)) as [->|].
  - done.
  - rewrite !Z.mod_small by lia. case_match eqn:E; lia.
Qed.

Lemma iter_next_unique_id n u : id_ok u →
  Nat.iter n next_unique_id u = (u - 1 + Z.of_nat n) mod (2 ^ 64 - 1) + 1.
Proof.
  intros Hu. induction n as [|n IH].
  - simpl. unfold id_ok in Hu. rewrite Z.mod_small; lia.
  - assert (Hn : id_ok (Nat.iter n next_unique_id u)).
    { destruct n; [done|]. apply next_unique_id_ok. }
    simpl. rewrite next_unique_id_closed by done. rewrite IH.
    rewrite Z.add_mod_idemp_l by done. do 2 f_equal. lia.
Qed.

Lemma iter_next_unique_id_inj u i j : id_ok u →
  Z.abs (Z.of_nat i - Z.of_nat j) < 2 ^ 64 - 1 →
  Nat.iter i next_unique_id u = Nat.iter j next_unique_id u → i = j.
Proof.
  intros Hu Hd E. rewrite !iter_next_unique_id in E by done.
  assert ((u - 1 + Z.of_nat i) mod (2 ^ 64 - 1) = (u - 1 + Z.of_nat j) mod (2 ^ 64 - 1)) as E' by lia.
  assert ((Z.of_nat i - Z.of_nat j) mod (2 ^ 64 - 1) = 0) as Hm.
  { replace (Z.of_nat i - Z.of_nat j) with ((u - 1 + Z.of_nat i) - (u - 1 + Z.of_nat j)) by lia.
    rewrite Zminus_mod, E', Z.sub_diag. done. }
  apply Z.mod_divide in Hm as [k Hk]; [|done].
  assert (k = 0) by nia. lia.
Qed.

Lemma wp_get_next_msg_id (Q : Z → kstate → Prop) s :
  (let u := next_unique_id (unique_id (ks_global s)) in
   Q u (set_global (λ g, GlobalParam u (pid g) (connect g)) s)) →
  wp teadfs_get_next_msg_id Q s.
Proof. done. Qed.

Lemma wp_get_client_pid (Q : Z → kstate → Prop) s :
  Q (pid (ks_global s)) s → wp teadfs_get_client_pid Q s.
Proof. done. Qed.

Lemma wp_get_client_connect (Q : Z → kstate → Prop) s :
  Q (connect (ks_global s)) s → wp teadfs_get_client_connect Q s.
Proof. done. Qed.

(** A run of [n] calls of [teadfs_get_next_msg_id] with nothing in between. *)
Fixpoint take_ids (n : nat) : M (list Z) :=
  match n with
  | O => mret []
  | S n => u ← teadfs_get_next_msg_id; us ← take_ids n; mret (u :: us)
  end.

Lemma take_ids_iter n s : ∃ s',
  take_ids n s =
    Ret (map (λ i, Nat.iter (S i) next_unique_id (unique_id (ks_global s))) (seq 0 n)) s'.
Proof.
  revert s. induction n as [|n IH]; intros s; [by eexists|].
  simpl. unfold mbind at 1, M_bind at 1. simpl.
  destruct (IH (set_global (λ g, GlobalParam (next_unique_id (unique_id (ks_global s))) (pid g) (connect g)) s))
    as [s' E].
  unfold mbind, M_bind in *. simpl in E. rewrite E. eexists. simpl. do 2 f_equal.
  rewrite <- seq_shift, map_map. apply map_ext. intros i.
  clear. induction i as [|i IHi]; simpl in *; [done|]. by rewrite IHi.
Qed.

(** C38: message ids do not repeat: any fewer than 2^64 of them taken one after
    the other are distinct and none is 0, across the wrap-around of the counter. *)
Theorem msg_ids_unique (s : kstate) (n : nat) :
  id_ok (unique_id (ks_global s)) → Z.of_nat n < 2 ^ 64 →
  ∃ us s', take_ids n s = Ret us s' ∧ NoDup us ∧ Forall id_ok us.
Proof.
  intros Hu Hn. destruct (take_ids_iter n s) as [s' E].
  eexists _, s'. split; [exact E|]. split.
  - apply NoDup_ListNoDup, NoDup_map_NoDup_ForallPairs; [|apply NoDup_ListNoDup, NoDup_seq].
    intros i j Hi Hj Eij. apply in_seq in Hi, Hj.
    apply iter_next_unique_id_inj in Eij; [lia|done|lia].
  - apply Forall_map, Forall_true. intros i. apply next_unique_id_ok.
Qed.
End GlobalParam.
