(* ===== verification/Netlink.v ===== *)
(** [TEADFS/src/netlink.c]: the kernel end of the netlink socket.

    A received datagram is the byte contents of its [sk_buff]; every access to
    it is bounds-checked, because nothing on the path here checks
    [nlmsg_len]. *)
From S2P Require Import Prelude Kernel Protocol Wp GlobalParam.
Local Open Scope Z_scope.

(** [struct nlmsghdr]: length, type, flags, sequence number, port. *)
Definition nlmsghdr : cty := CStruct [c_u32; CInt 2; CInt 2; c_u32; c_u32].
Definition NLMSG_HDRLEN : Z := align_up (sizeof nlmsghdr) 4.
Definition nlmsg_len_fld : fld := Fld (offset_of nlmsghdr 0) 4.

(** Arithmetic over datagram and packet sizes. *)
Ltac dgram := change NLMSG_HDRLEN with 16 in *; pkt_consts; lia.

Section Netlink.
Context `{KernelEnv}.

(** ** Typed accesses to a packet in storage and in a datagram *)

Definition load_fld (p : ptr) (f : fld) : M Z :=
  load_le (padd p (f_off f)) (Z.of_nat (f_width f)).
Definition load_int (p : ptr) (f : fld) : M Z := z ← load_fld p f; mret (s32 z).
Definition store_fld (p : ptr) (f : fld) (z : Z) : M () :=
  store_le (padd p (f_off f)) (f_width f) z.

Definition skb_load (skb : bytes) (o n : Z) : M bytes :=
  if in_range o n skb then mret (slice o n skb) else fail_ub OutOfBounds.
(** A field of the packet, [nlmsg_data(nlmsg_hdr(skb))]. *)
Definition skb_fld (skb : bytes) (f : fld) : M Z :=
  bs ← skb_load skb (NLMSG_HDRLEN + f_off f) (Z.of_nat (f_width f)); mret (le_decode bs).
Definition skb_nlmsg_len (skb : bytes) : M Z :=
  bs ← skb_load skb (f_off nlmsg_len_fld) (Z.of_nat (f_width nlmsg_len_fld));
  mret (le_decode bs).

(** ** Sending *)

Definition teadfs_send_to_user (data : ptr) (size : Z) : M Z :=
  n ← gets (m_allocs ∘ ks_mem);
  modify (set_mem mem_tick);;
  if negb (nlmsg_new_ok n size) then mret 0
  else
    _ ← teadfs_get_client_pid;
    payload ← load_bytes data size;
    port ← teadfs_get_client_pid;
    modify (set_sent (λ l, l ++ [(port, payload)]));;
    mret (netlink_unicast port payload).

(** ** Receiving *)

Definition teadfs_user_request_kernel (skb : bytes) : M () :=
  response_packet_info ← stack_alloc sizeof_packet_info;
  msg_type ← skb_fld skb h_msg_type;
  (if msg_type =? PR_MSG_HELLO then
     header ← skb_load skb NLMSG_HDRLEN sizeof_packet_header;
     store_bytes response_packet_info header;;
     store_fld response_packet_info h_size sizeof_packet_info;;
     store_fld response_packet_info error_code 0;;
     client ← skb_fld skb hello_pid;
     teadfs_set_client_pid (s32 client);;
     size ← load_int response_packet_info h_size;
     teadfs_send_to_user response_packet_info size;;
     mret ()
   else if msg_type =? PR_MSG_CLOSE then teadfs_set_client_pid 0
   else mret ());;
  stack_pop response_packet_info.

(** What a reply does to the request it answers. *)
Definition reply_deliver (c : positive) (skb : bytes) : M () :=
  ctx ← load_ctx (Ptr c 0);
  store_obj (Ptr c 0) (OCtx (MsgCtx TEADFS_MSG_CTX_STATE_DONE (msg_id ctx)
    (request_msg_size ctx) (request_msg ctx) (response_msg_size ctx) (response_msg ctx)));;
  len ← skb_nlmsg_len skb;
  rsp ← teadfs_zalloc len;
  ctx ← load_ctx (Ptr c 0);
  store_obj (Ptr c 0) (OCtx (MsgCtx (state ctx) (msg_id ctx)
    (request_msg_size ctx) (request_msg ctx) (response_msg_size ctx) rsp));;
  if is_null rsp then mret ()
  else
    let size := u64 (s32 (len - NLMSG_HDRLEN)) in
    ctx ← load_ctx (Ptr c 0);
    store_obj (Ptr c 0) (OCtx (MsgCtx (state ctx) (msg_id ctx)
      (request_msg_size ctx) (request_msg ctx) size (response_msg ctx)));;
    payload ← skb_load skb NLMSG_HDRLEN size;
    store_bytes rsp payload.

(** [list_for_each_entry] over the queue, left at the first match. *)
Fixpoint reply_scan (skb : bytes) (q : list positive) : M () :=
  match q with
  | [] => mret ()
  | c :: q =>
      ctx ← load_ctx (Ptr c 0);
      id ← skb_fld skb h_msg_id;
      if id =? msg_id ctx then reply_deliver c skb else reply_scan skb q
  end.

Definition teadfs_netlink_receive (skb : bytes) : M () :=
  initiator ← skb_fld skb h_initiator;
  if 1 =? initiator then teadfs_user_request_kernel skb
  else q ← teadfs_get_msg_queue; reply_scan skb q.

Fixpoint receive_all (skbs : list bytes) : M () :=
  match skbs with
  | [] => mret ()
  | skb :: skbs => teadfs_netlink_receive skb;; receive_all skbs
  end.

(** [netlink_kernel_create] gives the socket or, as its documentation says, a
    null pointer; the second result is [nlfd]. *)
Definition teadfs_start_netlink : M (Z * kptr) :=
  rc ← vfs VC_netlink_kernel_create;
  let nlfd := if rc <? 0 then KNull else KObj 1 in
  match nlfd with KErr _ => mret (- 1, nlfd) | _ => mret (0, nlfd) end.
Definition teadfs_release_netlink (nlfd : kptr) : M () :=
  vfs (VC_netlink_kernel_release nlfd);; mret ().

(** ** Datagrams

    A datagram as the kernel's netlink core hands it over when the sender is
    well-behaved: the length field is the length, and there is a packet header
    after the netlink header. *)
Definition payload (d : bytes) : bytes := drop (Z.to_nat NLMSG_HDRLEN) d.
Definition dgram_ok (d : bytes) : Prop :=
  NLMSG_HDRLEN + sizeof_packet_header ≤ blen d < 2 ^ 31 ∧ get nlmsg_len_fld d = blen d.
Definition dgram_id (d : bytes) : Z := get h_msg_id (payload d).
Definition is_reply (d : bytes) : Prop := dgram_ok d ∧ get h_initiator (payload d) ≠ 1.

(** Block [c] is a request context that waits for message [id]. *)
Definition ctx_waits (s : kstate) (c : positive) (id : Z) : Prop :=
  ∃ ctx, live s !! c = Some (OCtx ctx) ∧ msg_id ctx = id.
(** No context of [q] waits for message [id], and all of them are live. *)
Definition no_waiter (s : kstate) (q : list positive) (id : Z) : Prop :=
  Forall (λ c, ∃ id', ctx_waits s c id' ∧ id ≠ id') q.

Lemma blen_payload d : NLMSG_HDRLEN ≤ blen d → blen (payload d) = blen d - NLMSG_HDRLEN.
Proof. unfold blen, payload. rewrite length_drop. change NLMSG_HDRLEN with 16. lia. Qed.

Lemma slice_payload d o n : 0 ≤ o → slice (NLMSG_HDRLEN + o) n d = slice o n (payload d).
Proof.
  intros. unfold slice, payload. rewrite drop_drop. do 2 f_equal.
  change NLMSG_HDRLEN with 16. lia.
Qed.

Lemma slice_all_payload d : NLMSG_HDRLEN ≤ blen d →
  slice NLMSG_HDRLEN (blen d - NLMSG_HDRLEN) d = payload d.
Proof.
  intros. replace NLMSG_HDRLEN with (NLMSG_HDRLEN + 0) at 1 by lia.
  rewrite slice_payload by lia. rewrite <- blen_payload by done. apply slice_all.
Qed.

Lemma wp_skb_load skb o n (Q : bytes → kstate → Prop) s :
  in_range o n skb = true → Q (slice o n skb) s → wp (skb_load skb o n) Q s.
Proof. unfold skb_load. by intros ->. Qed.

Lemma wp_skb_fld skb f (Q : Z → kstate → Prop) s :
  0 ≤ f_off f → NLMSG_HDRLEN + f_off f + Z.of_nat (f_width f) ≤ blen skb →
  Q (get f (payload skb)) s → wp (skb_fld skb f) Q s.
Proof.
  intros. apply wp_bind, wp_skb_load.
  - apply in_range_spec. change NLMSG_HDRLEN with 16 in *. lia.
  - apply wp_ret. by rewrite slice_payload.
Qed.

Lemma wp_skb_nlmsg_len skb (Q : Z → kstate → Prop) s :
  NLMSG_HDRLEN ≤ blen skb → Q (get nlmsg_len_fld skb) s → wp (skb_nlmsg_len skb) Q s.
Proof.
  intros. apply wp_bind, wp_skb_load; [|done].
  apply in_range_spec. dgram.
Qed.


Lemma wp_reply_scan_foreign skb q (Q : () → kstate → Prop) s :
  dgram_ok skb → no_waiter s q (dgram_id skb) → Q () s → wp (reply_scan skb q) Q s.
Proof.
  intros Hd Hq HQ. induction q as [|c q IH]; [done|]. simpl.
  apply Forall_cons in Hq as [(id' & (ctx & Hc & <-) & Hne) Hq].
  apply wp_bind. eapply wp_load_ctx; [done|].
  apply wp_bind, wp_skb_fld; [done|destruct Hd; dgram|].
  rewrite (proj2 (Z.eqb_neq _ _)) by done. by apply IH.
Qed.

Lemma wp_receive_foreign skb (Q : () → kstate → Prop) s :
  is_reply skb → no_waiter s (ks_queue s) (dgram_id skb) → Q () s →
  wp (teadfs_netlink_receive skb) Q s.
Proof.
  intros [Hd Hi] Hq HQ. apply wp_bind, wp_skb_fld; [done|destruct Hd; dgram|].
  rewrite (proj2 (Z.eqb_neq _ _)) by done.
  apply wp_bind, wp_gets. by apply wp_reply_scan_foreign.
Qed.

(** The state of a context after a reply: done, with the payload in a fresh
    block, or with no block when the allocation fails. *)
Definition ctx_done (ctx : teadfs_msg_ctx) (size : Z) (rsp : ptr) : teadfs_msg_ctx :=
  MsgCtx TEADFS_MSG_CTX_STATE_DONE (msg_id ctx) (request_msg_size ctx) (request_msg ctx) size rsp.
Definition reply_block (d : bytes) : bytes := payload d ++ zeros NLMSG_HDRLEN.

Lemma splice_prefix new bs n :
  blen new ≤ n → splice 0 new (zeros n ++ bs) = new ++ zeros (n - blen new) ++ bs.
Proof.
  intros Hn. unfold splice, zeros, blen in *. simpl. f_equal.
  rewrite drop_app_le by (rewrite length_replicate; lia).
  rewrite drop_replicate. do 2 f_equal. lia.
Qed.

Lemma wp_reply_deliver c ctx d (Q : () → kstate → Prop) s :
  dgram_ok d → live s !! c = Some (OCtx ctx) →
  (kzalloc_ok (m_allocs (ks_mem s)) (blen d) = true →
   ∀ r, live s !! r = None →
   Q () (upd r (OBytes (reply_block d))
          (upd c (OCtx (ctx_done ctx (blen d - NLMSG_HDRLEN) (Ptr r 0))) (tick s)))) →
  (kzalloc_ok (m_allocs (ks_mem s)) (blen d) = false →
   Q () (upd c (OCtx (ctx_done ctx (response_msg_size ctx) NULL)) (tick s))) →
  wp (reply_deliver c d) Q s.
Proof.
  intros [Hlen Hfld] Hc Hok Hfail. apply wp_bind. eapply wp_load_ctx; [done|].
  apply wp_bind. eapply wp_store_obj; [done|].
  apply wp_bind, wp_skb_nlmsg_len; [dgram|]. rewrite Hfld.
  apply wp_bind, wp_zalloc_obj.
  - intros Ha r Hr. rewrite live_upd in Hr. apply lookup_insert_None in Hr as [Hr Hne].
    apply wp_bind. eapply wp_load_ctx.
    { rewrite live_upd_ne by done. apply live_upd_eq. }
    apply wp_bind. eapply wp_store_obj.
    { rewrite live_upd_ne by done. apply live_upd_eq. }
    rewrite is_null_ptr. cbn zeta.
    apply wp_bind. eapply wp_load_ctx; [apply live_upd_eq|].
    apply wp_bind. eapply wp_store_obj; [apply live_upd_eq|].
    rewrite s32_small by dgram. rewrite u64_small by dgram.
    apply wp_bind, wp_skb_load; [apply in_range_spec; dgram|].
    eapply wp_store_bytes.
    { rewrite !live_upd_ne by done. apply live_upd_eq. }
    + rewrite blen_slice by (apply in_range_spec; dgram).
      apply in_range_spec. rewrite blen_zeros by dgram. dgram.
    + rewrite !tick_upd, !(upd_comm c r), !upd_upd by done.
      replace (splice 0 _ (zeros (blen d))) with (reply_block d); [by apply Hok|].
      rewrite <- (app_nil_r (zeros (blen d))), slice_all_payload by dgram.
      rewrite splice_prefix by (rewrite blen_payload; dgram).
      rewrite app_nil_r, blen_payload by dgram. unfold reply_block. do 2 f_equal. lia.
  - intros Ha. apply wp_bind. eapply wp_load_ctx; [apply live_upd_eq|].
    apply wp_bind. eapply wp_store_obj; [apply live_upd_eq|].
    apply wp_ret. rewrite !tick_upd, !upd_upd. by apply Hfail.
Qed.

Lemma wp_receive_match q1 c q2 ctx d (Q : () → kstate → Prop) s :
  is_reply d → ks_queue s = q1 ++ c :: q2 → no_waiter s q1 (dgram_id d) →
  live s !! c = Some (OCtx ctx) → msg_id ctx = dgram_id d →
  wp (reply_deliver c d) Q s → wp (teadfs_netlink_receive d) Q s.
Proof.
  intros [Hd Hi] Hq Hq1 Hc Hid HQ. apply wp_bind, wp_skb_fld; [done|destruct Hd; dgram|].
  rewrite (proj2 (Z.eqb_neq _ _)) by done.
  apply wp_bind, wp_gets. rewrite Hq. clear Hq.
  induction q1 as [|c' q1 IH]; simpl.
  - apply wp_bind. eapply wp_load_ctx; [done|].
    apply wp_bind, wp_skb_fld; [done|destruct Hd; dgram|].
    rewrite (proj2 (Z.eqb_eq _ _)) by done. done.
  - apply Forall_cons in Hq1 as [(id' & (ctx' & Hc' & <-) & Hne) Hq1].
    apply wp_bind. eapply wp_load_ctx; [done|].
    apply wp_bind, wp_skb_fld; [done|destruct Hd; dgram|].
    rewrite (proj2 (Z.eqb_neq _ _)) by done. by apply IH.
Qed.

(** ** Requests of the user process *)

(** What HELLO answers: the request's header with the size of the packet, a
    zero error code, and nothing in the rest of the packet. *)
Definition hello_reply (d : bytes) : bytes :=
  put error_code 0 (put h_size sizeof_packet_info
    (splice 0 (slice 0 sizeof_packet_header (payload d)) (junk_bytes sizeof_packet_info))).

Lemma wp_store_fld b f z bs (Q : () → kstate → Prop) s :
  live s !! b = Some (OBytes bs) → fld_in f bs = true →
  Q () (upd b (OBytes (put f z bs)) s) → wp (store_fld (Ptr b 0) f z) Q s.
Proof. intros. unfold store_fld. simpl. by eapply wp_store_le. Qed.

Lemma wp_load_fld b f bs (Q : Z → kstate → Prop) s :
  live s !! b = Some (OBytes bs) → fld_in f bs = true →
  Q (get f bs) s → wp (load_fld (Ptr b 0) f) Q s.
Proof. intros. unfold load_fld. simpl. by eapply wp_load_le. Qed.

Lemma wp_load_int b f bs (Q : Z → kstate → Prop) s :
  live s !! b = Some (OBytes bs) → fld_in f bs = true →
  Q (s32 (get f bs)) s → wp (load_int (Ptr b 0) f) Q s.
Proof. intros. apply wp_bind. by eapply wp_load_fld. Qed.

Definition nlmsg_total : Prop := ∀ k z, nlmsg_new_ok k z = true.

Lemma wp_send_to_user b req n (Q : Z → kstate → Prop) s :
  nlmsg_total → live s !! b = Some (OBytes req) → blen req = n →
  (∀ z, Q z (set_sent (λ l, l ++ [(pid (ks_global s), req)]) (tick s))) →
  wp (teadfs_send_to_user (Ptr b 0) n) Q s.
Proof.
  intros Hn Hb Hl HQ. apply wp_bind, wp_gets, wp_bind, wp_modify. rewrite Hn. simpl.
  apply wp_bind, wp_get_client_pid. apply wp_bind.
  eapply wp_load_bytes; [done| |].
  - apply in_range_spec. pose proof (blen_nonneg req). lia.
  - rewrite <- Hl, slice_all. apply wp_bind, wp_get_client_pid.
    apply wp_bind, wp_modify, wp_ret, HQ.
Qed.

(** ** Properties of the socket *)

Definition kzalloc_total : Prop := ∀ k z, kzalloc_ok k z = true.

(** The state after HELLO's answer is on its way and the local is gone. *)
Definition said_hello (s : kstate) (d : bytes) (s' : kstate) : Prop :=
  ks_global s' = GlobalParam (unique_id (ks_global s)) (s32 (get hello_pid (payload d)))
                   (connect (ks_global s)) ∧
  ks_sent s' = ks_sent s ++ [(s32 (get hello_pid (payload d)), hello_reply d)] ∧
  live s' = live s ∧ ks_queue s' = ks_queue s.

Lemma get_hello_size d : NLMSG_HDRLEN + sizeof_packet_info ≤ blen d →
  pkt_sized (splice 0 (slice 0 sizeof_packet_header (payload d)) (junk_bytes sizeof_packet_info)).
Proof.
  intros Hd. unfold pkt_sized. rewrite blen_splice; [by rewrite blen_junk_bytes|].
  apply in_range_spec. rewrite blen_junk_bytes by done. rewrite blen_slice; [pkt_consts; lia|].
  apply in_range_spec. rewrite blen_payload by dgram. dgram.
Qed.

Lemma wp_hello d s :
  nlmsg_total → NLMSG_HDRLEN + sizeof_packet_info ≤ blen d →
  get h_msg_type (payload d) = PR_MSG_HELLO →
  wp (teadfs_user_request_kernel d) (λ _ s', said_hello s d s') s.
Proof.
  intros Hn Hd Hty. pose proof (get_hello_size d Hd) as Hsz.
  apply wp_bind, wp_stack_alloc. intros r Hr.
  apply wp_bind, wp_skb_fld; [done|dgram|]. rewrite Hty, Z.eqb_refl.
  apply wp_bind, wp_bind, wp_skb_load; [apply in_range_spec; dgram|].
  replace NLMSG_HDRLEN with (NLMSG_HDRLEN + 0) by lia. rewrite slice_payload by done.
  assert (Hhb : blen (slice 0 sizeof_packet_header (payload d)) = sizeof_packet_header).
  { apply blen_slice, in_range_spec. rewrite blen_payload by dgram. dgram. }
  apply wp_bind. eapply wp_store_bytes; [apply live_upd_eq| |].
  { apply in_range_spec. rewrite Hhb, blen_junk_bytes by done. pkt_consts. lia. }
  rewrite upd_upd.
  apply wp_bind. eapply wp_store_fld; [apply live_upd_eq|by apply fld_in_sized|].
  apply wp_bind. eapply wp_store_fld; [apply live_upd_eq|auto with tead_pkt|]. rewrite !upd_upd.
  apply wp_bind, wp_skb_fld; [done|dgram|]. apply wp_bind, wp_modify.
  fold (hello_reply d).
  assert (Hl : pkt_sized (hello_reply d)) by (unfold hello_reply; auto with tead_pkt).
  apply wp_bind. eapply wp_load_int; [apply live_upd_eq|auto with tead_pkt|].
  assert (Hgs : s32 (get h_size (hello_reply d)) = blen (hello_reply d)).
  { unfold hello_reply. autorewrite with tead_get. rewrite blen_splice.
    - by rewrite blen_junk_bytes.
    - apply in_range_spec. rewrite Hhb, blen_junk_bytes by done. pkt_consts. lia. }
  rewrite Hgs. apply wp_bind. eapply wp_send_to_user; [done|apply live_upd_eq|done|].
  intros _. apply wp_ret. eapply wp_free; [apply live_upd_eq|].
  split_and!; [done|done| |done]. apply delete_insert_id. done.
Qed.

(** C28: a reply reaches the request it answers and no other: the context that
    waits for its id becomes done and gets the datagram's payload in a block of
    its own; every other block, the queue and the packets sent stay as they
    were. *)
Theorem reply_routed (s : kstate) (q1 q2 : list positive) (c : positive)
    (ctx : teadfs_msg_ctx) (d : bytes) :
  kzalloc_total → is_reply d → ks_queue s = q1 ++ c :: q2 →
  no_waiter s q1 (dgram_id d) → live s !! c = Some (OCtx ctx) → msg_id ctx = dgram_id d →
  wp (teadfs_netlink_receive d) (λ _ s', ∃ r, live s !! r = None ∧
    live s' = <[r := OBytes (payload d ++ zeros NLMSG_HDRLEN)]>
                (<[c := OCtx (MsgCtx TEADFS_MSG_CTX_STATE_DONE (msg_id ctx) (request_msg_size ctx)
                          (request_msg ctx) (blen d - NLMSG_HDRLEN) (Ptr r 0))]> (live s)) ∧
    ks_queue s' = ks_queue s ∧ ks_sent s' = ks_sent s ∧ ks_global s' = ks_global s) s.
Proof.
  intros Ht Hd Hq Hw Hc Hid. eapply wp_receive_match; [done..|].
  eapply wp_reply_deliver; [by destruct Hd|done| |by rewrite Ht].
  intros _ r Hr. by exists r.
Qed.

(** A reply nobody waits for is dropped. *)
Theorem reply_unmatched (s : kstate) (d : bytes) :
  is_reply d → no_waiter s (ks_queue s) (dgram_id d) → teadfs_netlink_receive d s = Ret () s.
Proof.
  intros Hd Hw. assert (wp (teadfs_netlink_receive d) (λ u s', u = () ∧ s' = s) s) as Hwp
    by by apply wp_receive_foreign.
  apply wp_elim in Hwp as (? & ? & E & -> & ->). exact E.
Qed.

(** Two replies to one request, both received before it wakes up: the
    second block replaces the first in the context, and the first stays
    allocated with no pointer to it left in the context. *)
Theorem duplicate_reply_leaks (s : kstate) (q1 q2 : list positive) (c : positive)
    (ctx : teadfs_msg_ctx) (d1 d2 : bytes) :
  kzalloc_total → is_reply d1 → is_reply d2 → dgram_id d2 = dgram_id d1 →
  ks_queue s = q1 ++ c :: q2 → no_waiter s q1 (dgram_id d1) →
  live s !! c = Some (OCtx ctx) → msg_id ctx = dgram_id d1 →
  wp (receive_all [d1; d2]) (λ _ s', ∃ r1 r2, r1 ≠ r2 ∧
    live s !! r1 = None ∧ live s !! r2 = None ∧
    live s' !! c = Some (OCtx (ctx_done ctx (blen d2 - NLMSG_HDRLEN) (Ptr r2 0))) ∧
    live s' !! r2 = Some (OBytes (reply_block d2)) ∧
    live s' !! r1 = Some (OBytes (reply_block d1))) s.
Proof.
  intros Ht Hd1 Hd2 Hid Hq Hw Hc Hctx. cbn [receive_all].
  apply wp_bind. eapply wp_receive_match; [done..|].
  eapply wp_reply_deliver; [by destruct Hd1|done| |by rewrite Ht].
  intros _ r1 Hr1. assert (c ≠ r1) by congruence.
  assert (Hc1 : live (upd r1 (OBytes (reply_block d1))
      (upd c (OCtx (ctx_done ctx (blen d1 - NLMSG_HDRLEN) (Ptr r1 0))) (tick s))) !! c =
    Some (OCtx (ctx_done ctx (blen d1 - NLMSG_HDRLEN) (Ptr r1 0)))).
  { rewrite live_upd_ne by done. apply live_upd_eq. }
  apply wp_bind. eapply (wp_receive_match q1 c q2); [done|exact Hq| |exact Hc1|simpl; congruence|].
  { rewrite Hid. unfold no_waiter in *. eapply Forall_impl; [exact Hw|].
    intros c' (id' & (ctx' & Hc' & <-) & Hne).
    destruct (decide (c' = c)) as [->|]; [congruence|].
    exists (msg_id ctx'). split; [|done]. exists ctx'. split; [|done].
    rewrite !live_upd_ne by congruence. done. }
  eapply wp_reply_deliver; [by destruct Hd2|exact Hc1| |by rewrite Ht].
  intros _ r2 Hr2. rewrite !live_upd in Hr2.
  apply lookup_insert_None in Hr2 as [Hr2 ?]. apply lookup_insert_None in Hr2 as [Hr2 ?].
  apply wp_ret. exists r1, r2. split_and!; [congruence|done|done| | |].
  - rewrite live_upd_ne by congruence. apply live_upd_eq.
  - apply live_upd_eq.
  - rewrite !live_upd_ne by congruence. apply live_upd_eq.
Qed.

(** HELLO makes its sender the client and answers it; CLOSE forgets the
    client.  Neither touches the connection flag, the requests that wait, or
    (once it returns) the heap. *)
Theorem user_request_handled (s : kstate) (d : bytes) :
  nlmsg_total → NLMSG_HDRLEN + sizeof_packet_info ≤ blen d →
  get h_initiator (payload d) = 1 →
  (get h_msg_type (payload d) = PR_MSG_HELLO →
     wp (teadfs_netlink_receive d) (λ _ s', said_hello s d s') s) ∧
  (get h_msg_type (payload d) = PR_MSG_CLOSE →
     wp (teadfs_netlink_receive d) (λ _ s', live s' = live s ∧ ks_queue s' = ks_queue s ∧
       ks_sent s' = ks_sent s ∧
       ks_global s' = GlobalParam (unique_id (ks_global s)) 0 (connect (ks_global s))) s).
Proof.
  intros Hn Hd Hi. split; intros Hty; (apply wp_bind, wp_skb_fld; [done|dgram|]); rewrite Hi, Z.eqb_refl.
  - by apply wp_hello.
  - apply wp_bind, wp_stack_alloc. intros r Hr.
    apply wp_bind, wp_skb_fld; [done|dgram|]. rewrite Hty.
    change (PR_MSG_CLOSE =? PR_MSG_HELLO) with false. rewrite Z.eqb_refl.
    apply wp_bind, wp_modify. eapply wp_free; [apply live_upd_eq|].
    split_and!; [|done|done|done]. by apply delete_insert_id.
Qed.

(** The answer to HELLO carries the last 20 bytes of the kernel stack
    variable as they were: nothing initialises them. *)
Theorem hello_reply_discloses (d : bytes) :
  NLMSG_HDRLEN + sizeof_packet_info ≤ blen d →
  slice 36 20 (hello_reply d) = map junk (seq 36 20).
Proof.
  intros Hd. pose proof (get_hello_size d Hd) as Hsz. unfold hello_reply.
  rewrite slice_put; [|apply fld_in_sized; auto with tead_pkt|done|done|pkt_consts; lia].
  rewrite slice_put; [|by apply fld_in_sized|done|done|pkt_consts; lia].
  assert (Hhb : blen (slice 0 sizeof_packet_header (payload d)) = sizeof_packet_header).
  { apply blen_slice, in_range_spec. rewrite blen_payload by dgram. dgram. }
  rewrite slice_splice_after.
  - unfold slice, junk_bytes. by rewrite skipn_map, firstn_map.
  - rewrite Hhb. pkt_consts. lia.
  - apply in_range_spec. rewrite Hhb, blen_junk_bytes by done. pkt_consts. lia.
Qed.

(** Nothing checks a datagram's length: one that ends before the header's
    initiator byte is read past its end. *)
Theorem short_datagram_overread (s : kstate) (skb : bytes) :
  blen skb < NLMSG_HDRLEN + f_off h_initiator + 1 →
  teadfs_netlink_receive skb s = Ub OutOfBounds.
Proof.
  intros Hl. apply ub_bind. unfold skb_fld. apply ub_bind. unfold skb_load.
  destruct (in_range _ _ skb) eqn:E; [|done].
  apply in_range_spec in E. dgram.
Qed.

End Netlink.
