(* ===== verification/UserCom.v ===== *)
(** [TEADFS/src/user_com.c]: a request to the user process, from the packet it
    builds to the reply it returns. *)
From S2P Require Import Prelude Kernel Protocol Wp GlobalParam Netlink.
Local Open Scope Z_scope.

Definition PATH_MAX : Z := 4096.

Section UserCom.
Context `{KernelEnv}.

(** Blocks until the answer or the timeout.  [wait_event_timeout] lets the
    socket receive; it returns 0 exactly when the state is not DONE at the
    end of the 30 seconds. *)
Definition teadfs_request_wait_answer (c : ptr) : M () :=
  ctx ← load_ctx c;
  if TEADFS_MSG_CTX_STATE_NO_REPLY =? state ctx then
    store_obj c (OCtx (MsgCtx TEADFS_MSG_CTX_STATE_DONE (msg_id ctx)
      (request_msg_size ctx) (request_msg ctx) 0 NULL))
  else
    sent ← gets ks_sent;
    receive_all (deliveries sent);;
    ctx ← load_ctx c;
    if state ctx =? TEADFS_MSG_CTX_STATE_DONE then mret ()
    else
      store_obj c (OCtx (MsgCtx TEADFS_MSG_CTX_STATE_DONE (msg_id ctx)
        (request_msg_size ctx) (request_msg ctx) 0 NULL)).

Definition list_del (c : ptr) (q : list positive) : list positive :=
  match c with NULL => q | Ptr b _ => filter (λ b', b' ≠ b) q end.
Definition list_add_tail (c : ptr) (q : list positive) : list positive :=
  match c with NULL => q | Ptr b _ => q ++ [b] end.

(** The result, and the two output parameters. *)
Definition teadfs_request_send (id request_size : Z) (request_data : ptr)
    (response_size : Z) (response_data : ptr) : M (Z * Z * ptr) :=
  ctx ← zalloc_obj sizeof_msg_ctx (OCtx (MsgCtx TEADFS_MSG_CTX_STATE_PENDING id request_size
    request_data 0 NULL));
  if is_null ctx then mret (- ENOMEM, response_size, response_data)
  else
    modify (set_queue (list_add_tail ctx));;
    teadfs_send_to_user request_data request_size;;
    teadfs_request_wait_answer ctx;;
    c ← load_ctx ctx;
    modify (set_queue (list_del ctx));;
    teadfs_free ctx;;
    mret (0, response_msg_size c, response_msg c).

Definition teadfs_packet_header (packet : ptr) (size msg_type initiator pid uid gid : Z) : M () :=
  store_fld packet h_size size;;
  id ← teadfs_get_next_msg_id;
  store_fld packet h_msg_id id;;
  store_fld packet h_msg_type msg_type;;
  store_fld packet h_initiator initiator;;
  store_fld packet h_pid pid;;
  store_fld packet h_uid uid;;
  store_fld packet h_gid gid.

Definition free_if (p : ptr) : M () := if is_null p then mret () else teadfs_free p.

Definition teadfs_request_open (file_path_start : ptr) (file_path_size file : Z) : M Z :=
  '(rc, response_data, buffer_packet) ← (
    connected ← teadfs_get_client_connect;
    if connected =? 0 then mret (- ENOMEM, NULL, NULL) else
    let kpid := current_tgid in
    client ← teadfs_get_client_pid;
    if kpid =? client then mret (- ENOMEM, NULL, NULL) else
    let buffer_size := s32 (u64 (sizeof_packet_info + file_path_size)) in
    buffer_packet ← teadfs_zalloc (u64 (sizeof_packet_info + file_path_size));
    if is_null buffer_packet then mret (- ENOMEM, NULL, NULL) else
    teadfs_packet_header buffer_packet buffer_size PR_MSG_OPEN 0 kpid 0 0;;
    store_fld buffer_packet open_file_id file;;
    store_fld buffer_packet open_path_size file_path_size;;
    store_fld buffer_packet open_path_offset sizeof_packet_info;;
    memcpy (padd buffer_packet sizeof_packet_info) file_path_start file_path_size;;
    id ← load_fld buffer_packet h_msg_id;
    '(rc, response_size, response_data) ←
      teadfs_request_send id buffer_size buffer_packet 0 NULL;
    if negb (rc =? 0) then mret (- ENOMEM, response_data, buffer_packet) else
    if is_null response_data || (response_size <? sizeof_packet_info)
    then mret (- ENOMEM, response_data, buffer_packet) else
    code ← load_int response_data error_code;
    mret (code, response_data, buffer_packet));
  free_if response_data;;
  free_if buffer_packet;;
  mret rc.

(** [d_path] into [buf]; [None] is an error pointer. *)
Definition d_path_into (p : path) (buf : ptr) (buflen : Z) : M (option ptr) :=
  match d_path p buflen with
  | None => mret None
  | Some (o, contents) => store_bytes buf contents;; mret (Some (padd buf o))
  end.
(** [strlen] of what [d_path] returned. *)
Definition path_strlen (p : option ptr) : M Z :=
  match p with None => fail_ub WildPointer | Some p => strlen p end.

Definition teadfs_request_open_file (file_addr : Z) (f_path : path) (file_info : ptr) : M Z :=
  rc ← (
    buf ← teadfs_zalloc PATH_MAX;
    fi ← load_file_info file_info;
    store_obj file_info (OFileInfo (FileInfo (lower_file fi) (access fi) (file_path fi)
      (file_path_length fi) buf));;
    if is_null buf then mret (- ENOMEM) else
    start ← d_path_into f_path buf PATH_MAX;
    len ← path_strlen start;
    let p := default NULL start in
    store_obj file_info (OFileInfo (FileInfo (lower_file fi) (access fi) p len buf));;
    teadfs_request_open p len file_addr);
  if rc <? 0 then mret OFR_INIT else mret rc.

Definition teadfs_request_open_path (f_path : path) : M Z :=
  '(rc, buffer_file_path) ← (
    buf ← teadfs_zalloc PATH_MAX;
    if is_null buf then mret (- ENOMEM, buf) else
    start ← d_path_into f_path buf PATH_MAX;
    len ← path_strlen start;
    rc ← teadfs_request_open (default NULL start) len 0;
    mret (rc, buf));
  free_if buffer_file_path;;
  mret rc.

(** [file]: its address, and the two parts of its path, when it is not null. *)
Definition teadfs_request_release (file_path_start : ptr) (file_path_size : Z)
    (file : option (Z * path)) : M Z :=
  '(rc, response_data, buffer_packet) ← (
    connected ← teadfs_get_client_connect;
    if connected =? 0 then mret (- ENOMEM, NULL, NULL) else
    match file with
    | Some (file_addr, Path (Some _) (Some _)) =>
      let kpid := current_tgid in
      client ← teadfs_get_client_pid;
      if kpid =? client then mret (- ENOMEM, NULL, NULL) else
      let buffer_size := s32 (u64 (sizeof_packet_info + file_path_size)) in
      buffer_packet ← teadfs_zalloc (u64 (sizeof_packet_info + file_path_size));
      if is_null buffer_packet then mret (- ENOMEM, NULL, NULL) else
      teadfs_packet_header buffer_packet buffer_size PR_MSG_RELEASE 0 kpid 0 0;;
      store_fld buffer_packet release_file_id file_addr;;
      store_fld buffer_packet release_path_size file_path_size;;
      store_fld buffer_packet release_path_offset sizeof_packet_info;;
      memcpy (padd buffer_packet sizeof_packet_info) file_path_start file_path_size;;
      id ← load_fld buffer_packet h_msg_id;
      '(rc, response_size, response_data) ←
        teadfs_request_send id buffer_size buffer_packet 0 NULL;
      if negb (rc =? 0) then mret (- ENOMEM, response_data, buffer_packet) else
      if is_null response_data || (response_size <? sizeof_packet_info)
      then mret (- ENOMEM, response_data, buffer_packet) else
      code ← load_int response_data error_code;
      mret (code, response_data, buffer_packet)
    | _ => mret (- ENOMEM, NULL, NULL)
    end);
  free_if response_data;;
  free_if buffer_packet;;
  mret rc.

Definition teadfs_request_read (offset : Z) (src_data : ptr) (src_size : Z)
    (dst_data : ptr) (dst_size : Z) : M Z :=
  '(rc, response_data) ← (
    connected ← teadfs_get_client_connect;
    if connected =? 0 then mret (- ENOMEM, NULL) else
    let kpid := current_tgid in
    client ← teadfs_get_client_pid;
    if kpid =? client then mret (- ENOMEM, NULL) else
    let buffer_size := s32 (u64 (sizeof_packet_info + src_size)) in
    buffer ← teadfs_zalloc buffer_size;
    if is_null buffer then mret (- ENOMEM, NULL) else
    teadfs_packet_header buffer buffer_size PR_MSG_READ 0 kpid 0 0;;
    store_fld buffer read_offset offset;;
    store_fld buffer read_code 0;;
    store_fld buffer read_data_size src_size;;
    store_fld buffer read_data_offset sizeof_packet_info;;
    memcpy (padd buffer sizeof_packet_info) src_data src_size;;
    id ← load_fld buffer h_msg_id;
    '(rc, response_size, response_data) ←
      teadfs_request_send id buffer_size buffer 0 NULL;
    if negb (rc =? 0) then mret (- ENOMEM, response_data) else
    if is_null response_data || (response_size <? sizeof_packet_info)
    then mret (- ENOMEM, response_data) else
    code ← load_int response_data read_code;
    if negb (code =? 0) then mret (- ENOMEM, response_data) else
    size ← load_fld response_data read_data_size;
    if negb (response_size =? u64 (sizeof_packet_info + size))
    then mret (- ENOMEM, response_data) else
    wsize ← load_fld response_data write_data_size;
    if u32 dst_size <? wsize then mret (- ENOMEM, response_data) else
    off ← load_fld response_data read_data_offset;
    memcpy dst_data (padd response_data off) size;;
    mret (s32 size, response_data));
  free_if response_data;;
  mret rc.

Definition teadfs_request_write (offset : Z) (src_data : ptr) (src_size : Z)
    (dst_data : ptr) (dst_size : Z) : M Z :=
  connected ← teadfs_get_client_connect;
  if connected =? 0 then mret (- ENOMEM) else
  let kpid := current_tgid in
  client ← teadfs_get_client_pid;
  if kpid =? client then mret (- ENOMEM) else
  let buffer_size := s32 (u64 (sizeof_packet_info + src_size)) in
  buffer ← teadfs_zalloc buffer_size;
  if is_null buffer then mret (- ENOMEM) else
  teadfs_packet_header buffer buffer_size PR_MSG_WRITE 0 kpid 0 0;;
  store_fld buffer write_offset offset;;
  store_fld buffer write_code 0;;
  store_fld buffer write_data_size src_size;;
  store_fld buffer write_data_offset sizeof_packet_info;;
  memcpy (padd buffer sizeof_packet_info) src_data src_size;;
  id ← load_fld buffer h_msg_id;
  '(rc, response_size, response_data) ←
    teadfs_request_send id buffer_size buffer 0 NULL;
  if negb (rc =? 0) then mret (- ENOMEM) else
  if is_null response_data || (response_size <? sizeof_packet_info)
  then mret (- ENOMEM) else
  code ← load_int response_data write_code;
  if negb (code =? 0) then mret (- ENOMEM) else
  size ← load_fld response_data write_data_size;
  if negb (response_size =? u64 (sizeof_packet_info + size)) then mret (- ENOMEM) else
  wsize ← load_fld response_data write_data_size;
  if u32 dst_size <? wsize then mret (- ENOMEM) else
  off ← load_fld response_data write_data_offset;
  memcpy dst_data (padd response_data off) size;;
  free_if response_data;;
  (* line 480 reads the packet again, after the block is freed *)
  size ← load_fld response_data write_data_size;
  mret (s32 size).

Definition teadfs_request_delete (dentry : option positive) : M Z := mret 0.

(** ** What a request leaves alone

    Everything but the heap, the message counter and the sent datagrams; and
    no freed storage was read. *)
Record comm_frame (s s' : kstate) : Prop := CommFrame {
  cf_queue : ks_queue s' = ks_queue s;
  cf_lfs : ks_lfs s' = ks_lfs s;
  cf_files : ks_files s' = ks_files s;
  cf_inodes : ks_inodes s' = ks_inodes s;
  cf_dentries : ks_dentries s' = ks_dentries s;
  cf_pages : ks_pages s' = ks_pages s;
  cf_supers : ks_supers s' = ks_supers s;
  cf_refs : ks_refs s' = ks_refs s;
  cf_locks : ks_locks s' = ks_locks s;
  cf_calls : ks_calls s' = ks_calls s;
  cf_pid : pid (ks_global s') = pid (ks_global s);
  cf_connect : connect (ks_global s') = connect (ks_global s);
  cf_uaf : m_uaf (ks_mem s') = m_uaf (ks_mem s);
}.

#[export] Instance comm_frame_preorder : PreOrder comm_frame.
Proof.
  split.
  - by intros s.
  - intros s1 s2 s3 [] []. split; etrans; eauto.
Qed.

(** ** Replies

    The datagrams the socket receives during the wait for message [id]: all of
    them are replies, at most one of them to [id], none to another request
    that is waiting. *)
Definition foreign (s : kstate) (id : Z) (d : bytes) : Prop :=
  is_reply d ∧ dgram_id d ≠ id ∧ no_waiter s (ks_queue s) (dgram_id d).

Definition answers (s : kstate) (id : Z) (ds : list bytes) (ans : option bytes) : Prop :=
  match ans with
  | None => Forall (foreign s id) ds
  | Some d => ∃ ds1 ds2, ds = ds1 ++ d :: ds2 ∧ Forall (foreign s id) ds1 ∧
                Forall (foreign s id) ds2 ∧ is_reply d ∧ dgram_id d = id
  end.

Definition alloc_fails : Prop := ∃ k z, kzalloc_ok k z = false.

Lemma no_waiter_fresh s q id c : no_waiter s q id → live s !! c = None → c ∉ q.
Proof.
  intros Hq Hc Hin. unfold no_waiter in Hq. rewrite Forall_forall in Hq. specialize (Hq c Hin).
  destruct Hq as (? & (ctx & E & _) & _). congruence.
Qed.

Lemma no_waiter_mono s s' q id :
  (∀ c, c ∈ q → live s' !! c = live s !! c) → no_waiter s q id → no_waiter s' q id.
Proof.
  intros Hl. unfold no_waiter. rewrite !Forall_forall. intros Hq c Hc.
  destruct (Hq c Hc) as (id' & (ctx & E & ?) & ?).
  exists id'. split; [|done]. exists ctx. by rewrite Hl.
Qed.

Lemma wp_receive_all_foreign ds (Q : () → kstate → Prop) s :
  Forall (λ d, is_reply d ∧ no_waiter s (ks_queue s) (dgram_id d)) ds →
  Q () s → wp (receive_all ds) Q s.
Proof.
  intros Hds HQ. induction Hds as [|d ds [Hd Hw] _ IH]; [done|].
  apply wp_bind. by apply wp_receive_foreign.
Qed.

Lemma wp_receive_all_app ds1 ds2 (Q : () → kstate → Prop) s :
  wp (receive_all ds1;; receive_all ds2) Q s → wp (receive_all (ds1 ++ ds2)) Q s.
Proof.
  revert s. induction ds1 as [|d ds1 IH]; intros s; [done|]. simpl.
  unfold wp, mbind, M_bind in *. destruct (teadfs_netlink_receive d s); [apply IH|done].
Qed.

Lemma list_del_tail c o q : c ∉ q → list_del (Ptr c o) (q ++ [c]) = q.
Proof.
  intros Hc. unfold list_del. rewrite filter_app, (filter_cons_False _ c []), filter_nil, app_nil_r by tauto.
  induction q as [|b q IH]; [done|].
  apply not_elem_of_cons in Hc as [Hne Hc]. rewrite filter_cons_True by done. by rewrite IH.
Qed.

Inductive send_post (s : kstate) (req : bytes) (ans : option bytes) :
    Z * Z * ptr → kstate → Prop :=
  | SP_nomem s' :
      alloc_fails → live s' = live s → ks_sent s' = ks_sent s →
      ks_global s' = ks_global s → comm_frame s s' →
      send_post s req ans (- ENOMEM, 0, NULL) s'
  | SP_none s' :
      ans = None ∨ alloc_fails → live s' = live s →
      ks_sent s' = ks_sent s ++ [(pid (ks_global s), req)] →
      ks_global s' = ks_global s → comm_frame s s' →
      send_post s req ans (0, 0, NULL) s'
  | SP_reply s' r d :
      ans = Some d → live s !! r = None →
      live s' = <[r := OBytes (reply_block d)]> (live s) →
      ks_sent s' = ks_sent s ++ [(pid (ks_global s), req)] →
      ks_global s' = ks_global s → comm_frame s s' →
      send_post s req ans (0, blen d - NLMSG_HDRLEN, Ptr r 0) s'.

(** The state after the context is queued and the request is on its way. *)
Definition waiting (s : kstate) (c : positive) (ctx : teadfs_msg_ctx) (req : bytes) : kstate :=
  upd c (OCtx ctx) (tick (tick
    (set_sent (λ l, l ++ [(pid (ks_global s), req)]) (set_queue (λ q, q ++ [c]) s)))).

Lemma live_waiting s c ctx req : live (waiting s c ctx req) = <[c := OCtx ctx]> (live s).
Proof. done. Qed.
Lemma live_waiting_eq s c ctx req : live (waiting s c ctx req) !! c = Some (OCtx ctx).
Proof. apply lookup_insert_eq. Qed.
Lemma live_waiting_ne s c ctx req c' : c ≠ c' → live (waiting s c ctx req) !! c' = live s !! c'.
Proof. apply lookup_insert_ne. Qed.

Lemma wp_send_finish s c ctx req live' (Q : Z * Z * ptr → kstate → Prop) s' :
  live s !! c = None → c ∉ ks_queue s →
  ks_queue s' = ks_queue s ++ [c] → live s' !! c = Some (OCtx ctx) →
  delete c (live s') = live' → ks_sent s' = ks_sent s ++ [(pid (ks_global s), req)] →
  ks_global s' = ks_global s → ks_lfs s' = ks_lfs s → ks_files s' = ks_files s →
  ks_inodes s' = ks_inodes s → ks_dentries s' = ks_dentries s → ks_pages s' = ks_pages s →
  ks_supers s' = ks_supers s → ks_refs s' = ks_refs s → ks_locks s' = ks_locks s →
  ks_calls s' = ks_calls s →
  m_uaf (ks_mem s') = m_uaf (ks_mem s) →
  (∀ s'', live s'' = live' → ks_sent s'' = ks_sent s ++ [(pid (ks_global s), req)] →
     ks_global s'' = ks_global s → comm_frame s s'' →
     Q (0, response_msg_size ctx, response_msg ctx) s'') →
  wp (c0 ← load_ctx (Ptr c 0);
      modify (set_queue (list_del (Ptr c 0)));;
      teadfs_free (Ptr c 0);;
      mret (0, response_msg_size c0, response_msg c0)) Q s'.
Proof.
  intros Hc Hcq Hq Hl Hd Hs Hg Hlfs Hf Hi Hde Hpg Hsb Hrf Hlk Hca Hu HQ.
  apply wp_bind. eapply wp_load_ctx; [done|].
  apply wp_bind, wp_modify, wp_bind. eapply wp_free; [done|].
  apply wp_ret, HQ; [exact Hd|done|done|].
  split; simpl; try done; try congruence.
  unfold set_mem, set_queue. simpl. rewrite Hq. by apply (list_del_tail c 0).
Qed.

(** Datagrams for other requests leave the waiting state alone, and so does
    any state that only changed the context or added a fresh block. *)
Lemma foreign_harmless s s' c id ctx ds (Q : () → kstate → Prop) :
  Forall (foreign s id) ds → ks_queue s' = ks_queue s ++ [c] →
  live s' !! c = Some (OCtx ctx) → msg_id ctx = id →
  (∀ c', c' ∈ ks_queue s → live s' !! c' = live s !! c') →
  Q () s' → wp (receive_all ds) Q s'.
Proof.
  intros Hds Hq Hc Hid Hl HQ. apply wp_receive_all_foreign; [|done].
  eapply Forall_impl; [exact Hds|]. intros d (Hd & Hne & Hw). split; [done|].
  rewrite Hq. apply Forall_app. split; [by eapply no_waiter_mono|].
  apply Forall_singleton. exists id. split; [by exists ctx|done].
Qed.

Lemma wp_wait_answer id req ans c n b (Q : () → kstate → Prop) s :
  let ctx := MsgCtx TEADFS_MSG_CTX_STATE_PENDING id n (Ptr b 0) 0 NULL in
  live s !! c = None → no_waiter s (ks_queue s) id →
  answers s id (deliveries (ks_sent s ++ [(pid (ks_global s), req)])) ans →
  (ans = None ∨ alloc_fails → ∀ s' ctx', response_msg_size ctx' = 0 → response_msg ctx' = NULL →
     s' = upd c (OCtx ctx') (waiting s c ctx req) ∨
     s' = upd c (OCtx ctx') (tick (waiting s c ctx req)) → Q () s') →
  (∀ d r, ans = Some d → live s !! r = None → c ≠ r →
     Q () (upd r (OBytes (reply_block d))
       (upd c (OCtx (ctx_done ctx (blen d - NLMSG_HDRLEN) (Ptr r 0))) (tick (waiting s c ctx req))))) →
  wp (teadfs_request_wait_answer (Ptr c 0)) Q (waiting s c ctx req).
Proof.
  intros ctx Hc Hid Hans Hnone Hsome.
  pose proof (no_waiter_fresh _ _ _ _ Hid Hc) as Hcq.
  assert (Hne : ∀ c', c' ∈ ks_queue s → c ≠ c') by (intros c' ? ->; done).
  apply wp_bind. eapply wp_load_ctx; [apply live_waiting_eq|]. simpl.
  apply wp_bind, wp_gets, wp_bind.
  change (ks_sent (waiting s c ctx req)) with (ks_sent s ++ [(pid (ks_global s), req)]).
  destruct ans as [d|]; simpl in Hans.
  - destruct Hans as (ds1 & ds2 & -> & H1 & H2 & Hd & Hdid).
    apply wp_receive_all_app, wp_bind.
    eapply foreign_harmless; [done|done|apply live_waiting_eq|done| |].
    { intros c' Hc'. by apply live_waiting_ne, Hne. }
    apply wp_bind. eapply (wp_receive_match (ks_queue s) c []); [done|done| |apply live_waiting_eq|done|].
    { rewrite Hdid. eapply no_waiter_mono; [|done]. intros c' Hc'. by apply live_waiting_ne, Hne. }
    eapply wp_reply_deliver; [by destruct Hd|apply live_waiting_eq| |].
    + intros _ r Hr. rewrite live_waiting in Hr. apply lookup_insert_None in Hr as [Hr Hrc].
      assert (∀ c', c' ∈ ks_queue s → r ≠ c').
      { intros c' ? ->. by eapply no_waiter_fresh in Hid. }
      eapply foreign_harmless; [done|done|rewrite live_upd_ne by done; apply live_upd_eq|done| |].
      { intros c' Hc'. rewrite !live_upd_ne by auto. by apply live_waiting_ne, Hne. }
      apply wp_bind. eapply wp_load_ctx; [rewrite live_upd_ne by done; apply live_upd_eq|].
      simpl. apply wp_ret. by apply Hsome.
    + intros Ha. eapply foreign_harmless; [done|done|apply live_upd_eq|done| |].
      { intros c' Hc'. rewrite live_upd_ne by auto. by apply live_waiting_ne, Hne. }
      apply wp_bind. eapply wp_load_ctx; [apply live_upd_eq|]. simpl. apply wp_ret.
      eapply Hnone; [right; by do 2 eexists| | |by right]; done.
  - eapply foreign_harmless; [done|done|apply live_waiting_eq|done| |].
    { intros c' Hc'. by apply live_waiting_ne, Hne. }
    apply wp_bind. eapply wp_load_ctx; [apply live_waiting_eq|]. simpl.
    eapply wp_store_obj; [apply live_waiting_eq|].
    eapply Hnone; [by left| | |by left]; done.
Qed.

Lemma wp_request_send id n b req ans s :
  nlmsg_total → live s !! b = Some (OBytes req) → blen req = n →
  no_waiter s (ks_queue s) id →
  answers s id (deliveries (ks_sent s ++ [(pid (ks_global s), req)])) ans →
  wp (teadfs_request_send id n (Ptr b 0) 0 NULL) (send_post s req ans) s.
Proof.
  intros Hn Hb Hl Hid Hans. apply wp_bind, wp_zalloc_obj.
  2: { intros Ha. apply wp_ret. apply SP_nomem; try done. by do 2 eexists. }
  intros _ c Hc. rewrite is_null_ptr.
  pose proof (no_waiter_fresh _ _ _ _ Hid Hc) as Hcq.
  assert (b ≠ c) by congruence.
  apply wp_bind, wp_modify, wp_bind.
  eapply wp_send_to_user; [done|rewrite <- Hb; by apply lookup_insert_ne|done|]. intros _.
  apply wp_bind.
  match goal with |- wp _ _ ?s1 => change s1 with
    (waiting s c (MsgCtx TEADFS_MSG_CTX_STATE_PENDING id n (Ptr b 0) 0 NULL) req) end.
  eapply wp_wait_answer; [done|done|exact Hans| |].
  - intros Hnone s' ctx' Hsz Hrm Hs'.
    eapply (wp_send_finish s c ctx' req (live s)); try done; try (by destruct Hs' as [-> | ->]).
    + destruct Hs' as [-> | ->]; apply live_upd_eq.
    + destruct Hs' as [-> | ->]; unfold waiting; rewrite live_upd, delete_insert_eq;
        rewrite ?live_upd; unfold live; simpl; rewrite delete_insert_id; done.
    + intros s'' ????. rewrite Hsz, Hrm. by apply SP_none.
  - intros d r -> Hr Hrc.
    eapply (wp_send_finish s c); [done|done|done|rewrite live_upd_ne by done; apply live_upd_eq|done..|].
    intros s'' Hl' ???. eapply SP_reply; try done. rewrite Hl', !live_upd.
    rewrite delete_insert_ne, delete_insert_eq by done.
    unfold waiting. unfold live at 1, tick at 1, set_mem, mem_tick. simpl.
    rewrite delete_insert_id by done. done.
Qed.

End UserCom.
