(* ===== verification/Requests.v ===== *)
(** What the requests of [user_com.c] promise: the packets they send, the
    results they return on every reply, and what they leave on the heap. *)
From S2P Require Import Prelude Kernel Protocol Wp GlobalParam Netlink UserCom.
Local Open Scope Z_scope.

(** * Packets *)

Definition header_put (size id ty ini kpid : Z) (bs : bytes) : bytes :=
  put h_gid 0 (put h_uid 0 (put h_pid kpid (put h_initiator ini (put h_msg_type ty
    (put h_msg_id id (put h_size size bs)))))).

(** An OPEN or RELEASE packet, without and with its path. *)
Definition path_head (ty id kpid file n : Z) : bytes :=
  put open_path_offset sizeof_packet_info (put open_path_size n
    (put open_file_id file
      (header_put (sizeof_packet_info + n) id ty 0 kpid (zeros (sizeof_packet_info + n))))).
Definition path_packet (ty id kpid file : Z) (path : bytes) : bytes :=
  splice sizeof_packet_info path (path_head ty id kpid file (blen path)).

(** A READ or WRITE packet. *)
Definition data_head (ty id kpid offset n : Z) : bytes :=
  put read_data_offset sizeof_packet_info (put read_data_size n
    (put read_code 0 (put read_offset offset
      (header_put (sizeof_packet_info + n) id ty 0 kpid (zeros (sizeof_packet_info + n)))))).
Definition data_packet (ty id kpid offset : Z) (bs : bytes) : bytes :=
  splice sizeof_packet_info bs (data_head ty id kpid offset (blen bs)).

Lemma header_put_sized size id ty ini kpid bs :
  pkt_sized bs → pkt_sized (header_put size id ty ini kpid bs).
Proof. unfold header_put. auto 20 with tead_pkt. Qed.

Lemma blen_header_put size id ty ini kpid bs :
  pkt_sized bs → blen (header_put size id ty ini kpid bs) = blen bs.
Proof. intros. unfold header_put. by autorewrite with tead_get. Qed.
#[export] Hint Resolve header_put_sized : tead_pkt.
#[export] Hint Rewrite blen_header_put using (solve [auto 20 with tead_pkt]) : tead_get.

Lemma sized_zeros n : 0 ≤ n → pkt_sized (zeros (sizeof_packet_info + n)).
Proof. intros. apply zeros_sized. lia. Qed.
#[export] Hint Resolve sized_zeros : tead_pkt.

Lemma blen_path_head ty id kpid file n : 0 ≤ n →
  blen (path_head ty id kpid file n) = sizeof_packet_info + n.
Proof.
  intros. unfold path_head. autorewrite with tead_get.
  apply blen_zeros. pkt_consts. lia.
Qed.

Lemma blen_data_head ty id kpid offset n : 0 ≤ n →
  blen (data_head ty id kpid offset n) = sizeof_packet_info + n.
Proof.
  intros. unfold data_head. autorewrite with tead_get.
  apply blen_zeros. pkt_consts. lia.
Qed.

Lemma get_path_packet f ty id kpid file path : fld_ok f = true →
  get f (path_packet ty id kpid file path) = get f (path_head ty id kpid file (blen path)).
Proof.
  intros. apply get_splice_data; [done|].
  rewrite blen_path_head; [done|apply blen_nonneg].
Qed.

Lemma get_data_packet f ty id kpid offset bs : fld_ok f = true →
  get f (data_packet ty id kpid offset bs) = get f (data_head ty id kpid offset (blen bs)).
Proof.
  intros. apply get_splice_data; [done|].
  rewrite blen_data_head; [done|apply blen_nonneg].
Qed.

Lemma blen_path_packet ty id kpid file path :
  blen (path_packet ty id kpid file path) = sizeof_packet_info + blen path.
Proof.
  pose proof (blen_nonneg path). unfold path_packet.
  rewrite blen_splice; rewrite ?blen_path_head by done; [done|].
  apply in_range_spec. rewrite blen_path_head by done. pkt_consts. lia.
Qed.

Lemma blen_data_packet ty id kpid offset bs :
  blen (data_packet ty id kpid offset bs) = sizeof_packet_info + blen bs.
Proof.
  pose proof (blen_nonneg bs). unfold data_packet.
  rewrite blen_splice; rewrite ?blen_data_head by done; [done|].
  apply in_range_spec. rewrite blen_data_head by done. pkt_consts. lia.
Qed.

(** * Symbolic execution of the request functions *)

Section Requests.
Context `{KernelEnv}.

Definition next_id (s : kstate) : Z := next_unique_id (unique_id (ks_global s)).
Definition bump (s : kstate) : kstate :=
  set_global (λ g, GlobalParam (next_id s) (pid g) (connect g)) s.

Lemma wp_packet_header b size ty ini kpid bs (Q : () → kstate → Prop) s :
  live s !! b = Some (OBytes bs) → pkt_sized bs →
  Q () (upd b (OBytes (header_put size (next_id s) ty ini kpid bs)) (bump s)) →
  wp (teadfs_packet_header (Ptr b 0) size ty ini kpid 0 0) Q s.
Proof.
  intros Hb Hs HQ. unfold teadfs_packet_header.
  apply wp_bind. eapply wp_store_fld; [done|auto with tead_pkt|].
  apply wp_bind, wp_get_next_msg_id. cbn zeta.
  repeat (apply wp_bind; eapply wp_store_fld;
    [apply live_upd_eq|auto 20 with tead_pkt|rewrite ?upd_upd]).
  eapply wp_store_fld; [apply live_upd_eq|auto 20 with tead_pkt|].
  rewrite !upd_upd. rewrite <- (upd_upd b (OBytes (put h_size size bs))) in HQ. exact HQ.
Qed.

Lemma wp_free_if_null (Q : () → kstate → Prop) s : Q () s → wp (free_if NULL) Q s.
Proof. done. Qed.

Lemma wp_free_if b ob (Q : () → kstate → Prop) s :
  live s !! b = Some ob → Q () (set_mem (mem_kill b ob) s) → wp (free_if (Ptr b 0)) Q s.
Proof. intros. unfold free_if. rewrite is_null_ptr. by eapply wp_free. Qed.

(** Replies are judged against the queue and the contexts only. *)
Lemma answers_mono s s' id ds ans :
  ks_queue s' = ks_queue s →
  (∀ c, c ∈ ks_queue s → live s' !! c = live s !! c) →
  answers s id ds ans → answers s' id ds ans.
Proof.
  intros Hq Hl.
  assert (Hf : ∀ d, foreign s id d → foreign s' id d).
  { intros d (? & ? & Hw). split_and!; [done|done|]. rewrite Hq.
    eapply no_waiter_mono; [exact Hl|done]. }
  assert (HF : ∀ l, Forall (foreign s id) l → Forall (foreign s' id) l).
  { intros l Hl'. by eapply Forall_impl. }
  destruct ans as [d|]; simpl; [|auto].
  intros (ds1 & ds2 & ? & ? & ? & ? & ?). exists ds1, ds2. auto.
Qed.

(** The state in which the request buffer [b] is complete. *)
Definition built (s : kstate) (b : positive) (req : bytes) : kstate :=
  upd b (OBytes req) (bump (tick s)).

Lemma comm_frame_built s b req : comm_frame s (built s b req).
Proof. by split. Qed.

Lemma live_built s b req : live (built s b req) = <[b := OBytes req]> (live s).
Proof. done. Qed.

(** What a request function needs of the state it is called in, for the
    packet [req] it is going to send and the answer [ans] to it. *)
Record req_pre (s : kstate) (req : bytes) (ans : option bytes) : Prop := ReqPre {
  rp_nlmsg : nlmsg_total;
  rp_waiters : no_waiter s (ks_queue s) (next_id s);
  rp_answers : answers s (next_id s)
    (deliveries (ks_sent s ++ [(pid (ks_global s), req)])) ans;
}.

Lemma wp_send_built s b req n ans (Q : Z * Z * ptr → kstate → Prop) :
  req_pre s req ans → live s !! b = None → blen req = n →
  (∀ r s', send_post (built s b req) req ans r s' → Q r s') →
  wp (teadfs_request_send (next_id s) n (Ptr b 0) 0 NULL) Q (built s b req).
Proof.
  intros [Hn Hw Ha] Hb Hl HQ.
  assert (Hq : ∀ c, c ∈ ks_queue s → live (built s b req) !! c = live s !! c).
  { intros c Hc. apply lookup_insert_ne. intros ->. by eapply no_waiter_fresh in Hw. }
  eapply wp_mono; [|exact HQ]. eapply wp_request_send; [done|apply live_upd_eq|done| |].
  - eapply no_waiter_mono; [exact Hq|done].
  - eapply (answers_mono s); [done|exact Hq|exact Ha].
Qed.

(** The result of an OPEN or RELEASE: the error code of the reply. *)
Definition code_result (ans : option bytes) : Z :=
  match ans with
  | Some d => if blen (payload d) <? sizeof_packet_info then - ENOMEM
              else s32 (get error_code (payload d))
  | None => - ENOMEM
  end.

Definition code_post (s : kstate) (req : bytes) (ans : option bytes) (rc : Z) (s' : kstate) : Prop :=
  live s' = live s ∧ comm_frame s s' ∧
  ((alloc_fails ∧ rc = - ENOMEM ∧
    (ks_sent s' = ks_sent s ∨ ks_sent s' = ks_sent s ++ [(pid (ks_global s), req)])) ∨
   (ks_sent s' = ks_sent s ++ [(pid (ks_global s), req)] ∧ rc = code_result ans)).

(** From the send to the end of [teadfs_request_open]/[_release]. *)
Lemma wp_code_tail s b req n ans :
  req_pre s req ans → live s !! b = None → blen req = n →
  wp ('(rc, response_data, buffer_packet) ← (
        '(rc, response_size, response_data) ←
          teadfs_request_send (next_id s) n (Ptr b 0) 0 NULL;
        if negb (rc =? 0) then mret (- ENOMEM, response_data, Ptr b 0) else
        if is_null response_data || (response_size <? sizeof_packet_info)
        then mret (- ENOMEM, response_data, Ptr b 0) else
        code ← load_int response_data error_code;
        mret (code, response_data, Ptr b 0));
      free_if response_data;; free_if buffer_packet;; mret rc)
    (code_post s req ans) (built s b req).
Proof.
  intros Hpre Hb Hl. apply wp_bind, wp_bind.
  eapply wp_send_built; [done..|]. intros r s' Hpost.
  assert (Hfree : ∀ rc s'' L, live s'' = <[b := OBytes req]> L → L !! b = None →
    comm_frame s s'' → L = live s → 
    (∀ s3, live s3 = live s → comm_frame s s3 → ks_sent s3 = ks_sent s'' → code_post s req ans rc s3) →
    wp (free_if (Ptr b 0);; mret rc) (code_post s req ans) s'').
  { intros rc s'' L HL HLb Hfr -> HQ. apply wp_bind. eapply wp_free_if.
    { rewrite HL. apply lookup_insert_eq. }
    apply wp_ret, HQ; [|by destruct Hfr; split|done].
    change (delete b (live s'') = live s). rewrite HL. by apply delete_insert_id. }
  destruct Hpost as [s' Ha HL Hs Hg Hf|s' Ha HL Hs Hg Hf|s' r d -> Hr HL Hs Hg Hf].
  - apply wp_ret, wp_bind, wp_free_if_null.
    eapply Hfree; [exact HL|done| |done|]; [etrans; [apply (comm_frame_built s b req)|done]|].
    intros s3 HL3 Hf3 Hs3. split_and!; [done|done|]. left. split_and!; [done|done|].
    left. by rewrite Hs3, Hs.
  - apply wp_ret, wp_bind, wp_free_if_null.
    eapply Hfree; [exact HL|done| |done|]; [etrans; [apply (comm_frame_built s b req)|done]|].
    intros s3 HL3 Hf3 Hs3. split_and!; [done|done|].
    destruct Ha as [->|Ha]; [right; by rewrite Hs3, Hs|left]. split_and!; [done|done|].
    right. by rewrite Hs3, Hs.
  - rewrite live_built in Hr. apply lookup_insert_None in Hr as [Hr Hne].
    assert (Hbl : NLMSG_HDRLEN ≤ blen d).
    { destruct (rp_answers _ _ _ Hpre) as (? & ? & _ & _ & _ & [[? _] _] & _). dgram. }
    assert (Hd : live s' !! r = Some (OBytes (reply_block d))).
    { rewrite HL. apply lookup_insert_eq. }
    assert (Hend : ∀ rc, rc = code_result (Some d) →
      wp (free_if (Ptr r 0);; free_if (Ptr b 0);; mret rc) (code_post s req (Some d)) s').
    { intros rc Hrc. apply wp_bind. eapply wp_free_if; [done|].
      eapply (Hfree _ _ (live s)); [|done|..]; [|etrans; [apply (comm_frame_built s b req)|by destruct Hf; split]|done|].
      - change (delete r (live s') = <[b := OBytes req]> (live s)). rewrite HL, live_built.
        apply delete_insert_id. by rewrite lookup_insert_ne.
      - intros s3 HL3 Hf3 Hs3. split_and!; [done|done|]. right. split; [|done].
        rewrite Hs3. exact Hs. }
    simpl. rewrite <- blen_payload by done. case_match eqn:Hsz.
    + apply wp_ret, Hend. simpl. by rewrite Hsz.
    + apply Z.ltb_ge in Hsz as Hsz'. apply wp_bind. eapply wp_load_int; [done| |].
      * apply fld_in_sized; [done|]. unfold pkt_sized, reply_block. rewrite blen_app.
        pose proof (blen_nonneg (zeros NLMSG_HDRLEN)). lia.
      * apply wp_ret, Hend. simpl. rewrite Hsz. f_equal. unfold get, reply_block. f_equal.
        symmetry. rewrite slice_app_l; [done|done|]. pkt_consts. lia.
Qed.

(** ** Building the packet *)

Lemma id_of_path_packet ty file path (s : kstate) :
  get h_msg_id (path_packet ty (next_id s) current_tgid file path) = next_id s.
Proof.
  rewrite get_path_packet by done. pose proof (blen_nonneg path).
  unfold path_head, header_put. autorewrite with tead_get.
  pose proof (next_unique_id_ok (unique_id (ks_global s))) as Hid. unfold id_ok in Hid.
  apply Z.mod_small. change (8 * Z.of_nat (f_width h_msg_id)) with 64. unfold next_id. lia.
Qed.

Lemma id_of_data_packet ty offset bs (s : kstate) :
  get h_msg_id (data_packet ty (next_id s) current_tgid offset bs) = next_id s.
Proof.
  rewrite get_data_packet by done. pose proof (blen_nonneg bs).
  unfold data_head, header_put. autorewrite with tead_get.
  pose proof (next_unique_id_ok (unique_id (ks_global s))) as Hid. unfold id_ok in Hid.
  apply Z.mod_small. change (8 * Z.of_nat (f_width h_msg_id)) with 64. unfold next_id. lia.
Qed.

(** The stores of [teadfs_request_open] and [teadfs_request_release], up to
    the id that is passed to the send. *)
Lemma wp_build_path b p po pb n ty file (Q : Z → kstate → Prop) s :
  let path := slice po n pb in
  live s !! p = Some (OBytes pb) → in_range po n pb = true → b ≠ p →
  Q (next_id s) (built s b (path_packet ty (next_id s) current_tgid file path)) →
  wp (teadfs_packet_header (Ptr b 0) (sizeof_packet_info + n) ty 0 current_tgid 0 0;;
      store_fld (Ptr b 0) open_file_id file;;
      store_fld (Ptr b 0) open_path_size n;;
      store_fld (Ptr b 0) open_path_offset sizeof_packet_info;;
      memcpy (padd (Ptr b 0) sizeof_packet_info) (Ptr p po) n;;
      load_fld (Ptr b 0) h_msg_id) Q
    (upd b (OBytes (zeros (sizeof_packet_info + n))) (tick s)).
Proof.
  intros path Hp Hin Hne HQ. pose proof Hin as Hn. apply in_range_spec in Hn as (? & Hn & _).
  assert (Hpl : blen path = n) by by apply blen_slice.
  apply wp_bind. eapply wp_packet_header; [apply live_upd_eq|auto with tead_pkt|].
  match goal with |- wp _ _ (upd b ?o (bump (upd b ?o' ?s0))) =>
    change (upd b o (bump (upd b o' s0))) with (upd b o (upd b o' (bump s0))) end.
  rewrite upd_upd.
  do 3 (apply wp_bind; eapply wp_store_fld;
    [apply live_upd_eq|auto 20 with tead_pkt|rewrite ?upd_upd]).
  apply wp_bind. eapply wp_memcpy; [|exact Hin|apply live_upd_eq| |].
  { rewrite live_upd_ne by done. exact Hp. }
  { apply in_range_spec. autorewrite with tead_get.
    rewrite blen_zeros; pkt_consts; lia. }
  rewrite upd_upd. eapply wp_load_fld; [apply live_upd_eq| |].
  { apply fld_in_sized; [done|]. unfold pkt_sized.
    fold path. rewrite blen_splice; autorewrite with tead_get; rewrite ?blen_zeros; pkt_consts; try lia.
    apply in_range_spec. autorewrite with tead_get. rewrite blen_zeros; lia. }
  fold path. rewrite <- (id_of_path_packet ty file path) in HQ at 1.
  unfold built, path_packet, path_head in HQ. rewrite Hpl in HQ. exact HQ.
Qed.

Lemma wp_build_path_assoc {A} (m1 m2 m3 m4 m5 : M ()) (m6 : M Z) (k : Z → M A) Q s :
  wp (m1;; m2;; m3;; m4;; m5;; m6) (λ z s', wp (k z) Q s') s →
  wp (m1;; m2;; m3;; m4;; m5;; z ← m6; k z) Q s.
Proof.
  unfold wp, mbind, M_bind.
  destruct (m1 s) as [? s1|]; [|done]. destruct (m2 s1) as [? s2|]; [|done].
  destruct (m3 s2) as [? s3|]; [|done]. destruct (m4 s3) as [? s4|]; [|done].
  destruct (m5 s4) as [? s5|]; [|done]. by destruct (m6 s5).
Qed.

(** The size computations of the request functions do not wrap on paths and
    pages. *)
Definition size_ok (n : Z) : Prop := 0 ≤ n < 2 ^ 31 - sizeof_packet_info.

Lemma buffer_size_ok n : size_ok n →
  u64 (sizeof_packet_info + n) = sizeof_packet_info + n ∧
  s32 (sizeof_packet_info + n) = sizeof_packet_info + n.
Proof.
  unfold size_ok. pkt_consts. intros. split; [apply u64_small|apply s32_small]; lia.
Qed.

Lemma code_post_nomem s req ans s' :
  alloc_fails → live s' = live s → ks_sent s' = ks_sent s → comm_frame s s' →
  code_post s req ans (- ENOMEM) s'.
Proof. intros. split_and!; [done|done|]. left. auto. Qed.

Lemma wp_request_open s p po pb n file ans :
  connect (ks_global s) ≠ 0 → current_tgid ≠ pid (ks_global s) →
  live s !! p = Some (OBytes pb) → in_range po n pb = true → size_ok n →
  let req := path_packet PR_MSG_OPEN (next_id s) current_tgid file (slice po n pb) in
  req_pre s req ans →
  wp (teadfs_request_open (Ptr p po) n file) (code_post s req ans) s.
Proof.
  intros Hc Hk Hp Hin Hn req Hpre. destruct (buffer_size_ok n Hn) as [Hu Hs].
  apply wp_bind, wp_bind, wp_get_client_connect. rewrite (proj2 (Z.eqb_neq _ _)) by done.
  cbn zeta. apply wp_bind, wp_get_client_pid. rewrite (proj2 (Z.eqb_neq _ _)) by done.
  rewrite Hu, Hs. apply wp_bind, wp_zalloc_obj.
  2: { intros Ha. apply wp_ret. simpl. apply wp_bind, wp_free_if_null, wp_bind, wp_free_if_null.
       apply wp_ret, code_post_nomem; [by do 2 eexists|done|done|by split]. }
  intros _ b Hb. rewrite is_null_ptr.
  assert (Hbp : b ≠ p) by congruence.
  pose proof (wp_build_path b p po pb n PR_MSG_OPEN file) as Hbuild. cbn zeta in Hbuild.
  apply wp_build_path_assoc. eapply Hbuild; [done|done|done|].
  assert (Hlen : blen req = sizeof_packet_info + n).
  { unfold req. rewrite blen_path_packet, blen_slice; done. }
  pose proof (wp_code_tail s b req _ ans Hpre Hb Hlen) as Ht.
  apply wp_bind_inv in Ht. exact Ht.
Qed.

Lemma wp_request_release s p po pb n file d m ans :
  connect (ks_global s) ≠ 0 → current_tgid ≠ pid (ks_global s) →
  live s !! p = Some (OBytes pb) → in_range po n pb = true → size_ok n →
  let req := path_packet PR_MSG_RELEASE (next_id s) current_tgid file (slice po n pb) in
  req_pre s req ans →
  wp (teadfs_request_release (Ptr p po) n (Some (file, Path (Some d) (Some m))))
    (code_post s req ans) s.
Proof.
  intros Hc Hk Hp Hin Hn req Hpre. destruct (buffer_size_ok n Hn) as [Hu Hs].
  apply wp_bind, wp_bind, wp_get_client_connect. rewrite (proj2 (Z.eqb_neq _ _)) by done.
  cbn zeta. apply wp_bind, wp_get_client_pid. rewrite (proj2 (Z.eqb_neq _ _)) by done.
  rewrite Hu, Hs. apply wp_bind, wp_zalloc_obj.
  2: { intros Ha. apply wp_ret. simpl. apply wp_bind, wp_free_if_null, wp_bind, wp_free_if_null.
       apply wp_ret, code_post_nomem; [by do 2 eexists|done|done|by split]. }
  intros _ b Hb. rewrite is_null_ptr.
  assert (Hbp : b ≠ p) by congruence.
  pose proof (wp_build_path b p po pb n PR_MSG_RELEASE file) as Hbuild. cbn zeta in Hbuild.
  apply wp_build_path_assoc. eapply Hbuild; [done|done|done|].
  assert (Hlen : blen req = sizeof_packet_info + n).
  { unfold req. rewrite blen_path_packet, blen_slice; done. }
  pose proof (wp_code_tail s b req _ ans Hpre Hb Hlen) as Ht.
  apply wp_bind_inv in Ht. exact Ht.
Qed.

Lemma wp_build_data b p po pb n ty offset (Q : Z → kstate → Prop) s :
  let bs := slice po n pb in
  live s !! p = Some (OBytes pb) → in_range po n pb = true → b ≠ p →
  Q (next_id s) (built s b (data_packet ty (next_id s) current_tgid offset bs)) →
  wp (teadfs_packet_header (Ptr b 0) (sizeof_packet_info + n) ty 0 current_tgid 0 0;;
      store_fld (Ptr b 0) read_offset offset;;
      store_fld (Ptr b 0) read_code 0;;
      store_fld (Ptr b 0) read_data_size n;;
      store_fld (Ptr b 0) read_data_offset sizeof_packet_info;;
      memcpy (padd (Ptr b 0) sizeof_packet_info) (Ptr p po) n;;
      load_fld (Ptr b 0) h_msg_id) Q
    (upd b (OBytes (zeros (sizeof_packet_info + n))) (tick s)).
Proof.
  intros bs Hp Hin Hne HQ. pose proof Hin as Hn. apply in_range_spec in Hn as (? & Hn & _).
  assert (Hpl : blen bs = n) by by apply blen_slice.
  apply wp_bind. eapply wp_packet_header; [apply live_upd_eq|auto with tead_pkt|].
  match goal with |- wp _ _ (upd b ?o (bump (upd b ?o' ?s0))) =>
    change (upd b o (bump (upd b o' s0))) with (upd b o (upd b o' (bump s0))) end.
  rewrite upd_upd.
  do 4 (apply wp_bind; eapply wp_store_fld;
    [apply live_upd_eq|auto 20 with tead_pkt|rewrite ?upd_upd]).
  apply wp_bind. eapply wp_memcpy; [|exact Hin|apply live_upd_eq| |].
  { rewrite live_upd_ne by done. exact Hp. }
  { apply in_range_spec. autorewrite with tead_get.
    rewrite blen_zeros; pkt_consts; lia. }
  rewrite upd_upd. eapply wp_load_fld; [apply live_upd_eq| |].
  { apply fld_in_sized; [done|]. unfold pkt_sized.
    fold bs. rewrite blen_splice; autorewrite with tead_get; rewrite ?blen_zeros; pkt_consts; try lia.
    apply in_range_spec. autorewrite with tead_get. rewrite blen_zeros; lia. }
  fold bs. rewrite <- (id_of_data_packet ty offset bs) in HQ at 1.
  unfold built, data_packet, data_head in HQ. rewrite Hpl in HQ. exact HQ.
Qed.

Lemma wp_build_data_assoc {A} (m1 m2 m3 m4 m5 m6 : M ()) (m7 : M Z) (k : Z → M A) Q s :
  wp (m1;; m2;; m3;; m4;; m5;; m6;; m7) (λ z s', wp (k z) Q s') s →
  wp (m1;; m2;; m3;; m4;; m5;; m6;; z ← m7; k z) Q s.
Proof.
  unfold wp, mbind, M_bind.
  destruct (m1 s) as [? s1|]; [|done]. destruct (m2 s1) as [? s2|]; [|done].
  destruct (m3 s2) as [? s3|]; [|done]. destruct (m4 s3) as [? s4|]; [|done].
  destruct (m5 s4) as [? s5|]; [|done]. destruct (m6 s5) as [? s6|]; [|done].
  by destruct (m7 s6).
Qed.

(** ** READ and WRITE

    What the checks of [teadfs_request_read]/[_write] make of a reply payload:
    refuse it, or copy [size] bytes found at [off] of the packet. *)
Inductive verdict := Refuse | Copy (off size : Z).

Definition data_verdict (dst_size : Z) (ans : option bytes) : verdict :=
  match ans with
  | None => Refuse
  | Some d =>
    let p := payload d in
    if blen p <? sizeof_packet_info then Refuse
    else if negb (s32 (get read_code p) =? 0) then Refuse
    else if negb (blen p =? u64 (sizeof_packet_info + get read_data_size p)) then Refuse
    else if u32 dst_size <? get read_data_size p then Refuse
    else Copy (get read_data_offset p) (get read_data_size p)
  end.

(** The bytes the copy takes from the reply's block. *)
Definition copied (ans : option bytes) (off size : Z) : bytes :=
  match ans with Some d => slice off size (reply_block d) | None => [] end.

(** The checks do not bound the offset: a copy needs these. *)
Definition copy_in_bounds (ans : option bytes) (v : verdict) (dsto : Z) (tb : bytes) : Prop :=
  match v, ans with
  | Copy off size, Some d =>
      in_range off size (reply_block d) = true ∧ in_range dsto size tb = true
  | _, _ => True
  end.

Definition read_post (s : kstate) (req : bytes) (ans : option bytes) (dst_size : Z)
    (t : positive) (dsto : Z) (tb : bytes) (rc : Z) (s' : kstate) : Prop :=
  comm_frame s s' ∧
  ((alloc_fails ∧ rc = - ENOMEM ∧ live s' = live s ∧ ks_sent s' = ks_sent s) ∨
   ∃ b, live s !! b = None ∧
     ((alloc_fails ∧ rc = - ENOMEM ∧ live s' = <[b := OBytes req]> (live s)) ∨
      (ks_sent s' = ks_sent s ++ [(pid (ks_global s), req)] ∧
       match data_verdict dst_size ans with
       | Refuse => rc = - ENOMEM ∧ live s' = <[b := OBytes req]> (live s)
       | Copy off size => rc = s32 size ∧
           live s' = <[t := OBytes (splice dsto (copied ans off size) tb)]>
                       (<[b := OBytes req]> (live s))
       end))).

Lemma get_reply_block f d : fld_ok f = true → sizeof_packet_info ≤ blen (payload d) →
  get f (reply_block d) = get f (payload d).
Proof.
  unfold fld_ok, get, reply_block. intros Hf Hd. f_equal. apply slice_app_l; lia.
Qed.

Lemma reply_block_sized d : sizeof_packet_info ≤ blen (payload d) → pkt_sized (reply_block d).
Proof.
  unfold pkt_sized, reply_block. rewrite blen_app.
  pose proof (blen_nonneg (zeros NLMSG_HDRLEN)). lia.
Qed.
#[local] Hint Resolve reply_block_sized : tead_pkt.

#[local] Opaque path_packet data_packet reply_block payload get u32 u64 s32 next_unique_id
  sizeof_packet_info splice slice.

(** From the guards of READ and WRITE to the end of the send; [k] is the rest
    of the function, [e] what it does when a guard fails. *)
Lemma wp_data_prefix {A} s p po pb n offset ty (e : M A) (k : ptr → Z → Z → ptr → M A) ans Q :
  connect (ks_global s) ≠ 0 → current_tgid ≠ pid (ks_global s) →
  live s !! p = Some (OBytes pb) → in_range po n pb = true → size_ok n →
  let req := data_packet ty (next_id s) current_tgid offset (slice po n pb) in
  req_pre s req ans →
  (alloc_fails → wp e Q (tick s)) →
  (∀ b r s', live s !! b = None → send_post (built s b req) req ans r s' →
     wp (let '(rc, response_size, response_data) := r in
         k (Ptr b 0) rc response_size response_data) Q s') →
  wp (connected ← teadfs_get_client_connect;
      if connected =? 0 then e else
      let kpid := current_tgid in
      client ← teadfs_get_client_pid;
      if kpid =? client then e else
      let buffer_size := s32 (u64 (sizeof_packet_info + n)) in
      buffer ← teadfs_zalloc buffer_size;
      if is_null buffer then e else
      teadfs_packet_header buffer buffer_size ty 0 kpid 0 0;;
      store_fld buffer read_offset offset;;
      store_fld buffer read_code 0;;
      store_fld buffer read_data_size n;;
      store_fld buffer read_data_offset sizeof_packet_info;;
      memcpy (padd buffer sizeof_packet_info) (Ptr p po) n;;
      id ← load_fld buffer h_msg_id;
      '(rc, response_size, response_data) ←
        teadfs_request_send id buffer_size buffer 0 NULL;
      k buffer rc response_size response_data) Q s.
Proof.
  intros Hc Hk Hp Hin Hn req Hpre He Hkk. destruct (buffer_size_ok n Hn) as [Hu Hs].
  apply wp_bind, wp_get_client_connect. rewrite (proj2 (Z.eqb_neq _ _)) by done.
  cbn zeta. apply wp_bind, wp_get_client_pid. rewrite (proj2 (Z.eqb_neq _ _)) by done.
  rewrite Hu, Hs. apply wp_bind, wp_zalloc_obj.
  2: { intros Ha. apply He. by do 2 eexists. }
  intros _ b Hb. rewrite is_null_ptr.
  assert (Hbp : b ≠ p) by congruence.
  pose proof (wp_build_data b p po pb n ty offset) as Hbuild. cbn zeta in Hbuild.
  apply wp_build_data_assoc. eapply Hbuild; [done|done|done|].
  assert (Hlen : blen req = sizeof_packet_info + n).
  { unfold req. rewrite blen_data_packet, blen_slice; done. }
  apply wp_bind. eapply wp_send_built; [exact Hpre|done|done|]. auto.
Qed.

(** The checks of a reply and the copy; [e] is the refusal, [k] what follows
    the copy. *)
Lemma wp_data_checks {A} s d r t dsto tb dst_size (e : M A) (k : Z → M A) Q :
  NLMSG_HDRLEN ≤ blen d → r ≠ t →
  live s !! r = Some (OBytes (reply_block d)) → live s !! t = Some (OBytes tb) →
  copy_in_bounds (Some d) (data_verdict dst_size (Some d)) dsto tb →
  (data_verdict dst_size (Some d) = Refuse → wp e Q s) →
  (∀ off size, data_verdict dst_size (Some d) = Copy off size → size = get read_data_size (payload d) →
     wp (k size) Q (upd t (OBytes (splice dsto (copied (Some d) off size) tb)) s)) →
  wp (if is_null (Ptr r 0) || (blen d - NLMSG_HDRLEN <? sizeof_packet_info) then e else
      code ← load_int (Ptr r 0) read_code;
      if negb (code =? 0) then e else
      size ← load_fld (Ptr r 0) read_data_size;
      if negb (blen d - NLMSG_HDRLEN =? u64 (sizeof_packet_info + size)) then e else
      wsize ← load_fld (Ptr r 0) write_data_size;
      if u32 dst_size <? wsize then e else
      off ← load_fld (Ptr r 0) read_data_offset;
      memcpy (Ptr t dsto) (padd (Ptr r 0) off) size;;
      k size) Q s.
Proof.
  intros Hbl Hrt Hr Ht Hcp He Hk. unfold data_verdict, copy_in_bounds in *. cbv zeta in *.
  rewrite is_null_ptr. cbn [orb]. rewrite <- blen_payload by exact Hbl.
  destruct (blen (payload d) <? sizeof_packet_info) eqn:Hsz; [by apply He|].
  apply Z.ltb_ge in Hsz as Hsz'.
  apply wp_bind. eapply wp_load_int; [exact Hr|auto with tead_pkt|].
  rewrite get_reply_block by done.
  destruct (s32 _ =? 0); cbn [negb] in *; [|by apply He].
  apply wp_bind. eapply wp_load_fld; [exact Hr|auto with tead_pkt|].
  rewrite get_reply_block by done.
  destruct (blen (payload d) =? _); cbn [negb] in *; [|by apply He].
  apply wp_bind. eapply wp_load_fld; [exact Hr|auto with tead_pkt|].
  rewrite get_reply_block by done.
  change (get write_data_size (payload d)) with (get read_data_size (payload d)).
  destruct (u32 dst_size <? _); [by apply He|]. destruct Hcp as [Hcp1 Hcp2].
  apply wp_bind. eapply wp_load_fld; [exact Hr|auto with tead_pkt|].
  rewrite get_reply_block by done.
  apply wp_bind. cbn [padd]. rewrite Z.add_0_l.
  eapply wp_memcpy; [exact Hr|exact Hcp1|exact Ht|exact Hcp2|].
  by apply (Hk (get read_data_offset (payload d))).
Qed.

(** A reply found among the deliveries is a datagram. *)
Lemma req_pre_dgram s req d : req_pre s req (Some d) → NLMSG_HDRLEN ≤ blen d.
Proof.
  intros [_ _ (? & ? & _ & _ & _ & [[? _] _] & _)]. dgram.
Qed.

Lemma wp_request_read s p po pb n offset t dsto tb dst_size ans :
  connect (ks_global s) ≠ 0 → current_tgid ≠ pid (ks_global s) →
  live s !! p = Some (OBytes pb) → in_range po n pb = true → size_ok n →
  live s !! t = Some (OBytes tb) →
  copy_in_bounds ans (data_verdict dst_size ans) dsto tb →
  let req := data_packet PR_MSG_READ (next_id s) current_tgid offset (slice po n pb) in
  req_pre s req ans →
  wp (teadfs_request_read offset (Ptr p po) n (Ptr t dsto) dst_size)
    (read_post s req ans dst_size t dsto tb) s.
Proof.
  intros Hc Hk Hp Hin Hn Ht Hcp req Hpre. apply wp_bind.
  eapply (wp_data_prefix s p po pb n offset PR_MSG_READ); [done..| |].
  { intros Ha. apply wp_ret, wp_bind, wp_free_if_null, wp_ret.
    split; [by split|]. left. split_and!; [exact Ha|done..]. }
  intros b r s' Hb Hpost. pose proof (comm_frame_built s b req) as Hfb.
  assert (Hbt : b ≠ t) by congruence.
  destruct Hpost as [s' Ha HL Hsn _ Hf|s' Ha HL Hsn _ Hf|s' r d -> Hr HL Hsn _ Hf].
  - apply wp_ret, wp_bind, wp_free_if_null, wp_ret.
    split; [by etrans|]. right. exists b. split; [exact Hb|]. left.
    split_and!; [exact Ha|reflexivity|exact HL].
  - apply wp_ret, wp_bind, wp_free_if_null, wp_ret.
    split; [by etrans|]. right. exists b. split; [exact Hb|].
    destruct Ha as [-> | Ha].
    + right. split; [exact Hsn|]. split; [reflexivity|exact HL].
    + left. split_and!; [exact Ha|reflexivity|exact HL].
  - rewrite live_built in Hr, HL. apply lookup_insert_None in Hr as [Hr Hne].
    assert (Hrt : r ≠ t) by congruence.
    assert (Hdel : delete r (live s') = <[b := OBytes req]> (live s)).
    { rewrite HL. apply delete_insert_id. by rewrite lookup_insert_ne. }
    change (negb (0 =? 0)) with false. cbv beta iota.
    eapply (wp_data_checks s' d r t dsto tb);
      [by eapply req_pre_dgram|done|rewrite HL; apply lookup_insert_eq| |exact Hcp| |].
    { rewrite HL, !lookup_insert_ne by done. exact Ht. }
    + intros Hv. apply wp_ret, wp_bind. eapply wp_free_if; [rewrite HL; apply lookup_insert_eq|].
      apply wp_ret. split; [etrans; [exact Hfb|]; etrans; [exact Hf|by split]|].
      right. exists b. split; [exact Hb|]. right. split; [exact Hsn|]. rewrite Hv.
      split; [reflexivity|exact Hdel].
    + intros off size Hv _. apply wp_ret, wp_bind. eapply wp_free_if.
      { rewrite live_upd_ne, HL by done. apply lookup_insert_eq. }
      apply wp_ret. split; [etrans; [exact Hfb|]; etrans; [exact Hf|by split]|].
      right. exists b. split; [exact Hb|]. right. split; [exact Hsn|]. rewrite Hv.
      split; [reflexivity|].
      change (delete r (<[t := OBytes (splice dsto (copied (Some d) off size) tb)]> (live s')) =
        <[t := OBytes (splice dsto (copied (Some d) off size) tb)]> (<[b := OBytes req]> (live s))).
      by rewrite delete_insert_ne, Hdel.
Qed.

(** What a WRITE leaves: its packet buffer always, the reply's block too when
    the reply is refused; after a copy it reads its result from the reply's
    freed block. *)
Definition write_post (s : kstate) (req : bytes) (ans : option bytes) (dst_size : Z)
    (t : positive) (dsto : Z) (tb : bytes) (rc : Z) (s' : kstate) : Prop :=
  (alloc_fails ∧ rc = - ENOMEM ∧ live s' = live s ∧ ks_sent s' = ks_sent s ∧ comm_frame s s') ∨
  ∃ b, live s !! b = None ∧
    ((alloc_fails ∧ rc = - ENOMEM ∧ live s' = <[b := OBytes req]> (live s) ∧ comm_frame s s') ∨
     (ks_sent s' = ks_sent s ++ [(pid (ks_global s), req)] ∧
      match ans, data_verdict dst_size ans with
      | None, _ => rc = - ENOMEM ∧ comm_frame s s' ∧ live s' = <[b := OBytes req]> (live s)
      | Some d, Refuse =>
          rc = - ENOMEM ∧ comm_frame s s' ∧
          ∃ r, live s !! r = None ∧ r ≠ b ∧
            live s' = <[r := OBytes (reply_block d)]> (<[b := OBytes req]> (live s))
      | Some d, Copy off size =>
          rc = s32 (get write_data_size (stale (reply_block d))) ∧
          (∃ s0, comm_frame s s0 ∧ s' = set_mem mem_mark_uaf s0) ∧
          live s' = <[t := OBytes (splice dsto (copied ans off size) tb)]>
                      (<[b := OBytes req]> (live s))
      end)).

Lemma wp_request_write s p po pb n offset t dsto tb dst_size ans :
  connect (ks_global s) ≠ 0 → current_tgid ≠ pid (ks_global s) →
  live s !! p = Some (OBytes pb) → in_range po n pb = true → size_ok n →
  live s !! t = Some (OBytes tb) →
  copy_in_bounds ans (data_verdict dst_size ans) dsto tb →
  let req := data_packet PR_MSG_WRITE (next_id s) current_tgid offset (slice po n pb) in
  req_pre s req ans →
  wp (teadfs_request_write offset (Ptr p po) n (Ptr t dsto) dst_size)
    (write_post s req ans dst_size t dsto tb) s.
Proof.
  intros Hc Hk Hp Hin Hn Ht Hcp req Hpre.
  eapply (wp_data_prefix s p po pb n offset PR_MSG_WRITE); [done..| |].
  { intros Ha. apply wp_ret. left. split_and!; [exact Ha|done..|by split]. }
  intros b r s' Hb Hpost. pose proof (comm_frame_built s b req) as Hfb.
  assert (Hbt : b ≠ t) by congruence.
  destruct Hpost as [s' Ha HL Hsn _ Hf|s' Ha HL Hsn _ Hf|s' r d -> Hr HL Hsn _ Hf];
    (assert (Hfr : comm_frame s s') by by etrans).
  - apply wp_ret. right. exists b. split; [exact Hb|]. left.
    split_and!; [exact Ha|reflexivity|exact HL|exact Hfr].
  - apply wp_ret. right. exists b. split; [exact Hb|]. destruct Ha as [-> | Ha].
    + right. split; [exact Hsn|]. split; [reflexivity|]. split; [exact Hfr|exact HL].
    + left. split_and!; [exact Ha|reflexivity|exact HL|exact Hfr].
  - rewrite live_built in Hr, HL. apply lookup_insert_None in Hr as [Hr Hne].
    assert (Hrt : r ≠ t) by congruence.
    change (negb (0 =? 0)) with false. cbv beta iota.
    eapply (wp_data_checks s' d r t dsto tb);
      [by eapply req_pre_dgram|done|rewrite HL; apply lookup_insert_eq| |exact Hcp| |].
    { rewrite HL, !lookup_insert_ne by done. exact Ht. }
    + intros Hv. apply wp_ret. right. exists b. split; [exact Hb|]. right.
      split; [exact Hsn|]. rewrite Hv. split; [reflexivity|]. split; [exact Hfr|].
      exists r. split; [exact Hr|]. split; [congruence|exact HL].
    + intros off size Hv Hsize. apply wp_bind. eapply wp_free_if.
      { rewrite live_upd_ne, HL by done. apply lookup_insert_eq. }
      apply wp_bind. unfold load_fld. apply wp_bind. cbn [padd].
      eapply wp_load_stale; [apply lookup_delete_eq|apply lookup_insert_eq| |].
      { rewrite Z.add_0_l. apply (fld_in_sized write_data_size); [done|].
        apply reply_block_sized. unfold data_verdict in Hv. cbv zeta in Hv.
        destruct (blen (payload d) <? sizeof_packet_info) eqn:Hsz; [done|]. by apply Z.ltb_ge. }
      apply wp_ret, wp_ret. right. exists b. split; [exact Hb|]. right. split; [exact Hsn|].
      rewrite Hv. split; [reflexivity|]. split.
      * eexists. split; [|reflexivity]. etrans; [exact Hfr|by split].
      * change (delete r (<[t := OBytes (splice dsto (copied (Some d) off size) tb)]> (live s')) =
          <[t := OBytes (splice dsto (copied (Some d) off size) tb)]> (<[b := OBytes req]> (live s))).
        rewrite delete_insert_ne, HL by done. f_equal.
        apply delete_insert_id. by rewrite lookup_insert_ne.
Qed.

(** ** Guards, and replies that point outside themselves *)

(** A request of the client itself, or without one, fails at once. *)
Definition refused (s : kstate) : Prop :=
  connect (ks_global s) = 0 ∨ current_tgid = pid (ks_global s).

Lemma refused_requests s p q n m file offset fp :
  refused s →
  teadfs_request_open p n file s = Ret (- ENOMEM) s ∧
  teadfs_request_release p n fp s = Ret (- ENOMEM) s ∧
  teadfs_request_read offset p n q m s = Ret (- ENOMEM) s ∧
  teadfs_request_write offset p n q m s = Ret (- ENOMEM) s.
Proof.
  intros Hr.
  unfold teadfs_request_open, teadfs_request_release, teadfs_request_read, teadfs_request_write,
    teadfs_get_client_connect, teadfs_get_client_pid, gets, mbind, M_bind, mret, M_ret.
  cbv beta iota.
  destruct (decide (connect (ks_global s) = 0)) as [->|Hc]; [done|].
  destruct Hr as [?|Hk]; [done|].
  rewrite (proj2 (Z.eqb_neq _ _)), Hk, Z.eqb_refl by done. cbv beta iota zeta.
  destruct fp as [[? [[?|] [?|]]]|]; rewrite ?Hk, ?Z.eqb_refl; split_and!; reflexivity.
Qed.

Lemma refused_read s offset src n dst m :
  refused s → teadfs_request_read offset src n dst m s = Ret (- ENOMEM) s.
Proof. intros Hr. by destruct (refused_requests s src dst n m 0 offset None Hr) as (_ & _ & ? & _). Qed.

Lemma refused_open s p n file : refused s → teadfs_request_open p n file s = Ret (- ENOMEM) s.
Proof. intros Hr. by destruct (refused_requests s p p n n file 0 None Hr) as (? & _). Qed.

Lemma refused_write s offset src n dst m :
  refused s → teadfs_request_write offset src n dst m s = Ret (- ENOMEM) s.
Proof. intros Hr. by destruct (refused_requests s src dst n m 0 offset None Hr) as (_ & _ & _ & ?). Qed.

(** The READ and WRITE functions up to the reply. *)
Definition data_prefix {A} (offset : Z) (src : ptr) (n ty : Z) (e : M A)
    (k : ptr → Z → Z → ptr → M A) : M A :=
  connected ← teadfs_get_client_connect;
  if connected =? 0 then e else
  let kpid := current_tgid in
  client ← teadfs_get_client_pid;
  if kpid =? client then e else
  let buffer_size := s32 (u64 (sizeof_packet_info + n)) in
  buffer ← teadfs_zalloc buffer_size;
  if is_null buffer then e else
  teadfs_packet_header buffer buffer_size ty 0 kpid 0 0;;
  store_fld buffer read_offset offset;;
  store_fld buffer read_code 0;;
  store_fld buffer read_data_size n;;
  store_fld buffer read_data_offset sizeof_packet_info;;
  memcpy (padd buffer sizeof_packet_info) src n;;
  id ← load_fld buffer h_msg_id;
  '(rc, response_size, response_data) ← teadfs_request_send id buffer_size buffer 0 NULL;
  k buffer rc response_size response_data.

Lemma data_prefix_factor {A} offset src n ty (e : M A) k s :
  data_prefix offset src n ty e k s =
  (data_prefix offset src n ty (mret None) (λ b rc m r, mret (Some (b, rc, m, r))) ≫=
    λ x, match x with Some (b, rc, m, r) => k b rc m r | None => e end) s.
Proof.
  unfold data_prefix. repeat (unfold mbind at 1, M_bind at 1). unfold mbind, M_bind.
  destruct (teadfs_get_client_connect s) as [c s1|]; [|done].
  destruct (c =? 0); [done|]. cbv zeta.
  destruct (teadfs_get_client_pid s1) as [p s2|]; [|done].
  destruct (current_tgid =? p); [done|].
  destruct (teadfs_zalloc _ s2) as [b s3|]; [|done].
  destruct (is_null b); [done|].
  destruct (teadfs_packet_header _ _ _ _ _ _ _ s3) as [[] s4|]; [|done].
  destruct (store_fld _ read_offset _ s4) as [[] s5|]; [|done].
  destruct (store_fld _ read_code _ s5) as [[] s6|]; [|done].
  destruct (store_fld _ read_data_size _ s6) as [[] s7|]; [|done].
  destruct (store_fld _ read_data_offset _ s7) as [[] s8|]; [|done].
  destruct (memcpy _ _ _ s8) as [[] s9|]; [|done].
  destruct (load_fld _ h_msg_id s9) as [id s10|]; [|done].
  destruct (teadfs_request_send _ _ _ _ _ s10) as [[[rc m] r] s11|]; done.
Qed.

(** A reply whose data lies outside the block it arrived in is copied from
    there all the same. *)
Lemma data_checks_overread {A} s d r t dsto dst_size (e : M A) (k : Z → M A) off size :
  NLMSG_HDRLEN ≤ blen d →
  live s !! r = Some (OBytes (reply_block d)) →
  data_verdict dst_size (Some d) = Copy off size → in_range off size (reply_block d) = false →
  (if is_null (Ptr r 0) || (blen d - NLMSG_HDRLEN <? sizeof_packet_info) then e else
   code ← load_int (Ptr r 0) read_code;
   if negb (code =? 0) then e else
   size ← load_fld (Ptr r 0) read_data_size;
   if negb (blen d - NLMSG_HDRLEN =? u64 (sizeof_packet_info + size)) then e else
   wsize ← load_fld (Ptr r 0) write_data_size;
   if u32 dst_size <? wsize then e else
   off ← load_fld (Ptr r 0) read_data_offset;
   memcpy (Ptr t dsto) (padd (Ptr r 0) off) size;;
   k size) s = Ub OutOfBounds.
Proof.
  intros Hbl Hr Hv Hout. unfold data_verdict in Hv. cbv zeta in *.
  rewrite is_null_ptr. cbn [orb]. rewrite <- blen_payload by exact Hbl.
  destruct (blen (payload d) <? sizeof_packet_info) eqn:Hsz; [done|].
  apply Z.ltb_ge in Hsz as Hsz'.
  apply ub_bind_wp. eapply wp_load_int; [exact Hr|auto with tead_pkt|].
  rewrite get_reply_block by done.
  destruct (s32 _ =? 0); cbn [negb] in *; [|done].
  apply ub_bind_wp. eapply wp_load_fld; [exact Hr|auto with tead_pkt|].
  rewrite get_reply_block by done.
  destruct (blen (payload d) =? _); cbn [negb] in *; [|done].
  apply ub_bind_wp. eapply wp_load_fld; [exact Hr|auto with tead_pkt|].
  rewrite get_reply_block by done.
  change (get write_data_size (payload d)) with (get read_data_size (payload d)).
  destruct (u32 dst_size <? _); [done|]. injection Hv as <- <-.
  apply ub_bind_wp. eapply wp_load_fld; [exact Hr|auto with tead_pkt|].
  rewrite get_reply_block by done.
  apply ub_bind, ub_bind. cbn [padd]. rewrite Z.add_0_l. unfold load_bytes.
  unfold live in Hr. rewrite Hr, Hout. done.
Qed.

Lemma not_alloc_fails : kzalloc_total → ¬ alloc_fails.
Proof. intros Ht (k & z & E). by rewrite Ht in E. Qed.

(** With no failing allocation, a request that is answered gets the answer. *)
Lemma wp_data_prefix_reply s p po pb n offset ty d :
  kzalloc_total →
  connect (ks_global s) ≠ 0 → current_tgid ≠ pid (ks_global s) →
  live s !! p = Some (OBytes pb) → in_range po n pb = true → size_ok n →
  let req := data_packet ty (next_id s) current_tgid offset (slice po n pb) in
  req_pre s req (Some d) →
  wp (data_prefix offset (Ptr p po) n ty (mret None) (λ b rc m r, mret (Some (b, rc, m, r))))
    (λ x s', ∃ b r, x = Some (Ptr b 0, 0, blen d - NLMSG_HDRLEN, Ptr r 0) ∧
       live s !! r = None ∧ live s' !! r = Some (OBytes (reply_block d))) s.
Proof.
  intros Ht Hc Hk Hp Hin Hn req Hpre. pose proof (not_alloc_fails Ht) as Hna.
  eapply (wp_data_prefix s p po pb n offset ty (mret None)); [done..| |].
  { intros Ha. done. }
  intros b r s' Hb Hpost.
  destruct Hpost as [s' Ha|s' [|Ha]|s' r d' [= <-] Hr HL Hsn _ Hf]; [done|done|done|].
  apply wp_ret. rewrite live_built in Hr. apply lookup_insert_None in Hr as [Hr Hne].
  exists b, r. split_and!; [done|done|]. rewrite HL. apply lookup_insert_eq.
Qed.

Lemma read_prefix offset src n dst dst_size s :
  teadfs_request_read offset src n dst dst_size s =
  ('(rc, response_data) ← data_prefix offset src n PR_MSG_READ (mret (- ENOMEM, NULL))
    (λ buffer rc response_size response_data,
      if negb (rc =? 0) then mret (- ENOMEM, response_data) else
      if is_null response_data || (response_size <? sizeof_packet_info)
      then mret (- ENOMEM, response_data) else
      code ← load_int response_data read_code;
      if negb (code =? 0) then mret (- ENOMEM, response_data) else
      size ← load_fld response_data read_data_size;
      if negb (response_size =? u64 (sizeof_packet_info + size))
      then mret (- ENOMEM, response_data) else
      wsize ← load_fld response_data write_data_size;
      if u32 dst_size <? wsize then mret (- ENOMEM, response_data) else
      off ← load_fld response_data read_data_offset;
      memcpy dst (padd response_data off) size;;
      mret (s32 size, response_data));
   free_if response_data;; mret rc) s.
Proof. reflexivity. Qed.

Lemma write_prefix offset src n dst dst_size s :
  teadfs_request_write offset src n dst dst_size s =
  data_prefix offset src n PR_MSG_WRITE (mret (- ENOMEM))
    (λ buffer rc response_size response_data,
      if negb (rc =? 0) then mret (- ENOMEM) else
      if is_null response_data || (response_size <? sizeof_packet_info)
      then mret (- ENOMEM) else
      code ← load_int response_data read_code;
      if negb (code =? 0) then mret (- ENOMEM) else
      size ← load_fld response_data read_data_size;
      if negb (response_size =? u64 (sizeof_packet_info + size))
      then mret (- ENOMEM) else
      wsize ← load_fld response_data write_data_size;
      if u32 dst_size <? wsize then mret (- ENOMEM) else
      off ← load_fld response_data read_data_offset;
      memcpy dst (padd response_data off) size;;
      free_if response_data;;
      size ← load_fld response_data write_data_size;
      mret (s32 size)) s.
Proof. reflexivity. Qed.

(** * Properties of the requests *)

(** Without a connected client, and for the client process itself, every
    request fails at once: nothing is allocated, no id is taken, no packet is
    sent. *)
Theorem request_refused (s : kstate) (p q : ptr) (n m file offset : Z)
    (fp : option (Z * path)) :
  connect (ks_global s) = 0 ∨ current_tgid = pid (ks_global s) →
  teadfs_request_open p n file s = Ret (- ENOMEM) s ∧
  teadfs_request_release p n fp s = Ret (- ENOMEM) s ∧
  teadfs_request_read offset p n q m s = Ret (- ENOMEM) s ∧
  teadfs_request_write offset p n q m s = Ret (- ENOMEM) s.
Proof. by apply refused_requests. Qed.

(** OPEN sends exactly one packet to the client, made of the caller's path
    and file id, and returns the error code of the reply (or the failure it
    stands for); the heap it leaves is the heap it found, whatever the client
    answers and whichever allocation fails. *)
Theorem request_open_correct (s : kstate) (p : positive) (po n file : Z) (pb : bytes)
    (ans : option bytes) :
  connect (ks_global s) ≠ 0 → current_tgid ≠ pid (ks_global s) →
  live s !! p = Some (OBytes pb) → in_range po n pb = true → size_ok n →
  let req := path_packet PR_MSG_OPEN (next_id s) current_tgid file (slice po n pb) in
  req_pre s req ans →
  wp (teadfs_request_open (Ptr p po) n file) (λ rc s',
    live s' = live s ∧ comm_frame s s' ∧
    ((ks_sent s' = ks_sent s ++ [(pid (ks_global s), req)] ∧ rc = code_result ans) ∨
     (alloc_fails ∧ rc = - ENOMEM))) s.
Proof.
  intros. eapply wp_mono; [by apply wp_request_open|]. intros rc s' (? & ? & Hrc).
  split_and!; [done|done|]. destruct Hrc as [(? & ? & ?)|]; [by right|by left].
Qed.

(** RELEASE likewise: one packet, the reply's code, no memory kept. *)
Theorem request_release_correct (s : kstate) (p d m : positive) (po n file : Z) (pb : bytes)
    (ans : option bytes) :
  connect (ks_global s) ≠ 0 → current_tgid ≠ pid (ks_global s) →
  live s !! p = Some (OBytes pb) → in_range po n pb = true → size_ok n →
  let req := path_packet PR_MSG_RELEASE (next_id s) current_tgid file (slice po n pb) in
  req_pre s req ans →
  wp (teadfs_request_release (Ptr p po) n (Some (file, Path (Some d) (Some m)))) (λ rc s',
    live s' = live s ∧ comm_frame s s' ∧
    ((ks_sent s' = ks_sent s ++ [(pid (ks_global s), req)] ∧ rc = code_result ans) ∨
     (alloc_fails ∧ rc = - ENOMEM))) s.
Proof.
  intros. eapply wp_mono; [by apply wp_request_release|]. intros rc s' (? & ? & Hrc).
  split_and!; [done|done|]. destruct Hrc as [(? & ? & ?)|]; [by right|by left].
Qed.

(** C25: READ: a reply that passes the checks fills exactly the bytes it
    announces of the destination, and its size is the result; a refused or
    missing reply leaves the destination alone and is an error.  Either way
    the packet's buffer [b] is still allocated when the function returns: it
    is never freed. *)
Theorem request_read_correct (s : kstate) (p t : positive) (po n offset dsto dst_size : Z)
    (pb tb : bytes) (ans : option bytes) :
  kzalloc_total →
  connect (ks_global s) ≠ 0 → current_tgid ≠ pid (ks_global s) →
  live s !! p = Some (OBytes pb) → in_range po n pb = true → size_ok n →
  live s !! t = Some (OBytes tb) →
  copy_in_bounds ans (data_verdict dst_size ans) dsto tb →
  let req := data_packet PR_MSG_READ (next_id s) current_tgid offset (slice po n pb) in
  req_pre s req ans →
  wp (teadfs_request_read offset (Ptr p po) n (Ptr t dsto) dst_size) (λ rc s', ∃ b,
    live s !! b = None ∧ comm_frame s s' ∧
    ks_sent s' = ks_sent s ++ [(pid (ks_global s), req)] ∧
    match data_verdict dst_size ans with
    | Refuse => rc = - ENOMEM ∧ live s' = <[b := OBytes req]> (live s)
    | Copy off size => rc = s32 size ∧
        live s' = <[t := OBytes (splice dsto (copied ans off size) tb)]>
                    (<[b := OBytes req]> (live s))
    end) s.
Proof.
  intros Ht. intros. pose proof (not_alloc_fails Ht) as Hna.
  eapply wp_mono; [by eapply wp_request_read|]. intros rc s' (Hf & [(? & _)|(b & Hb & Hcase)]); [done|].
  exists b. destruct Hcase as [(? & _)|[Hs Hv]]; [done|]. split_and!; [done|done|done|exact Hv].
Qed.

(** WRITE: a reply that passes the checks is copied to the destination,
    but the result is then read from the reply's block after it was freed: the
    value returned is whatever that storage holds by then.  The packet's
    buffer is never freed, nor is a refused reply. *)
Theorem request_write_use_after_free (s : kstate) (p t : positive)
    (po n offset dsto dst_size : Z) (pb tb : bytes) (d : bytes) :
  kzalloc_total →
  connect (ks_global s) ≠ 0 → current_tgid ≠ pid (ks_global s) →
  live s !! p = Some (OBytes pb) → in_range po n pb = true → size_ok n →
  live s !! t = Some (OBytes tb) →
  copy_in_bounds (Some d) (data_verdict dst_size (Some d)) dsto tb →
  let req := data_packet PR_MSG_WRITE (next_id s) current_tgid offset (slice po n pb) in
  req_pre s req (Some d) →
  wp (teadfs_request_write offset (Ptr p po) n (Ptr t dsto) dst_size) (λ rc s', ∃ b,
    live s !! b = None ∧
    match data_verdict dst_size (Some d) with
    | Refuse => rc = - ENOMEM ∧ ∃ r, live s !! r = None ∧ r ≠ b ∧
        live s' = <[r := OBytes (reply_block d)]> (<[b := OBytes req]> (live s))
    | Copy off size =>
        rc = s32 (get write_data_size (stale (reply_block d))) ∧
        m_uaf (ks_mem s') = S (m_uaf (ks_mem s)) ∧
        live s' = <[t := OBytes (splice dsto (slice off size (reply_block d)) tb)]>
                    (<[b := OBytes req]> (live s))
    end) s.
Proof.
  intros Ht. intros. pose proof (not_alloc_fails Ht) as Hna.
  eapply wp_mono; [by eapply wp_request_write|]. intros rc s' [(? & _)|(b & Hb & Hcase)]; [done|].
  exists b. split; [done|]. destruct Hcase as [(? & _)|[Hs Hv]]; [done|].
  destruct (data_verdict dst_size (Some d)) as [|off size].
  - by destruct Hv as (? & _ & ?).
  - destruct Hv as (? & (s0 & Hf & ->) & ?). split_and!; [done| |done].
    simpl. by rewrite (cf_uaf _ _ Hf).
Qed.

(** The offset of a reply's data is not checked: a client whose reply
    announces data outside the datagram makes READ and WRITE copy from outside
    the reply's block. *)
Theorem hostile_offset_overread (s : kstate) (p t : positive)
    (po n offset dsto dst_size off size : Z) (pb : bytes) (d : bytes) :
  kzalloc_total →
  connect (ks_global s) ≠ 0 → current_tgid ≠ pid (ks_global s) →
  live s !! p = Some (OBytes pb) → in_range po n pb = true → size_ok n →
  data_verdict dst_size (Some d) = Copy off size → in_range off size (reply_block d) = false →
  (req_pre s (data_packet PR_MSG_READ (next_id s) current_tgid offset (slice po n pb)) (Some d) →
   teadfs_request_read offset (Ptr p po) n (Ptr t dsto) dst_size s = Ub OutOfBounds) ∧
  (req_pre s (data_packet PR_MSG_WRITE (next_id s) current_tgid offset (slice po n pb)) (Some d) →
   teadfs_request_write offset (Ptr p po) n (Ptr t dsto) dst_size s = Ub OutOfBounds).
Proof.
  intros Ht Hc Hk Hp Hin Hn Hv Hout. split; intros Hpre; pose proof (req_pre_dgram _ _ _ Hpre) as Hbl.
  - rewrite read_prefix. apply ub_bind. rewrite data_prefix_factor.
    apply ub_bind_wp. eapply wp_mono; [by eapply wp_data_prefix_reply|].
    intros x s' (b & r & -> & Hr & HL). change (negb (0 =? 0)) with false. cbv beta iota.
    by eapply (data_checks_overread s' d r t dsto).
  - rewrite write_prefix, data_prefix_factor.
    apply ub_bind_wp. eapply wp_mono; [by eapply wp_data_prefix_reply|].
    intros x s' (b & r & -> & Hr & HL). change (negb (0 =? 0)) with false. cbv beta iota.
    by eapply (data_checks_overread s' d r t dsto).
Qed.

End Requests.
