(* ===== verification/Daemon.v ===== *)
(** The user process of [TEADFS-utils]: the receive thread of [netlink.cpp],
    the dispatcher of [main.cpp], and the hello bookkeeping of [request.cpp].

    Undefined behaviour of the C++ code (reads outside a buffer) is [None]. *)
From S2P Require Import Prelude Protocol Netlink Requests.
Local Open Scope Z_scope.

Definition MAX_MSG_SIZE : Z := 8 * 1024.
Definition DATA_EXTENSION_SIZE : Z := 32.
Definition NLMSG_ALIGN (n : Z) : Z := align_up n 4.
Definition NLMSG_LENGTH (n : Z) : Z := n + NLMSG_HDRLEN.
Definition NLMSG_SPACE (n : Z) : Z := NLMSG_ALIGN (NLMSG_LENGTH n).

(** * netlink.cpp *)

(** [CNetlinkInfo::SendMsg]: the datagram it hands to [sendto]; [ty] and [seq]
    are the two header fields it leaves as [malloc] returned them. *)
Definition SendMsg (ty seq : Z) (data : bytes) : bytes :=
  le_encode 4 (NLMSG_LENGTH (blen data)) ++ le_encode 2 ty ++ le_encode 2 0
    ++ le_encode 4 seq ++ le_encode 4 0 ++ data.

(** One turn of [CNetlinkInfo::ThreadRcv] on a datagram: the message given to
    the handler.  [garbage] is what the rest of the [malloc]ed buffer holds. *)
Definition ThreadRcv_message (garbage dgram : bytes) : option bytes :=
  let room := NLMSG_SPACE MAX_MSG_SIZE in
  let nRead := Z.min (blen dgram) room in
  let nlh := slice 0 room (slice 0 nRead dgram ++ garbage) in
  if in_range NLMSG_HDRLEN nRead nlh then Some (slice NLMSG_HDRLEN nRead nlh) else None.

(** * main.cpp *)

(** [struct TEAFS_DEAL_CB]: a null callback is [None].  [read] and [write] get
    the destination size and buffer and return both. *)
Record TEAFS_DEAL_CB := DealCb {
  cb_open : option (Z → Z → bytes → Z);
  cb_release : option (Z → Z → bytes → Z);
  cb_read : option (Z → Z → bytes → Z → bytes → Z * bytes);
  cb_write : option (Z → Z → bytes → Z → bytes → Z * bytes);
  cb_cleanup : option (Z → Z);
}.

(** The storage of a [std::string]: its bytes and the terminator. *)
Definition cstr (s : bytes) : bytes := s ++ [zero_byte].
Definition str_slice (o n : Z) (s : bytes) : option bytes :=
  if in_range o n (cstr s) then Some (slice o n (cstr s)) else None.
Definition str_fld (f : fld) (s : bytes) : option Z :=
  if fld_in f (cstr s) then Some (get f (cstr s)) else None.

(** [pResponsePacketInfo->header = pPacketInfo->header]. *)
Definition copy_header (pkt rsp : bytes) : option bytes :=
  h ← str_slice 0 sizeof_packet_header pkt; Some (splice 0 h rsp).

(** The reply of the OPEN and RELEASE cases. *)
Definition code_response (pkt : bytes) (nCode : Z) : option bytes :=
  rsp ← copy_header pkt (zeros sizeof_packet_info);
  Some (put error_code nCode rsp).

(** The reply of the READ and WRITE cases. *)
Definition data_response (pkt : bytes) (nDstSize : Z) (binDstData : bytes) : option bytes :=
  rsp ← copy_header pkt (zeros (sizeof_packet_info + nDstSize));
  let rsp := put read_code 0 rsp in
  let rsp := put read_data_size nDstSize rsp in
  let rsp := put read_data_offset sizeof_packet_info rsp in
  bs ← str_slice 0 nDstSize binDstData;
  Some (splice sizeof_packet_info bs rsp).

(** [deal_teadfs_msg]: the bytes it gives to [SendMsg].  [nCode] is the
    uninitialised local of the cases whose callback may be null. *)
Definition deal_teadfs_msg (g_deal_db : TEAFS_DEAL_CB) (nCode : Z) (pkt : bytes) : option bytes :=
  msg_type ← str_fld h_msg_type pkt;
  if msg_type =? PR_MSG_OPEN then
    size ← str_fld open_path_size pkt;
    off ← str_fld open_path_offset pkt;
    strFilePath ← str_slice off size pkt;
    nCode ← match cb_open g_deal_db with
            | Some cb => file_id ← str_fld open_file_id pkt; pid ← str_fld h_pid pkt;
                         Some (cb file_id pid strFilePath)
            | None => Some nCode
            end;
    code_response pkt nCode
  else if msg_type =? PR_MSG_RELEASE then
    size ← str_fld open_path_size pkt;
    off ← str_fld open_path_offset pkt;
    strFilePath ← str_slice off size pkt;
    nCode ← match cb_release g_deal_db with
            | Some cb => file_id ← str_fld release_file_id pkt; pid ← str_fld h_pid pkt;
                         Some (cb file_id pid strFilePath)
            | None => Some nCode
            end;
    code_response pkt nCode
  else if msg_type =? PR_MSG_READ then
    wsize ← str_fld write_data_size pkt;
    let nDstSize := u32 (wsize + DATA_EXTENSION_SIZE) in
    let binDstData := zeros nDstSize in
    '(nDstSize, binDstData) ←
      match cb_read g_deal_db with
      | Some cb =>
          offset ← str_fld read_offset pkt;
          size ← str_fld read_data_size pkt;
          off ← str_fld read_data_offset pkt;
          src ← str_slice off size pkt;
          Some (cb offset size src nDstSize binDstData)
      | None => Some (nDstSize, binDstData)
      end;
    data_response pkt nDstSize binDstData
  else if msg_type =? PR_MSG_WRITE then
    wsize ← str_fld write_data_size pkt;
    let nDstSize := u32 (wsize + DATA_EXTENSION_SIZE) in
    let binDstData := zeros nDstSize in
    '(nDstSize, binDstData) ←
      match cb_write g_deal_db with
      | Some cb =>
          offset ← str_fld write_offset pkt;
          size ← str_fld write_data_size pkt;
          off ← str_fld write_data_offset pkt;
          src ← str_slice off size pkt;
          Some (cb offset size src nDstSize binDstData)
      | None => Some (nDstSize, binDstData)
      end;
    data_response pkt nDstSize binDstData
  else Some [].

(** * request.cpp *)

(** [get_next_msg_id] on the counter alone. *)
Definition get_next_msg_id (g_next_id : Z) : Z :=
  let u := u64 (g_next_id + 1) in if u =? 0 then u64 (u + 1) else u.

Record request_state := RequestState {
  g_next_id : Z;
  s_map : gmap Z (option positive);    (* message id -> handler, possibly null *)
}.

(** The packet of [CRequestInfo::SendHello], and the state it leaves. *)
Definition hello_packet (id pid : Z) : bytes :=
  put hello_pid pid (put h_initiator 1 (put h_msg_type PR_MSG_HELLO
    (put h_msg_id id (put h_size sizeof_packet_info (zeros sizeof_packet_info))))).

Definition SendHello (handler : option positive) (pid : Z) (st : request_state)
    : request_state * bytes :=
  let id := get_next_msg_id (g_next_id st) in
  (RequestState id (match s_map st !! id with
                    | Some _ => s_map st              (* emplace keeps the old one *)
                    | None => <[id := handler]> (s_map st)
                    end),
   hello_packet id pid).

(** [CRequestInfo::ResponseMsg]: the handler to call, if any. *)
Definition ResponseMsg (id : Z) (st : request_state) : request_state * option positive :=
  match s_map st !! id with
  | None => (st, None)
  | Some handler => (RequestState (g_next_id st) (delete id (s_map st)), handler)
  end.

(** What a message makes the process do: [thread_pool_cb_func]. *)
Inductive pool_action :=
  | PA_reply (data : bytes)                (* SendMsg *)
  | PA_handler (handler : option positive).

Definition thread_pool_cb_func (cb : TEAFS_DEAL_CB) (nCode : Z) (msg : bytes)
    (st : request_state) : option (request_state * pool_action) :=
  initiator ← str_fld h_initiator msg;
  if 1 =? initiator then
    id ← str_fld h_msg_id msg;
    let '(st, handler) := ResponseMsg id st in Some (st, PA_handler handler)
  else
    rsp ← deal_teadfs_msg cb nCode msg; Some (st, PA_reply rsp).

(** * The process on the packets of the kernel

    The string a message arrives in is the packet followed by [tail]: the
    padding of the datagram and what [ThreadRcv] copies past its end. *)
Section Messages.

Lemma cstr_app pkt tail : cstr (pkt ++ tail) = pkt ++ (tail ++ [zero_byte]).
Proof. unfold cstr. by rewrite <- app_assoc. Qed.

Lemma in_range_app o n xs ys : in_range o n xs = true → in_range o n (xs ++ ys) = true.
Proof. rewrite !in_range_spec, blen_app. pose proof (blen_nonneg ys). lia. Qed.

Lemma str_slice_app o n pkt tail : in_range o n pkt = true →
  str_slice o n (pkt ++ tail) = Some (slice o n pkt).
Proof.
  intros Hin. unfold str_slice. rewrite cstr_app, in_range_app by done.
  apply in_range_spec in Hin. by rewrite slice_app_l by lia.
Qed.

Lemma str_fld_app f pkt tail : fld_in f pkt = true →
  str_fld f (pkt ++ tail) = Some (get f pkt).
Proof.
  unfold fld_in. intros Hin. unfold str_fld, fld_in, get. rewrite cstr_app, in_range_app by done.
  apply in_range_spec in Hin. by rewrite slice_app_l by lia.
Qed.

(** A reply that carries the header of [pkt]. *)
Definition with_header (pkt rsp : bytes) : bytes :=
  splice 0 (slice 0 sizeof_packet_header pkt) rsp.

Lemma blen_header pkt : pkt_sized pkt → blen (slice 0 sizeof_packet_header pkt) = 32.
Proof. unfold pkt_sized. intros. apply blen_slice, in_range_spec. pkt_consts. lia. Qed.

Lemma copy_header_app pkt tail rsp : pkt_sized pkt →
  copy_header (pkt ++ tail) rsp = Some (with_header pkt rsp).
Proof.
  unfold pkt_sized. intros. unfold copy_header. rewrite str_slice_app; [done|].
  apply in_range_spec. pkt_consts. lia.
Qed.

Lemma with_header_sized pkt rsp : pkt_sized pkt → pkt_sized rsp → pkt_sized (with_header pkt rsp).
Proof.
  intros Hp Hr. pose proof (blen_header pkt Hp) as Hh. unfold pkt_sized in *.
  unfold with_header. rewrite blen_splice; [done|]. apply in_range_spec. pkt_consts. lia.
Qed.

Lemma blen_with_header pkt rsp : pkt_sized pkt → pkt_sized rsp →
  blen (with_header pkt rsp) = blen rsp.
Proof.
  intros Hp Hr. pose proof (blen_header pkt Hp) as Hh. unfold pkt_sized, with_header in *.
  apply blen_splice, in_range_spec. pkt_consts. lia.
Qed.

Definition header_fld (f : fld) : bool :=
  (0 <=? f_off f) && (f_off f + Z.of_nat (f_width f) <=? sizeof_packet_header).

Lemma get_with_header f pkt rsp : header_fld f = true → pkt_sized pkt → pkt_sized rsp →
  get f (with_header pkt rsp) = get f pkt.
Proof.
  unfold header_fld. intros Hf Hp Hr. pose proof (blen_header pkt Hp) as Hh.
  unfold get, with_header. f_equal. rewrite slice_splice_inside.
  - rewrite slice_slice; [f_equal; lia|lia|lia|lia].
  - lia.
  - rewrite Hh. pkt_consts. lia.
  - apply in_range_spec. unfold pkt_sized in Hr. pkt_consts. lia.
Qed.
End Messages.

#[export] Hint Resolve with_header_sized : tead_pkt.
#[export] Hint Rewrite blen_with_header using (solve [auto 20 with tead_pkt]) : tead_get.
#[export] Hint Rewrite get_with_header using (solve [reflexivity | auto 20 with tead_pkt]) : tead_get.

(** ** The replies *)
Section Replies.

Definition code_reply (pkt : bytes) (code : Z) : bytes :=
  put error_code code (with_header pkt (zeros sizeof_packet_info)).

Definition data_reply (pkt : bytes) (n : Z) (out : bytes) : bytes :=
  splice sizeof_packet_info (slice 0 n (cstr out))
    (put read_data_offset sizeof_packet_info (put read_data_size n (put read_code 0
      (with_header pkt (zeros (sizeof_packet_info + n)))))).

Lemma code_response_app pkt tail code : pkt_sized pkt →
  code_response (pkt ++ tail) code = Some (code_reply pkt code).
Proof. intros. unfold code_response. by rewrite copy_header_app. Qed.

Lemma data_response_app pkt tail n out : pkt_sized pkt → 0 ≤ n ≤ blen out →
  data_response (pkt ++ tail) n out = Some (data_reply pkt n out).
Proof.
  intros Hp Hn. unfold data_response. rewrite copy_header_app by done. simpl.
  unfold str_slice. rewrite (proj2 (in_range_spec _ _ _)); [done|].
  unfold cstr. rewrite blen_app. pose proof (blen_nonneg [zero_byte]). lia.
Qed.

Lemma zeros_packet_sized : pkt_sized (zeros sizeof_packet_info).
Proof. apply zeros_sized. lia. Qed.
#[local] Hint Resolve zeros_packet_sized sized_zeros : tead_pkt.

Lemma blen_code_reply pkt code : pkt_sized pkt → blen (code_reply pkt code) = sizeof_packet_info.
Proof.
  intros. unfold code_reply. autorewrite with tead_get. apply blen_zeros. pkt_consts. lia.
Qed.

Lemma get_code_reply f pkt code : header_fld f = true → fld_disjoint f error_code = true →
  fld_ok f = true → pkt_sized pkt → get f (code_reply pkt code) = get f pkt.
Proof.
  intros. unfold code_reply. rewrite get_put_ne_sized by auto with tead_pkt.
  apply get_with_header; auto with tead_pkt.
Qed.

Lemma get_code_reply_code pkt code : pkt_sized pkt →
  get error_code (code_reply pkt code) = u32 code.
Proof. intros. unfold code_reply. by rewrite get_put_sized by auto with tead_pkt. Qed.

Lemma blen_data_reply pkt n out : pkt_sized pkt → 0 ≤ n ≤ blen out →
  blen (data_reply pkt n out) = sizeof_packet_info + n.
Proof.
  intros Hp Hn. assert (blen (slice 0 n (cstr out)) = n) as Hl.
  { apply blen_slice, in_range_spec. unfold cstr. rewrite blen_app.
    pose proof (blen_nonneg [zero_byte]). lia. }
  assert (Hz : pkt_sized (zeros (sizeof_packet_info + n))) by (apply sized_zeros; lia).
  unfold data_reply. rewrite blen_splice; autorewrite with tead_get;
    rewrite ?blen_zeros; try (pkt_consts; lia).
  apply in_range_spec. autorewrite with tead_get. rewrite blen_zeros, Hl; pkt_consts; lia.
Qed.

Lemma get_data_reply f pkt n out : fld_ok f = true → pkt_sized pkt → 0 ≤ n ≤ blen out →
  get f (data_reply pkt n out) =
  get f (put read_data_offset sizeof_packet_info (put read_data_size n (put read_code 0
      (with_header pkt (zeros (sizeof_packet_info + n)))))).
Proof.
  intros Hf Hp Hn. unfold data_reply. apply get_splice_data; [done|].
  assert (Hz : pkt_sized (zeros (sizeof_packet_info + n))) by (apply sized_zeros; lia).
  autorewrite with tead_get. rewrite blen_zeros by (pkt_consts; lia).
  rewrite blen_slice; [lia|]. apply in_range_spec. unfold cstr. rewrite blen_app.
  pose proof (blen_nonneg [zero_byte]). lia.
Qed.

Lemma slice_data_reply pkt n out : pkt_sized pkt → 0 ≤ n ≤ blen out →
  slice sizeof_packet_info n (data_reply pkt n out) = slice 0 n out.
Proof.
  intros Hp Hn. unfold data_reply.
  assert (Hz : pkt_sized (zeros (sizeof_packet_info + n))) by (apply sized_zeros; lia).
  assert (Hl : blen (slice 0 n (cstr out)) = n).
  { apply blen_slice, in_range_spec. unfold cstr. rewrite blen_app.
    pose proof (blen_nonneg [zero_byte]). lia. }
  rewrite <- Hl at 1. rewrite slice_splice_same.
  - unfold cstr. apply slice_app_l; lia.
  - apply in_range_spec. autorewrite with tead_get. rewrite blen_zeros; pkt_consts; lia.
Qed.
End Replies.

(** ** The dispatcher *)
Section Dispatch.
Variable cb : TEAFS_DEAL_CB.
#[local] Hint Resolve zeros_packet_sized sized_zeros : tead_pkt.

Lemma path_packet_sized ty id kpid file path : pkt_sized (path_packet ty id kpid file path).
Proof. unfold pkt_sized. rewrite blen_path_packet. pose proof (blen_nonneg path). lia. Qed.

Lemma data_packet_sized ty id kpid offset bs : pkt_sized (data_packet ty id kpid offset bs).
Proof. unfold pkt_sized. rewrite blen_data_packet. pose proof (blen_nonneg bs). lia. Qed.

Lemma slice_path_packet ty id kpid file path :
  slice sizeof_packet_info (blen path) (path_packet ty id kpid file path) = path.
Proof.
  pose proof (blen_nonneg path). unfold path_packet. apply slice_splice_same, in_range_spec.
  rewrite blen_path_head by done. pkt_consts. lia.
Qed.

Lemma slice_data_packet ty id kpid offset bs :
  slice sizeof_packet_info (blen bs) (data_packet ty id kpid offset bs) = bs.
Proof.
  pose proof (blen_nonneg bs). unfold data_packet. apply slice_splice_same, in_range_spec.
  rewrite blen_data_head by done. pkt_consts. lia.
Qed.

Lemma some_bind {A B} (x : A) (f : A → option B) : (Some x ≫= f) = f x.
Proof. done. Qed.

(** The fields of the packets the kernel builds. *)
Lemma path_packet_fields ty id kpid file path :
  0 ≤ ty < 2 ^ 8 → 0 ≤ id < 2 ^ 64 → 0 ≤ file < 2 ^ 64 → 0 ≤ kpid < 2 ^ 31 →
  blen path < 2 ^ 31 →
  let p := path_packet ty id kpid file path in
  get h_msg_type p = ty ∧ get h_initiator p = 0 ∧ get h_msg_id p = id ∧ get h_pid p = kpid ∧
  get open_file_id p = file ∧ get open_path_size p = blen path ∧
  get open_path_offset p = sizeof_packet_info.
Proof.
  intros Hty Hid Hfile Hpid Hpath p. unfold p. clear p. pose proof (blen_nonneg path).
  rewrite !get_path_packet by done. unfold path_head, header_put. autorewrite with tead_get.
  split_and!; apply Z.mod_small; pkt_consts; lia.
Qed.

Lemma data_packet_fields ty id kpid offset bs :
  0 ≤ ty < 2 ^ 8 → 0 ≤ id < 2 ^ 64 → 0 ≤ kpid < 2 ^ 31 → blen bs < 2 ^ 31 →
  let p := data_packet ty id kpid offset bs in
  get h_msg_type p = ty ∧ get h_initiator p = 0 ∧ get h_msg_id p = id ∧ get h_pid p = kpid ∧
  get read_offset p = u64 offset ∧ get read_data_size p = blen bs ∧
  get read_data_offset p = sizeof_packet_info ∧ get read_code p = 0.
Proof.
  intros Hty Hid Hpid Hbs p. unfold p. clear p. pose proof (blen_nonneg bs).
  rewrite !get_data_packet by done. unfold data_head, header_put. autorewrite with tead_get.
  split_and!; try done; apply Z.mod_small; pkt_consts; lia.
Qed.

Lemma in_range_path_packet ty id kpid file path :
  in_range sizeof_packet_info (blen path) (path_packet ty id kpid file path) = true.
Proof.
  apply in_range_spec. rewrite blen_path_packet. pose proof (blen_nonneg path). pkt_consts. lia.
Qed.

Lemma in_range_data_packet ty id kpid offset bs :
  in_range sizeof_packet_info (blen bs) (data_packet ty id kpid offset bs) = true.
Proof.
  apply in_range_spec. rewrite blen_data_packet. pose proof (blen_nonneg bs). pkt_consts. lia.
Qed.

#[local] Hint Resolve path_packet_sized data_packet_sized : tead_pkt.
#[local] Opaque path_packet data_packet get code_reply data_reply u32 zeros slice.

(** Decide the comparisons of message types, which are constants. *)
Ltac eval_types :=
  repeat match goal with |- context [?a =? ?b] =>
    let v := eval vm_compute in (a =? b) in
    lazymatch v with true => idtac | false => idtac end; change (a =? b) with v
  end; cbv iota.

Lemma deal_path_packet ty nCode id kpid file path tail (f : Z → Z → bytes → Z) :
  (ty = PR_MSG_OPEN ∧ cb_open cb = Some f) ∨ (ty = PR_MSG_RELEASE ∧ cb_release cb = Some f) →
  0 ≤ id < 2 ^ 64 → 0 ≤ file < 2 ^ 64 → 0 ≤ kpid < 2 ^ 31 → blen path < 2 ^ 31 →
  let p := path_packet ty id kpid file path in
  deal_teadfs_msg cb nCode (p ++ tail) = Some (code_reply p (f file kpid path)).
Proof.
  intros Hf Hid Hfile Hpid Hpath p.
  assert (Hty : 0 ≤ ty < 2 ^ 8) by (destruct Hf as [[-> _]|[-> _]]; done).
  destruct (path_packet_fields ty id kpid file path) as (E1 & E2 & E3 & E4 & E5 & E6 & E7);
    [done..|]. fold p in E1, E2, E3, E4, E5, E6, E7.
  assert (Hp : pkt_sized p) by apply path_packet_sized.
  assert (Hsl : slice sizeof_packet_info (blen path) p = path) by apply slice_path_packet.
  assert (Hfld : ∀ g, fld_ok g = true → str_fld g (p ++ tail) = Some (get g p)).
  { intros. by apply str_fld_app, fld_in_sized. }
  unfold deal_teadfs_msg. rewrite (Hfld h_msg_type), E1, some_bind by done.
  rewrite (Hfld open_path_size), (Hfld open_path_offset), E6, E7 by done.
  rewrite !some_bind, str_slice_app by apply in_range_path_packet. rewrite Hsl, some_bind.
  change release_file_id with open_file_id. rewrite (Hfld open_file_id), (Hfld h_pid), E4, E5 by done.
  destruct Hf as [[-> ->]|[-> ->]]; rewrite !some_bind; by apply code_response_app.
Qed.

(** A READ or WRITE callback stays inside the buffer it is given, and the size
    it sets is one of bytes it has. *)
Definition data_cb_ok (f : Z → Z → bytes → Z → bytes → Z * bytes) : Prop :=
  ∀ offset src buf, blen buf = blen src + DATA_EXTENSION_SIZE →
    let r := f offset (blen src) src (blen buf) buf in 0 ≤ r.1 ≤ blen r.2.

Lemma deal_data_packet ty nCode id kpid offset bs tail f :
  (ty = PR_MSG_READ ∧ cb_read cb = Some f) ∨ (ty = PR_MSG_WRITE ∧ cb_write cb = Some f) →
  data_cb_ok f →
  0 ≤ id < 2 ^ 64 → 0 ≤ kpid < 2 ^ 31 → blen bs < 2 ^ 31 →
  let p := data_packet ty id kpid offset bs in
  let room := blen bs + DATA_EXTENSION_SIZE in
  let r := f (u64 offset) (blen bs) bs room (zeros room) in
  deal_teadfs_msg cb nCode (p ++ tail) = Some (data_reply p r.1 r.2).
Proof.
  intros Hf Hcb Hid Hpid Hbs p room r.
  assert (Hty : 0 ≤ ty < 2 ^ 8) by (destruct Hf as [[-> _]|[-> _]]; done).
  destruct (data_packet_fields ty id kpid offset bs) as (E1 & E2 & E3 & E4 & E5 & E6 & E7 & _);
    [done..|]. fold p in E1, E2, E3, E4, E5, E6, E7.
  assert (Hp : pkt_sized p) by apply data_packet_sized.
  assert (Hsl : slice sizeof_packet_info (blen bs) p = bs) by apply slice_data_packet.
  assert (Hfld : ∀ g, fld_ok g = true → str_fld g (p ++ tail) = Some (get g p)).
  { intros. by apply str_fld_app, fld_in_sized. }
  pose proof (blen_nonneg bs) as Hb0.
  assert (Hroom : 0 ≤ room) by (unfold room, DATA_EXTENSION_SIZE; lia).
  assert (Hr : 0 ≤ r.1 ≤ blen r.2).
  { pose proof (Hcb (u64 offset) bs (zeros room)) as Hcb'.
    rewrite blen_zeros in Hcb' by done. by apply Hcb'. }
  unfold deal_teadfs_msg. rewrite (Hfld h_msg_type), E1 by done.
  change write_data_size with read_data_size. change write_data_offset with read_data_offset.
  change write_offset with read_offset.
  destruct Hf as [[-> Hf]|[-> Hf]]; rewrite Hf, some_bind; eval_types;
    rewrite (Hfld read_data_size), E6, some_bind by done; cbv zeta; fold room;
    rewrite (u32_small room) by (unfold room, DATA_EXTENSION_SIZE; lia);
    rewrite (Hfld read_offset), (Hfld read_data_offset), E5, E7, !some_bind by done;
    (rewrite str_slice_app by apply in_range_data_packet); rewrite Hsl, !some_bind;
    fold r; destruct r as [n out]; by apply data_response_app.
Qed.

(** Messages of any other type are answered by an empty one. *)
Lemma deal_other nCode msg ty :
  str_fld h_msg_type msg = Some ty →
  ty ∉ [PR_MSG_OPEN; PR_MSG_RELEASE; PR_MSG_READ; PR_MSG_WRITE] →
  deal_teadfs_msg cb nCode msg = Some [].
Proof.
  intros Hty Hne. rewrite !not_elem_of_cons in Hne. destruct Hne as (? & ? & ? & ? & _).
  unfold deal_teadfs_msg. rewrite Hty, some_bind, !(proj2 (Z.eqb_neq _ _)) by done. done.
Qed.
End Dispatch.

(** ** Datagrams *)
Section Datagrams.

Lemma payload_SendMsg ty seq data : payload (SendMsg ty seq data) = data.
Proof. done. Qed.

Lemma blen_SendMsg ty seq data : blen (SendMsg ty seq data) = NLMSG_HDRLEN + blen data.
Proof.
  unfold SendMsg. autorewrite with tead_len. change NLMSG_HDRLEN with 16. lia.
Qed.

(** A message that holds a packet header is a well-formed datagram. *)
Lemma SendMsg_ok ty seq data :
  sizeof_packet_header ≤ blen data < 2 ^ 31 - NLMSG_HDRLEN → dgram_ok (SendMsg ty seq data).
Proof.
  intros Hn. split; [rewrite blen_SendMsg; dgram|].
  rewrite blen_SendMsg. unfold get, SendMsg.
  change (f_off nlmsg_len_fld) with 0. change (Z.of_nat (f_width nlmsg_len_fld)) with 4.
  rewrite <- (blen_le_encode 4 (NLMSG_LENGTH (blen data))) at 1. rewrite slice_prefix.
  rewrite le_decode_encode_small; [unfold NLMSG_LENGTH; lia|].
  unfold NLMSG_LENGTH. change NLMSG_HDRLEN with 16 in *. pkt_consts. lia.
Qed.

(** The receive thread hands on the packet, with a tail of [NLMSG_HDRLEN] more
    bytes than the datagram had. *)
Lemma ThreadRcv_packet garbage h req pad :
  blen h = NLMSG_HDRLEN → NLMSG_SPACE MAX_MSG_SIZE ≤ blen garbage →
  2 * NLMSG_HDRLEN + blen req + blen pad ≤ NLMSG_SPACE MAX_MSG_SIZE →
  ∃ tail, ThreadRcv_message garbage (h ++ req ++ pad) = Some (req ++ tail) ∧
    blen tail = blen pad + NLMSG_HDRLEN.
Proof.
  change NLMSG_HDRLEN with 16. change (NLMSG_SPACE MAX_MSG_SIZE) with 8208. intros Hh Hg Hlen.
  pose proof (blen_nonneg req). pose proof (blen_nonneg pad).
  unfold ThreadRcv_message. change (NLMSG_SPACE MAX_MSG_SIZE) with 8208. cbv zeta.
  rewrite Z.min_l by (rewrite !blen_app; lia).
  rewrite slice_all. change NLMSG_HDRLEN with 16.
  assert (Hn : blen (slice 0 8208 ((h ++ req ++ pad) ++ garbage)) = 8208).
  { apply blen_slice, in_range_spec. rewrite !blen_app. lia. }
  rewrite (proj2 (in_range_spec _ _ _)) by (rewrite Hn, !blen_app; lia).
  rewrite slice_slice by (rewrite ?blen_app; lia). rewrite Z.add_0_l.
  exists (slice 0 (blen pad + 16) (pad ++ garbage)). split.
  - f_equal. rewrite <- Hh at 1. rewrite <- !app_assoc.
    rewrite slice_app_r, Z.sub_diag, !blen_app by lia. unfold slice. change (Z.to_nat 0) with O.
    rewrite Hh. replace (Z.to_nat _) with (length req + Z.to_nat (blen pad + 16))%nat
      by (unfold blen in *; lia).
    rewrite !drop_0. by rewrite firstn_app_2.
  - apply blen_slice, in_range_spec. rewrite blen_app. lia.
Qed.
End Datagrams.
