(* ===== verification/Client.v ===== *)
(** [test/test.cpp], the client that ships with the file system: its five
    callbacks, over a file system of byte strings.

    Reads and writes of regular files transfer what is asked for (up to the
    end of the file); whether an [open] succeeds is a parameter. *)
From S2P Require Import Prelude Protocol Daemon.
Local Open Scope Z_scope.

(** * Paths *)

#[export] Instance byte_countable : Countable byte.
Proof. refine (inj_countable Byte.to_N Byte.of_N Byte.of_to_N). Defined.

(** [std::string::find] of [needle], as found or not. *)
Fixpoint starts_with (needle s : bytes) : bool :=
  match needle, s with
  | [], _ => true
  | a :: needle, b :: s => bool_decide (a = b) && starts_with needle s
  | _, [] => false
  end.
Fixpoint contains (needle s : bytes) : bool :=
  starts_with needle s || match s with [] => false | _ :: s => contains needle s end.


(** [rfind("/")] and [substr]: the text from the last slash on. *)
Fixpoint last_slash (s : bytes) : option bytes :=
  match s with
  | [] => None
  | b :: rest =>
      match last_slash rest with
      | Some r => Some r
      | None => if decide (b = Byte.x2f) then Some (b :: rest) else None
      end
  end.
Definition GetFileName (strPath : bytes) : bytes := default strPath (last_slash strPath).

(** * The callbacks *)

Definition ENCRYPT_FILE_FLAG : Z := 0x44414554.

(** [enum TEADFS_OPEN_RESULT], [enum TEADFS_RELEASE_FILE_RESULT]. *)
Definition TOR_INIT : Z := 1.
Definition TOR_PROHIBIT : Z := 2.
Definition TOR_ENCRYPT : Z := 3.
Definition TOR_DECRYPT : Z := 4.
Definition TRFR_NORMAL : Z := 1.
Definition TRFR_ENCRYPT : Z := 2.

(** [chBuf[i] ^ 0x13], kept to a byte. *)
Definition xor13 (b : byte) : byte := byte_of (Z.lxor (byte_val b) 0x13).

Definition flag_of (chHeader : bytes) : Z := le_decode (slice 0 4 chHeader).

(** [open]: what [pszFilePath] holds when it can be opened, and the
    executable's path of the process. *)
Definition open (strProcPath : bytes) (fdSrc : option bytes) : Z :=
  match fdSrc with
  | None => TOR_INIT
  | Some contents =>
      let chHeader := take (Z.to_nat ENCRYPT_FILE_HEADER_SIZE) contents in
      if blen chHeader <? ENCRYPT_FILE_HEADER_SIZE then TOR_INIT
      else if ENCRYPT_FILE_FLAG =? flag_of chHeader then
        if contains (str "cat") strProcPath then TOR_ENCRYPT else TOR_DECRYPT
      else TOR_INIT
  end.

(** The [do]-loop of [release]: read up to 1024 bytes at the source's
    position, change them, write them at the destination's. *)
Fixpoint copy_loop (fuel : nat) (src : bytes) (spos : Z) (dst : bytes) (dpos : Z)
    : option bytes :=
  match fuel with
  | O => None
  | S fuel =>
      let chBuf := take 1024 (drop (Z.to_nat spos) src) in
      let nRead := blen chBuf in
      if nRead <=? 0 then Some dst
      else copy_loop fuel src (spos + nRead) (splice dpos (map xor13 chBuf) dst) (dpos + nRead)
  end.

Abbreviation files := (gmap bytes bytes).

Definition tmp_path (p : bytes) : bytes := p ++ str ".teadfstmp".

(** [release]: the result and the files.  [can_create]: the temporary file
    could be opened. *)
Definition release (can_create : bool) (pszFilePath : bytes) (fs : files) : option (Z * files) :=
  if negb (contains (str ".txt") pszFilePath) then Some (TRFR_NORMAL, fs) else
  match fs !! pszFilePath with
  | None => Some (TRFR_NORMAL, fs)
  | Some src =>
      let got := take (Z.to_nat ENCRYPT_FILE_HEADER_SIZE) src in
      let chHeader := splice 0 got (zeros ENCRYPT_FILE_HEADER_SIZE) in
      if (ENCRYPT_FILE_HEADER_SIZE <=? blen got) && (ENCRYPT_FILE_FLAG =? flag_of chHeader)
      then Some (TRFR_NORMAL, fs)
      else if negb can_create then Some (TRFR_NORMAL, fs)
      else
        (* O_CREAT without O_TRUNC: an existing file keeps its bytes *)
        let dst := default [] (fs !! tmp_path pszFilePath) in
        let chHeader := splice 0 (le_encode 4 ENCRYPT_FILE_FLAG) chHeader in
        let dst := splice 0 chHeader dst in
        dst ← copy_loop (S (length src)) src 0 dst ENCRYPT_FILE_HEADER_SIZE;
        Some (TRFR_NORMAL, <[pszFilePath := dst]> (delete (tmp_path pszFilePath) fs))
  end.

(** The loop of [read] and [write]. *)
Fixpoint xor_loop (n : nat) (i : nat) (pSrcData pDstData : bytes) : bytes :=
  match n with
  | O => pDstData
  | S n =>
      let b := default zero_byte (pSrcData !! i) in
      xor_loop n (S i) pSrcData (<[i := xor13 b]> pDstData)
  end.

Definition read (offset u32SrcSize : Z) (pSrcData : bytes) (u32DstSize : Z) (pDstData : bytes)
    : Z * bytes :=
  (u32SrcSize, xor_loop (Z.to_nat u32SrcSize) 0 pSrcData pDstData).
Definition write (offset u32SrcSize : Z) (pSrcData : bytes) (u32DstSize : Z) (pDstData : bytes)
    : Z * bytes :=
  (u32SrcSize, xor_loop (Z.to_nat u32SrcSize) 0 pSrcData pDstData).

(** [main]'s callback table, with the [open] and [release] results as functions
    of the request; [cleanup] only returns. *)
Definition client_cb (open_cb release_cb : Z → Z → bytes → Z) : TEAFS_DEAL_CB :=
  DealCb (Some open_cb) (Some release_cb) (Some read) (Some write) (Some (λ _, 0)).

(** * The cipher *)

Lemma xor13_involutive b : xor13 (xor13 b) = b.
Proof. destruct b; reflexivity. Qed.

Lemma map_xor13_involutive bs : map xor13 (map xor13 bs) = bs.
Proof. rewrite map_map. rewrite <- map_id. apply map_ext, xor13_involutive. Qed.

Lemma blen_map_xor13 bs : blen (map xor13 bs) = blen bs.
Proof. unfold blen. by rewrite length_map. Qed.

Lemma xor_loop_spec n i src dst :
  (i + n ≤ length src)%nat → (i + n ≤ length dst)%nat →
  xor_loop n i src dst = take i dst ++ map xor13 (take n (drop i src)) ++ drop (i + n) dst.
Proof.
  revert i dst. induction n as [|n IH]; intros i dst Hs Hd.
  - rewrite Nat.add_0_r, app_nil_l, take_drop. done.
  - simpl. destruct (lookup_lt_is_Some_2 src i) as [b Hb]; [lia|]. rewrite Hb. simpl.
    rewrite IH by (rewrite ?length_insert; lia).
    rewrite (drop_S src b i Hb). simpl.
    rewrite insert_take_drop by lia.
    assert (length (take i dst) = i) by (rewrite length_take; lia).
    rewrite take_app_ge by lia. rewrite drop_app_ge by lia.
    replace (S i - length (take i dst))%nat with 1%nat by lia.
    replace (S (i + n) - length (take i dst))%nat with (S n) by lia.
    rewrite <- app_assoc, skipn_cons, drop_drop. simpl. do 4 f_equal. lia.
Qed.

Lemma read_spec offset src n buf :
  blen src ≤ blen buf →
  read offset (blen src) src n buf =
    (blen src, map xor13 src ++ drop (length src) buf).
Proof.
  unfold blen. intros. unfold read, blen. rewrite Nat2Z.id.
  rewrite xor_loop_spec by lia. simpl. by rewrite firstn_all.
Qed.

Lemma write_spec offset src n buf :
  blen src ≤ blen buf →
  write offset (blen src) src n buf =
    (blen src, map xor13 src ++ drop (length src) buf).
Proof. apply read_spec. Qed.

Lemma read_cb_ok : data_cb_ok read.
Proof.
  intros offset src buf Hb. rewrite read_spec by (unfold DATA_EXTENSION_SIZE in Hb; lia).
  simpl. rewrite blen_app, blen_map_xor13. pose proof (blen_nonneg src).
  pose proof (blen_nonneg (drop (length src) buf)). lia.
Qed.

Lemma write_cb_ok : data_cb_ok write.
Proof. exact read_cb_ok. Qed.

(** * Labelled files *)

(** A file is labelled when its header is whole and starts with the flag. *)
Definition labelled (contents : bytes) : bool :=
  (ENCRYPT_FILE_HEADER_SIZE <=? blen contents) && (ENCRYPT_FILE_FLAG =? flag_of contents).

(** What [release] makes of a file: a header, the flag over its first four
    bytes, and the enciphered contents. *)
Definition label_header (src : bytes) : bytes :=
  splice 0 (le_encode 4 ENCRYPT_FILE_FLAG)
    (splice 0 (take (Z.to_nat ENCRYPT_FILE_HEADER_SIZE) src) (zeros ENCRYPT_FILE_HEADER_SIZE)).
Definition label (src : bytes) : bytes := label_header src ++ map xor13 src.

Lemma blen_take (n : Z) (bs : bytes) : 0 ≤ n → blen (take (Z.to_nat n) bs) = Z.min n (blen bs).
Proof. intros. unfold blen. rewrite length_take. lia. Qed.

Lemma blen_label_header src : blen (label_header src) = ENCRYPT_FILE_HEADER_SIZE.
Proof.
  unfold label_header. pose proof (blen_nonneg src).
  pose proof (blen_take ENCRYPT_FILE_HEADER_SIZE src ltac:(done)) as Ht.
  pose proof (blen_zeros ENCRYPT_FILE_HEADER_SIZE ltac:(done)) as Hz.
  change ENCRYPT_FILE_HEADER_SIZE with 256 in *.
  rewrite !blen_splice; [done| |]; apply in_range_spec; rewrite ?blen_splice, ?blen_le_encode, ?Hz;
    try lia; apply in_range_spec; lia.
Qed.

Lemma flag_of_app h rest : 4 ≤ blen h → flag_of (h ++ rest) = flag_of h.
Proof. intros. unfold flag_of. by rewrite slice_app_l by lia. Qed.

Lemma flag_of_label_header src : flag_of (label_header src) = ENCRYPT_FILE_FLAG.
Proof.
  unfold flag_of, label_header. change 4 with (blen (le_encode 4 ENCRYPT_FILE_FLAG)) at 1.
  rewrite slice_splice_same; [done|]. apply in_range_spec.
  pose proof (blen_take ENCRYPT_FILE_HEADER_SIZE src ltac:(done)) as Ht. pose proof (blen_nonneg src).
  pose proof (blen_zeros ENCRYPT_FILE_HEADER_SIZE ltac:(done)) as Hz.
  change ENCRYPT_FILE_HEADER_SIZE with 256 in *.
  rewrite blen_splice; [rewrite blen_le_encode, Hz; lia|]. apply in_range_spec. lia.
Qed.

Lemma labelled_label src : labelled (label src) = true.
Proof.
  unfold labelled, label. rewrite flag_of_app by (by rewrite blen_label_header).
  rewrite flag_of_label_header, Z.eqb_refl, blen_app, blen_label_header.
  pose proof (blen_nonneg (map xor13 src)). lia.
Qed.

(** The first four bytes of the header are all of it that is not taken over
    from the file. *)
Lemma slice_label_header src o n :
  4 ≤ o → 0 ≤ n → o + n ≤ ENCRYPT_FILE_HEADER_SIZE → o + n ≤ blen src →
  slice o n (label_header src) = slice o n src.
Proof.
  intros Ho Hn Hend Hs. unfold label_header.
  pose proof (blen_take ENCRYPT_FILE_HEADER_SIZE src ltac:(done)) as Ht. pose proof (blen_nonneg src).
  pose proof (blen_zeros ENCRYPT_FILE_HEADER_SIZE ltac:(done)) as Hz.
  change ENCRYPT_FILE_HEADER_SIZE with 256 in *.
  assert (Hin : in_range 0 (blen (take (Z.to_nat 256) src)) (zeros 256) = true)
    by (apply in_range_spec; lia).
  rewrite slice_splice_after; [|rewrite blen_le_encode; lia|].
  2: { apply in_range_spec. rewrite blen_splice, blen_le_encode, Hz by done. lia. }
  rewrite slice_splice_inside by (done || lia). rewrite Z.sub_0_r.
  change (take (Z.to_nat 256) src) with (slice 0 256 src). by rewrite slice_slice by lia.
Qed.

(** The loop copies what is left of the source, enciphered. *)
Lemma copy_loop_spec fuel src spos dst dpos :
  0 ≤ spos ≤ blen src → 0 ≤ dpos ≤ blen dst → blen src - spos < Z.of_nat fuel →
  copy_loop fuel src spos dst dpos =
    Some (splice dpos (map xor13 (drop (Z.to_nat spos) src)) dst).
Proof.
  revert spos dst dpos. induction fuel as [|fuel IH]; intros spos dst dpos Hs Hd Hf; [lia|].
  cbn [copy_loop]. cbv zeta.
  assert (Hl : blen (take 1024 (drop (Z.to_nat spos) src)) = Z.min 1024 (blen src - spos)).
  { unfold blen in *. rewrite length_take, length_drop. lia. }
  rewrite Hl. case_match eqn:E.
  - rewrite (drop_ge src) by (unfold blen in *; lia). simpl. f_equal.
    unfold splice. simpl. by rewrite Nat.add_0_r, take_drop.
  - assert (Hdl : dpos + Z.min 1024 (blen src - spos) ≤
      blen (splice dpos (map xor13 (take 1024 (drop (Z.to_nat spos) src))) dst)).
    { unfold splice. rewrite !blen_app, blen_map_xor13, Hl.
      unfold blen in *. rewrite length_take. lia. }
    rewrite IH by lia. f_equal.
    rewrite <- (take_drop 1024 (drop (Z.to_nat spos) src)) at 2.
    rewrite drop_drop, map_app.
    remember (map xor13 (take 1024 (drop (Z.to_nat spos) src))) as x eqn:Hx.
    assert (Hxl : blen x = Z.min 1024 (blen src - spos)) by (subst x; by rewrite blen_map_xor13).
    replace (drop (Z.to_nat (spos + Z.min 1024 (blen src - spos))) src)
      with (drop (Z.to_nat spos + 1024) src).
    2: { destruct (decide (1024 ≤ blen src - spos)).
         - f_equal. lia.
         - rewrite !drop_ge by (unfold blen in *; lia). done. }
    rewrite <- Hxl. by apply splice_splice_next.
Qed.

Lemma take_header contents : ENCRYPT_FILE_HEADER_SIZE ≤ blen contents →
  blen (take (Z.to_nat ENCRYPT_FILE_HEADER_SIZE) contents) = ENCRYPT_FILE_HEADER_SIZE ∧
  flag_of (take (Z.to_nat ENCRYPT_FILE_HEADER_SIZE) contents) = flag_of contents.
Proof.
  intros H. assert (Hl : blen (take (Z.to_nat ENCRYPT_FILE_HEADER_SIZE) contents)
    = ENCRYPT_FILE_HEADER_SIZE) by (rewrite blen_take by done; lia).
  split; [done|]. unfold flag_of. f_equal.
  rewrite <- (take_drop (Z.to_nat ENCRYPT_FILE_HEADER_SIZE) contents) at 2.
  rewrite slice_app_l; [done|lia|]. rewrite Hl. done.
Qed.

(** The check of [release] is the label. *)
Lemma release_check src :
  let got := take (Z.to_nat ENCRYPT_FILE_HEADER_SIZE) src in
  (ENCRYPT_FILE_HEADER_SIZE <=? blen got)
  && (ENCRYPT_FILE_FLAG =? flag_of (splice 0 got (zeros ENCRYPT_FILE_HEADER_SIZE)))
  = labelled src.
Proof.
  cbv zeta. unfold labelled.
  destruct (decide (ENCRYPT_FILE_HEADER_SIZE ≤ blen src)) as [Hl|Hl].
  - destruct (take_header src Hl) as [-> Hf].
    rewrite splice_all; [by rewrite Hf, !(proj2 (Z.leb_le _ _))|].
    rewrite blen_zeros by done. by apply take_header.
  - rewrite blen_take by done. rewrite !(proj2 (Z.leb_gt _ _)) by lia. done.
Qed.

Lemma release_copies src dst :
  copy_loop (S (length src)) src 0 (splice 0 (label_header src) dst) ENCRYPT_FILE_HEADER_SIZE =
    Some (label src ++ drop (length (label src)) dst).
Proof.
  pose proof (blen_label_header src) as Hh. rewrite copy_loop_spec.
  - rewrite <- Hh. f_equal. etrans; [apply (splice_splice_next 0)|].
    + pose proof (blen_nonneg dst). lia.
    + unfold splice. rewrite drop_0. done.
  - pose proof (blen_nonneg src). lia.
  - unfold splice. rewrite !blen_app, Hh. pose proof (blen_nonneg (take (Z.to_nat 0) dst)).
    pose proof (blen_nonneg (drop (Z.to_nat 0 + length (label_header src)) dst)).
    split; [done|lia].
  - unfold blen. lia.
Qed.

Lemma release_unlabelled p src fs :
  contains (str ".txt") p = true → fs !! p = Some src → labelled src = false →
  release true p fs = Some (TRFR_NORMAL,
    <[p := label src ++ drop (length (label src)) (default [] (fs !! tmp_path p))]>
      (delete (tmp_path p) fs)).
Proof.
  intros Hp Hs Hl. unfold release. rewrite Hp, Hs. cbv zeta. rewrite release_check, Hl.
  change (negb true) with false. cbv iota. fold (label_header src). by rewrite release_copies.
Qed.

Lemma release_labelled ok p src fs :
  fs !! p = Some src → labelled src = true → release ok p fs = Some (TRFR_NORMAL, fs).
Proof.
  intros Hs Hl. unfold release. destruct (contains _ p); [|done].
  rewrite Hs. cbv zeta. change (negb true) with false. cbv iota. by rewrite release_check, Hl.
Qed.

Lemma release_refused p src fs :
  fs !! p = Some src → labelled src = false → release false p fs = Some (TRFR_NORMAL, fs).
Proof.
  intros Hs Hl. unfold release. destruct (contains _ p); [|done].
  rewrite Hs. cbv zeta. change (negb true) with false. cbv iota. by rewrite release_check, Hl.
Qed.

Lemma labelled_label_app src rest : labelled (label src ++ rest) = true.
Proof.
  pose proof (labelled_label src) as Hll. unfold labelled in *.
  apply andb_true_iff in Hll as [Hb Hf]. apply Z.leb_le in Hb.
  rewrite flag_of_app, Hf, blen_app by (change ENCRYPT_FILE_HEADER_SIZE with 256 in *; lia).
  rewrite (proj2 (Z.leb_le _ _)); [done|]. pose proof (blen_nonneg rest). lia.
Qed.

Lemma tmp_path_ne p : tmp_path p ≠ p.
Proof. intros E. apply (f_equal length) in E. unfold tmp_path in E. rewrite length_app in E. simpl in E. lia. Qed.

(** * Properties of the client *)

(** [open] answers by the file's label: an unlabelled file is none of the
    client's business; a labelled one is decrypted, except for a process whose
    executable's path contains "cat", which sees it enciphered. *)
Theorem open_classifies (strProcPath contents : bytes) :
  open strProcPath (Some contents) =
    if labelled contents then
      if contains (str "cat") strProcPath then TOR_ENCRYPT else TOR_DECRYPT
    else TOR_INIT.
Proof.
  unfold open, labelled. destruct (decide (ENCRYPT_FILE_HEADER_SIZE ≤ blen contents)) as [Hl|Hl].
  - destruct (take_header contents Hl) as [-> ->].
    rewrite (proj2 (Z.ltb_ge _ _)), (proj2 (Z.leb_le _ _)) by lia. done.
  - rewrite blen_take by done.
    rewrite (proj2 (Z.ltb_lt _ _)), (proj2 (Z.leb_gt _ _)) by lia. done.
Qed.


(** A second [release] of the same file changes nothing: a labelled file
    is not enciphered twice. *)
Theorem release_idempotent (p : bytes) (ok : bool) (fs fs' : files) (r : Z) :
  release ok p fs = Some (r, fs') → release ok p fs' = Some (r, fs').
Proof.
  intros E. destruct (contains (str ".txt") p) eqn:Hp.
  2: { unfold release in *. rewrite Hp in *. by injection E as <- <-. }
  destruct (fs !! p) as [src|] eqn:Hs.
  2: { unfold release in *. rewrite Hp, Hs in *. injection E as <- <-. by rewrite Hs. }
  destruct (labelled src) eqn:Hl.
  { rewrite (release_labelled ok p src) in E by done. injection E as <- <-.
    by apply (release_labelled ok p src). }
  destruct ok.
  - rewrite (release_unlabelled p src) in E by done. injection E as <- <-.
    eapply release_labelled; [apply lookup_insert_eq|]. apply labelled_label_app.
  - rewrite (release_refused p src) in E by done. injection E as <- <-.
    by apply (release_refused p src).
Qed.

(** The label does not hide the file: bytes 4 to 255 of the plaintext are
    in the header in the clear, because the buffer that becomes the header
    still holds what was read to look for the flag. *)
Theorem release_header_plain (src : bytes) (o n : Z) :
  4 ≤ o → 0 ≤ n → o + n ≤ ENCRYPT_FILE_HEADER_SIZE → o + n ≤ blen src →
  slice o n (label src) = slice o n src.
Proof.
  intros. unfold label. rewrite slice_app_l by (rewrite ?blen_label_header; lia).
  by apply slice_label_header.
Qed.

(** The temporary file is opened without O_TRUNC: what a longer left-over
    file of that name holds past the copy ends up at the end of the released
    file. *)
Theorem release_keeps_stale_tail (p src old : bytes) (fs : files) :
  contains (str ".txt") p = true → fs !! p = Some src → labelled src = false →
  fs !! tmp_path p = Some old →
  ∃ fs', release true p fs = Some (TRFR_NORMAL, fs') ∧
    fs' !! p = Some (label src ++ drop (length (label src)) old).
Proof.
  intros Hp Hs Hl Ht. eexists. split; [by apply release_unlabelled|].
  by rewrite lookup_insert_eq, Ht.
Qed.

(** The cipher callbacks: for a source that fits, [read] and [write] set
    the size to the source's and fill exactly that much of the buffer with the
    enciphered source; each undoes the other. *)
Theorem client_cipher (offset n offset' n' : Z) (src buf buf' : bytes) :
  blen src ≤ blen buf → blen src ≤ blen buf' →
  let '(sz, out) := write offset (blen src) src n buf in
  sz = blen src ∧ blen out = blen buf ∧
  drop (length src) out = drop (length src) buf ∧
  let '(sz', out') := read offset' sz (slice 0 sz out) n' buf' in
  sz' = blen src ∧ slice 0 sz' out' = src.
Proof.
  intros Hb Hb'. rewrite write_spec by done.
  assert (Hl : length (map xor13 src) = length src) by apply length_map.
  assert (Hc : slice 0 (blen src) (map xor13 src ++ drop (length src) buf) = map xor13 src).
  { rewrite <- (blen_map_xor13 src). apply slice_prefix. }
  split_and!; [done| | |].
  - rewrite blen_app, blen_map_xor13. unfold blen in *. rewrite length_drop. lia.
  - by rewrite drop_app_length'.
  - rewrite Hc. rewrite <- (blen_map_xor13 src). rewrite read_spec by (by rewrite blen_map_xor13).
    split; [done|]. rewrite map_xor13_involutive, blen_map_xor13. apply slice_prefix.
Qed.
