(* ===== verification/ClientMain.v ===== *)
(** [test/test.cpp] beside its callbacks: the path of the process that opens a
    file, the callback of [cleanup], and the edit [main] makes when it is given
    an argument.

    [readlink] and the bytes that are on the stack are arguments. *)
From S2P Require Import Prelude Kernel Wp Protocol Daemon Client.
Local Open Scope Z_scope.

Definition PATH_MAX : Z := 4096.
Definition LINK_BUF : Z := 64.

(** * Numbers in text *)

(** The decimal digits of a number that is not negative. *)
Definition digit (d : Z) : byte := byte_of (48 + d).
Fixpoint digits (fuel : nat) (n : Z) : bytes :=
  match fuel with
  | O => []
  | S fuel => (if n <? 10 then [] else digits fuel (n / 10)) ++ [digit (n mod 10)]
  end.
(** [%d] of an [uint32_t]: the argument is taken as an [int]. *)
Definition print_d (u : Z) : bytes :=
  let i := s32 u in if i <? 0 then str "-" ++ digits 10 (- i) else digits 10 i.

(** * Operations *)
Section GetProcPath.
Context (readlink : bytes → option bytes).

Definition link_buf (u32PID : Z) : bytes := str "/proc/" ++ print_d u32PID ++ str "/exe" ++ [zero_byte].

(** [path] starts as what is on the stack; [None]: the text of [strPath] would
    be looked for past the end of [path]. *)
Definition GetProcPath (stack : bytes) (u32PID : Z) : option bytes :=
  let path := match readlink (link_buf u32PID) with
              | Some t => splice 0 (take (Z.to_nat (PATH_MAX - 1)) t ++ [zero_byte]) stack
              | None => stack
              end in
  n ← find_nul path; Some (take n path).

(** The callback of [open], as the process calls it. *)
Definition open_cb (stack : bytes) (fs : files) (u32PID : Z) (pszFilePath : bytes) : option Z :=
  strProcPath ← GetProcPath stack u32PID;
  Some (Client.open strProcPath (fs !! pszFilePath)).

(** [cleanup] has no statement; that it returns a value nobody gave it is
    [None]. *)
Definition cleanup (u64FileId : Z) : option Z := None.

End GetProcPath.

(** [TestFunc]: nine bytes at offset 3 of one file; a hole before them is
    zeros. *)
Definition pData : bytes := str "Abc123,./".
Definition pFilePath : bytes := str "/test/4.txt".
Definition pwrite (data : bytes) (offset : Z) (contents : bytes) : bytes :=
  splice offset data (contents ++ zeros (offset - blen contents)).
Definition TestFunc (fs : files) : files :=
  match fs !! pFilePath with
  | None => fs
  | Some contents => <[pFilePath := pwrite pData 3 contents]> fs
  end.

(** * Numbers *)

Definition value_of (b : byte) : Z := byte_val b - 48.
Definition undigits (bs : bytes) : Z := fold_left (λ n b, 10 * n + value_of b) bs 0.

Lemma value_digit d : 0 ≤ d < 10 → value_of (digit d) = d.
Proof. intros Hd. unfold value_of, digit. rewrite byte_val_of, u8_small by lia. lia. Qed.

Lemma undigits_app xs b : undigits (xs ++ [b]) = 10 * undigits xs + value_of b.
Proof. unfold undigits. by rewrite fold_left_app. Qed.

Lemma digits_value fuel n : 0 ≤ n < 10 ^ Z.of_nat fuel → undigits (digits fuel n) = n.
Proof.
  revert n. induction fuel as [|fuel IH]; intros n Hn; [change (0 = n); change (0 ≤ n < 1) in Hn; lia|].
  rewrite Nat2Z.inj_succ, Z.pow_succ_r in Hn by lia. simpl.
  pose proof (Z.mod_pos_bound n 10). pose proof (Z.div_mod n 10).
  rewrite undigits_app, value_digit by lia. destruct (Z.ltb_spec n 10) as [Hlt|Hge].
  - unfold undigits. simpl. rewrite Z.mod_small; lia.
  - rewrite IH; [lia|]. split; [apply Z.div_pos; lia|]. apply Z.div_lt_upper_bound; lia.
Qed.

Lemma length_digits fuel n : (length (digits fuel n) ≤ fuel)%nat.
Proof.
  revert n. induction fuel as [|fuel IH]; intros n; simpl; [lia|]. rewrite length_app. simpl.
  specialize (IH (n / 10)). destruct (n <? 10); simpl; lia.
Qed.

(** * Theorems *)

(** The link's name fits its buffer of 64 bytes for every process id, and
    holds its decimal digits. *)
Theorem link_buf_fits (u32PID : Z) :
  blen (link_buf u32PID) ≤ LINK_BUF ∧
  (0 ≤ u32PID < 2 ^ 31 → undigits (print_d u32PID) = u32PID).
Proof.
  split.
  - unfold link_buf, print_d. pose proof (length_digits 10 (- s32 u32PID)).
    pose proof (length_digits 10 (s32 u32PID)).
    destruct (s32 u32PID <? 0); rewrite !blen_app; unfold blen, LINK_BUF in *; simpl in *; lia.
  - intros Hp. unfold print_d. rewrite s32_small by lia.
    rewrite (proj2 (Z.ltb_ge _ _)) by lia. apply digits_value. lia.
Qed.

(** When the link can be read, [GetProcPath] is its text, cut at 4095 bytes,
    whatever was on the stack, and so is what [open] decides. *)
Theorem open_cb_decides (readlink : bytes → option bytes) (stack t : bytes) (fs : files) (u32PID : Z) (path : bytes) :
  readlink (link_buf u32PID) = Some t →
  GetProcPath readlink stack u32PID = Some (c_text (take (Z.to_nat (PATH_MAX - 1)) t)) ∧
  open_cb readlink stack fs u32PID path =
    Some (Client.open (c_text (take (Z.to_nat (PATH_MAX - 1)) t)) (fs !! path)).
Proof.
  intros Hr. assert (Hg : GetProcPath readlink stack u32PID = Some (c_text (take (Z.to_nat (PATH_MAX - 1)) t))).
  { unfold GetProcPath, splice. rewrite Hr, take_0. simpl. rewrite <- app_assoc. simpl.
    destruct (c_text_terminated (take (Z.to_nat (PATH_MAX - 1)) t)
      (drop (length (take (Z.to_nat (PATH_MAX - 1)) t ++ [zero_byte])) stack)) as (k & Hk & Ht).
    rewrite Hk. simpl. by rewrite Ht. }
  split; [done|]. unfold open_cb. by rewrite Hg.
Qed.

(** When it cannot, because the process has gone, what is on the stack
    decides: a labelled file is delivered deciphered or enciphered, or
    [strPath] is read past the end of [path]. *)
Theorem open_cb_garbage (readlink : bytes → option bytes) (fs : files) (u32PID : Z) (path contents : bytes) :
  readlink (link_buf u32PID) = None → fs !! path = Some contents → labelled contents = true →
  open_cb readlink (splice 0 (str "/bin/cat") (zeros PATH_MAX)) fs u32PID path = Some TOR_ENCRYPT ∧
  open_cb readlink (zeros PATH_MAX) fs u32PID path = Some TOR_DECRYPT ∧
  open_cb readlink (replicate (Z.to_nat PATH_MAX) Byte.x41) fs u32PID path = None.
Proof.
  intros Hr Hf Hl. unfold open_cb, GetProcPath. rewrite Hr, Hf.
  split; [|split; [|by vm_compute]]; cbn [mbind option_bind].
  - replace (find_nul (splice 0 (str "/bin/cat") (zeros PATH_MAX))) with (Some 8%nat) by by vm_compute.
    cbn [mbind option_bind]. f_equal. rewrite open_classifies, Hl. by vm_compute.
  - replace (find_nul (zeros PATH_MAX)) with (Some 0%nat) by by vm_compute.
    cbn [mbind option_bind]. f_equal. by rewrite open_classifies, Hl.
Qed.

(** The edit of [main] changes nine bytes from the fourth on, fills a hole with
    zeros, and touches no other file. *)
Theorem test_edits (fs : files) (contents : bytes) :
  fs !! pFilePath = Some contents →
  ∃ new, TestFunc fs = <[pFilePath := new]> fs ∧ blen new = Z.max (blen contents) 12 ∧
    slice 3 9 new = pData ∧ take 3 new = take 3 (contents ++ zeros (3 - blen contents)) ∧
    drop 12 new = drop 12 contents.
Proof.
  intros Hf. unfold TestFunc. rewrite Hf. eexists. split; [done|]. unfold pwrite, splice, slice.
  assert (Hz : length (zeros (3 - blen contents)) = Z.to_nat (3 - blen contents)) by apply length_replicate.
  set (x := contents ++ _). assert (Hx : (3 ≤ length x)%nat).
  { unfold x. rewrite length_app, Hz. unfold blen. lia. }
  assert (Hxl : length x = Nat.max 3 (length contents)).
  { unfold x. rewrite length_app, Hz. unfold blen. lia. }
  change (Z.to_nat 3) with 3%nat. assert (H3 : length (take 3 x) = 3%nat) by (rewrite length_take; lia).
  split_and!.
  - rewrite !blen_app. unfold blen. rewrite length_drop, H3. simpl. lia.
  - rewrite drop_app_length' by done. done.
  - by rewrite take_app_length' by done.
  - rewrite app_assoc, drop_app_length' by (rewrite length_app, H3; done). simpl.
    unfold x. rewrite drop_app. rewrite (drop_ge (zeros _)); [by rewrite app_nil_r|].
    rewrite Hz. unfold blen. lia.
Qed.
