(* ===== verification/Session.v ===== *)
(** The kernel module and the user process together: what a request returns
    when the process of [TEADFS-utils] is the one that answers it. *)
From S2P Require Import Prelude Kernel Protocol Wp GlobalParam Netlink UserCom Requests Daemon.
Local Open Scope Z_scope.

Lemma s32_u32 z : s32 (u32 z) = s32 z.
Proof.
  unfold s32, u32. rewrite Z.add_mod_idemp_l by done. done.
Qed.

Section Session.
Context `{KernelEnv}.

(** The process's whole turn on a datagram: receive, dispatch, reply. *)
Definition daemon_turn (cb : TEAFS_DEAL_CB) (st : request_state) (nCode ty seq : Z)
    (garbage dgram : bytes) : option bytes :=
  msg ← ThreadRcv_message garbage dgram;
  '(_, act) ← thread_pool_cb_func cb nCode msg st;
  match act with
  | PA_reply data => Some (SendMsg ty seq data)
  | PA_handler _ => None
  end.

(** The process with these callbacks answers: the reply the kernel receives to
    a packet is the one the process's turn on it produces, whatever the
    storage neither side initialises holds. *)
Definition connected_to (cb : TEAFS_DEAL_CB) : Prop := ∀ sent port req,
  ∃ h pad garbage st nCode ty seq,
    blen h = NLMSG_HDRLEN ∧ blen pad < 4 ∧ NLMSG_SPACE MAX_MSG_SIZE ≤ blen garbage ∧
    ∀ d, daemon_turn cb st nCode ty seq garbage (h ++ req ++ pad) = Some d →
      deliveries (sent ++ [(port, req)]) = [d].

(** The longest path or page the process receives whole. *)
Definition max_data : Z :=
  NLMSG_SPACE MAX_MSG_SIZE - 2 * NLMSG_HDRLEN - 3 - sizeof_packet_info.

Lemma daemon_answers cb req rsp sent port :
  connected_to cb → pkt_sized req → blen req ≤ sizeof_packet_info + max_data →
  get h_initiator req = 0 →
  (∀ nCode tail, deal_teadfs_msg cb nCode (req ++ tail) = Some rsp) →
  ∃ ty seq, deliveries (sent ++ [(port, req)]) = [SendMsg ty seq rsp].
Proof.
  intros Hcb Hreq Hlen Hini Hdeal.
  destruct (Hcb sent port req) as (h & pad & garbage & st & nCode & ty & seq & Hh & Hp & Hg & Hd).
  destruct (ThreadRcv_packet garbage h req pad) as (tail & Hmsg & _); [done|done| |].
  { unfold max_data in Hlen. lia. }
  exists ty, seq. apply Hd. unfold daemon_turn. rewrite Hmsg, some_bind.
  unfold thread_pool_cb_func. rewrite (str_fld_app h_initiator) by by apply fld_in_sized.
  rewrite some_bind, Hini. change (1 =? 0) with false. cbv iota.
  by rewrite Hdeal, some_bind.
Qed.

(** A reply that copies the request's header answers it. *)
Lemma answers_reply s ty seq rsp req id :
  header_bytes rsp = header_bytes req → get h_msg_id req = id → get h_initiator req = 0 →
  sizeof_packet_header ≤ blen rsp < 2 ^ 31 - NLMSG_HDRLEN →
  answers s id [SendMsg ty seq rsp] (Some (SendMsg ty seq rsp)).
Proof.
  intros Hh Hid Hini Hlen. exists [], []. split; [done|]. split; [done|]. split; [done|].
  assert (Hg : ∀ f, header_fld f = true → get f rsp = get f req).
  { intros f Hf. unfold header_fld in Hf. unfold get, header_bytes in *. f_equal.
    pose proof (slice_slice (f_off f) (Z.of_nat (f_width f)) 0 sizeof_packet_header) as Hs.
    rewrite Z.add_0_l in Hs. rewrite <- (Hs rsp), <- (Hs req), Hh by lia. done. }
  split.
  - split; [by apply SendMsg_ok|]. rewrite payload_SendMsg, Hg, Hini by done. done.
  - unfold dgram_id. by rewrite payload_SendMsg, Hg.
Qed.

Lemma header_bytes_code_reply pkt code : pkt_sized pkt →
  header_bytes (code_reply pkt code) = header_bytes pkt.
Proof.
  intros Hp. unfold header_bytes, code_reply. pose proof (blen_header pkt Hp) as Hh.
  assert (Hz : pkt_sized (zeros sizeof_packet_info)) by apply zeros_packet_sized.
  rewrite slice_put; [|apply fld_in_sized; auto with tead_pkt|done|done|pkt_consts; lia].
  unfold with_header.
  rewrite slice_splice_inside, Z.sub_0_r; [|done|rewrite Hh; pkt_consts; lia|].
  - rewrite slice_slice by done. done.
  - apply in_range_spec. unfold pkt_sized in Hz. pkt_consts. lia.
Qed.

Lemma header_bytes_data_reply pkt n out : pkt_sized pkt → 0 ≤ n ≤ blen out →
  header_bytes (data_reply pkt n out) = header_bytes pkt.
Proof.
  intros Hp Hn. unfold header_bytes, data_reply. pose proof (blen_header pkt Hp) as Hh.
  assert (Hz : pkt_sized (zeros (sizeof_packet_info + n))) by (apply sized_zeros; lia).
  assert (Hl : blen (slice 0 n (cstr out)) = n).
  { apply blen_slice, in_range_spec. unfold cstr. rewrite blen_app.
    pose proof (blen_nonneg [zero_byte]). lia. }
  rewrite slice_splice_before; [|done|done|].
  2: { apply in_range_spec. autorewrite with tead_get. rewrite Hl, blen_zeros; pkt_consts; lia. }
  rewrite !slice_put; try done; try (apply fld_in_sized; auto with tead_pkt); try (pkt_consts; lia).
  unfold with_header. rewrite slice_splice_inside, Z.sub_0_r; [|done|rewrite Hh; pkt_consts; lia|].
  - rewrite slice_slice by done. done.
  - apply in_range_spec. unfold pkt_sized in Hz. pkt_consts. lia.
Qed.

(** What the kernel makes of the two replies. *)
Lemma code_result_reply ty seq pkt code : pkt_sized pkt →
  code_result (Some (SendMsg ty seq (code_reply pkt code))) = s32 code.
Proof.
  intros Hp. unfold code_result. rewrite payload_SendMsg, blen_code_reply by done.
  rewrite Z.ltb_irrefl, get_code_reply_code by done. apply s32_u32.
Qed.

Lemma data_reply_fields pkt n out : pkt_sized pkt → 0 ≤ n ≤ blen out → n < 2 ^ 32 →
  get read_code (data_reply pkt n out) = 0 ∧ get read_data_size (data_reply pkt n out) = n ∧
  get read_data_offset (data_reply pkt n out) = sizeof_packet_info.
Proof.
  intros Hp Hn Hlt. rewrite !get_data_reply by done.
  assert (Hz : pkt_sized (zeros (sizeof_packet_info + n))) by (apply sized_zeros; lia).
  autorewrite with tead_get. split_and!; [done| |done].
  apply Z.mod_small. pkt_consts. lia.
Qed.

Lemma data_verdict_reply dst_size ty seq pkt n out :
  pkt_sized pkt → 0 ≤ n ≤ blen out → n < 2 ^ 31 →
  data_verdict dst_size (Some (SendMsg ty seq (data_reply pkt n out))) =
    if u32 dst_size <? n then Refuse else Copy sizeof_packet_info n.
Proof.
  intros Hp Hn Hlt. destruct (data_reply_fields pkt n out) as (Hc & Hs & Ho); [done|done|lia|].
  unfold data_verdict. cbv zeta. rewrite payload_SendMsg, Hc, Hs, Ho, blen_data_reply by done.
  rewrite (proj2 (Z.ltb_ge _ _)) by (pkt_consts; lia).
  change (s32 0 =? 0) with true. cbv beta iota delta [negb].
  rewrite u64_small by (pkt_consts; lia). by rewrite Z.eqb_refl.
Qed.

Lemma copied_reply ty seq pkt n out : pkt_sized pkt → 0 ≤ n ≤ blen out →
  copied (Some (SendMsg ty seq (data_reply pkt n out))) sizeof_packet_info n = slice 0 n out.
Proof.
  intros Hp Hn. unfold copied, reply_block. rewrite payload_SendMsg.
  rewrite slice_app_l; [by apply slice_data_reply|done|rewrite blen_data_reply by done; lia].
Qed.

(** ** The handshake *)

Lemma get_next_msg_id_range u : 1 ≤ get_next_msg_id u < 2 ^ 64.
Proof.
  unfold get_next_msg_id. pose proof (u64_range (u + 1)).
  destruct (u64 (u + 1) =? 0) eqn:E; [|lia].
  apply Z.eqb_eq in E. rewrite E. done.
Qed.

Lemma hello_packet_fields id p : 0 ≤ id < 2 ^ 64 → 0 ≤ p < 2 ^ 31 →
  blen (hello_packet id p) = sizeof_packet_info ∧ get h_msg_id (hello_packet id p) = id ∧
  get h_msg_type (hello_packet id p) = PR_MSG_HELLO ∧
  get h_initiator (hello_packet id p) = 1 ∧ get hello_pid (hello_packet id p) = p.
Proof.
  intros Hid Hp. assert (Hz : pkt_sized (zeros sizeof_packet_info)) by apply zeros_packet_sized.
  unfold hello_packet. autorewrite with tead_get.
  split_and!; [apply blen_zeros; pkt_consts; lia|..]; apply Z.mod_small; pkt_consts;
    unfold PR_MSG_HELLO; lia.
Qed.

Lemma get_hello_reply f d : header_fld f = true → fld_disjoint f h_size = true →
  fld_disjoint f error_code = true → fld_ok f = true →
  NLMSG_HDRLEN + sizeof_packet_info ≤ blen d → get f (hello_reply d) = get f (payload d).
Proof.
  intros Hh Hd1 Hd2 Hok Hl. pose proof (get_hello_size d Hl) as Hsz. unfold hello_reply.
  rewrite !get_put_ne_sized by auto with tead_pkt. unfold header_fld in Hh. unfold get. f_equal.
  assert (Hhb : blen (slice 0 sizeof_packet_header (payload d)) = sizeof_packet_header).
  { apply blen_slice, in_range_spec. rewrite blen_payload by dgram. dgram. }
  rewrite slice_splice_inside.
  - rewrite slice_slice; [f_equal; lia|lia|lia|lia].
  - lia.
  - rewrite Hhb. lia.
  - apply in_range_spec. rewrite Hhb, blen_junk_bytes by done. pkt_consts. lia.
Qed.

Lemma hello_reply_sized d : NLMSG_HDRLEN + sizeof_packet_info ≤ blen d → pkt_sized (hello_reply d).
Proof. intros Hl. pose proof (get_hello_size d Hl). unfold hello_reply. auto with tead_pkt. Qed.

(** ** Requests answered by the process *)

#[local] Opaque path_packet data_packet payload get u32 u64 s32 next_unique_id
  splice slice data_reply code_reply SendMsg.

(** What the requests need of the state and the kernel, whoever answers. *)
Record session (s : kstate) : Prop := MkSession {
  ss_alloc : kzalloc_total;
  ss_nlmsg : nlmsg_total;
  ss_connect : connect (ks_global s) ≠ 0;
  ss_tgid : 0 < current_tgid < 2 ^ 31;
  ss_client : current_tgid ≠ pid (ks_global s);
  ss_fresh : no_waiter s (ks_queue s) (next_id s);
}.

Lemma next_id_range (s : kstate) : 0 ≤ next_id s < 2 ^ 64.
Proof. pose proof (next_unique_id_ok (unique_id (ks_global s))) as Hid. unfold id_ok, next_id in *. lia. Qed.

Lemma req_pre_path cb f ty s file path :
  (ty = PR_MSG_OPEN ∧ cb_open cb = Some f) ∨ (ty = PR_MSG_RELEASE ∧ cb_release cb = Some f) →
  connected_to cb → session s → 0 ≤ file < 2 ^ 64 → blen path ≤ max_data →
  let req := path_packet ty (next_id s) current_tgid file path in
  ∃ t q, req_pre s req (Some (SendMsg t q (code_reply req (f file current_tgid path)))).
Proof.
  intros Hf Hcb [Ha Hn Hc Ht Hcl Hw] Hfile Hpath req.
  assert (Ht' : 0 ≤ current_tgid < 2 ^ 31) by lia.
  assert (Hty : 0 ≤ ty < 2 ^ 8) by (destruct Hf as [[-> _]|[-> _]]; done).
  assert (Hpath' : blen path < 2 ^ 31).
  { assert (max_data < 2 ^ 31) by done. lia. }
  pose proof (next_id_range s) as Hid.
  destruct (path_packet_fields ty (next_id s) current_tgid file path) as (_ & Hini & Hmid & _);
    [done..|]. fold req in Hini, Hmid.
  assert (Hsz : pkt_sized req) by apply path_packet_sized.
  destruct (daemon_answers cb req (code_reply req (f file current_tgid path)) (ks_sent s)
    (pid (ks_global s)) Hcb Hsz) as (t & q & Hd); [|done| |].
  - unfold req. rewrite blen_path_packet. lia.
  - intros nCode tail. by apply (deal_path_packet cb).
  - exists t, q. split; [done|done|]. rewrite Hd. eapply answers_reply; [|done|done|].
    + by apply header_bytes_code_reply.
    + rewrite blen_code_reply by exact Hsz. dgram.
Qed.

Lemma req_pre_data cb f ty s offset bs :
  (ty = PR_MSG_READ ∧ cb_read cb = Some f) ∨ (ty = PR_MSG_WRITE ∧ cb_write cb = Some f) →
  data_cb_ok f → connected_to cb → session s → blen bs ≤ max_data →
  let req := data_packet ty (next_id s) current_tgid offset bs in
  let room := blen bs + DATA_EXTENSION_SIZE in
  let r := f (u64 offset) (blen bs) bs room (zeros room) in
  blen r.2 = room →
  ∃ t q, req_pre s req (Some (SendMsg t q (data_reply req r.1 r.2))).
Proof.
  intros Hf Hok Hcb [Ha Hn Hc Ht Hcl Hw] Hbs req room r Hroom.
  assert (Ht' : 0 ≤ current_tgid < 2 ^ 31) by lia.
  assert (Hty : 0 ≤ ty < 2 ^ 8) by (destruct Hf as [[-> _]|[-> _]]; done).
  assert (Hbs' : blen bs < 2 ^ 20).
  { assert (max_data < 2 ^ 20) by done. lia. }
  pose proof (blen_nonneg bs). pose proof (next_id_range s) as Hid.
  assert (Hr : 0 ≤ r.1 ≤ blen r.2).
  { pose proof (Hok (u64 offset) bs (zeros room)) as Hok'.
    rewrite blen_zeros in Hok' by (unfold room, DATA_EXTENSION_SIZE; lia). by apply Hok'. }
  destruct (data_packet_fields ty (next_id s) current_tgid offset bs) as (_ & Hini & Hmid & _);
    [done|done|done|lia|]. fold req in Hini, Hmid.
  assert (Hsz : pkt_sized req) by apply data_packet_sized.
  destruct (daemon_answers cb req (data_reply req r.1 r.2) (ks_sent s)
    (pid (ks_global s)) Hcb Hsz) as (t & q & Hd); [|done| |].
  - unfold req. rewrite blen_data_packet. lia.
  - intros nCode tail. apply (deal_data_packet cb ty nCode _ _ _ _ _ f); [done|done|done|done|lia].
  - exists t, q. split; [done|done|]. rewrite Hd. eapply answers_reply; [|done|done|].
    + by apply header_bytes_data_reply.
    + rewrite blen_data_reply by done. unfold room, DATA_EXTENSION_SIZE in Hroom. dgram.
Qed.

Lemma wp_read_answered cb f s p po pb n offset t dsto tb dst_size :
  cb_read cb = Some f → data_cb_ok f → connected_to cb → session s → 0 ≤ dst_size < 2 ^ 32 →
  live s !! p = Some (OBytes pb) → in_range po n pb = true → n ≤ max_data →
  live s !! t = Some (OBytes tb) → in_range dsto dst_size tb = true →
  let src := slice po n pb in
  let room := n + DATA_EXTENSION_SIZE in
  let r := f (u64 offset) n src room (zeros room) in
  blen r.2 = room →
  wp (teadfs_request_read offset (Ptr p po) n (Ptr t dsto) dst_size) (λ rc s', ∃ b req,
    live s !! b = None ∧ comm_frame s s' ∧
    if dst_size <? r.1 then rc = - ENOMEM ∧ live s' = <[b := OBytes req]> (live s)
    else rc = r.1 ∧
      live s' = <[t := OBytes (splice dsto (slice 0 r.1 r.2) tb)]> (<[b := OBytes req]> (live s))) s.
Proof.
  intros Hf Hok Hcb Hs Hdst Hp Hin Hn Ht Hint src room r Hroom.
  assert (Hsl : blen src = n) by by apply blen_slice.
  assert (Hr : 0 ≤ r.1 ≤ blen r.2).
  { apply in_range_spec in Hin as (_ & Hn0 & _).
    pose proof (Hok (u64 offset) src (zeros room)) as Hok'.
    rewrite Hsl, blen_zeros in Hok' by (unfold room, DATA_EXTENSION_SIZE; lia). by apply Hok'. }
  destruct (req_pre_data cb f PR_MSG_READ s offset src) as (ty & q & Hpre);
    [by left|done|done|done|by rewrite Hsl|by rewrite Hsl|].
  rewrite Hsl in Hpre. fold room r in Hpre.
  assert (Hsz : pkt_sized (data_packet PR_MSG_READ (next_id s) current_tgid offset src))
    by apply data_packet_sized.
  assert (Hmax : max_data < 2 ^ 20) by done.
  assert (Hr31 : r.1 < 2 ^ 31) by (unfold room, DATA_EXTENSION_SIZE in Hroom; lia).
  pose proof (data_verdict_reply dst_size ty q _ r.1 r.2 Hsz Hr Hr31) as Hv.
  rewrite (u32_small dst_size) in Hv by lia.
  destruct Hs as [Ha Hnl Hc Htg Hcl Hw].
  pose proof (not_alloc_fails Ha) as Hna.
  eapply wp_mono; [eapply wp_request_read; try eassumption| ].
  - apply in_range_spec in Hin. unfold size_ok. pkt_consts. lia.
  - rewrite Hv. destruct (dst_size <? r.1) eqn:E; [done|]. apply Z.ltb_ge in E. simpl. split.
    + apply in_range_spec. unfold reply_block. rewrite payload_SendMsg, blen_app, blen_data_reply by done.
      pose proof (blen_nonneg (zeros NLMSG_HDRLEN)). pkt_consts. lia.
    + apply in_range_spec. apply in_range_spec in Hint. lia.
  - intros rc s' (Hfr & [(Haf & _)|(b & Hb & Hcase)]); [by destruct (Hna Haf)|].
    destruct Hcase as [(Haf & _)|[Hsent Hvv]]; [by destruct (Hna Haf)|].
    exists b, (data_packet PR_MSG_READ (next_id s) current_tgid offset src).
    split_and!; [done|done|]. rewrite Hv in Hvv. destruct (dst_size <? r.1); [done|].
    destruct Hvv as [-> HL]. rewrite copied_reply in HL by done. split; [|done].
    apply s32_small. lia.
Qed.

Lemma wp_open_answered (cb : TEAFS_DEAL_CB) (f : Z → Z → bytes → Z) (s : kstate)
    (p : positive) (po n file : Z) (pb : bytes) :
  cb_open cb = Some f → connected_to cb → session s → 0 ≤ file < 2 ^ 64 →
  live s !! p = Some (OBytes pb) → in_range po n pb = true → n ≤ max_data →
  wp (teadfs_request_open (Ptr p po) n file) (λ rc s',
    rc = s32 (f file current_tgid (slice po n pb)) ∧ live s' = live s ∧ comm_frame s s') s.
Proof.
  intros Hf Hcb Hs Hfile Hp Hin Hn. pose proof (blen_slice _ _ _ Hin) as Hl.
  destruct (req_pre_path cb f PR_MSG_OPEN s file (slice po n pb)) as (t & q & Hpre);
    [by left|done|done|done|by rewrite Hl|].
  destruct Hs as [Ha Hnl Hc Htg Hcl Hw]. pose proof (not_alloc_fails Ha) as Hna.
  eapply wp_mono; [eapply wp_request_open; try eassumption|].
  - apply in_range_spec in Hin. assert (max_data < 2 ^ 20) by done. unfold size_ok. pkt_consts. lia.
  - intros rc s' (HL & Hfr & [(Haf & _)|[_ ->]]); [by destruct (Hna Haf)|].
    split; [|by split]. apply code_result_reply, path_packet_sized.
Qed.

Lemma wp_release_answered (cb : TEAFS_DEAL_CB) (f : Z → Z → bytes → Z) (s : kstate)
    (p d m : positive) (po n file : Z) (pb : bytes) :
  cb_release cb = Some f → connected_to cb → session s → 0 ≤ file < 2 ^ 64 →
  live s !! p = Some (OBytes pb) → in_range po n pb = true → n ≤ max_data →
  wp (teadfs_request_release (Ptr p po) n (Some (file, Path (Some d) (Some m)))) (λ rc s',
    rc = s32 (f file current_tgid (slice po n pb)) ∧ live s' = live s ∧ comm_frame s s') s.
Proof.
  intros Hf Hcb Hs Hfile Hp Hin Hn. pose proof (blen_slice _ _ _ Hin) as Hl.
  destruct (req_pre_path cb f PR_MSG_RELEASE s file (slice po n pb)) as (t & q & Hpre);
    [by right|done|done|done|by rewrite Hl|].
  destruct Hs as [Ha Hnl Hc Htg Hcl Hw]. pose proof (not_alloc_fails Ha) as Hna.
  eapply wp_mono; [eapply wp_request_release; try eassumption|].
  - apply in_range_spec in Hin. assert (max_data < 2 ^ 20) by done. unfold size_ok. pkt_consts. lia.
  - intros rc s' (HL & Hfr & [(Haf & _)|[_ ->]]); [by destruct (Hna Haf)|].
    split; [|by split]. apply code_result_reply, path_packet_sized.
Qed.

(** Freed storage still reads as it did where a reply keeps its size, as long
    as nothing has reused it. *)
Definition stale_kept : Prop :=
  ∀ bs, get write_data_size (stale bs) = get write_data_size bs.

Lemma size_of_reply_block ty seq pkt n out : pkt_sized pkt → 0 ≤ n ≤ blen out → n < 2 ^ 31 →
  get write_data_size (reply_block (SendMsg ty seq (data_reply pkt n out))) = n.
Proof.
  intros Hp Hn Hlt. rewrite get_reply_block; [|done|].
  - rewrite payload_SendMsg. change write_data_size with read_data_size.
    apply data_reply_fields; [done|done|lia].
  - rewrite payload_SendMsg, blen_data_reply by done. lia.
Qed.

(** What a WRITE that was answered leaves besides the heap. *)
Record write_frame (s s' : kstate) : Prop := WriteFrame {
  wf_queue : ks_queue s' = ks_queue s;
  wf_lfs : ks_lfs s' = ks_lfs s;
  wf_files : ks_files s' = ks_files s;
  wf_inodes : ks_inodes s' = ks_inodes s;
  wf_dentries : ks_dentries s' = ks_dentries s;
  wf_pages : ks_pages s' = ks_pages s;
  wf_supers : ks_supers s' = ks_supers s;
  wf_refs : ks_refs s' = ks_refs s;
  wf_locks : ks_locks s' = ks_locks s;
  wf_calls : ks_calls s' = ks_calls s;
  wf_pid : pid (ks_global s') = pid (ks_global s);
  wf_connect : connect (ks_global s') = connect (ks_global s);
}.

Lemma comm_write_frame s s' : comm_frame s s' → write_frame s s'.
Proof. intros []. by split. Qed.

Lemma wp_write_answered cb f s p po pb n offset t dsto tb dst_size :
  cb_write cb = Some f → data_cb_ok f → connected_to cb → session s → stale_kept →
  0 ≤ dst_size < 2 ^ 32 →
  live s !! p = Some (OBytes pb) → in_range po n pb = true → n ≤ max_data →
  live s !! t = Some (OBytes tb) → in_range dsto dst_size tb = true →
  let src := slice po n pb in
  let room := n + DATA_EXTENSION_SIZE in
  let r := f (u64 offset) n src room (zeros room) in
  blen r.2 = room → r.1 ≤ dst_size →
  wp (teadfs_request_write offset (Ptr p po) n (Ptr t dsto) dst_size) (λ rc s', ∃ b req,
    live s !! b = None ∧ write_frame s s' ∧ rc = r.1 ∧
    live s' = <[t := OBytes (splice dsto (slice 0 r.1 r.2) tb)]> (<[b := OBytes req]> (live s))) s.
Proof.
  intros Hf Hok Hcb Hs Hst Hdst Hp Hin Hn Ht Hint src room r Hroom Hr1.
  assert (Hsl : blen src = n) by by apply blen_slice.
  assert (Hr : 0 ≤ r.1 ≤ blen r.2).
  { apply in_range_spec in Hin as (_ & Hn0 & _).
    pose proof (Hok (u64 offset) src (zeros room)) as Hok'.
    rewrite Hsl, blen_zeros in Hok' by (unfold room, DATA_EXTENSION_SIZE; lia). by apply Hok'. }
  destruct (req_pre_data cb f PR_MSG_WRITE s offset src) as (ty & q & Hpre);
    [by right|done|done|done|by rewrite Hsl|by rewrite Hsl|].
  rewrite Hsl in Hpre. fold room r in Hpre.
  assert (Hsz : pkt_sized (data_packet PR_MSG_WRITE (next_id s) current_tgid offset src))
    by apply data_packet_sized.
  assert (Hmax : max_data < 2 ^ 20) by done.
  assert (Hr31 : r.1 < 2 ^ 31) by (unfold room, DATA_EXTENSION_SIZE in Hroom; lia).
  pose proof (data_verdict_reply dst_size ty q _ r.1 r.2 Hsz Hr Hr31) as Hv.
  rewrite (u32_small dst_size), (proj2 (Z.ltb_ge _ _)) in Hv by lia.
  destruct Hs as [Ha Hnl Hc Htg Hcl Hw].
  pose proof (not_alloc_fails Ha) as Hna.
  eapply wp_mono; [eapply wp_request_write; try eassumption|].
  - apply in_range_spec in Hin. unfold size_ok. pkt_consts. lia.
  - rewrite Hv. simpl. split.
    + apply in_range_spec. unfold reply_block. rewrite payload_SendMsg, blen_app, blen_data_reply by done.
      pose proof (blen_nonneg (zeros NLMSG_HDRLEN)). pkt_consts. lia.
    + apply in_range_spec. apply in_range_spec in Hint. lia.
  - intros rc s' [(Haf & _)|(b & Hb & Hcase)]; [by destruct (Hna Haf)|].
    destruct Hcase as [(Haf & _)|[Hsent Hvv]]; [by destruct (Hna Haf)|].
    rewrite Hv in Hvv. destruct Hvv as (-> & (s0 & Hfr & ->) & HL).
    rewrite copied_reply in HL by done.
    exists b, (data_packet PR_MSG_WRITE (next_id s) current_tgid offset src).
    split_and!; [done|by destruct Hfr; split| |exact HL].
    rewrite Hst, size_of_reply_block by done. apply s32_small. lia.
Qed.

(** ** Properties of the pair *)

(** C27: the handshake: the HELLO of the process makes the kernel take its pid
    as the client's and send the answer to that pid; the answer, received by
    the process, runs the handler that was registered with the HELLO, and
    takes it out of the table. *)
Theorem handshake (s : kstate) (cb : TEAFS_DEAL_CB) (st : request_state) (handler : option positive)
    (p ty seq nCode : Z) (tail : bytes) :
  nlmsg_total → 0 ≤ p < 2 ^ 31 → s_map st !! get_next_msg_id (g_next_id st) = None →
  let '(st', pkt) := SendHello handler p st in
  wp (teadfs_netlink_receive (SendMsg ty seq pkt)) (λ _ s',
    pid (ks_global s') = p ∧ connect (ks_global s') = connect (ks_global s) ∧ live s' = live s ∧
    ∃ rsp, ks_sent s' = ks_sent s ++ [(p, rsp)] ∧
      thread_pool_cb_func cb nCode (rsp ++ tail) st' =
        Some (RequestState (g_next_id st') (s_map st), PA_handler handler)) s.
Proof.
  intros Hn Hp Hfree. unfold SendHello. cbv zeta. rewrite Hfree. set (id := get_next_msg_id _).
  pose proof (get_next_msg_id_range (g_next_id st)) as Hid. fold id in Hid.
  destruct (hello_packet_fields id p) as (Hl & Hgi & Hgt & Hgn & Hgp); [lia|done|].
  assert (Hd : NLMSG_HDRLEN + sizeof_packet_info ≤ blen (SendMsg ty seq (hello_packet id p)))
    by (rewrite blen_SendMsg; lia).
  apply wp_bind, wp_skb_fld; [done|dgram|].
  rewrite payload_SendMsg, Hgn. change (1 =? 1) with true. cbv iota.
  eapply wp_mono; [apply wp_hello; [done|done|by rewrite payload_SendMsg]|].
  intros _ s' (Hg & Hs & HL & Hq). rewrite payload_SendMsg, Hgp, s32_small in Hg by lia.
  rewrite payload_SendMsg, Hgp, s32_small in Hs by lia.
  rewrite Hg. split_and!; [done|done|done|]. eexists. split; [exact Hs|].
  pose proof (hello_reply_sized _ Hd) as Hsz. unfold thread_pool_cb_func.
  rewrite (str_fld_app h_initiator) by by apply fld_in_sized. rewrite some_bind.
  rewrite get_hello_reply, payload_SendMsg, Hgn by done. change (1 =? 1) with true. cbv iota.
  rewrite (str_fld_app h_msg_id) by by apply fld_in_sized. rewrite some_bind.
  rewrite get_hello_reply, payload_SendMsg, Hgi by done.
  unfold ResponseMsg. simpl. rewrite lookup_insert_eq.
  by rewrite delete_insert_id.
Qed.

(** OPEN, answered by the process: the result is what the [open] callback
    returns for the caller's file id, process id and path, and the heap is as
    before. *)
Theorem open_answered (cb : TEAFS_DEAL_CB) (f : Z → Z → bytes → Z) (s : kstate)
    (p : positive) (po n file : Z) (pb : bytes) :
  cb_open cb = Some f → connected_to cb → session s → 0 ≤ file < 2 ^ 64 →
  live s !! p = Some (OBytes pb) → in_range po n pb = true → n ≤ max_data →
  wp (teadfs_request_open (Ptr p po) n file) (λ rc s',
    rc = s32 (f file current_tgid (slice po n pb)) ∧ live s' = live s ∧ comm_frame s s') s.
Proof. by apply wp_open_answered. Qed.

(** RELEASE likewise returns what the [release] callback returns. *)
Theorem release_answered (cb : TEAFS_DEAL_CB) (f : Z → Z → bytes → Z) (s : kstate)
    (p d m : positive) (po n file : Z) (pb : bytes) :
  cb_release cb = Some f → connected_to cb → session s → 0 ≤ file < 2 ^ 64 →
  live s !! p = Some (OBytes pb) → in_range po n pb = true → n ≤ max_data →
  wp (teadfs_request_release (Ptr p po) n (Some (file, Path (Some d) (Some m)))) (λ rc s',
    rc = s32 (f file current_tgid (slice po n pb)) ∧ live s' = live s ∧ comm_frame s s') s.
Proof. by apply wp_release_answered. Qed.

(** C24: READ, answered by the process: the callback is given exactly the bytes
    the kernel passed in; what it produces, when it fits, fills the start of
    the destination, and its size is the result. *)
Theorem read_answered (cb : TEAFS_DEAL_CB) (f : Z → Z → bytes → Z → bytes → Z * bytes)
    (s : kstate) (p t : positive) (po n offset dsto dst_size : Z) (pb tb : bytes) :
  cb_read cb = Some f → data_cb_ok f → connected_to cb → session s → 0 ≤ dst_size < 2 ^ 32 →
  live s !! p = Some (OBytes pb) → in_range po n pb = true → n ≤ max_data →
  live s !! t = Some (OBytes tb) → in_range dsto dst_size tb = true →
  let room := n + DATA_EXTENSION_SIZE in
  let r := f (u64 offset) n (slice po n pb) room (zeros room) in
  blen r.2 = room →
  wp (teadfs_request_read offset (Ptr p po) n (Ptr t dsto) dst_size) (λ rc s',
    comm_frame s s' ∧
    if dst_size <? r.1 then rc = - ENOMEM ∧ live s' !! t = Some (OBytes tb)
    else rc = r.1 ∧ live s' !! t = Some (OBytes (splice dsto (slice 0 r.1 r.2) tb))) s.
Proof.
  intros. eapply wp_mono; [eapply wp_read_answered; eassumption|].
  intros rc s' (b & req & Hb & Hfr & Hcase). split; [done|].
  destruct (dst_size <? _).
  - destruct Hcase as [-> HL]. split; [done|].
    rewrite HL, lookup_insert_ne by congruence. done.
  - destruct Hcase as [-> HL]. split; [done|]. rewrite HL. apply lookup_insert_eq.
Qed.

(** The process answers any message but OPEN, RELEASE, READ and WRITE with
    an empty datagram, which the kernel reads past its end. *)
Theorem empty_reply_overread (cb : TEAFS_DEAL_CB) (s : kstate) (nCode ty seq mt : Z) (msg : bytes) :
  str_fld h_msg_type msg = Some mt →
  mt ∉ [PR_MSG_OPEN; PR_MSG_RELEASE; PR_MSG_READ; PR_MSG_WRITE] →
  ∃ rsp, deal_teadfs_msg cb nCode msg = Some rsp ∧
    teadfs_netlink_receive (SendMsg ty seq rsp) s = Ub OutOfBounds.
Proof.
  intros Hty Hne. exists []. split; [by eapply deal_other|].
  apply ub_bind. unfold skb_fld. apply ub_bind. unfold skb_load.
  destruct (in_range _ _ _) eqn:E; [|done]. apply in_range_spec in E.
  rewrite blen_SendMsg in E. change (blen []) with 0 in E. dgram.
Qed.
End Session.
