(* ===== verification/File.v ===== *)
(** [TEADFS/src/file.c]: opening, reading, writing and closing files of the
    upper layer.

    The page cache and the VFS are outside the repository: a call into them is
    logged with its result taken from the environment.  Locks that protect one
    function's body are not part of the sequential model. *)
From S2P Require Import Prelude Kernel Protocol Wp GlobalParam Netlink UserCom Requests Daemon Session Vfs.
Local Open Scope Z_scope.

Definition EIOCBQUEUED : Z := 529.
Definition ENOTTY : Z := 25.
Definition ENOIOCTLCMD : Z := 515.
Definition O_ACCMODE : Z := 3.
Definition O_WRONLY : Z := 1.
Definition O_RDWR : Z := 2.
Definition O_LARGEFILE : Z := 32768.
Definition GFP_HIGHUSER_MOVABLE : Z := 131290.


(** [struct teadfs_file_info] as the allocator sees it. *)
Definition c_file_info : cty := CStruct [CInt 8; CInt 4; CInt 8; CInt 4; CInt 8].

(** [struct teadfs_getdents_callback]; [gd_user] is what the caller's [filldir]
    makes of its [dirent]. *)
Record getdents (U : Type) := Getdents { gd_user : U; filldir_called : Z; entries_written : Z }.
Arguments Getdents {U} _ _ _.
Arguments gd_user {U} _.
Arguments filldir_called {U} _.
Arguments entries_written {U} _.

Section File.
Context `{KernelEnv}.

(** ** Accessors of teadfs_header.h *)

Definition teadfs_file_to_private (file : positive) : M ptr :=
  f ← get_file file; mret (f_private f).
Definition teadfs_set_file_private (file : positive) (p : ptr) : M () :=
  f ← get_file file;
  put_file file (File (f_dentry f) (f_mnt f) (f_inode f) (f_flags f) p (f_mapping f)).
Definition teadfs_file_to_lower (file : positive) : M kptr :=
  p ← teadfs_file_to_private file; fi ← load_file_info p; mret (lower_file fi).
Definition file_f_path (f : file) : path := Path (f_dentry f) (f_mnt f).

(** ** The page cache of decrypted data *)

Definition teadfs_replace_copy_address_space (dst src : address_space) : address_space :=
  AddressSpace (a_ops src) (host src) (as_flags src) GFP_HIGHUSER_MOVABLE 0
    (backing_dev_info src) (writeback_index src).

(** ** Lower files *)

Definition set_lower_file_count (n : Z) (i : inode) : inode :=
  Inode (i_attr i) (i_meta i) (i_size i) (lower_inode i) n (file_decrypt i) (i_mapping i) (i_decrypt i).

Definition teadfs_dentry_open (p : path) (flags : Z) : M kptr := λ s,
  let '(l, r) := dentry_open (ks_lfs s) p flags in Ret r (set_lfs (λ _, l) s).
Definition teadfs_fput (lf : kptr) : M () :=
  match lf with
  | KNull => fail_ub NullDeref
  | KErr _ => fail_ub WildPointer
  | KObj f => modify (set_lfs (λ l, fput l f))
  end.

(** The caller's process id, or 0 for the client process. *)
Definition kpid_or_zero : M Z :=
  let kpid := current_tgid in
  client ← teadfs_get_client_pid;
  mret (if kpid =? client then 0 else kpid).

Definition teadfs_get_lower_file (dentry inode : option positive) (flags : Z) : M kptr :=
  lower_path ← teadfs_get_lower_path dentry;
  kpid ← kpid_or_zero;
  match inode with
  | Some i =>
    if kpid =? 0 then teadfs_dentry_open lower_path flags else
    ino ← get_inode i;
    let count := s32 (lower_file_count ino + 1) in
    put_inode i (set_lower_file_count count ino);;
    if count <? 1 then mret (KErr (- EINVAL))
    else
      file ← teadfs_dentry_open lower_path flags;
      (if IS_ERR file then
         ino ← get_inode i; put_inode i (set_lower_file_count 0 ino)
       else mret ());;
      mret file
  | None => teadfs_dentry_open lower_path flags
  end.

Definition teadfs_put_lower_file (inode : option positive) (file : positive) : M () :=
  f ← get_file file;
  fi ← load_file_info (f_private f);
  let lower_file := lower_file fi in
  kpid ← kpid_or_zero;
  match inode with
  | Some i =>
    if kpid =? 0 then
      vfs (VC_filemap_write_and_wait file (f_mapping f));; teadfs_fput lower_file
    else
      lower_path ← teadfs_get_lower_path (f_dentry f);
      ino ← get_inode i;
      let count := s32 (lower_file_count ino - 1) in
      put_inode i (set_lower_file_count count ino);;
      if count =? 0 then
        match lower_path with
        | Path (Some _) (Some _) => mret ()
        | _ =>
          vfs (VC_filemap_write_and_wait file (f_mapping f));;
          vfs (VC_path_get lower_file);;
          teadfs_fput lower_file;;
          vfs (VC_path_put lower_file);;
          mret ()
        end;;
        if S_ISREG (i_mode ino) then
          fi ← load_file_info (f_private f);
          teadfs_request_release (file_path fi) (file_path_length fi)
            (Some (file_addr file, file_f_path f));;
          mret ()
        else mret ()
      else mret ()
  | None => teadfs_fput lower_file
  end.

(** ** Reading and writing *)

Definition teadfs_aio_read_update_atime (file : positive) (pos : Z) : M Z :=
  f ← get_file file;
  lower_path ← teadfs_get_lower_path (f_dentry f);
  rc ← vfs (VC_generic_file_aio_read file pos);
  rc ← (if - EIOCBQUEUED =? rc then vfs (VC_wait_on_sync_kiocb file) else mret rc);
  (if 0 <=? rc then vfs (VC_touch_atime lower_path);; mret () else mret ());;
  fi ← load_file_info (f_private f);
  mret (if OFR_DECRYPT =? access fi then rc - ENCRYPT_FILE_HEADER_SIZE else rc).

Definition teadfs_aio_write (file : positive) (pos : Z) : M Z :=
  f ← get_file file;
  rc ← vfs (VC_generic_file_aio_write file pos);
  rc ← (if - EIOCBQUEUED =? rc then vfs (VC_wait_on_sync_kiocb file) else mret rc);
  fi ← load_file_info (f_private f);
  (if OFR_DECRYPT =? access fi then
     vfs (VC_invalidate_lower (lower_file fi));; vfs (VC_invalidate_upper (f_inode f));; mret ()
   else mret ());;
  mret rc.

(** ** Open *)

(** The flags the lower file is opened with. *)
Definition lower_flags (f_flags : Z) : Z :=
  let flags := Z.lor O_LARGEFILE f_flags in
  if Z.land flags O_ACCMODE =? O_WRONLY
  then Z.lor (Z.lxor flags O_WRONLY) O_RDWR else flags.

Definition set_file_decrypt (n : Z) (i : inode) : inode :=
  Inode (i_attr i) (i_meta i) (i_size i) (lower_inode i) (lower_file_count i) n (i_mapping i) (i_decrypt i).

(** The tests of line 387 on an open mode. *)
Definition decrypt_flag (access : Z) : Z :=
  if OFR_ENCRYPT =? access then 1 else if OFR_DECRYPT =? access then 1 else 0.

(** From the answer to the end of the [do] block. *)
Definition open_lower (inode file : positive) (file_info : ptr) (access : Z) : M Z :=
  f ← get_file file;
  lower ← teadfs_get_lower_file (f_dentry f) (Some inode) (lower_flags (f_flags f));
  fi ← load_file_info file_info;
  store_obj file_info (OFileInfo (FileInfo lower (Kernel.access fi) (file_path fi)
    (file_path_length fi) (file_path_buf fi)));;
  match lower with
  | KErr e => mret e
  | _ =>
    store_obj file_info (OFileInfo (FileInfo lower access (file_path fi)
      (file_path_length fi) (file_path_buf fi)));;
    (if OFR_DECRYPT =? access then
       ino ← get_inode inode;
       let src := match f_mapping f with MUpper => i_mapping ino | MDecrypt => i_decrypt ino end in
       put_inode inode (Inode (i_attr ino) (i_meta ino) (i_size ino) (lower_inode ino) (lower_file_count ino)
         (file_decrypt ino) (i_mapping ino)
         (teadfs_replace_copy_address_space (i_decrypt ino) src));;
       put_file file (File (f_dentry f) (f_mnt f) (f_inode f) (f_flags f) (f_private f) MDecrypt)
     else mret ());;
    mret 0
  end.

Definition teadfs_open (inode file : positive) : M Z :=
  rc ← (
    let access := OFR_INIT in
    file_info ← zalloc_obj (sizeof c_file_info) (OFileInfo (FileInfo KNull 0 NULL 0 NULL));
    teadfs_set_file_private file file_info;;
    if is_null file_info then mret (- ENOMEM) else
    store_obj file_info (OFileInfo (FileInfo KNull access NULL 0 NULL));;
    ino ← get_inode inode;
    put_inode inode (set_file_decrypt (decrypt_flag access) ino);;
    ino ← get_inode inode;
    if S_ISREG (i_mode ino) then
      f ← get_file file;
      access ← teadfs_request_open_file (file_addr file) (file_f_path f) file_info;
      if OFR_PROHIBIT =? access then mret (- EACCES)
      else open_lower inode file file_info access
    else open_lower inode file file_info access);
  (if negb (rc =? 0) then
     p ← teadfs_file_to_private file;
     teadfs_free p;;
     teadfs_set_file_private file NULL
   else mret ());;
  mret rc.

(** ** Close and the rest *)

(** Call a method of the lower file that may be absent. *)
Definition lower_call (lf : kptr) (m : lower_method) (absent : Z) (before : M ()) : M Z :=
  match lf with
  | KNull => fail_ub NullDeref
  | KErr _ => fail_ub WildPointer
  | KObj l => if lower_has l m then before;; vfs (VC_lower_method l m) else mret absent
  end.

Definition teadfs_flush (file : positive) : M Z :=
  f ← get_file file;
  lower_file ← teadfs_file_to_lower file;
  lower_call lower_file LM_flush 0
    (vfs (VC_filemap_write_and_wait file (f_mapping f));; mret ()).

Definition teadfs_release (inode file : positive) : M Z :=
  file_info ← teadfs_file_to_private file;
  (if is_null file_info then mret () else
     teadfs_put_lower_file (Some inode) file;;
     fi ← load_file_info file_info;
     (if is_null (file_path_buf fi) then mret () else
        teadfs_free (file_path_buf fi);;
        store_obj file_info (OFileInfo (FileInfo (lower_file fi) (access fi) (file_path fi)
          (file_path_length fi) NULL)));;
     teadfs_set_file_private file NULL;;
     teadfs_free file_info);;
  mret 0.

Definition teadfs_file_llseek (file : positive) (offset whence : Z) : M Z :=
  vfs (VC_generic_file_llseek file offset whence).

Definition teadfs_fsync (file : positive) (datasync : Z) : M Z :=
  f ← get_file file;
  _ ← teadfs_get_lower_path (f_dentry f);
  rc ← vfs (VC_filemap_write_and_wait file (f_mapping f));
  if negb (rc =? 0) then mret rc
  else lower ← teadfs_file_to_lower file; vfs (VC_vfs_fsync lower datasync).

Definition teadfs_fasync (file : positive) : M Z :=
  lower_file ← teadfs_file_to_lower file;
  lower_call lower_file LM_fasync 0 (mret ()).

(** The two ioctls: a null lower file is "no such method". *)
Definition lower_ioctl (m : lower_method) (absent : Z) (file : positive) : M Z :=
  p ← teadfs_file_to_private file;
  lower ← (if is_null p then mret KNull else teadfs_file_to_lower file);
  match lower with
  | KNull => mret absent
  | _ => lower_call lower m absent (mret ())
  end.
Definition teadfs_unlocked_ioctl : positive → M Z := lower_ioctl LM_unlocked_ioctl (- ENOTTY).
Definition teadfs_compat_ioctl : positive → M Z := lower_ioctl LM_compat_ioctl (- ENOIOCTLCMD).

(** ** Reading a directory *)

(** [vfs_readdir] passes the entries of the lower directory on, in order, until
    its callback returns something other than 0. *)
Fixpoint feed {U} (actor : dirent → U → Z * U) (es : list dirent) (u : U) (n : nat) : nat * U :=
  match es with
  | [] => (n, u)
  | e :: es =>
    let '(rc, u) := actor e u in
    if rc =? 0 then feed actor es u (S n) else (n, u)
  end.
Definition vfs_readdir {U} (l : lfs) (lf : positive) (pos : Z) (actor : dirent → U → Z * U) (u : U)
    : Z * Z * U :=
  let '(n, u) := feed actor (lower_entries l lf pos) u 0 in (lower_readdir_end l lf pos n, u).

Definition teadfs_filldir {U} (filldir : dirent → U → Z * U) (e : dirent) (buf : getdents U)
    : Z * getdents U :=
  let called := s32 (filldir_called buf + 1) in
  let '(rc, u) := filldir e (gd_user buf) in
  (rc, Getdents u called
    (if 0 <=? rc then s32 (entries_written buf + 1) else entries_written buf)).

(** The position is [file->f_pos]; the results are the code, the position and
    the caller's buffer. *)
Definition teadfs_readdir {U} (file : positive) (pos : Z) (filldir : dirent → U → Z * U) (u : U)
    : M (Z * Z * U) :=
  lower_file ← teadfs_file_to_lower file;
  match lower_file with
  | KNull => fail_ub NullDeref
  | KErr _ => fail_ub WildPointer
  | KObj lf =>
    f ← get_file file;
    l ← gets ks_lfs;
    let '(rc, pos, buf) := vfs_readdir l lf pos (teadfs_filldir filldir) (Getdents u 0 0) in
    (if rc <? 0 then mret () else
     if negb (filldir_called buf =? 0) && (entries_written buf =? 0) then mret () else
     inode ← deref (f_inode f);
     fsstack_copy_attr_atime inode (lower_file_inode l lf));;
    mret (rc, pos, gd_user buf)
  end.

End File.

(** * Lemmas *)
Section FileLemmas.
Context `{KernelEnv}.

(** ** The path printed for a file *)

Record path_ok (fp : path) (o n : Z) (contents : bytes) : Prop := PathOk {
  po_d_path : d_path fp PATH_MAX = Some (o, contents);
  po_len : blen contents = PATH_MAX;
  po_start : 0 ≤ o;
  po_n : 0 ≤ n;
  po_nul : find_nul (drop (Z.to_nat o) contents) = Some (Z.to_nat n);
}.

Lemma path_ok_range fp o n contents : path_ok fp o n contents → in_range o n contents = true.
Proof.
  intros [? Hl ? ? Hn]. apply find_nul_lt in Hn. rewrite length_drop in Hn.
  apply in_range_spec. unfold blen in *. lia.
Qed.

Lemma path_ok_max fp o n contents : path_ok fp o n contents → n ≤ max_data.
Proof.
  intros Hp. pose proof (path_ok_range _ _ _ _ Hp) as Hin. destruct Hp as [? Hl ? ? Hn].
  apply in_range_spec in Hin. rewrite Hl in Hin. assert (PATH_MAX ≤ max_data) by done. lia.
Qed.

(** Requests that wait do not notice what else is on the heap. *)
Lemma session_heap s s' :
  session s → ks_global s' = ks_global s → ks_queue s' = ks_queue s →
  (∀ c ctx, live s !! c = Some (OCtx ctx) → live s' !! c = Some (OCtx ctx)) → session s'.
Proof.
  intros [Ha Hn Hc Ht Hcl Hw] Hg Hq Hl. split; [done|done|by rewrite Hg|done|by rewrite Hg|].
  unfold next_id in *. rewrite Hg, Hq. eapply Forall_impl; [exact Hw|].
  intros c (id & (ctx & Hcx & Hid) & Hne). exists id. split; [|done]. exists ctx. auto.
Qed.

Definition open_mode (code : Z) : Z := if code <? 0 then OFR_INIT else code.

Lemma wp_request_open_file cb f s b fi fp o n contents addr :
  cb_open cb = Some f → connected_to cb → session s → 0 ≤ addr < 2 ^ 64 →
  live s !! b = Some (OFileInfo fi) → path_ok fp o n contents →
  wp (teadfs_request_open_file addr fp (Ptr b 0)) (λ rc s',
    rc = open_mode (s32 (f addr current_tgid (slice o n contents))) ∧
    ∃ r, live s !! r = None ∧ comm_frame s s' ∧
      live s' = <[r := OBytes contents]>
        (<[b := OFileInfo (FileInfo (lower_file fi) (access fi) (Ptr r o) n (Ptr r 0))]>
          (live s))) s.
Proof.
  intros Hf Hcb Hs Haddr Hb Hp. pose proof (path_ok_range _ _ _ _ Hp) as Hin.
  pose proof (path_ok_max _ _ _ _ Hp) as Hmax. destruct Hp as [Hd Hl Ho Hn0 Hnul].
  unfold teadfs_request_open_file. apply wp_bind, wp_bind, wp_zalloc_obj.
  2: { intros E. by rewrite (ss_alloc _ Hs) in E. }
  intros _ r Hr. assert (r ≠ b) by congruence.
  apply wp_bind. eapply wp_load_file_info; [by rewrite live_upd_ne|].
  apply wp_bind. eapply wp_store_obj; [by rewrite live_upd_ne|]. rewrite is_null_ptr.
  apply wp_bind. unfold d_path_into. rewrite Hd.
  apply wp_bind. eapply wp_store_bytes; [rewrite live_upd_ne by done; apply live_upd_eq| |].
  { apply in_range_spec. rewrite Hl, blen_zeros by done. done. }
  rewrite splice_all by (by rewrite Hl, blen_zeros).
  apply wp_ret. unfold path_strlen. simpl padd. rewrite Z.add_0_l.
  apply wp_bind. eapply wp_strlen; [apply live_upd_eq|done|done|]. rewrite Z2Nat.id by done.
  apply wp_bind. eapply wp_store_obj.
  { rewrite live_upd_ne by done. apply live_upd_eq. }
  match goal with |- wp _ _ ?s1 => set (sX := s1) end.
  assert (HL : live sX = <[r := OBytes contents]>
      (<[b := OFileInfo (FileInfo (lower_file fi) (access fi) (Ptr r o) n (Ptr r 0))]> (live s))).
  { unfold sX. heap_eq. }
  eapply wp_mono; [eapply (wp_open_answered cb f); [done|done| |done| |done|done]|].
  - eapply (session_heap s); [done|done|done|]. intros c ctx Hc. rewrite HL.
    rewrite !lookup_insert_ne; [done|congruence|congruence].
  - rewrite HL. apply lookup_insert_eq.
  - intros rc s' (-> & HL' & Hfr).
    assert (Hfr' : comm_frame s s') by (destruct Hfr; by split).
    unfold open_mode. destruct (_ <? 0); apply wp_ret;
      (split; [done|]; exists r; split_and!; [done|done|by rewrite HL']).
Qed.

(** ** Opening *)

Definition with_private (p : ptr) (f : file) : file :=
  File (f_dentry f) (f_mnt f) (f_inode f) (f_flags f) p (f_mapping f).

Lemma wp_set_file_private file f p (Q : () → kstate → Prop) s :
  ks_files s !! file = Some f →
  Q () (set_files (insert file (with_private p f)) s) → wp (teadfs_set_file_private file p) Q s.
Proof. intros Hf HQ. apply wp_bind. by eapply wp_get_file. Qed.

Lemma wp_file_to_private file f (Q : ptr → kstate → Prop) s :
  ks_files s !! file = Some f → Q (f_private f) s → wp (teadfs_file_to_private file) Q s.
Proof. intros Hf HQ. apply wp_bind. by eapply wp_get_file. Qed.

Lemma wp_kpid (Q : Z → kstate → Prop) s :
  current_tgid ≠ pid (ks_global s) → Q current_tgid s → wp kpid_or_zero Q s.
Proof.
  intros Hne HQ. apply wp_bind, wp_get_client_pid. by rewrite (proj2 (Z.eqb_neq _ _)).
Qed.

(** The state in which the answer to OPEN arrives, for a regular file. *)
Record asked (s : kstate) (inode file b r : positive)
    (fl : Kernel.file) (ino : Kernel.inode)
    (o n : Z) (contents : bytes) (s1 : kstate) : Prop := Asked {
  as_b : live s !! b = None;
  as_r : live s !! r = None;
  as_ne : b ≠ r;
  as_live : live s1 = <[r := OBytes contents]>
    (<[b := OFileInfo (FileInfo KNull OFR_INIT (Ptr r o) n (Ptr r 0))]> (live s));
  as_files : ks_files s1 = <[file := with_private (Ptr b 0) fl]> (ks_files s);
  as_inodes : ks_inodes s1 = <[inode := set_file_decrypt 0 ino]> (ks_inodes s);
  as_dentries : ks_dentries s1 = ks_dentries s;
  as_lfs : ks_lfs s1 = ks_lfs s;
  as_queue : ks_queue s1 = ks_queue s;
  as_pid : pid (ks_global s1) = pid (ks_global s);
}.

(** From a failure or success of the block to the end of [teadfs_open]. *)
Definition open_finish (file : positive) (rc : Z) : M Z :=
  (if negb (rc =? 0) then
     p ← teadfs_file_to_private file;
     teadfs_free p;;
     teadfs_set_file_private file NULL
   else mret ());;
  mret rc.

Lemma wp_open_asked cb f inode file fl ino o n contents (Q : Z → kstate → Prop) s :
  cb_open cb = Some f → connected_to cb → session s → 0 ≤ file_addr file < 2 ^ 64 →
  ks_files s !! file = Some fl → ks_inodes s !! inode = Some ino →
  S_ISREG (i_mode ino) = true → path_ok (file_f_path fl) o n contents →
  let mode := open_mode (s32 (f (file_addr file) current_tgid (slice o n contents))) in
  (∀ b r s1, asked s inode file b r fl ino o n contents s1 →
     wp (rc ← (if OFR_PROHIBIT =? mode then mret (- EACCES)
               else open_lower inode file (Ptr b 0) mode); open_finish file rc) Q s1) →
  wp (teadfs_open inode file) Q s.
Proof.
  intros Hf Hcb Hs Haddr Hfl Hino Hreg Hp mode HQ.
  apply wp_bind, wp_bind, wp_zalloc_obj.
  2: { intros E. by rewrite (ss_alloc _ Hs) in E. }
  intros _ b Hb. apply wp_bind. eapply wp_set_file_private; [exact Hfl|]. rewrite is_null_ptr.
  apply wp_bind. eapply wp_store_obj; [apply live_upd_eq|].
  apply wp_bind. eapply wp_get_inode; [exact Hino|].
  apply wp_bind, wp_modify, wp_bind. eapply wp_get_inode; [apply lookup_insert_eq|].
  change (i_mode (set_file_decrypt _ ino)) with (i_mode ino). rewrite Hreg.
  apply wp_bind. eapply wp_get_file; [apply lookup_insert_eq|].
  change (file_f_path (with_private _ fl)) with (file_f_path fl).
  apply wp_bind.
  match goal with |- wp _ _ ?s1 => set (sX := s1) end.
  eapply wp_mono; [eapply (wp_request_open_file cb f sX b); [done|done| |done|apply live_upd_eq|done]|].
  - eapply (session_heap s); [done|done|done|]. intros c ctx Hc.
    unfold sX. autorewrite with tead_live. rewrite !lookup_insert_ne by congruence. done.
  - intros rc s1 (-> & r & Hr & Hfr & HL). fold mode.
    assert (HsX : live sX = <[b := OFileInfo (FileInfo KNull OFR_INIT NULL 0 NULL)]> (live s)).
    { unfold sX. heap_eq. }
    rewrite HsX in Hr. apply lookup_insert_None in Hr as [Hr Hne].
    eapply (wp_bind_inv _ (open_finish file)), (HQ b r). destruct Hfr.
    split; try done.
    rewrite HL, HsX. heap_eq.
Qed.


Lemma wp_dentry_open p flags (Q : kptr → kstate → Prop) s :
  (∀ l r, dentry_open (ks_lfs s) p flags = (l, r) → Q r (set_lfs (λ _, l) s)) →
  wp (teadfs_dentry_open p flags) Q s.
Proof. unfold wp, teadfs_dentry_open. destruct (dentry_open _ _ _) as [l r] eqn:E. auto. Qed.

(** What [teadfs_get_lower_file] does for a process other than the client. *)
Lemma wp_get_lower_file d x i ino flags (Q : kptr → kstate → Prop) s :
  dentry_at s d x → ks_inodes s !! i = Some ino →
  current_tgid ≠ pid (ks_global s) → current_tgid ≠ 0 →
  let count := s32 (lower_file_count ino + 1) in
  (count < 1 →
     Q (KErr (- EINVAL)) (set_inodes (insert i (set_lower_file_count count ino)) s)) →
  (1 ≤ count → ∀ l r, dentry_open (ks_lfs s) (lower_path x) flags = (l, r) →
     Q r (set_inodes (insert i (set_lower_file_count (if IS_ERR r then 0 else count) ino))
            (set_lfs (λ _, l) s))) →
  wp (teadfs_get_lower_file (Some d) (Some i) flags) Q s.
Proof.
  intros Hd Hi Hne H0 count Hbad Hok. apply wp_bind. eapply wp_get_lower_path; [exact Hd|].
  apply wp_bind, wp_kpid; [done|]. rewrite (proj2 (Z.eqb_neq _ _)) by done.
  apply wp_bind. eapply wp_get_inode; [exact Hi|]. fold count.
  apply wp_bind, wp_modify. destruct (count <? 1) eqn:E.
  - apply wp_ret, Hbad. lia.
  - apply wp_bind, wp_dentry_open. intros l r Hr. specialize (Hok ltac:(lia) l r Hr).
    apply wp_bind. destruct (IS_ERR r).
    + apply wp_bind. eapply wp_get_inode; [apply lookup_insert_eq|].
      apply wp_modify, wp_ret. unfold set_inodes, set_lfs in *. simpl in *.
      by rewrite insert_insert_eq.
    + by apply wp_ret, wp_ret.
Qed.

Lemma lookup_asked_file s inode file b r fl ino o n contents s1 :
  asked s inode file b r fl ino o n contents s1 →
  ks_files s1 !! file = Some (with_private (Ptr b 0) fl).
Proof. intros Ha. rewrite (as_files _ _ _ _ _ _ _ _ _ _ _ Ha). apply lookup_insert_eq. Qed.

Lemma lookup_asked_inode s inode file b r fl ino o n contents s1 :
  asked s inode file b r fl ino o n contents s1 →
  ks_inodes s1 !! inode = Some (set_file_decrypt 0 ino).
Proof. intros Ha. rewrite (as_inodes _ _ _ _ _ _ _ _ _ _ _ Ha). apply lookup_insert_eq. Qed.

Lemma lookup_asked_info s inode file b r fl ino o n contents s1 :
  asked s inode file b r fl ino o n contents s1 →
  live s1 !! b = Some (OFileInfo (FileInfo KNull OFR_INIT (Ptr r o) n (Ptr r 0))).
Proof.
  intros Ha. rewrite (as_live _ _ _ _ _ _ _ _ _ _ _ Ha).
  rewrite lookup_insert_ne; [apply lookup_insert_eq|].
  pose proof (as_ne _ _ _ _ _ _ _ _ _ _ _ Ha). congruence.
Qed.

(** The failure path of [teadfs_open]: the file information goes, what it
    pointed to stays. *)
Lemma wp_open_fails file b fl fi rc (Q : Z → kstate → Prop) s :
  rc ≠ 0 → ks_files s !! file = Some (with_private (Ptr b 0) fl) →
  live s !! b = Some fi →
  Q rc (set_files (insert file (with_private NULL fl)) (set_mem (mem_kill b fi) s)) →
  wp (open_finish file rc) Q s.
Proof.
  intros Hrc Hf Hb HQ. unfold open_finish. rewrite (proj2 (Z.eqb_neq _ _)) by done.
  apply wp_bind, wp_bind. eapply wp_file_to_private; [exact Hf|].
  apply wp_bind. eapply wp_free; [exact Hb|].
  eapply wp_set_file_private; [exact Hf|]. by apply wp_ret.
Qed.

(** ** Closing *)

Lemma wp_fput lf (Q : () → kstate → Prop) s :
  Q () (set_lfs (λ l, fput l lf) s) → wp (teadfs_fput (KObj lf)) Q s.
Proof. done. Qed.

(** A file whose private data is the information [fi] in block [b]. *)
Definition file_has (s : kstate) (file b : positive) (fl : Kernel.file) (fi : teadfs_file_info) : Prop :=
  ks_files s !! file = Some fl ∧ f_private fl = Ptr b 0 ∧ live s !! b = Some (OFileInfo fi).

(** [teadfs_put_lower_file] while other opens are counted, or the count is
    already wrong. *)
Lemma wp_put_lower_file_more i ino file b fl fi d x (Q : () → kstate → Prop) s :
  file_has s file b fl fi → ks_inodes s !! i = Some ino →
  f_dentry fl = Some d → dentry_at s d x →
  current_tgid ≠ pid (ks_global s) → current_tgid ≠ 0 →
  let count := s32 (lower_file_count ino - 1) in
  count ≠ 0 → Q () (set_inodes (insert i (set_lower_file_count count ino)) s) →
  wp (teadfs_put_lower_file (Some i) file) Q s.
Proof.
  intros (Hf & Hpr & Hb) Hi Hd Hx Hne H0 count Hc HQ.
  apply wp_bind. eapply wp_get_file; [exact Hf|]. rewrite Hpr.
  apply wp_bind. eapply wp_load_file_info; [exact Hb|].
  apply wp_bind, wp_kpid; [done|]. rewrite (proj2 (Z.eqb_neq _ _)), Hd by done.
  apply wp_bind. eapply wp_get_lower_path; [exact Hx|].
  apply wp_bind. eapply wp_get_inode; [exact Hi|]. fold count.
  apply wp_bind, wp_modify. by rewrite (proj2 (Z.eqb_neq _ _)).
Qed.

(** The last close of a regular file whose lower path is whole: RELEASE goes
    to the process. *)
Lemma wp_put_lower_file_last cb f i ino file b fl fi d x ld lm fm r o contents s :
  cb_release cb = Some f → connected_to cb → session s → 0 ≤ file_addr file < 2 ^ 64 →
  file_has s file b fl fi → ks_inodes s !! i = Some ino → lower_file_count ino = 1 →
  S_ISREG (i_mode ino) = true →
  f_dentry fl = Some d → f_mnt fl = Some fm → dentry_at s d x →
  lower_path x = Path (Some ld) (Some lm) →
  file_path fi = Ptr r o → live s !! r = Some (OBytes contents) →
  in_range o (file_path_length fi) contents = true → file_path_length fi ≤ max_data →
  wp (teadfs_put_lower_file (Some i) file) (λ _ s',
    live s' = live s ∧ comm_frame (set_inodes (insert i (set_lower_file_count 0 ino)) s) s') s.
Proof.
  intros Hf Hcb Hs Haddr (Hfl & Hpr & Hb) Hi Hc Hreg Hd Hm Hx Hlp Hfp Hr Hin Hmax.
  apply wp_bind. eapply wp_get_file; [exact Hfl|]. rewrite Hpr.
  apply wp_bind. eapply wp_load_file_info; [exact Hb|].
  apply wp_bind, wp_kpid; [apply Hs|].
  rewrite (proj2 (Z.eqb_neq _ _)), Hd by (pose proof (ss_tgid _ Hs); lia).
  apply wp_bind. eapply wp_get_lower_path; [exact Hx|].
  apply wp_bind. eapply wp_get_inode; [exact Hi|]. rewrite Hc. change (s32 (1 - 1)) with 0.
  apply wp_bind, wp_modify. change (0 =? 0) with true. cbv iota. rewrite Hlp.
  apply wp_bind, wp_ret. rewrite Hreg.
  apply wp_bind. eapply wp_load_file_info; [exact Hb|]. rewrite Hfp.
  unfold file_f_path. rewrite Hd, Hm. apply wp_bind.
  eapply wp_mono; [eapply (wp_release_answered cb f); [done|done| |done|exact Hr|exact Hin|done]|].
  - by eapply (session_heap s).
  - intros rc s' (_ & HL & Hfr). by apply wp_ret.
Qed.

(** What follows the put in [teadfs_release]. *)
Lemma wp_release_free inode file b fl fi fi0 r contents (Q : Z → kstate → Prop) s :
  file_has s file b fl fi0 → file_path_buf fi = Ptr r 0 →
  wp (teadfs_put_lower_file (Some inode) file) (λ _ s1,
    ks_files s1 = ks_files s ∧ live s1 !! b = Some (OFileInfo fi) ∧
    live s1 !! r = Some (OBytes contents) ∧
    ∀ s', live s' = delete b (delete r (live s1)) → ks_lfs s' = ks_lfs s1 →
      ks_inodes s' = ks_inodes s1 → ks_sent s' = ks_sent s1 → ks_queue s' = ks_queue s1 →
      ks_files s' = <[file := with_private NULL fl]> (ks_files s) → Q 0 s') s →
  wp (teadfs_release inode file) Q s.
Proof.
  intros (Hf & Hpr & Hb0) Hbuf Hput. apply wp_bind. eapply wp_file_to_private; [exact Hf|].
  rewrite Hpr, is_null_ptr. apply wp_bind, wp_bind.
  eapply wp_mono; [exact Hput|]. intros _ s1 (Hfs & Hb & Hr & HQ).
  assert (b ≠ r) by congruence.
  apply wp_bind. eapply wp_load_file_info; [exact Hb|]. rewrite Hbuf, is_null_ptr.
  apply wp_bind, wp_bind. eapply wp_free; [exact Hr|].
  eapply wp_store_obj. { autorewrite with tead_live. by rewrite lookup_delete_ne. }
  apply wp_bind. eapply wp_set_file_private; [simpl; by rewrite Hfs|].
  eapply wp_free. { autorewrite with tead_live. apply lookup_insert_eq. }
  apply wp_ret, HQ; try done.
  - autorewrite with tead_live. heap_eq.
  - simpl. by rewrite Hfs.
Qed.

(** * Properties *)

(** C26: a file the process prohibits is not opened: EACCES, no lower file is
    opened or counted, and the file has no private data; but the buffer that
    holds its path stays allocated, with nothing pointing to it. *)
Theorem open_prohibited (cb : TEAFS_DEAL_CB) (f : Z → Z → bytes → Z) (s : kstate)
    (inode file : positive) (fl : Kernel.file) (ino : Kernel.inode) (o n : Z) (contents : bytes) :
  cb_open cb = Some f → connected_to cb → session s → 0 ≤ file_addr file < 2 ^ 64 →
  ks_files s !! file = Some fl → ks_inodes s !! inode = Some ino →
  S_ISREG (i_mode ino) = true → path_ok (file_f_path fl) o n contents →
  s32 (f (file_addr file) current_tgid (slice o n contents)) = OFR_PROHIBIT →
  wp (teadfs_open inode file) (λ rc s', rc = - EACCES ∧ ks_lfs s' = ks_lfs s ∧
    ks_files s' = <[file := with_private NULL fl]> (ks_files s) ∧
    ks_inodes s' = <[inode := set_file_decrypt 0 ino]> (ks_inodes s) ∧
    ∃ r, live s !! r = None ∧ live s' = <[r := OBytes contents]> (live s)) s.
Proof.
  intros Hf Hcb Hs Haddr Hfl Hino Hreg Hp Hcode.
  eapply wp_open_asked; [done..|]. intros b r s1 Ha. rewrite Hcode.
  change (OFR_PROHIBIT =? open_mode OFR_PROHIBIT) with true. cbv iota.
  apply wp_bind, wp_ret. eapply wp_open_fails; [done|by eapply lookup_asked_file|by eapply lookup_asked_info|].
  pose proof (lookup_asked_info _ _ _ _ _ _ _ _ _ _ _ Ha) as Hb1. destruct Ha.
  split_and!; [done|done| |done|].
  - simpl. rewrite as_files0. by rewrite insert_insert_eq.
  - exists r. split; [done|]. autorewrite with tead_live. rewrite as_live0. heap_eq.
Qed.

(** What [teadfs_open] leaves when it succeeds. *)
Definition opened_inode (mode : Z) (fl : Kernel.file) (ino : Kernel.inode) : Kernel.inode :=
  Inode (i_attr ino) (i_meta ino) (i_size ino) (lower_inode ino) (lower_file_count ino + 1) 0 (i_mapping ino)
    (if OFR_DECRYPT =? mode then
       teadfs_replace_copy_address_space (i_decrypt ino)
         (match f_mapping fl with MUpper => i_mapping ino | MDecrypt => i_decrypt ino end)
     else i_decrypt ino).
Definition opened_file (mode : Z) (b : positive) (fl : Kernel.file) : Kernel.file :=
  File (f_dentry fl) (f_mnt fl) (f_inode fl) (f_flags fl) (Ptr b 0)
    (if OFR_DECRYPT =? mode then MDecrypt else f_mapping fl).

(** C8: opening a regular file for a process the client allows: the lower file
    is opened once, with write-only widened to read-write, and counted; the
    file's private data holds it with the mode the process chose (a negative
    answer counts as "nothing to do"); exactly the decrypt mode switches the
    file to the inode's second page cache.  [file_decrypt] is 0 whatever the
    mode is. *)
Theorem open_opens (cb : TEAFS_DEAL_CB) (f : Z → Z → bytes → Z) (s : kstate)
    (inode file d lf : positive) (fl : Kernel.file) (ino : Kernel.inode) (x : dentry)
    (o n : Z) (contents : bytes) (l : lfs) :
  cb_open cb = Some f → connected_to cb → session s → 0 ≤ file_addr file < 2 ^ 64 →
  ks_files s !! file = Some fl → ks_inodes s !! inode = Some ino →
  S_ISREG (i_mode ino) = true → path_ok (file_f_path fl) o n contents →
  f_dentry fl = Some d → dentry_at s d x →
  0 ≤ lower_file_count ino < 2 ^ 31 - 1 →
  dentry_open (ks_lfs s) (lower_path x) (lower_flags (f_flags fl)) = (l, KObj lf) →
  let mode := open_mode (s32 (f (file_addr file) current_tgid (slice o n contents))) in
  mode ≠ OFR_PROHIBIT →
  wp (teadfs_open inode file) (λ rc s', rc = 0 ∧ ks_lfs s' = l ∧
    ks_inodes s' = <[inode := opened_inode mode fl ino]> (ks_inodes s) ∧
    ∃ b r, live s !! b = None ∧ live s !! r = None ∧ b ≠ r ∧
      live s' = <[r := OBytes contents]>
        (<[b := OFileInfo (FileInfo (KObj lf) mode (Ptr r o) n (Ptr r 0))]> (live s)) ∧
      ks_files s' = <[file := opened_file mode b fl]> (ks_files s)) s.
Proof.
  intros Hf Hcb Hs Haddr Hfl Hino Hreg Hp Hd Hx Hcnt Hopen mode Hmode.
  eapply wp_open_asked; [done..|]. intros b r s1 Ha. fold mode.
  rewrite (proj2 (Z.eqb_neq _ mode)) by congruence.
  pose proof (lookup_asked_file _ _ _ _ _ _ _ _ _ _ _ Ha) as Hf1.
  pose proof (lookup_asked_inode _ _ _ _ _ _ _ _ _ _ _ Ha) as Hi1.
  pose proof (lookup_asked_info _ _ _ _ _ _ _ _ _ _ _ Ha) as Hb1. destruct Ha.
  assert (Hc : s32 (lower_file_count (set_file_decrypt 0 ino) + 1) = lower_file_count ino + 1)
    by (simpl; apply s32_small; lia).
  apply wp_bind. unfold open_lower. apply wp_bind. eapply wp_get_file; [exact Hf1|].
  simpl f_dentry. simpl f_flags. rewrite Hd. apply wp_bind.
  eapply wp_get_lower_file; [by unfold dentry_at; rewrite as_dentries0|exact Hi1| | | |].
  { rewrite as_pid0. apply Hs. }
  { pose proof (ss_tgid _ Hs). lia. }
  { rewrite Hc. lia. }
  rewrite as_lfs0. intros _ l' lr Hl'. rewrite Hopen in Hl'. injection Hl' as <- <-. rewrite Hc.
  apply wp_bind. eapply wp_load_file_info; [exact Hb1|].
  apply wp_bind. eapply wp_store_obj; [exact Hb1|].
  apply wp_bind. eapply wp_store_obj; [apply live_upd_eq|]. rewrite upd_upd.
  apply wp_bind. unfold opened_inode, opened_file.
  destruct (OFR_DECRYPT =? mode) eqn:Hdec.
  - apply wp_bind. eapply wp_get_inode; [apply lookup_insert_eq|].
    apply wp_bind, wp_modify, wp_modify, wp_ret, wp_ret.
    split_and!; [done|done| |].
    + simpl. rewrite as_inodes0, !insert_insert_eq. by destruct (f_mapping fl).
    + exists b, r. split_and!; [done|done|done| |].
      * autorewrite with tead_live. rewrite as_live0. heap_eq.
      * simpl. by rewrite as_files0, insert_insert_eq, Hd.
  - apply wp_ret, wp_ret, wp_ret. split_and!; [done|done| |].
    + simpl. by rewrite as_inodes0, !insert_insert_eq.
    + exists b, r. split_and!; [done|done|done| |done].
      autorewrite with tead_live. rewrite as_live0. heap_eq.
Qed.


(** The last close of a regular file: RELEASE is answered, and the file
    information and the path buffer are freed; but the lower file, which
    [teadfs_open] opened, is not put: on a whole lower path the state of the
    lower file system is the one before the close. *)
Theorem release_keeps_lower_file (cb : TEAFS_DEAL_CB) (f : Z → Z → bytes → Z) (s : kstate)
    (inode file b d ld lm fm r : positive) (fl : Kernel.file) (fi : teadfs_file_info)
    (ino : Kernel.inode) (x : dentry) (o : Z) (contents : bytes) :
  cb_release cb = Some f → connected_to cb → session s → 0 ≤ file_addr file < 2 ^ 64 →
  file_has s file b fl fi → ks_inodes s !! inode = Some ino → lower_file_count ino = 1 →
  S_ISREG (i_mode ino) = true →
  f_dentry fl = Some d → f_mnt fl = Some fm → dentry_at s d x →
  lower_path x = Path (Some ld) (Some lm) →
  file_path fi = Ptr r o → file_path_buf fi = Ptr r 0 → live s !! r = Some (OBytes contents) →
  in_range o (file_path_length fi) contents = true → file_path_length fi ≤ max_data →
  wp (teadfs_release inode file) (λ rc s', rc = 0 ∧
    live s' = delete b (delete r (live s)) ∧
    ks_files s' = <[file := with_private NULL fl]> (ks_files s) ∧
    ks_inodes s' = <[inode := set_lower_file_count 0 ino]> (ks_inodes s) ∧
    ks_lfs s' = ks_lfs s) s.
Proof.
  intros Hf Hcb Hs Haddr Hfile Hi Hc Hreg Hd Hm Hx Hlp Hfp Hbuf Hr Hin Hmax.
  eapply wp_release_free; [exact Hfile|exact Hbuf|].
  eapply wp_mono; [by eapply (wp_put_lower_file_last cb f)|].
  intros _ s1 [HL Hfr]. destruct Hfile as (Hfl & Hpr & Hb).
  split_and!; [by destruct Hfr|by rewrite HL|by rewrite HL|].
  intros s' HL' Hlfs Hin' _ _ Hfs. destruct Hfr.
  split_and!; [done|by rewrite HL', HL|done|by rewrite Hin'|by rewrite Hlfs].
Qed.

(** An error in opening the lower file sets the inode's count to 0, also
    when other files of the inode are open.  The close of one of those then
    makes it negative without telling the process, and the next open of the
    file, whose lower file could be opened, is refused with EINVAL. *)
Theorem failed_open_locks_out (s : kstate) (inode file b d : positive) (fl : Kernel.file)
    (fi : teadfs_file_info) (ino : Kernel.inode) (x : dentry) (flags e : Z) (l : lfs) :
  file_has s file b fl fi → ks_inodes s !! inode = Some ino →
  f_dentry fl = Some d → dentry_at s d x →
  current_tgid ≠ pid (ks_global s) → current_tgid ≠ 0 →
  lower_file_count ino = 1 → dentry_open (ks_lfs s) (lower_path x) flags = (l, KErr e) →
  wp (r1 ← teadfs_get_lower_file (Some d) (Some inode) flags;
      teadfs_put_lower_file (Some inode) file;;
      r2 ← teadfs_get_lower_file (Some d) (Some inode) flags;
      mret (r1, r2)) (λ r s',
    r = (KErr e, KErr (- EINVAL)) ∧ ks_sent s' = ks_sent s ∧ live s' = live s ∧
    ks_inodes s' !! inode = Some (set_lower_file_count 0 ino)) s.
Proof.
  intros Hfile Hi Hd Hx Hne H0 Hc Hopen. apply wp_bind.
  eapply wp_get_lower_file; [exact Hx|exact Hi|done|done| |].
  { rewrite Hc. intros Hbad. exfalso. revert Hbad. by vm_compute. }
  intros _ l' r1 Hr1. rewrite Hopen in Hr1. injection Hr1 as <- <-. simpl IS_ERR. cbv iota.
  apply wp_bind. eapply wp_put_lower_file_more;
    [exact Hfile|apply lookup_insert_eq|exact Hd|exact Hx|done|done|done|].
  apply wp_bind. eapply wp_get_lower_file; [exact Hx|apply lookup_insert_eq|done|done| |].
  - intros _. apply wp_ret. split_and!; [done|done|done|]. simpl. by rewrite lookup_insert_eq.
  - intros Hbad. exfalso. revert Hbad. vm_compute. by intros [].
Qed.

(** The mode of the lower file: write-only becomes read-write, the other
    access modes and all other flags stay, and large files are allowed. *)
Theorem lower_flags_spec (flags : Z) :
  Z.land (lower_flags flags) O_ACCMODE =
    (if Z.land flags O_ACCMODE =? O_WRONLY then O_RDWR else Z.land flags O_ACCMODE) ∧
  ∀ k, 2 ≤ k → Z.testbit (lower_flags flags) k = (k =? 15) || Z.testbit flags k.
Proof.
  assert (Hl : Z.land (Z.lor O_LARGEFILE flags) O_ACCMODE = Z.land flags O_ACCMODE).
  { rewrite Z.land_lor_distr_l. change (Z.land O_LARGEFILE O_ACCMODE) with 0. apply Z.lor_0_l. }
  assert (Hhi : ∀ k, 2 ≤ k → Z.testbit O_WRONLY k = false ∧ Z.testbit O_RDWR k = false ∧
    Z.testbit O_LARGEFILE k = (k =? 15)).
  { intros k Hk. change O_WRONLY with (2 ^ 0). change O_RDWR with (2 ^ 1).
    change O_LARGEFILE with (2 ^ 15). rewrite !Z.pow2_bits_eqb by lia. lia. }
  unfold lower_flags. cbv zeta. rewrite Hl. split.
  - case_match eqn:E; [|done]. apply Z.eqb_eq in E.
    rewrite Z.land_lor_distr_l. change (Z.land O_RDWR O_ACCMODE) with 2.
    assert (Hx : Z.land (Z.lxor (Z.lor O_LARGEFILE flags) O_WRONLY) O_ACCMODE =
      Z.lxor (Z.land (Z.lor O_LARGEFILE flags) O_ACCMODE) (Z.land O_WRONLY O_ACCMODE)).
    { apply Z.bits_inj'. intros k Hk. rewrite !Z.land_spec, !Z.lxor_spec, !Z.land_spec.
      by destruct (Z.testbit (Z.lor _ _) k), (Z.testbit O_WRONLY k), (Z.testbit O_ACCMODE k). }
    rewrite Hx, Hl, E. done.
  - intros k Hk. destruct (Hhi k Hk) as (H1 & H2 & H3).
    case_match; rewrite ?Z.lor_spec, ?Z.lxor_spec, ?Z.lor_spec, ?H1, ?H2, H3;
      by destruct (k =? 15), (Z.testbit flags k).
Qed.

(** A read of a decrypted file reports 256 less than the page cache
    delivered, also for an error or the end of the file: 0 becomes -256. *)
Theorem aio_read_result (s : kstate) (file b d : positive) (fl : Kernel.file)
    (fi : teadfs_file_info) (x : dentry) (pos : Z) :
  file_has s file b fl fi → f_dentry fl = Some d → dentry_at s d x →
  let got := vcall_rc (ks_calls s) (VC_generic_file_aio_read file pos) in
  got ≠ - EIOCBQUEUED →
  wp (teadfs_aio_read_update_atime file pos) (λ rc s',
    rc = (if access fi =? OFR_DECRYPT then got - ENCRYPT_FILE_HEADER_SIZE else got) ∧
    ks_calls s' = ks_calls s ++ VC_generic_file_aio_read file pos ::
      (if 0 <=? got then [VC_touch_atime (lower_path x)] else [])) s.
Proof.
  intros (Hf & Hpr & Hb) Hd Hx got Hgot.
  apply wp_bind. eapply wp_get_file; [exact Hf|]. rewrite Hd.
  apply wp_bind. eapply wp_get_lower_path; [exact Hx|].
  apply wp_bind, wp_vfs. fold got. rewrite (proj2 (Z.eqb_neq (- EIOCBQUEUED) got)) by congruence.
  apply wp_bind, wp_ret, wp_bind. rewrite Hpr, (Z.eqb_sym (access fi)).
  destruct (0 <=? got) eqn:E.
  - apply wp_bind, wp_vfs, wp_ret, wp_bind. eapply wp_load_file_info; [exact Hb|].
    apply wp_ret. split; [done|]. simpl. by rewrite <- app_assoc.
  - apply wp_ret, wp_bind. eapply wp_load_file_info; [exact Hb|]. by apply wp_ret.
Qed.

(** The module's callback does to the caller's buffer what the caller's does,
    and counts. *)
Lemma feed_filldir {U} (fd : dirent → U → Z * U) es : ∀ u c w n,
  0 ≤ c → 0 ≤ w → c + Z.of_nat (length es) < 2 ^ 31 → w + Z.of_nat (length es) < 2 ^ 31 →
  ∃ c' w', feed (teadfs_filldir fd) es (Getdents u c w) n =
    ((feed fd es u n).1, Getdents (feed fd es u n).2 c' w') ∧
    c ≤ c' ∧ w ≤ w' ∧ (es = [] → c' = c ∧ w' = w) ∧
    (∀ e es', es = e :: es' → c < c' ∧ (0 ≤ (fd e u).1 → w < w') ∧ ((fd e u).1 < 0 → w' = w)).
Proof.
  induction es as [|e es IH]; intros u c w n Hc Hw Hc2 Hw2; cbn [feed].
  - exists c, w. split_and!; [done|lia|lia|done|done].
  - cbn [length] in *. unfold teadfs_filldir at 1. cbn [gd_user filldir_called entries_written].
    destruct (fd e u) as [rc u'] eqn:E. rewrite !s32_small by lia.
    destruct (Z.eqb_spec rc 0) as [->|Hrc].
    + cbn [Z.leb Z.compare]. destruct (IH u' (c + 1) (w + 1) (S n)) as (c' & w' & Hf & H1 & H2 & _); try lia.
      exists c', w'. rewrite Hf. split_and!; [done|lia|lia|done|].
      intros e' es' [= <- <-]. rewrite E. simpl. lia.
    + exists (c + 1), (if 0 <=? rc then w + 1 else w). split_and!; [done|lia|destruct (_ <=? _); lia|done|].
      intros e' es' [= <- <-]. rewrite E. simpl. destruct (Z.leb_spec 0 rc); lia.
Qed.

(** C30: reading a directory through the module is reading the lower one: the
    caller's [filldir] sees the same entries in the same order up to the one it
    refuses, and the result, the position and the caller's buffer are those of
    the lower call; the access time is copied unless the call failed or the
    very first entry was refused. *)
Theorem readdir_relays {U} (s : kstate) (file b i lf : positive) (fl : Kernel.file) (fi : teadfs_file_info)
    (y : inode) (pos : Z) (filldir : dirent → U → Z * U) (u : U) :
  let entries := lower_entries (ks_lfs s) lf pos in
  let direct := vfs_readdir (ks_lfs s) lf pos filldir u in
  file_has s file b fl fi → lower_file fi = KObj lf → f_inode fl = Some i → ks_inodes s !! i = Some y →
  Z.of_nat (length entries) < 2 ^ 31 - 1 →
  wp (teadfs_readdir file pos filldir u) (λ r s', r = direct ∧
    ks_inodes s' =
      (if (direct.1.1 <? 0) || match entries with e :: _ => (filldir e u).1 <? 0 | [] => false end
       then ks_inodes s
       else <[i := set_attr (λ a, with_atime a (at_atime (lower_attr (ks_lfs s) (lower_file_inode (ks_lfs s) lf)))) y]>
              (ks_inodes s))) s.
Proof.
  intros entries direct (Hf & Hpr & Hb) Hlf Hi Hy Hlen. unfold teadfs_readdir, teadfs_file_to_lower.
  apply wp_bind, wp_bind. eapply wp_file_to_private; [exact Hf|]. rewrite Hpr.
  apply wp_bind. eapply wp_load_file_info; [exact Hb|]. rewrite Hlf. apply wp_ret.
  apply wp_bind. eapply wp_get_file; [exact Hf|]. rewrite Hi. apply wp_bind, wp_gets.
  unfold vfs_readdir in *. fold entries in direct |- *.
  destruct (feed_filldir filldir entries u 0 0 0%nat) as (c & w & Hfeed & H1 & H2 & H3 & H4); try lia.
  rewrite Hfeed. destruct (feed filldir entries u 0) as [n u'] eqn:En. cbn [fst snd].
  subst direct. destruct (lower_readdir_end (ks_lfs s) lf pos n) as [rc pos'] eqn:Er. cbn [fst snd].
  apply wp_bind. destruct (rc <? 0) eqn:Erc; cbn [orb].
  { by apply wp_ret, wp_ret. }
  cbn [filldir_called entries_written gd_user]. destruct entries as [|e es] eqn:Ees.
  - destruct (H3 eq_refl) as [-> ->]. cbn [Z.eqb negb andb].
    apply wp_bind, wp_deref, wp_bind, wp_gets. eapply wp_update_inode; [exact Hy|]. by apply wp_ret.
  - destruct (H4 e es eq_refl) as (Hc & Hw1 & Hw2). rewrite (proj2 (Z.eqb_neq c 0)) by lia. cbn [negb andb].
    destruct (Z.ltb_spec (filldir e u).1 0).
    + rewrite Hw2 by done. cbn [Z.eqb]. by apply wp_ret, wp_ret.
    + rewrite (proj2 (Z.eqb_neq w 0)) by lia.
      apply wp_bind, wp_deref, wp_bind, wp_gets. eapply wp_update_inode; [exact Hy|]. by apply wp_ret.
Qed.

End FileLemmas.
