(* ===== verification/Mmap.v ===== *)
(** [TEADFS/src/mmap.c]: pages, the lower file's bytes, and truncation.

    A page is its storage and its flags; [kmap] gives the storage.  Which page
    the page cache hands out is an argument of the functions that ask for
    one. *)
From S2P Require Import Prelude Kernel Protocol Wp GlobalParam Netlink UserCom Requests Daemon Client Session Vfs File.
Local Open Scope Z_scope.

Definition PAGE_CACHE_SHIFT : Z := 12.
Definition PAGE_CACHE_SIZE : Z := 4096.

Section Mmap.
Context `{KernelEnv}.

(** ** The lower file *)

(** [kernel_read] into storage, and [kernel_write] from it. *)
Definition lower_read (lf : kptr) (offset : Z) (data : ptr) (size : Z) : M Z :=
  match lf with
  | KObj f =>
    l ← gets ks_lfs;
    match kernel_read l f offset size with
    | inl e => mret (s32 e)
    | inr bs => store_bytes data bs;; mret (s32 (blen bs))
    end
  | _ => fail_ub WildPointer
  end.
Definition lower_write (lf : kptr) (data : ptr) (size offset : Z) : M Z :=
  match lf with
  | KObj f =>
    bs ← load_bytes data size;
    l ← gets ks_lfs;
    let '(rc, l) := kernel_write l f bs offset in
    modify (set_lfs (λ _, l));; mret rc
  | _ => fail_ub WildPointer
  end.

Definition teadfs_read_lower (data : ptr) (offset size : Z) (file : positive) : M Z :=
  file_info ← teadfs_file_to_private file;
  fi ← load_file_info file_info;
  match lower_file fi with
  | KNull => mret (- EIO)
  | lf =>
    let offset := if OFR_DECRYPT =? access fi then offset + ENCRYPT_FILE_HEADER_SIZE else offset in
    rc ← lower_read lf offset data size;
    if rc <? 0 then mret rc else
    if OFR_DECRYPT =? access fi then
      encrypt_len ← teadfs_request_read offset data rc data (s32 size);
      if encrypt_len <=? 0 then mret rc else mret encrypt_len
    else mret rc
  end.

Definition mark_inode_dirty_sync (i : option positive) : M () :=
  vfs (VC_mark_inode_dirty_sync i);; mret ().

Definition teadfs_write_lower (file : positive) (data : ptr) (offset size : Z) : M Z :=
  f ← get_file file;
  fi ← load_file_info (f_private f);
  match lower_file fi with
  | KNull => mret (- EIO)
  | lf =>
    buf ← teadfs_zalloc size;
    if is_null buf then mret (- EIO) else
    rc ← (
      if OFR_ENCRYPT =? access fi then mret (- EIO) else
      if OFR_DECRYPT =? access fi then
        encrypt_len ← teadfs_request_write offset data (s32 size) buf (s32 size);
        if encrypt_len <? 0 then mret (- EIO) else
        rc ← lower_write lf buf encrypt_len (offset + ENCRYPT_FILE_HEADER_SIZE);
        if rc <? 0 then mret rc else mark_inode_dirty_sync (f_inode f);; mret rc
      else
        rc ← lower_write lf data size offset;
        if rc <? 0 then mret rc else mark_inode_dirty_sync (f_inode f);; mret rc);
    teadfs_free buf;;
    mret rc
  end.

(** ** Pages *)

Definition set_uptodate (b : bool) (p : page) : page :=
  Page (pg_host p) (pg_index p) (pg_virt p) b (pg_locked p) (pg_count p).
Definition set_locked (b : bool) (p : page) : page :=
  Page (pg_host p) (pg_index p) (pg_virt p) (pg_uptodate p) b (pg_count p).
Definition set_count (n : Z) (p : page) : page :=
  Page (pg_host p) (pg_index p) (pg_virt p) (pg_uptodate p) (pg_locked p) n.
Definition page_update (g : page → page) (pg : positive) : M () :=
  p ← get_page pg; put_page pg (g p).
Definition unlock_page : positive → M () := page_update (set_locked false).
Definition lock_page : positive → M () := page_update (set_locked true).
Definition page_cache_release (pg : positive) : M () :=
  page_update (λ p, set_count (pg_count p - 1) p) pg.
Definition flush_dcache_page (pg : positive) : M () := vfs (VC_flush_dcache_page pg);; mret ().

Definition teadfs_readpage (file pg : positive) : M Z :=
  p ← get_page pg;
  let offset := Z.shiftl (pg_index p) PAGE_CACHE_SHIFT in
  rc ← teadfs_read_lower (pg_virt p) offset PAGE_CACHE_SIZE file;
  let rc := if 0 <? rc then 0 else rc in
  flush_dcache_page pg;;
  page_update (set_uptodate (rc =? 0)) pg;;
  unlock_page pg;;
  mret rc.

(** [read_mapping_page]'s answer is the argument. *)
Definition teadfs_get_locked_page (got : kptr) : M kptr :=
  match got with
  | KErr _ => mret got
  | KObj pg => lock_page pg;; mret got
  | KNull => fail_ub NullDeref
  end.

(** ** Writing at an offset *)

(** The [struct file] and [struct teadfs_file_info] on [teadfs_write]'s
    stack. *)
Definition local_file (dentry inode : positive) : M (positive * ptr) := λ s,
  let b := mem_fresh (ks_mem s) in
  let f := fresh (dom (ks_files s)) in
  Ret (f, Ptr b 0)
    (set_files (insert f (File (Some dentry) None (Some inode) 0 (Ptr b 0) MUpper))
      (set_mem (mem_put b (OFileInfo (FileInfo KNull 0 NULL 0 NULL))) s)).
Definition end_local_file (f : positive) (p : ptr) : M () :=
  stack_pop p;; modify (set_files (delete f)).

Definition teadfs_write (dentry inode : positive) (data : ptr) (offset size : Z) : M Z :=
  ino ← get_inode inode;
  let file_size := i_size ino in
  '(file, file_info) ← local_file dentry inode;
  rc ← (
    lower_path ← teadfs_get_lower_path (Some dentry);
    let pos := if file_size <? offset then file_size else offset in
    access ← teadfs_request_open_path lower_path;
    store_obj file_info (OFileInfo (FileInfo KNull access NULL 0 NULL));;
    lower ← teadfs_get_lower_file (Some dentry) None O_RDWR;
    store_obj file_info (OFileInfo (FileInfo lower access NULL 0 NULL));;
    match lower with
    | KErr e => mret e
    | _ =>
      rc ← teadfs_write_lower file data pos size;
      if rc <? 0 then mret rc else
      teadfs_put_lower_file None file;;
      let pos := pos + size in
      (if file_size <? pos then i_size_write inode pos else mret ());;
      mret 0
    end);
  end_local_file file file_info;;
  mret rc.

(** ** Truncation *)

(** The loop of the growing case; each turn writes at most a page of zeros. *)
Fixpoint truncate_loop (fuel : nat) (dentry inode : positive) (buf : ptr) (new_size total pos rc : Z)
    : M Z :=
  match fuel with
  | O => fail_ub WildPointer
  | S fuel =>
    if pos <? total then
      let current_write_len := Z.min (total - pos) PAGE_CACHE_SIZE in
      rc ← teadfs_write dentry inode buf (new_size + pos) current_write_len;
      if rc <? 0 then mret rc
      else truncate_loop fuel dentry inode buf new_size total (pos + PAGE_CACHE_SIZE) rc
    else mret rc
  end.
(** Turns the loop needs: one per page, and the one that leaves it. *)
Definition truncate_fuel (total : Z) : nat := S (Z.to_nat ((total + 4095) / 4096)).

Definition truncate_upper (dentry : positive) (ia lower_ia : iattr) : M (Z * iattr) :=
  x ← (λ s, match ks_dentries s !! dentry with Some x => Ret x s | None => Ub WildPointer end);
  match d_inode x with
  | None => fail_ub NullDeref
  | Some inode =>
    ino ← get_inode inode;
    let i_size := i_size ino in
    if ia_size ia =? i_size then
      mret (0, IAttr (Z.land (ia_valid lower_ia) (Z.lnot ATTR_SIZE)) (ia_size lower_ia) (ia_file lower_ia) (ia_rest lower_ia))
    else if i_size <? ia_size ia then
      let lower_ia := IAttr (Z.land (ia_valid lower_ia) (Z.lnot ATTR_SIZE)) (ia_size lower_ia) (ia_file lower_ia) (ia_rest lower_ia) in
      let total := ia_size ia - i_size in
      buf ← teadfs_zalloc PAGE_CACHE_SIZE;
      if is_null buf then mret (- ENOMEM, lower_ia) else
      store_bytes buf (zeros PAGE_CACHE_SIZE);;
      rc ← truncate_loop (truncate_fuel total) dentry inode buf (ia_size ia) total 0 0;
      teadfs_free buf;;
      mret (rc, lower_ia)
    else
      vfs (VC_truncate_setsize inode (ia_size ia));;
      i_size_write inode (ia_size ia);;
      mret (0, IAttr (Z.lor (ia_valid lower_ia) ATTR_SIZE) (ia_size ia) (ia_file lower_ia) (ia_rest lower_ia))
  end.

Definition teadfs_truncate (dentry : positive) (new_length : Z) : M Z :=
  lower_path ← teadfs_get_lower_path (Some dentry);
  '(rc, lower_ia) ← truncate_upper dentry (IAttr ATTR_SIZE new_length KNull zero_attr) (IAttr 0 0 KNull zero_attr);
  if (rc =? 0) && negb (Z.land (ia_valid lower_ia) ATTR_SIZE =? 0)
  then lower_dentry ← deref (p_dentry lower_path); notify_change lower_dentry lower_ia
  else mret rc.

(** ** write_begin and write_end *)

(** [grabbed] is the page [grab_cache_page_write_begin] returned, locked and
    referenced; the page given back is the second result. *)
Definition treadfs_write_begin (file dentry : positive) (grabbed : option positive) (pos : Z)
    : M (Z * option positive) :=
  let index := Z.shiftr pos PAGE_CACHE_SHIFT in
  match grabbed with
  | None => mret (- ENOMEM, None)
  | Some pg =>
    rc ← (
      let prev_page_end_size := Z.shiftl index PAGE_CACHE_SHIFT in
      p ← get_page pg;
      rc ← (if pg_uptodate p then mret 0 else
              rc ← teadfs_read_lower (pg_virt p) prev_page_end_size PAGE_CACHE_SIZE file;
              let rc := if 0 <? rc then 0 else rc in
              flush_dcache_page pg;;
              page_update (set_uptodate (rc =? 0)) pg;;
              mret rc);
      if negb (rc =? 0) then mret rc else
      host ← get_inode (pg_host p);
      rc ← (if negb (index =? 0) && (i_size host <? prev_page_end_size)
            then teadfs_truncate dentry prev_page_end_size else mret 0);
      if negb (rc =? 0) then mret rc else
      host ← get_inode (pg_host p);
      (if (i_size host =? prev_page_end_size) && negb (pos =? 0)
       then store_bytes (pg_virt p) (zeros PAGE_CACHE_SIZE) else mret ());;
      mret 0);
    if negb (rc =? 0) then
      unlock_page pg;; page_cache_release pg;; mret (rc, None)
    else mret (0, Some pg)
  end.

Definition teadfs_write_end (file pg : positive) (pos len copied : Z) : M Z :=
  p ← get_page pg;
  let start := Z.land pos (PAGE_CACHE_SIZE - 1) in
  let copied := if (copied <? len) && negb (pg_uptodate p) then 0 else copied in
  rc ← teadfs_write_lower file (padd (pg_virt p) start) pos copied;
  let rc := if 0 <? rc then 0 else rc in
  rc ← (if rc =? 0 then
          ino ← get_inode (pg_host p);
          match lower_inode ino with
          | None => fail_ub NullDeref
          | Some li =>
            fsstack_copy_inode_size (pg_host p) li;;
            mret copied
          end
        else mret rc);
  unlock_page pg;;
  page_cache_release pg;;
  mret rc.

(** The result is a local nobody assigns. *)
Definition teadfs_writepage (pg : positive) : M Z :=
  page_update (set_uptodate true) pg;;
  unlock_page pg;;
  mret (s32 (le_decode (map junk (seq 0 4)))).

(** [bmap]: the lower file system's method, when it has one. *)
Definition teadfs_bmap (lower_bmap : option (Z → Z)) (block : Z) : Z :=
  let rc := 0 in
  u64 (match lower_bmap with Some f => s32 (f block) | None => rc end).

End Mmap.

(** * Lemmas *)
Section MmapLemmas.
Context `{KernelEnv}.

Lemma wp_lower_read lf offset b o size bs cur (Q : Z → kstate → Prop) s :
  kernel_read (ks_lfs s) lf offset size = inr bs → blen bs < 2 ^ 31 →
  live s !! b = Some (OBytes cur) → in_range o (blen bs) cur = true →
  Q (blen bs) (upd b (OBytes (splice o bs cur)) s) →
  wp (lower_read (KObj lf) offset (Ptr b o) size) Q s.
Proof.
  intros Hr Hn Hb Hin HQ. apply wp_bind, wp_gets. rewrite Hr.
  apply wp_bind. eapply wp_store_bytes; [done|done|]. apply wp_ret.
  pose proof (blen_nonneg bs). by rewrite s32_small by lia.
Qed.

Lemma wp_lower_write lf offset b o size cur rc l (Q : Z → kstate → Prop) s :
  live s !! b = Some (OBytes cur) → in_range o size cur = true →
  kernel_write (ks_lfs s) lf (slice o size cur) offset = (rc, l) →
  Q rc (set_lfs (λ _, l) s) →
  wp (lower_write (KObj lf) (Ptr b o) size offset) Q s.
Proof.
  intros Hb Hin Hw HQ. apply wp_bind. eapply wp_load_bytes; [done|done|].
  apply wp_bind, wp_gets. rewrite Hw. by apply wp_bind, wp_modify, wp_ret.
Qed.

(** ** Reading *)

(** A file whose lower file and mode are known. *)
Definition opened (s : kstate) (file b : positive) (fl : Kernel.file) (lf : positive) (mode : Z) : Prop :=
  ∃ fi, file_has s file b fl fi ∧ lower_file fi = KObj lf ∧ access fi = mode.

Lemma opened_mono s s' file b fl lf mode :
  opened s file b fl lf mode → ks_files s' = ks_files s →
  live s' !! b = live s !! b → opened s' file b fl lf mode.
Proof. intros (fi & (Hf & Hp & Hb) & ?) HF HL. exists fi. unfold file_has. by rewrite HF, HL. Qed.

Lemma wp_read_plain file b fl lf mode t o offset size bs cur (Q : Z → kstate → Prop) s :
  opened s file b fl lf mode → mode ≠ OFR_DECRYPT →
  kernel_read (ks_lfs s) lf offset size = inr bs → blen bs < 2 ^ 31 →
  live s !! t = Some (OBytes cur) → in_range o (blen bs) cur = true →
  Q (blen bs) (upd t (OBytes (splice o bs cur)) s) →
  wp (teadfs_read_lower (Ptr t o) offset size file) Q s.
Proof.
  intros (fi & (Hf & Hpr & Hb) & Hlf & Ha) Hm Hr Hn Ht Hin HQ.
  apply wp_bind. eapply wp_file_to_private; [exact Hf|]. rewrite Hpr.
  apply wp_bind. eapply wp_load_file_info; [exact Hb|]. rewrite Hlf, Ha.
  rewrite (proj2 (Z.eqb_neq OFR_DECRYPT mode)) by congruence. cbv zeta.
  apply wp_bind. eapply wp_lower_read; [done..|].
  pose proof (blen_nonneg bs). rewrite (proj2 (Z.ltb_ge _ _)) by lia. by apply wp_ret.
Qed.

(** In decrypt mode, up to the request. *)
Lemma wp_read_decrypt file b fl lf t o offset size bs cur (Q : Z → kstate → Prop) s :
  opened s file b fl lf OFR_DECRYPT →
  kernel_read (ks_lfs s) lf (offset + ENCRYPT_FILE_HEADER_SIZE) size = inr bs → blen bs < 2 ^ 31 →
  live s !! t = Some (OBytes cur) → in_range o (blen bs) cur = true →
  wp (encrypt_len ← teadfs_request_read (offset + ENCRYPT_FILE_HEADER_SIZE) (Ptr t o) (blen bs)
        (Ptr t o) (s32 size);
      if encrypt_len <=? 0 then mret (blen bs) else mret encrypt_len) Q
    (upd t (OBytes (splice o bs cur)) s) →
  wp (teadfs_read_lower (Ptr t o) offset size file) Q s.
Proof.
  intros (fi & (Hf & Hpr & Hb) & Hlf & Ha) Hr Hn Ht Hin HQ.
  apply wp_bind. eapply wp_file_to_private; [exact Hf|]. rewrite Hpr.
  apply wp_bind. eapply wp_load_file_info; [exact Hb|]. rewrite Hlf, Ha.
  change (OFR_DECRYPT =? OFR_DECRYPT) with true. cbv iota zeta.
  apply wp_bind. eapply wp_lower_read; [done..|].
  pose proof (blen_nonneg bs). rewrite (proj2 (Z.ltb_ge _ _)) by lia. exact HQ.
Qed.

Lemma in_range_splice o n p new bs :
  in_range p (blen new) bs = true → in_range o n (splice p new bs) = in_range o n bs.
Proof. intros Hin. unfold in_range. by rewrite blen_splice. Qed.

(** The same with the process answering: [r] is what its callback made of the
    bytes, at the offset of the lower file. *)
Lemma wp_read_decrypt_answered cb f file b fl lf t o offset size bs cur s :
  cb_read cb = Some f → data_cb_ok f → connected_to cb → session s →
  opened s file b fl lf OFR_DECRYPT →
  kernel_read (ks_lfs s) lf (offset + ENCRYPT_FILE_HEADER_SIZE) size = inr bs →
  0 ≤ size < 2 ^ 31 → blen bs ≤ size → blen bs ≤ max_data →
  live s !! t = Some (OBytes cur) → in_range o size cur = true →
  let room := blen bs + DATA_EXTENSION_SIZE in
  let r := f (u64 (offset + ENCRYPT_FILE_HEADER_SIZE)) (blen bs) bs room (zeros room) in
  blen r.2 = room → r.1 ≤ size →
  wp (teadfs_read_lower (Ptr t o) offset size file) (λ rc s', ∃ x req,
    live s !! x = None ∧ comm_frame s s' ∧
    rc = (if r.1 =? 0 then blen bs else r.1) ∧
    live s' = <[t := OBytes (splice o (slice 0 r.1 r.2) (splice o bs cur))]>
                (<[x := OBytes req]> (live s))) s.
Proof.
  intros Hf Hok Hcb Hs Ho Hr Hsz Hle Hmax Ht Hin room r Hroom Hr1.
  apply in_range_spec in Hin as Hin'. pose proof (blen_nonneg bs).
  assert (Hin1 : in_range o (blen bs) cur = true) by (apply in_range_spec; lia).
  assert (Hsl : slice o (blen bs) (splice o bs cur) = bs) by by apply slice_splice_same.
  eapply wp_read_decrypt; [done|done|lia|done|done|]. rewrite s32_small by lia.
  apply wp_bind. eapply wp_mono.
  { eapply (wp_read_answered cb f); [done|done|done| |lia|apply live_upd_eq| |done|apply live_upd_eq| |].
    - eapply (session_heap s); [done|done|done|]. intros c ctx Hc.
      rewrite live_upd_ne; [done|congruence].
    - by rewrite in_range_splice.
    - by rewrite in_range_splice.
    - rewrite Hsl. exact Hroom. }
  cbv zeta. rewrite Hsl. fold room r.
  intros rc s' (x & req & Hx & Hfr & Hcase). rewrite (proj2 (Z.ltb_ge size r.1)) in Hcase by done.
  destruct Hcase as [-> HL].
  rewrite live_upd in Hx. apply lookup_insert_None in Hx as [Hx Hxt].
  assert (Hfr' : comm_frame s s') by (destruct Hfr; by split).
  assert (Hr0 : 0 ≤ r.1).
  { pose proof (Hok (u64 (offset + ENCRYPT_FILE_HEADER_SIZE)) bs (zeros room)) as Hok'.
    rewrite blen_zeros in Hok' by (unfold room, DATA_EXTENSION_SIZE; lia). by apply Hok'. }
  assert (HL' : live s' = <[t := OBytes (splice o (slice 0 r.1 r.2) (splice o bs cur))]>
                (<[x := OBytes req]> (live s))) by (rewrite HL; heap_eq).
  destruct (r.1 <=? 0) eqn:E.
  - assert (r.1 = 0) as E0 by lia. apply wp_ret. exists x, req.
    split_and!; [done|done| |exact HL']. by rewrite E0.
  - apply wp_ret. exists x, req. split_and!; [done|done| |exact HL'].
    rewrite (proj2 (Z.eqb_neq r.1 0)) by lia. done.
Qed.

(** ** Writing *)

Lemma wp_mark_dirty i (Q : () → kstate → Prop) s :
  Q () (set_calls (λ l, l ++ [VC_mark_inode_dirty_sync i]) s) → wp (mark_inode_dirty_sync i) Q s.
Proof. intros HQ. by apply wp_bind, wp_vfs, wp_ret. Qed.

(** The lower write and what follows it. *)
Definition dirty_calls (i : option positive) (rc : Z) : list vcall :=
  if rc <? 0 then [] else [VC_mark_inode_dirty_sync i].

Lemma wp_write_tail lf b o size offset i cur rc l s (Q : Z → kstate → Prop) :
  live s !! b = Some (OBytes cur) → in_range o size cur = true →
  kernel_write (ks_lfs s) lf (slice o size cur) offset = (rc, l) →
  Q rc (set_calls (λ c, c ++ dirty_calls i rc) (set_lfs (λ _, l) s)) →
  wp (rc ← lower_write (KObj lf) (Ptr b o) size offset;
      if rc <? 0 then mret rc else mark_inode_dirty_sync i;; mret rc) Q s.
Proof.
  intros Hb Hin Hw HQ. apply wp_bind. eapply wp_lower_write; [done|done|exact Hw|].
  unfold dirty_calls in HQ. destruct (rc <? 0).
  - apply wp_ret. unfold set_calls in HQ. simpl in HQ. rewrite app_nil_r in HQ. exact HQ.
  - by apply wp_bind, wp_mark_dirty, wp_ret.
Qed.

Lemma wp_write_buf file b fl lf mode data offset size (Q : Z → kstate → Prop) s :
  kzalloc_total → opened s file b fl lf mode →
  (∀ r, live s !! r = None →
    wp (if OFR_ENCRYPT =? mode then mret (- EIO) else
        if OFR_DECRYPT =? mode then
          encrypt_len ← teadfs_request_write offset data (s32 size) (Ptr r 0) (s32 size);
          if encrypt_len <? 0 then mret (- EIO) else
          rc ← lower_write (KObj lf) (Ptr r 0) encrypt_len (offset + ENCRYPT_FILE_HEADER_SIZE);
          if rc <? 0 then mret rc else mark_inode_dirty_sync (f_inode fl);; mret rc
        else
          rc ← lower_write (KObj lf) data size offset;
          if rc <? 0 then mret rc else mark_inode_dirty_sync (f_inode fl);; mret rc)
      (λ rc s', ∃ ob, live s' !! r = Some ob ∧ Q rc (set_mem (mem_kill r ob) s'))
      (upd r (OBytes (zeros size)) (tick s))) →
  wp (teadfs_write_lower file data offset size) Q s.
Proof.
  intros Ht (fi & (Hf & Hpr & Hb) & Hlf & Ha) HQ.
  apply wp_bind. eapply wp_get_file; [exact Hf|]. rewrite Hpr.
  apply wp_bind. eapply wp_load_file_info; [exact Hb|]. rewrite Hlf, Ha.
  apply wp_bind, wp_zalloc_obj; [|by rewrite Ht].
  intros _ r Hr. rewrite is_null_ptr. apply wp_bind.
  eapply wp_mono; [by apply HQ|]. intros rc s' (ob & Hob & HQ').
  apply wp_bind. eapply wp_free; [exact Hob|]. by apply wp_ret.
Qed.

Lemma wp_write_plain file b fl lf mode t o offset size cur rc l (Q : Z → kstate → Prop) s :
  kzalloc_total → opened s file b fl lf mode → mode ≠ OFR_ENCRYPT → mode ≠ OFR_DECRYPT →
  live s !! t = Some (OBytes cur) → in_range o size cur = true →
  kernel_write (ks_lfs s) lf (slice o size cur) offset = (rc, l) →
  (∀ s', live s' = live s → ks_lfs s' = l → ks_files s' = ks_files s →
     ks_inodes s' = ks_inodes s → ks_dentries s' = ks_dentries s → ks_pages s' = ks_pages s →
     ks_sent s' = ks_sent s → ks_global s' = ks_global s → ks_queue s' = ks_queue s →
     ks_calls s' = ks_calls s ++ dirty_calls (f_inode fl) rc → Q rc s') →
  wp (teadfs_write_lower file (Ptr t o) offset size) Q s.
Proof.
  intros Ht Ho Hm1 Hm2 Hd Hin Hw HQ. eapply wp_write_buf; [done|exact Ho|]. intros r Hr.
  rewrite (proj2 (Z.eqb_neq OFR_ENCRYPT mode)), (proj2 (Z.eqb_neq OFR_DECRYPT mode)) by congruence.
  eapply wp_write_tail; [rewrite live_upd_ne by congruence; exact Hd|exact Hin|exact Hw|].
  eexists. split; [apply live_upd_eq|]. apply HQ; try done.
  autorewrite with tead_live. heap_eq.
Qed.

Lemma wp_write_decrypt cb f file b fl lf t o offset size cur rc l s (Q : Z → kstate → Prop) :
  cb_write cb = Some f → data_cb_ok f → connected_to cb → session s → stale_kept →
  opened s file b fl lf OFR_DECRYPT → 0 ≤ size ≤ max_data →
  live s !! t = Some (OBytes cur) → in_range o size cur = true →
  let room := size + DATA_EXTENSION_SIZE in
  let r := f (u64 offset) size (slice o size cur) room (zeros room) in
  blen r.2 = room → 0 ≤ r.1 ≤ size →
  kernel_write (ks_lfs s) lf (slice 0 r.1 r.2) (offset + ENCRYPT_FILE_HEADER_SIZE) = (rc, l) →
  (∀ s' x req, live s !! x = None → live s' = <[x := OBytes req]> (live s) → ks_lfs s' = l →
     ks_files s' = ks_files s → ks_inodes s' = ks_inodes s → ks_pages s' = ks_pages s →
     ks_queue s' = ks_queue s → pid (ks_global s') = pid (ks_global s) →
     connect (ks_global s') = connect (ks_global s) →
     ks_calls s' = ks_calls s ++ dirty_calls (f_inode fl) rc → Q rc s') →
  wp (teadfs_write_lower file (Ptr t o) offset size) Q s.
Proof.
  intros Hf Hok Hcb Hs Hst Ho Hsz Hd Hin room r Hroom Hr1 Hw HQ.
  assert (Hmax : max_data < 2 ^ 20) by done.
  eapply wp_write_buf; [apply Hs|exact Ho|]. intros u Hu.
  change (OFR_ENCRYPT =? OFR_DECRYPT) with false. change (OFR_DECRYPT =? OFR_DECRYPT) with true.
  cbv iota. rewrite s32_small by lia.
  apply wp_bind. eapply wp_mono.
  { eapply (wp_write_answered cb f); [done|done|done| |done|lia| |exact Hin|lia|apply live_upd_eq| |exact Hroom|].
    - eapply (session_heap s); [done|done|done|]. intros c ctx Hc.
      rewrite live_upd_ne; [done|congruence].
    - rewrite live_upd_ne by congruence. exact Hd.
    - apply in_range_spec. rewrite blen_zeros; lia.
    - exact (proj2 Hr1). }
  fold room r. intros len s' (x & req & Hx & Hfr & -> & HL).
  rewrite live_upd in Hx. apply lookup_insert_None in Hx as [Hx Hxu].
  rewrite (proj2 (Z.ltb_ge _ _)) by lia.
  assert (Hrl : blen (slice 0 r.1 r.2) = r.1).
  { apply blen_slice, in_range_spec. rewrite Hroom. unfold room, DATA_EXTENSION_SIZE. lia. }
  assert (Hin' : in_range 0 (blen (slice 0 r.1 r.2)) (zeros size) = true).
  { apply in_range_spec. rewrite Hrl, blen_zeros by lia. lia. }
  eapply wp_write_tail; [rewrite HL; apply lookup_insert_eq| | |].
  - rewrite in_range_splice by exact Hin'. apply in_range_spec. rewrite blen_zeros by lia. lia.
  - rewrite <- Hrl at 1. rewrite slice_splice_same by exact Hin'.
    rewrite (wf_lfs _ _ Hfr). exact Hw.
  - eexists. split; [autorewrite with tead_live; rewrite HL; apply lookup_insert_eq|].
    destruct Hfr. eapply (HQ _ x req); try done.
    + autorewrite with tead_live. rewrite HL. heap_eq.
    + simpl. by rewrite wf_calls.
Qed.

(** ** Pages *)

Definition page_done (ok : bool) (p : page) : page := set_locked false (set_uptodate ok p).

Lemma wp_page_update g pg p (Q : () → kstate → Prop) s :
  ks_pages s !! pg = Some p → Q () (set_pages (insert pg (g p)) s) → wp (page_update g pg) Q s.
Proof. intros Hp HQ. apply wp_bind. by eapply wp_get_page. Qed.

(** [teadfs_readpage] around a read that succeeds. *)
Lemma wp_readpage file pg p (Q : Z → kstate → Prop) s :
  ks_pages s !! pg = Some p →
  wp (teadfs_read_lower (pg_virt p) (Z.shiftl (pg_index p) PAGE_CACHE_SHIFT) PAGE_CACHE_SIZE file)
    (λ rc s', 0 ≤ rc ∧ ks_pages s' = ks_pages s ∧
       Q 0 (set_pages (insert pg (page_done true p))
              (set_calls (λ l, l ++ [VC_flush_dcache_page pg]) s'))) s →
  wp (teadfs_readpage file pg) Q s.
Proof.
  intros Hp Hread. apply wp_bind. eapply wp_get_page; [exact Hp|]. cbv zeta.
  apply wp_bind. eapply wp_mono; [exact Hread|]. intros rc s' (Hrc & Hpg & HQ).
  replace (if 0 <? rc then 0 else rc) with 0 by (destruct (0 <? rc) eqn:?; lia).
  apply wp_bind, wp_bind, wp_vfs, wp_ret, wp_bind.
  eapply wp_page_update; [simpl; rewrite Hpg; exact Hp|].
  apply wp_bind. eapply wp_page_update; [apply lookup_insert_eq|]. apply wp_ret.
  unfold set_pages in *. simpl in *. rewrite insert_insert_eq. exact HQ.
Qed.

(** ** Truncation, without a client *)

(** A lower file system on which opens and writes succeed. *)
Definition lower_total : Prop :=
  (∀ l p flags, ∃ lf, (dentry_open l p flags).2 = KObj lf) ∧
  (∀ l lf bs offset, 0 ≤ (kernel_write l lf bs offset).1).

(** What [teadfs_write] changes for the caller. *)
Record grown (s : kstate) (inode : positive) (ino : Kernel.inode) (sz : Z) (s' : kstate) : Prop := Grown {
  gr_live : live s' = live s;
  gr_files : ks_files s' = ks_files s;
  gr_dentries : ks_dentries s' = ks_dentries s;
  gr_global : ks_global s' = ks_global s;
  gr_inodes : ks_inodes s' = <[inode := set_i_size sz ino]> (ks_inodes s);
  gr_sent : ks_sent s' = ks_sent s;
}.

Lemma wp_request_open_path_refused fp o n contents (Q : Z → kstate → Prop) s :
  refused s → kzalloc_total → path_ok fp o n contents →
  (∀ s', live s' = live s → ks_global s' = ks_global s → ks_files s' = ks_files s →
     ks_dentries s' = ks_dentries s → ks_inodes s' = ks_inodes s → ks_sent s' = ks_sent s →
     ks_lfs s' = ks_lfs s → Q (- ENOMEM) s') →
  wp (teadfs_request_open_path fp) Q s.
Proof.
  intros Hr Ht [Hd Hl Ho Hn0 Hnul] HQ.
  apply wp_bind, wp_bind, wp_zalloc_obj; [|by rewrite Ht].
  intros _ r Hr'. rewrite is_null_ptr. apply wp_bind. unfold d_path_into. rewrite Hd.
  apply wp_bind. eapply wp_store_bytes; [apply live_upd_eq| |].
  { apply in_range_spec. rewrite Hl, blen_zeros by done. done. }
  rewrite splice_all by (by rewrite Hl, blen_zeros). rewrite upd_upd. apply wp_ret.
  unfold path_strlen. simpl padd. rewrite Z.add_0_l.
  apply wp_bind. eapply wp_strlen; [apply live_upd_eq|done|done|].
  apply wp_bind. eapply wp_intro; [by apply refused_open|].
  apply wp_ret, wp_bind. eapply wp_free_if; [apply live_upd_eq|]. apply wp_ret, HQ; try done.
  autorewrite with tead_live. heap_eq.
Qed.

Lemma mem_fresh_local s dentry inode : 
  let b := mem_fresh (ks_mem s) in
  live s !! b = None ∧ ks_files s !! fresh (dom (ks_files s)) = None ∧
  local_file dentry inode s = Ret (fresh (dom (ks_files s)), Ptr b 0)
    (set_files (insert (fresh (dom (ks_files s)))
        (File (Some dentry) None (Some inode) 0 (Ptr b 0) MUpper))
      (upd b (OFileInfo (FileInfo KNull 0 NULL 0 NULL)) s)).
Proof.
  cbv zeta. split_and!; [apply mem_fresh_live| |done]. apply not_elem_of_dom, is_fresh.
Qed.

Lemma wp_teadfs_write_refused dentry inode x ino t cur offset size o n contents (Q : Z → kstate → Prop) s :
  refused s → kzalloc_total → lower_total →
  dentry_at s dentry x → path_ok (lower_path x) o n contents →
  ks_inodes s !! inode = Some ino →
  live s !! t = Some (OBytes cur) → in_range 0 size cur = true →
  (∀ s', grown s inode ino
     (Z.max (i_size ino) (Z.min offset (i_size ino) + size)) s' → Q 0 s') →
  wp (teadfs_write dentry inode (Ptr t 0) offset size) Q s.
Proof.
  intros Href Ht [Hopen Hwrite] Hx Hp Hi Hd Hin HQ.
  apply wp_bind. eapply wp_get_inode; [exact Hi|].
  destruct (mem_fresh_local s dentry inode) as (Hb & Hf & Hlf). cbv zeta in *.
  revert Hb Hlf. generalize (mem_fresh (ks_mem s)) as b. intros b Hb Hlf.
  set (f := fresh (dom (ks_files s))) in *. clearbody f.
  apply wp_bind. eapply wp_intro; [exact Hlf|]. clear Hlf.
  apply wp_bind, wp_bind. eapply wp_get_lower_path; [exact Hx|].
  set (pos := if i_size ino <? offset then i_size ino else offset).
  assert (Hpos : pos = Z.min offset (i_size ino)).
  { unfold pos. destruct (i_size ino <? offset) eqn:?; lia. }
  apply wp_bind. eapply wp_request_open_path_refused; [exact Href|done|exact Hp|].
  intros s1 HL1 Hg1 Hf1 Hde1 Hi1 Hs1 Hl1.
  assert (Hb1 : live s1 !! b = Some (OFileInfo (FileInfo KNull 0 NULL 0 NULL))).
  { rewrite HL1. apply live_upd_eq. }
  apply wp_bind. eapply wp_store_obj; [exact Hb1|].
  apply wp_bind, wp_bind. eapply wp_get_lower_path; [unfold dentry_at; simpl; rewrite Hde1; exact Hx|].
  apply wp_bind. unfold kpid_or_zero. apply wp_bind, wp_get_client_pid, wp_ret.
  apply wp_dentry_open. intros l r Hr. destruct (Hopen (ks_lfs s1) (lower_path x) O_RDWR) as [lf Hlfo].
  simpl in Hr. rewrite Hr in Hlfo. simpl in Hlfo. subst r.
  apply wp_bind. eapply wp_store_obj; [apply live_upd_eq|]. cbn zeta.
  match goal with |- wp _ _ ?st => set (s2 := st) end.
  assert (Hfile2 : file_has s2 f b (File (Some dentry) None (Some inode) 0 (Ptr b 0) MUpper)
    (FileInfo (KObj lf) (- ENOMEM) NULL 0 NULL)).
  { split_and!; [|done|apply live_upd_eq]. unfold s2. simpl. rewrite Hf1. apply lookup_insert_eq. }
  assert (HL2 : live s2 = <[b := OFileInfo (FileInfo (KObj lf) (- ENOMEM) NULL 0 NULL)]> (live s)).
  { unfold s2. autorewrite with tead_live. rewrite HL1. heap_eq. }
  destruct (kernel_write (ks_lfs s2) lf (slice 0 size cur) pos) as [rc l'] eqn:Hw.
  pose proof (Hwrite (ks_lfs s2) lf (slice 0 size cur) pos) as Hrc. rewrite Hw in Hrc. simpl in Hrc.
  apply wp_bind. eapply (wp_write_plain f b _ lf (- ENOMEM));
    [done|by eexists|done|done| |exact Hin|exact Hw|].
  { rewrite HL2, lookup_insert_ne by congruence. exact Hd. }
  intros s3 HL3 Hl3 Hf3 Hi3 Hde3 _ Hs3 Hg3 _ _. rewrite (proj2 (Z.ltb_ge rc 0)) by done.
  apply wp_bind. unfold teadfs_put_lower_file.
  apply wp_bind. eapply wp_get_file; [rewrite Hf3; exact (proj1 Hfile2)|].
  apply wp_bind. eapply wp_load_file_info; [rewrite HL3; exact (proj2 (proj2 Hfile2))|].
  apply wp_bind. unfold kpid_or_zero. apply wp_bind, wp_get_client_pid, wp_ret, wp_fput.
  assert (Hend : ∀ s4, live s4 = live s2 → ks_files s4 = ks_files s2 →
    ks_dentries s4 = ks_dentries s → ks_global s4 = ks_global s → ks_sent s4 = ks_sent s →
    ks_inodes s4 = <[inode := set_i_size
      (Z.max (i_size ino) (Z.min offset (i_size ino) + size)) ino]> (ks_inodes s) →
    wp (rc0 ← mret 0; end_local_file f (Ptr b 0);; mret rc0) Q s4).
  { intros s4 HL4 Hf4 Hd4 Hg4 Hs4 Hi4. apply wp_bind, wp_ret, wp_bind, wp_bind.
    eapply wp_free; [rewrite HL4, HL2; apply lookup_insert_eq|].
    apply wp_modify, wp_ret, HQ. split; try done.
    - autorewrite with tead_live. rewrite HL4, HL2. heap_eq.
    - simpl. rewrite Hf4. unfold s2. simpl. rewrite Hf1. simpl. by apply delete_insert_id. }
  assert (Hi3' : ks_inodes s3 = ks_inodes s) by (rewrite Hi3; exact Hi1).
  assert (Hde3' : ks_dentries s3 = ks_dentries s) by (rewrite Hde3; exact Hde1).
  assert (Hg3' : ks_global s3 = ks_global s) by (rewrite Hg3; exact Hg1).
  assert (Hs3' : ks_sent s3 = ks_sent s) by (rewrite Hs3; exact Hs1).
  assert (Hend' : ∀ s4, live s4 = live s2 → ks_files s4 = ks_files s2 →
    ks_dentries s4 = ks_dentries s → ks_global s4 = ks_global s → ks_sent s4 = ks_sent s →
    ks_inodes s4 = <[inode := set_i_size
      (Z.max (i_size ino) (Z.min offset (i_size ino) + size)) ino]> (ks_inodes s) →
    wp (mret 0) (λ rc s', wp (end_local_file f (Ptr b 0);; mret rc) Q s') s4).
  { intros s4 ??????. apply (wp_bind_inv (mret 0)), Hend; done. }
  clearbody pos. subst pos. apply wp_bind.
  destruct (i_size ino <? Z.min offset (i_size ino) + size) eqn:Hgrow.
  - apply wp_bind. eapply wp_get_inode; [simpl; rewrite Hi3'; exact Hi|].
    apply wp_modify, Hend'; try done.
    simpl. rewrite Hi3'. do 2 f_equal. lia.
  - apply wp_ret, Hend'; try done.
    simpl. rewrite Hi3'. rewrite Z.max_l by lia.
    symmetry. apply insert_id. rewrite Hi. by destruct ino.
Qed.

Lemma grown_refl s inode ino : ks_inodes s !! inode = Some ino → grown s inode ino (i_size ino) s.
Proof. intros Hi. split; try done. symmetry. apply insert_id. rewrite Hi. by destruct ino. Qed.

Lemma wp_truncate_loop dentry inode x t new total o n contents (Q : Z → kstate → Prop) fuel : ∀ pos s ino,
  refused s → kzalloc_total → lower_total →
  dentry_at s dentry x → path_ok (lower_path x) o n contents →
  ks_inodes s !! inode = Some ino → live s !! t = Some (OBytes (zeros PAGE_CACHE_SIZE)) →
  0 ≤ pos → i_size ino = new - Z.max 0 (total - pos) →
  total - pos ≤ PAGE_CACHE_SIZE * (Z.of_nat fuel - 1) → (0 < fuel)%nat →
  (∀ s', grown s inode ino new s' → Q 0 s') →
  wp (truncate_loop fuel dentry inode (Ptr t 0) new total pos 0) Q s.
Proof.
  induction fuel as [|fuel IH]; intros pos s ino Href Ha Hlt Hx Hp Hi Ht Hpos Hsz Hfuel Hf0 HQ; [lia|].
  unfold PAGE_CACHE_SIZE in *. cbn [truncate_loop]. cbv zeta.
  destruct (pos <? total) eqn:Hlt'.
  - apply Z.ltb_lt in Hlt'. unfold PAGE_CACHE_SIZE. set (len := Z.min (total - pos) 4096).
    apply wp_bind. eapply (wp_teadfs_write_refused dentry inode x ino t);
      [done|done|done|done|exact Hp|done|exact Ht| |].
    { apply in_range_spec. rewrite blen_zeros by done. unfold len. lia. }
    intros s1 Hg. change (0 <? 0) with false. cbv iota.
    assert (Hmin : Z.max (i_size ino) (Z.min (new + pos) (i_size ino) + len) = i_size ino + len)
      by (unfold len; lia).
    rewrite Hmin in Hg. destruct Hg as [HL Hf Hd Hg Hin Hs].
    eapply (IH (pos + 4096) s1 (set_i_size (i_size ino + len) ino)); try done.
    + unfold refused in *. by rewrite Hg.
    + unfold dentry_at. by rewrite Hd.
    + rewrite Hin. apply lookup_insert_eq.
    + by rewrite HL.
    + lia.
    + simpl. unfold len. lia.
    + lia.
    + lia.
    + intros s' [HL' Hf' Hd' Hg' Hin' Hs']. apply HQ. split; try congruence.
      rewrite Hin', Hin, insert_insert_eq. done.
  - apply Z.ltb_ge in Hlt'. apply wp_ret, HQ.
    replace new with (i_size ino) by lia. by apply grown_refl.
Qed.

(** ** The shipped client's files *)

Lemma slice_label src o n : 0 ≤ o →
  slice (o + ENCRYPT_FILE_HEADER_SIZE) n (label src) = slice o n (map xor13 src).
Proof.
  intros. unfold label. rewrite slice_app_r by (rewrite blen_label_header; lia).
  rewrite blen_label_header. f_equal. lia.
Qed.

(** What its READ callback makes of enciphered bytes. *)
Lemma read_deciphers offset txt :
  let bs := map xor13 txt in
  let room := blen bs + DATA_EXTENSION_SIZE in
  let r := Client.read offset (blen bs) bs room (zeros room) in
  r.1 = blen bs ∧ slice 0 r.1 r.2 = txt ∧ blen r.2 = room.
Proof.
  intros bs room r. assert (Hroom : 0 ≤ room).
  { pose proof (blen_nonneg bs). unfold room, DATA_EXTENSION_SIZE. lia. }
  unfold r. rewrite read_spec.
  - cbn [fst snd]. assert (Hbb : map xor13 bs = txt) by apply map_xor13_involutive. rewrite Hbb.
    assert (Hb : blen bs = blen txt) by apply blen_map_xor13. split_and!; [done| |].
    + rewrite Hb. apply slice_prefix.
    + rewrite blen_app. unfold room, bs in *. rewrite Hb. unfold blen, zeros.
      rewrite length_drop, length_replicate, length_map. unfold DATA_EXTENSION_SIZE. lia.
  - rewrite blen_zeros by done. unfold room, DATA_EXTENSION_SIZE. lia.
Qed.

(** Reading and writing a labelled file that the shipped client serves: the
    plaintext [txt] for the enciphered bytes of the lower file, and back. *)
Lemma wp_read_labelled oc rcb file b lf fl t o offset size txt cur s :
  connected_to (client_cb oc rcb) → session s → opened s file b fl lf OFR_DECRYPT →
  kernel_read (ks_lfs s) lf (offset + ENCRYPT_FILE_HEADER_SIZE) size = inr (map xor13 txt) →
  blen txt ≤ size ≤ max_data → live s !! t = Some (OBytes cur) → in_range o size cur = true →
  wp (teadfs_read_lower (Ptr t o) offset size file) (λ rc s', rc = blen txt ∧ ∃ x req,
    live s !! x = None ∧ comm_frame s s' ∧
    live s' = <[t := OBytes (splice o txt cur)]> (<[x := OBytes req]> (live s))) s.
Proof.
  intros Hcb Hs Ho Hr Hsz Ht Hin. assert (Hmax : max_data < 2 ^ 20) by done.
  pose proof (blen_nonneg txt). apply in_range_spec in Hin as Hin'.
  destruct (read_deciphers (u64 (offset + ENCRYPT_FILE_HEADER_SIZE)) txt) as (H1 & H2 & H3).
  assert (Hl : blen (map xor13 txt) = blen txt) by apply blen_map_xor13.
  eapply wp_mono.
  { eapply (wp_read_decrypt_answered (client_cb oc rcb) Client.read);
      [done|apply read_cb_ok|done|done|exact Ho|exact Hr|lia|lia|lia|exact Ht|exact Hin|exact H3|lia]. }
  cbv zeta. intros rc s' (x & req & Hx & Hfr & -> & HL). rewrite H2 in HL. rewrite H1, Hl.
  split; [by destruct (blen txt =? 0)|]. exists x, req. split_and!; [done|done|].
  rewrite HL. rewrite splice_splice_over; [done|apply in_range_spec; lia|lia].
Qed.

Lemma wp_write_labelled oc rcb file b lf fl p o offset n cur rc l s (Q : Z → kstate → Prop) :
  connected_to (client_cb oc rcb) → session s → stale_kept → opened s file b fl lf OFR_DECRYPT →
  0 ≤ n ≤ max_data → live s !! p = Some (OBytes cur) → in_range o n cur = true →
  kernel_write (ks_lfs s) lf (map xor13 (slice o n cur)) (offset + ENCRYPT_FILE_HEADER_SIZE) = (rc, l) →
  (∀ s' x req, live s !! x = None → live s' = <[x := OBytes req]> (live s) → ks_lfs s' = l →
     ks_files s' = ks_files s → ks_inodes s' = ks_inodes s → ks_pages s' = ks_pages s →
     ks_queue s' = ks_queue s → pid (ks_global s') = pid (ks_global s) →
     connect (ks_global s') = connect (ks_global s) →
     ks_calls s' = ks_calls s ++ dirty_calls (f_inode fl) rc → Q rc s') →
  wp (teadfs_write_lower file (Ptr p o) offset n) Q s.
Proof.
  intros Hcb Hs Hst Ho Hn Hp Hin Hw HQ. set (txt := slice o n cur) in *.
  assert (Hl : blen txt = n) by by apply blen_slice.
  assert (Hlm : blen (map xor13 txt) = n) by by rewrite blen_map_xor13.
  assert (Hbuf : blen txt ≤ blen (zeros (n + DATA_EXTENSION_SIZE))).
  { rewrite blen_zeros by (unfold DATA_EXTENSION_SIZE; lia). unfold DATA_EXTENSION_SIZE. lia. }
  pose proof (write_spec (u64 offset) txt (n + DATA_EXTENSION_SIZE) _ Hbuf) as Hws. rewrite Hl in Hws.
  eapply (wp_write_decrypt (client_cb oc rcb) Client.write);
    [done|apply write_cb_ok|done|done|done|exact Ho|lia|exact Hp|done| | | |exact HQ]; fold txt; rewrite ?Hws.
  - cbn [snd]. rewrite blen_app, blen_map_xor13, Hl. unfold blen, zeros.
    rewrite length_drop, length_replicate. unfold blen in Hl. unfold DATA_EXTENSION_SIZE. lia.
  - cbn [fst]. lia.
  - cbn [fst snd]. rewrite <- Hlm at 1. rewrite slice_prefix. exact Hw.
Qed.

(** A session outlasts a request, when nothing else waits. *)
Lemma session_after s s' : session s → ks_queue s = [] → ks_queue s' = ks_queue s →
  pid (ks_global s') = pid (ks_global s) → connect (ks_global s') = connect (ks_global s) → session s'.
Proof.
  intros [] Hq Hqu Hpid Hcon. split; [done|done|by rewrite Hcon|done|by rewrite Hpid|].
  rewrite Hqu, Hq. by apply Forall_nil.
Qed.

(** * Properties *)

(** A page of a file that is not in decrypt mode is what the lower file
    holds there, byte for byte, and no message is sent.  A read that is short
    of a page leaves the rest of the page as it was, and still marks all of it
    up to date. *)
Theorem readpage_plain (s : kstate) (file b lf pg t : positive) (fl : Kernel.file) (mode : Z)
    (p : page) (bs cur : bytes) :
  opened s file b fl lf mode → mode ≠ OFR_DECRYPT →
  ks_pages s !! pg = Some p → pg_virt p = Ptr t 0 → live s !! t = Some (OBytes cur) →
  blen cur = PAGE_CACHE_SIZE → blen bs ≤ PAGE_CACHE_SIZE →
  kernel_read (ks_lfs s) lf (Z.shiftl (pg_index p) PAGE_CACHE_SHIFT) PAGE_CACHE_SIZE = inr bs →
  wp (teadfs_readpage file pg) (λ rc s', rc = 0 ∧ ks_sent s' = ks_sent s ∧
    ks_pages s' = <[pg := page_done true p]> (ks_pages s) ∧
    live s' = <[t := OBytes (bs ++ drop (length bs) cur)]> (live s)) s.
Proof.
  intros Ho Hm Hp Hv Ht Hc Hn Hr. eapply wp_readpage; [exact Hp|]. rewrite Hv.
  unfold PAGE_CACHE_SIZE in *. pose proof (blen_nonneg bs).
  eapply wp_read_plain; [done|done|exact Hr|lia|done|apply in_range_spec; lia|].
  split_and!; [done|done|done|done|done|done].
Qed.

(** C2: the file system's purpose: a page of a labelled file, opened for
    decryption and served by the shipped client, holds the plaintext of that
    page of the original file, although the lower file only has the header and
    the enciphered bytes. *)
Theorem readpage_labelled (oc rc_cb : Z → Z → bytes → Z) (s : kstate)
    (file b lf pg t : positive) (fl : Kernel.file) (p : page) (src cur : bytes) :
  let offset := Z.shiftl (pg_index p) PAGE_CACHE_SHIFT in
  connected_to (client_cb oc rc_cb) → session s → opened s file b fl lf OFR_DECRYPT →
  ks_pages s !! pg = Some p → pg_virt p = Ptr t 0 → 0 ≤ pg_index p →
  live s !! t = Some (OBytes cur) → blen cur = PAGE_CACHE_SIZE →
  kernel_read (ks_lfs s) lf (offset + ENCRYPT_FILE_HEADER_SIZE) PAGE_CACHE_SIZE =
    inr (slice (offset + ENCRYPT_FILE_HEADER_SIZE) PAGE_CACHE_SIZE (label src)) →
  wp (teadfs_readpage file pg) (λ rc s', rc = 0 ∧
    ks_pages s' = <[pg := page_done true p]> (ks_pages s) ∧ ks_lfs s' = ks_lfs s ∧
    live s' !! t = Some (OBytes (splice 0 (slice offset PAGE_CACHE_SIZE src) cur))) s.
Proof.
  intros offset Hcb Hs Ho Hp Hv Hi Ht Hc Hr.
  assert (Hoff : 0 ≤ offset).
  { unfold offset, PAGE_CACHE_SHIFT. rewrite Z.shiftl_mul_pow2 by done. lia. }
  rewrite slice_label, <- map_slice in Hr by done.
  set (txt := slice offset PAGE_CACHE_SIZE src) in *.
  assert (Hle : blen txt ≤ PAGE_CACHE_SIZE ≤ max_data) by (split; [by apply blen_slice_le|done]).
  eapply wp_readpage; [exact Hp|]. rewrite Hv. fold offset.
  eapply wp_mono.
  { eapply wp_read_labelled; [done|done|exact Ho|exact Hr|exact Hle|exact Ht|].
    apply in_range_spec. rewrite Hc. done. }
  intros rc s' (-> & x & req & Hx & Hfr & HL). split; [apply blen_nonneg|].
  split; [by destruct Hfr|]. split_and!; [done|simpl; by rewrite (cf_pages _ _ Hfr)|by destruct Hfr|].
  autorewrite with tead_live. by rewrite HL, lookup_insert_eq.
Qed.

(** When the client cannot be asked, a page of a file in decrypt mode is
    filled with the enciphered bytes and reported as read. *)
Theorem readpage_undecrypted (s : kstate) (file b lf pg t : positive) (fl : Kernel.file)
    (p : page) (bs cur : bytes) :
  connect (ks_global s) = 0 ∨ current_tgid = pid (ks_global s) →
  opened s file b fl lf OFR_DECRYPT →
  ks_pages s !! pg = Some p → pg_virt p = Ptr t 0 → live s !! t = Some (OBytes cur) →
  blen cur = PAGE_CACHE_SIZE → blen bs ≤ PAGE_CACHE_SIZE →
  kernel_read (ks_lfs s) lf (Z.shiftl (pg_index p) PAGE_CACHE_SHIFT + ENCRYPT_FILE_HEADER_SIZE)
    PAGE_CACHE_SIZE = inr bs →
  wp (teadfs_readpage file pg) (λ rc s', rc = 0 ∧
    ks_pages s' = <[pg := page_done true p]> (ks_pages s) ∧
    live s' = <[t := OBytes (bs ++ drop (length bs) cur)]> (live s)) s.
Proof.
  intros Href Ho Hp Hv Ht Hc Hn Hr. eapply wp_readpage; [exact Hp|]. rewrite Hv.
  unfold PAGE_CACHE_SIZE in *. pose proof (blen_nonneg bs).
  eapply wp_read_decrypt; [done|exact Hr|lia|done|apply in_range_spec; lia|].
  apply wp_bind. eapply wp_intro; [by apply refused_read|].
  change (- ENOMEM <=? 0) with true. cbv iota. apply wp_ret.
  split_and!; [done|done|done|done|done].
Qed.

(** A file that is open for reading its enciphered bytes cannot be written:
    EIO, and neither the lower file nor the heap changes. *)
Theorem write_encrypt_refused (s : kstate) (file b lf : positive) (fl : Kernel.file)
    (data : ptr) (offset size : Z) :
  kzalloc_total → opened s file b fl lf OFR_ENCRYPT →
  wp (teadfs_write_lower file data offset size) (λ rc s', rc = - EIO ∧
    live s' = live s ∧ ks_lfs s' = ks_lfs s ∧ ks_sent s' = ks_sent s) s.
Proof.
  intros Ht Ho. eapply wp_write_buf; [done|exact Ho|]. intros r Hr.
  change (OFR_ENCRYPT =? OFR_ENCRYPT) with true. cbv iota. apply wp_ret.
  eexists. split; [apply live_upd_eq|]. split_and!; [done| |done|done].
  autorewrite with tead_live. heap_eq.
Qed.



(** [writepage] writes nothing back, and its result is a local variable
    that was never assigned. *)
Theorem writepage_result (s : kstate) (pg : positive) (p : page) :
  ks_pages s !! pg = Some p →
  wp (teadfs_writepage pg) (λ rc s', rc = s32 (le_decode (map junk (seq 0 4))) ∧
    ks_pages s' = <[pg := page_done true p]> (ks_pages s) ∧ ks_lfs s' = ks_lfs s) s.
Proof.
  intros Hp. apply wp_bind. eapply wp_page_update; [exact Hp|].
  apply wp_bind. eapply wp_page_update; [apply lookup_insert_eq|]. apply wp_ret.
  split_and!; [done| |done]. simpl. by rewrite insert_insert_eq.
Qed.

(** A block number of the lower file system passes through a 32-bit
    integer: from 2^31 on, [bmap] answers with another block. *)
Theorem bmap_truncates (f : Z → Z) (block : Z) :
  (0 ≤ f block < 2 ^ 31 → teadfs_bmap (Some f) block = f block) ∧
  (2 ^ 31 ≤ f block < 2 ^ 32 → teadfs_bmap (Some f) block = f block + (2 ^ 64 - 2 ^ 32)) ∧
  teadfs_bmap None block = 0.
Proof.
  unfold teadfs_bmap. split_and!; [| |done].
  - intros. rewrite s32_small, u64_small by lia. done.
  - intros. assert (E : s32 (f block) = f block - 2 ^ 32).
    { unfold s32. replace (f block + 2 ^ 31) with (f block + 2 ^ 31 - 2 ^ 32 + 1 * 2 ^ 32) by lia.
      rewrite Z.mod_add, Z.mod_small by lia. lia. }
    rewrite E. unfold u64. rewrite <- (Z.mod_add _ 1), Z.mod_small by lia. lia.
Qed.



(** Shrinking a file: the upper size is the new one, and the lower file is
    told the same number, under its mutex and without the 256 bytes of a label:
    a labelled file loses that much of its end. *)
Theorem truncate_shrinks (s : kstate) (dentry inode ld li : positive) (x : Kernel.dentry)
    (ino : Kernel.inode) (new : Z) :
  dentry_at s dentry x → d_inode x = Some inode → p_dentry (lower_path x) = Some ld →
  ks_inodes s !! inode = Some ino → 0 ≤ new < i_size ino →
  lower_d_inode (ks_lfs s) ld = Some li → li ∉ ks_locks s →
  let r := lower_do (ks_lfs s) (LO_notify_change ld (IAttr ATTR_SIZE new KNull zero_attr)) in
  lower_d_inode r.2 ld = Some li →
  wp (teadfs_truncate dentry new) (λ rc s', rc = r.1 ∧ ks_lfs s' = r.2 ∧
    ks_inodes s' = <[inode := set_i_size new ino]> (ks_inodes s) ∧
    ks_calls s' = ks_calls s ++ [VC_truncate_setsize inode new] ∧
    ks_locks s' = ks_locks s ∧ live s' = live s) s.
Proof.
  intros Hx Hd Hld Hi Hn Hli Hlk r Hr. unfold teadfs_truncate.
  apply wp_bind. eapply wp_get_lower_path; [exact Hx|].
  apply wp_bind. unfold truncate_upper.
  apply wp_bind. eapply wp_intro; [by rewrite (proj1 Hx)|]. rewrite Hd.
  apply wp_bind. eapply wp_get_inode; [exact Hi|]. cbv zeta. simpl ia_size.
  rewrite (proj2 (Z.eqb_neq _ _)), (proj2 (Z.ltb_ge _ _)) by lia.
  apply wp_bind, wp_vfs, wp_bind. eapply wp_update_inode; [exact Hi|].
  apply wp_ret. rewrite Hld. apply wp_bind, wp_deref.
  eapply wp_notify_change; [exact Hli|exact Hlk|]. split; [exact Hr|]. by split_and!.
Qed.

End MmapLemmas.
