(* ===== verification/Buffered.v ===== *)
(** Reads and writes of a labelled file through its page cache: with the shipped
    client at the other end of the socket, the file is its plaintext.

    [LowerBytes] asks of the lower file system that its files are byte strings.
    [pages_are_file] is the refinement: what any sequence of reads and writes of
    whole or parts of pages gives is what it gives on the plaintext. *)
From S2P Require Import Prelude Kernel Protocol Wp GlobalParam Netlink UserCom Requests Daemon Client Session Vfs File Mmap.
Local Open Scope Z_scope.

(** * Pages and the bytes of a file *)

(** The page [cur] with the index [idx] agrees with the file [src], as far as
    that goes. *)
Definition coherent (idx : Z) (src cur : bytes) : Prop :=
  ∀ k : nat, Z.of_nat k < PAGE_CACHE_SIZE → is_Some (src !! (Z.to_nat (idx * PAGE_CACHE_SIZE) + k)%nat) →
    cur !! k = src !! (Z.to_nat (idx * PAGE_CACHE_SIZE) + k)%nat.

Lemma coherent_read idx src cur : 0 ≤ idx →
  coherent idx src (splice 0 (slice (idx * PAGE_CACHE_SIZE) PAGE_CACHE_SIZE src) cur).
Proof.
  intros Hi k Hk Hs. unfold PAGE_CACHE_SIZE in *. rewrite lookup_splice by (pose proof (blen_nonneg cur); lia).
  rewrite decide_False by lia. rewrite decide_True; [rewrite lookup_slice by lia; f_equal; lia|].
  apply lookup_lt_is_Some in Hs. unfold blen, slice. rewrite length_take, length_drop. lia.
Qed.

Lemma coherent_slice idx n src cur : 0 ≤ idx → coherent idx src cur →
  0 ≤ n ≤ blen (slice (idx * PAGE_CACHE_SIZE) PAGE_CACHE_SIZE src) →
  slice 0 n cur = slice (idx * PAGE_CACHE_SIZE) n src.
Proof.
  intros Hi Hc Hn. pose proof (blen_slice_le (idx * PAGE_CACHE_SIZE) PAGE_CACHE_SIZE src ltac:(done)).
  apply list_eq. intros k. destruct (decide (Z.of_nat k < n)) as [Hk|Hk].
  - rewrite !lookup_slice by (unfold PAGE_CACHE_SIZE in *; lia). simpl. apply Hc; [lia|].
    apply lookup_lt_is_Some. unfold blen, slice in Hn. rewrite length_take, length_drop in Hn. lia.
  - unfold slice. rewrite !lookup_ge_None_2; [done|rewrite length_take; lia..].
Qed.

(** A write in the page, on the file and on the page ... *)
Lemma coherent_write idx start pos data src cur :
  pos = idx * PAGE_CACHE_SIZE + start → 0 ≤ idx → 0 ≤ start ≤ blen cur → pos ≤ blen src →
  coherent idx src cur → coherent idx (splice pos data src) (splice start data cur).
Proof.
  intros -> Hi Hst Hpos Hc k Hk. unfold PAGE_CACHE_SIZE in *.
  rewrite !lookup_splice by lia. repeat case_decide; try lia; [by apply Hc| |by apply Hc].
  intros _. f_equal. lia.
Qed.
(** ... and what the other pages notice of it. *)
Lemma coherent_other idx idx' start pos data src cur :
  pos = idx * PAGE_CACHE_SIZE + start → 0 ≤ idx → 0 ≤ idx' → idx' ≠ idx →
  0 ≤ start → start + blen data ≤ PAGE_CACHE_SIZE → pos ≤ blen src →
  coherent idx' src cur → coherent idx' (splice pos data src) cur.
Proof.
  intros -> Hi Hi' Hne Hst Hlen Hpos Hc k Hk. unfold PAGE_CACHE_SIZE in *.
  rewrite !lookup_splice by lia. repeat case_decide; try lia; by apply Hc.
Qed.

(** * The lower file system *)
Section Lower.
Context `{KernelEnv}.

(** [contents l f]: what the open lower file [f] holds. *)
Class LowerBytes := {
  contents : lfs → positive → option bytes;
  bytes_read l f c offset n : contents l f = Some c → 0 ≤ offset →
    kernel_read l f offset n = inr (slice offset n c);
  bytes_write l f c bs offset : contents l f = Some c → 0 ≤ offset ≤ blen c →
    ∃ l', kernel_write l f bs offset = (blen bs, l') ∧ contents l' f = Some (splice offset bs c) ∧
      lower_file_inode l' f = lower_file_inode l f;
  bytes_size l f c : contents l f = Some c → lower_i_size l (lower_file_inode l f) = blen c;
}.
End Lower.

(** * What the kernel does around the operations

    [generic_perform_write] and [do_generic_file_read], for one page of the page
    cache. *)
Section Turns.
Context `{KernelEnv}.

Definition write_turn (file dentry pg : positive) (pos : Z) (data : bytes) : M Z :=
  page_update (λ p, set_count (pg_count p + 1) (set_locked true p)) pg;;
  r ← treadfs_write_begin file dentry (Some pg) pos;
  match r.2 with
  | None => mret r.1
  | Some pg =>
    p ← get_page pg;
    store_bytes (padd (pg_virt p) (Z.land pos (PAGE_CACHE_SIZE - 1))) data;;
    teadfs_write_end file pg pos (blen data) (blen data)
  end.

Definition read_turn (file pg : positive) (n : Z) : M (Z + bytes) :=
  p ← get_page pg;
  rc ← (if pg_uptodate p then mret 0 else lock_page pg;; teadfs_readpage file pg);
  if negb (rc =? 0) then mret (inl rc) else
  bs ← load_bytes (pg_virt p) n; mret (inr bs).

Inductive page_op := ReadPage (pg : positive) (n : Z) | WritePage (pg : positive) (pos : Z) (data : bytes).
Definition run_page_op (file dentry : positive) (op : page_op) : M (Z + bytes) :=
  match op with
  | ReadPage pg n => read_turn file pg n
  | WritePage pg pos data => rc ← write_turn file dentry pg pos data; mret (inl rc)
  end.
Fixpoint run_page_ops (file dentry : positive) (ops : list page_op) : M (list (Z + bytes)) :=
  match ops with
  | [] => mret []
  | op :: ops => r ← run_page_op file dentry op; rs ← run_page_ops file dentry ops; mret (r :: rs)
  end.
End Turns.

(** * The file as its plaintext *)

(** A page of the cache: its index, the block it is mapped at, its references. *)
Record frame := Frame { fr_index : Z; fr_block : positive; fr_count : Z }.

Section Spec.
Context (frames : gmap positive frame).

(** What an operation gives, and the file after it. *)
Definition spec_op (op : page_op) (src : bytes) : (Z + bytes) * bytes :=
  match op with
  | ReadPage pg n =>
    (inr (slice (match frames !! pg with Some fr => fr_index fr * PAGE_CACHE_SIZE | None => 0 end) n src), src)
  | WritePage pg pos data => (inl (blen data), splice pos data src)
  end.
Fixpoint spec_ops (ops : list page_op) (src : bytes) : list (Z + bytes) * bytes :=
  match ops with
  | [] => ([], src)
  | op :: ops =>
    let '(r, src) := spec_op op src in let '(rs, src) := spec_ops ops src in (r :: rs, src)
  end.

(** Reads end within the file, writes start within it; both stay in their
    page. *)
Definition page_op_ok (op : page_op) (src : bytes) : Prop :=
  match op with
  | ReadPage pg n => ∃ fr, frames !! pg = Some fr ∧
      0 ≤ n ≤ blen (slice (fr_index fr * PAGE_CACHE_SIZE) PAGE_CACHE_SIZE src)
  | WritePage pg pos data => ∃ fr, frames !! pg = Some fr ∧
      ∃ start, pos = fr_index fr * PAGE_CACHE_SIZE + start ∧ 0 ≤ start ∧
        0 < blen data ∧ start + blen data ≤ PAGE_CACHE_SIZE ∧ pos ≤ blen src
  end.
Fixpoint page_ops_ok (ops : list page_op) (src : bytes) : Prop :=
  match ops with
  | [] => True
  | op :: ops => page_op_ok op src ∧ page_ops_ok ops (spec_op op src).2
  end.
End Spec.

(** * The refinement *)
Section Refinement.
Context `{KernelEnv} `{!LowerBytes} (oc rcb : Z → Z → bytes → Z).
Context (file b lf dentry host : positive) (fl : Kernel.file) (header : bytes) (frames : gmap positive frame).

(** The lower file is the label's header and the enciphered [src]; the upper
    inode has the lower file's size. *)
Record labelled_file (src : bytes) (s : kstate) : Prop := {
  lb_session : session s;
  lb_queue : ks_queue s = [];
  lb_opened : opened s file b fl lf OFR_DECRYPT;
  lb_contents : contents (ks_lfs s) lf = Some (header ++ map xor13 src);
  lb_inode : ∃ ino, ks_inodes s !! host = Some ino ∧
    lower_inode ino = Some (lower_file_inode (ks_lfs s) lf) ∧ i_size ino = ENCRYPT_FILE_HEADER_SIZE + blen src;
}.

Definition page_of (fr : frame) (up locked : bool) (count : Z) : page :=
  Page host (fr_index fr) (Ptr (fr_block fr) 0) up locked count.

(** Every page is unlocked and, when it is up to date, agrees with the file. *)
Definition cached (src : bytes) (s : kstate) (pg : positive) (fr : frame) : Prop := ∃ up cur,
  ks_pages s !! pg = Some (page_of fr up false (fr_count fr)) ∧
  live s !! fr_block fr = Some (OBytes cur) ∧ blen cur = PAGE_CACHE_SIZE ∧
  (up = true → coherent (fr_index fr) src cur).

Record serving (src : bytes) (s : kstate) : Prop := {
  sv_file : labelled_file src s;
  sv_pages : map_Forall (cached src s) frames;
}.

(** What the pages are: no two for the same part of the file or in the same
    memory. *)
Record frames_ok : Prop := {
  fo_index : map_Forall (λ _ fr, 0 ≤ fr_index fr) frames;
  fo_distinct : ∀ pg pg' fr fr', frames !! pg = Some fr → frames !! pg' = Some fr' → pg ≠ pg' →
    fr_index fr ≠ fr_index fr' ∧ fr_block fr ≠ fr_block fr';
}.

(** The heap but for a block, and what was allocated meanwhile. *)
Definition kept (t : positive) (s s' : kstate) : Prop :=
  ∀ b', b' ≠ t → is_Some (live s !! b') → live s' !! b' = live s !! b'.

Lemma kept_upd t x o o' s s' :
  live s !! x = None → live s' = <[t := o]> (<[x := o']> (live s)) → kept t s s'.
Proof. intros Hx HL b' Hne [ob Hb']. rewrite HL, lookup_insert_ne, lookup_insert_ne by congruence. done. Qed.

Lemma kept_trans t s s1 s2 : kept t s s1 → kept t s1 s2 → kept t s s2.
Proof. intros H1 H2 b' Hne Hb'. rewrite H2; [by apply H1|done|]. rewrite H1; done. Qed.

Lemma opened_kept t cur s s' m : live s !! t = Some (OBytes cur) →
  kept t s s' → ks_files s' = ks_files s → opened s file b fl lf m → opened s' file b fl lf m.
Proof.
  intros Ht Hk Hf Ho. eapply opened_mono; [exact Ho|done|].
  destruct Ho as (fi & (_ & _ & Hb) & _). apply Hk; [congruence|by eexists].
Qed.

Context (Hcb : connected_to (client_cb oc rcb)) (Hstale : stale_kept)
  (Hheader : blen header = ENCRYPT_FILE_HEADER_SIZE) (Hframes : frames_ok).

Lemma labelled_file_frame src s s' t cur : live s !! t = Some (OBytes cur) →
  labelled_file src s → comm_frame s s' → kept t s s' → labelled_file src s'.
Proof.
  intros Ht [Hs Hq Ho Hc Hi] [] Hk. split.
  - by eapply session_after.
  - by rewrite cf_queue.
  - by eapply opened_kept.
  - by rewrite cf_lfs.
  - by rewrite cf_inodes, cf_lfs.
Qed.

Lemma labelled_file_same src s s' : labelled_file src s → live s' !! b = live s !! b →
  ks_global s' = ks_global s → ks_queue s' = ks_queue s → ks_lfs s' = ks_lfs s →
  ks_files s' = ks_files s → ks_inodes s' = ks_inodes s → labelled_file src s'.
Proof.
  intros [Hs Hq Ho Hc Hi] HL Hg Hqu Hl Hf Hin. split; [|by rewrite Hqu| |by rewrite Hl|by rewrite Hin, Hl].
  - eapply session_after; [done..| |]; by rewrite Hg.
  - by eapply opened_mono.
Qed.

(** A page is read. *)
Lemma wp_read_page src s idx t cur :
  labelled_file src s → 0 ≤ idx → live s !! t = Some (OBytes cur) → blen cur = PAGE_CACHE_SIZE →
  wp (teadfs_read_lower (Ptr t 0) (idx * PAGE_CACHE_SIZE) PAGE_CACHE_SIZE file) (λ rc s',
    0 ≤ rc ∧ labelled_file src s' ∧ ks_pages s' = ks_pages s ∧ kept t s s' ∧
    ∃ cur', live s' !! t = Some (OBytes cur') ∧ blen cur' = PAGE_CACHE_SIZE ∧ coherent idx src cur') s.
Proof.
  intros Hl Hi Ht Hn. set (txt := slice (idx * PAGE_CACHE_SIZE) PAGE_CACHE_SIZE src).
  assert (Hle : blen txt ≤ PAGE_CACHE_SIZE) by (by apply blen_slice_le).
  pose proof (blen_nonneg txt).
  eapply wp_mono.
  { eapply wp_read_labelled; [exact Hcb|apply Hl|apply Hl| | |exact Ht|].
    - erewrite bytes_read; [|apply Hl|unfold PAGE_CACHE_SIZE, ENCRYPT_FILE_HEADER_SIZE; lia].
      rewrite slice_app_r, Hheader by (rewrite Hheader; unfold PAGE_CACHE_SIZE; lia).
      rewrite <- map_slice, Z.add_simpl_r. done.
    - split; [exact Hle|done].
    - apply in_range_spec. rewrite Hn. done. }
  intros rc s' (-> & x & req & Hx & Hfr & HL). assert (Hk : kept t s s') by by eapply kept_upd.
  split_and!; [done|by eapply labelled_file_frame|by destruct Hfr|done|].
  eexists. rewrite HL, lookup_insert_eq. split; [done|]. split; [|by apply coherent_read].
  rewrite blen_splice; [done|]. apply in_range_spec. fold txt. lia.
Qed.

Lemma shiftl_page z : Z.shiftl z PAGE_CACHE_SHIFT = z * PAGE_CACHE_SIZE.
Proof. unfold PAGE_CACHE_SHIFT. by rewrite Z.shiftl_mul_pow2. Qed.
Lemma shiftr_page idx start : 0 ≤ start < PAGE_CACHE_SIZE →
  Z.shiftr (idx * PAGE_CACHE_SIZE + start) PAGE_CACHE_SHIFT = idx.
Proof.
  intros. unfold PAGE_CACHE_SHIFT. rewrite Z.shiftr_div_pow2 by done.
  change (2 ^ 12) with PAGE_CACHE_SIZE. rewrite Z.div_add_l, Z.div_small by done. lia.
Qed.
Lemma land_page idx start : 0 ≤ start < PAGE_CACHE_SIZE →
  Z.land (idx * PAGE_CACHE_SIZE + start) (PAGE_CACHE_SIZE - 1) = start.
Proof.
  intros. change (PAGE_CACHE_SIZE - 1) with (Z.ones 12). rewrite Z.land_ones by done.
  change (2 ^ 12) with PAGE_CACHE_SIZE. rewrite Z.add_comm, Z.mod_add, Z.mod_small by done. done.
Qed.

(** [write_begin] for a write that starts within the file: the page is up to
    date then, whatever it was before. *)
Lemma wp_write_begin src s pg fr up start cnt cur pos (Q : Z * option positive → kstate → Prop) :
  labelled_file src s → 0 ≤ fr_index fr → pos = fr_index fr * PAGE_CACHE_SIZE + start →
  0 ≤ start < PAGE_CACHE_SIZE → pos ≤ blen src →
  ks_pages s !! pg = Some (page_of fr up true cnt) → live s !! fr_block fr = Some (OBytes cur) →
  blen cur = PAGE_CACHE_SIZE → (up = true → coherent (fr_index fr) src cur) →
  (∀ s' cur', labelled_file src s' → ks_pages s' = <[pg := page_of fr true true cnt]> (ks_pages s) →
     kept (fr_block fr) s s' → live s' !! fr_block fr = Some (OBytes cur') →
     blen cur' = PAGE_CACHE_SIZE → coherent (fr_index fr) src cur' → Q (0, Some pg) s') →
  wp (treadfs_write_begin file dentry (Some pg) pos) Q s.
Proof.
  intros Hl Hi Hpos Hst Hle Hp Ht Hn Hc HQ. unfold treadfs_write_begin.
  rewrite Hpos, shiftr_page, shiftl_page by done. cbv zeta.
  apply wp_bind, wp_bind. eapply wp_get_page; [exact Hp|]. apply wp_bind.
  assert (Hrest : ∀ s' cur', labelled_file src s' →
    ks_pages s' = <[pg := page_of fr true true cnt]> (ks_pages s) → kept (fr_block fr) s s' →
    live s' !! fr_block fr = Some (OBytes cur') → blen cur' = PAGE_CACHE_SIZE → coherent (fr_index fr) src cur' →
    wp (if negb (0 =? 0) then mret 0 else
        host' ← get_inode host;
        rc ← (if negb (fr_index fr =? 0) && (i_size host' <? fr_index fr * PAGE_CACHE_SIZE)
              then teadfs_truncate dentry (fr_index fr * PAGE_CACHE_SIZE) else mret 0);
        if negb (rc =? 0) then mret rc else
        host' ← get_inode host;
        (if (i_size host' =? fr_index fr * PAGE_CACHE_SIZE) && negb (fr_index fr * PAGE_CACHE_SIZE + start =? 0)
         then store_bytes (Ptr (fr_block fr) 0) (zeros PAGE_CACHE_SIZE) else mret ());;
        mret 0)
      (λ rc s'', rc = 0 ∧ s'' = s') s').
  { intros s' cur' Hl' _ _ _ _ _. destruct (lb_inode _ _ Hl') as (ino & Hino & _ & Hsz).
    unfold ENCRYPT_FILE_HEADER_SIZE in Hsz. apply wp_bind. eapply wp_get_inode; [exact Hino|].
    rewrite (proj2 (Z.ltb_ge _ _)), andb_false_r by lia. apply wp_bind, wp_ret.
    change (negb (0 =? 0)) with false. cbv iota. apply wp_bind. eapply wp_get_inode; [exact Hino|].
    rewrite (proj2 (Z.eqb_neq _ _)) by lia. by apply wp_bind, wp_ret, wp_ret. }
  assert (Hend : ∀ s' cur', labelled_file src s' →
    ks_pages s' = <[pg := page_of fr true true cnt]> (ks_pages s) → kept (fr_block fr) s s' →
    live s' !! fr_block fr = Some (OBytes cur') → blen cur' = PAGE_CACHE_SIZE → coherent (fr_index fr) src cur' →
    ∀ rc s'', rc = 0 ∧ s'' = s' → wp (if negb (rc =? 0)
      then unlock_page pg;; page_cache_release pg;; mret (rc, None) else mret (0, Some pg)) Q s'').
  { intros s' cur' ? ? ? ? ? ? rc s'' [-> ->]. by eapply wp_ret, HQ. }
  destruct up; simpl pg_uptodate; cbv iota.
  - apply wp_ret. eapply wp_mono; [eapply Hrest|eapply Hend]; try done; try by apply Hc.
    all: by rewrite insert_id.
  - apply wp_bind. eapply wp_mono; [eapply wp_read_page; [exact Hl|exact Hi|exact Ht|exact Hn]|].
    intros rc s1 (Hrc & Hl1 & Hp1 & Hk & cur' & Ht1 & Hn1 & Hc1).
    replace (if 0 <? rc then 0 else rc) with 0 by (destruct (0 <? rc) eqn:?; lia).
    apply wp_bind, wp_bind, wp_vfs, wp_ret, wp_bind.
    eapply wp_page_update; [simpl; rewrite Hp1; exact Hp|]. apply wp_ret.
    eapply wp_mono; [eapply Hrest|eapply Hend]; try done.
    all: try (by simpl; rewrite Hp1).
    all: by eapply labelled_file_same.
Qed.

(** One page changes, and the file with it: the others still agree with it. *)
Lemma serving_page src src' s s' pg fr up cur :
  map_Forall (cached src s) frames → frames !! pg = Some fr → labelled_file src' s' →
  ks_pages s' = <[pg := page_of fr up false (fr_count fr)]> (ks_pages s) → kept (fr_block fr) s s' →
  live s' !! fr_block fr = Some (OBytes cur) → blen cur = PAGE_CACHE_SIZE →
  (up = true → coherent (fr_index fr) src' cur) →
  (∀ idx' cur', 0 ≤ idx' → idx' ≠ fr_index fr → coherent idx' src cur' → coherent idx' src' cur') →
  serving src' s'.
Proof.
  intros Hpg Hfr Hl Hp Hk Ht Hn Hc Hother. split; [done|]. intros pg' fr' Hfr'. rewrite map_Forall_lookup in Hpg.
  destruct (decide (pg' = pg)) as [->|Hne].
  - simplify_eq. exists up, cur. rewrite Hp, lookup_insert_eq. by split_and!.
  - destruct (fo_distinct Hframes _ _ _ _ Hfr' Hfr Hne) as [Hi Hb].
    pose proof (fo_index Hframes _ _ Hfr') as Hi0. simpl in Hi0.
    destruct (Hpg _ _ Hfr') as (up' & cur' & Hp' & Ht' & Hn' & Hc'). exists up', cur'.
    rewrite Hp, lookup_insert_ne by done. split_and!; [done| |done|auto].
    rewrite (Hk _ Hb); [done|by eexists].
Qed.

(** [write_end] after the caller has put its bytes in the page. *)
Lemma wp_write_end src s pg fr start cnt cur pos data (Q : Z → kstate → Prop) :
  labelled_file src s → 0 ≤ fr_index fr → pos = fr_index fr * PAGE_CACHE_SIZE + start →
  0 ≤ start → 0 < blen data → start + blen data ≤ PAGE_CACHE_SIZE → pos ≤ blen src →
  ks_pages s !! pg = Some (page_of fr true true cnt) → live s !! fr_block fr = Some (OBytes cur) →
  blen cur = PAGE_CACHE_SIZE → slice start (blen data) cur = data →
  (∀ s', labelled_file (splice pos data src) s' →
     ks_pages s' = <[pg := page_of fr true false (cnt - 1)]> (ks_pages s) → kept (fr_block fr) s s' →
     live s' !! fr_block fr = Some (OBytes cur) → Q (blen data) s') →
  wp (teadfs_write_end file pg pos (blen data) (blen data)) Q s.
Proof.
  intros Hl Hi Hpos Hst Hd Hlen Hle Hp Ht Hn Hsl HQ. unfold teadfs_write_end.
  apply wp_bind. eapply wp_get_page; [exact Hp|]. rewrite Z.ltb_irrefl. cbn [andb].
  rewrite Hpos, land_page by lia. rewrite <- Hpos. cbn [pg_virt page_of padd]. rewrite Z.add_0_l.
  destruct Hl as [Hs Hq Ho Hc (ino & Hino & Hli & Hsz)].
  destruct (bytes_write (ks_lfs s) lf _ (map xor13 data) (pos + ENCRYPT_FILE_HEADER_SIZE) Hc) as (l' & Hw & Hc' & Hf').
  { rewrite blen_app, Hheader, blen_map_xor13. unfold ENCRYPT_FILE_HEADER_SIZE, PAGE_CACHE_SIZE in *. lia. }
  apply wp_bind. eapply wp_write_labelled; [done|done|done|exact Ho| |exact Ht| |rewrite Hsl; exact Hw|].
  { split; [lia|]. unfold PAGE_CACHE_SIZE in *. assert (4096 ≤ max_data) by done. lia. }
  { apply in_range_spec. lia. }
  intros s1 x req Hx HL Hlfs Hfs Hino1 Hpg Hqu Hpid Hcon _. rewrite blen_map_xor13.
  rewrite (proj2 (Z.ltb_lt _ _)) by done. change (0 =? 0) with true. cbv iota.
  assert (Hk : kept (fr_block fr) s s1).
  { intros b' _ [ob Hb']. rewrite HL, lookup_insert_ne by congruence. done. }
  apply wp_bind, wp_bind. eapply wp_get_inode; [by rewrite Hino1|]. rewrite Hli.
  apply wp_bind, wp_bind, wp_gets. cbn [pg_host page_of].
  apply wp_bind, wp_gets. eapply wp_update_inode; [by rewrite Hino1|]. apply wp_ret.
  apply wp_bind. eapply wp_page_update; [by simpl; rewrite Hpg|].
  apply wp_bind. eapply wp_page_update; [apply lookup_insert_eq|]. apply wp_ret.
  rewrite Hlfs. rewrite splice_app_r, Hheader, Z.add_simpl_r, <- map_splice in Hc'
    by (rewrite Hheader; unfold PAGE_CACHE_SIZE, ENCRYPT_FILE_HEADER_SIZE in *; lia).
  apply HQ; [|simpl; by rewrite insert_insert_eq, Hpg|exact Hk|].
  - split; [|simpl; by rewrite Hqu| |simpl; by rewrite Hlfs|].
    + by eapply session_after.
    + eapply opened_mono; [exact Ho|exact Hfs|]. destruct Ho as (fi & (_ & _ & Hb) & _).
      change (live s1 !! b = live s !! b). rewrite HL, lookup_insert_ne; [done|congruence].
    + eexists. simpl. rewrite Hlfs. split; [apply lookup_insert_eq|]. split; [by rewrite Hf'|].
      simpl. rewrite <- Hf'. erewrite bytes_size by exact Hc'. rewrite blen_app, Hheader, blen_map_xor13. done.
  - change (live s1 !! fr_block fr = Some (OBytes cur)). rewrite HL, lookup_insert_ne; [done|congruence].
Qed.

Lemma wp_write_turn src s pg fr start pos data :
  serving src s → frames !! pg = Some fr → pos = fr_index fr * PAGE_CACHE_SIZE + start →
  0 ≤ start → 0 < blen data → start + blen data ≤ PAGE_CACHE_SIZE → pos ≤ blen src →
  wp (write_turn file dentry pg pos data) (λ rc s', rc = blen data ∧ serving (splice pos data src) s') s.
Proof.
  intros [Hl Hpg] Hfr Hpos Hst Hd Hlen Hle. pose proof (fo_index Hframes _ _ Hfr) as Hi. simpl in Hi.
  destruct (Hpg _ _ Hfr) as (up & cur & Hp & Ht & Hn & Hc).
  apply wp_bind. eapply wp_page_update; [exact Hp|].
  apply wp_bind. eapply (wp_write_begin src _ pg fr up start (fr_count fr + 1) cur); try done.
  { by eapply labelled_file_same. }
  { lia. }
  { apply lookup_insert_eq. }
  intros s1 cur1 Hl1 Hp1 Hk1 Ht1 Hn1 Hc1. cbn [fst snd].
  apply wp_bind. eapply wp_get_page; [rewrite Hp1; apply lookup_insert_eq|].
  rewrite Hpos, land_page by lia. rewrite <- Hpos. cbn [pg_virt page_of padd]. rewrite Z.add_0_l.
  assert (Hin : in_range start (blen data) cur1 = true) by (apply in_range_spec; lia).
  apply wp_bind. eapply wp_store_bytes; [exact Ht1|exact Hin|].
  assert (Hku : kept (fr_block fr) s1 (upd (fr_block fr) (OBytes (splice start data cur1)) s1)).
  { intros b' Hb' _. by rewrite live_upd_ne. }
  eapply (wp_write_end src _ pg fr start (fr_count fr + 1) (splice start data cur1)); try done.
  - eapply labelled_file_same; [exact Hl1| |done..].
    destruct (lb_opened _ _ Hl1) as (fi & (_ & _ & Hb) & _). by rewrite live_upd_ne by congruence.
  - simpl. rewrite Hp1. apply lookup_insert_eq.
  - apply live_upd_eq.
  - by rewrite blen_splice.
  - by apply slice_splice_same.
  - intros s2 Hl2 Hp2 Hk2 Ht2. split; [done|].
    eapply (serving_page src _ s); [exact Hpg|exact Hfr|exact Hl2| | |exact Ht2| | |].
    + rewrite Hp2. simpl. rewrite Hp1. simpl. rewrite !insert_insert_eq. by rewrite Z.add_simpl_r.
    + eapply kept_trans; [|exact Hk2]. by eapply kept_trans.
    + by rewrite blen_splice.
    + intros _. by eapply coherent_write; [|lia|..]; try done; lia.
    + intros idx' cur' Hi' Hne Hc'. by eapply coherent_other; [exact Hpos|..].
Qed.

Lemma wp_read_turn src s pg fr n :
  serving src s → frames !! pg = Some fr →
  0 ≤ n ≤ blen (slice (fr_index fr * PAGE_CACHE_SIZE) PAGE_CACHE_SIZE src) →
  wp (read_turn file pg n) (λ r s', r = inr (slice (fr_index fr * PAGE_CACHE_SIZE) n src) ∧ serving src s') s.
Proof.
  intros [Hl Hpg] Hfr Hn. pose proof (fo_index Hframes _ _ Hfr) as Hi. simpl in Hi.
  pose proof (blen_slice_le (fr_index fr * PAGE_CACHE_SIZE) PAGE_CACHE_SIZE src ltac:(done)) as Hle.
  destruct (Hpg _ _ Hfr) as (up & cur & Hp & Ht & Hcn & Hc).
  apply wp_bind. eapply wp_get_page; [exact Hp|]. cbn [pg_uptodate page_of pg_virt].
  assert (Hend : ∀ s' cur', serving src s' → live s' !! fr_block fr = Some (OBytes cur') →
    blen cur' = PAGE_CACHE_SIZE → coherent (fr_index fr) src cur' →
    wp (bs ← load_bytes (Ptr (fr_block fr) 0) n; mret (inr bs : Z + bytes))
      (λ r s'', r = inr (slice (fr_index fr * PAGE_CACHE_SIZE) n src) ∧ serving src s'') s').
  { intros s' cur' Hs' Ht' Hn' Hc'. apply wp_bind. eapply wp_load_bytes; [exact Ht'|apply in_range_spec; lia|].
    apply wp_ret. split; [|done]. f_equal. by apply coherent_slice. }
  apply wp_bind. destruct up.
  - apply wp_ret. eapply Hend; [by split|exact Ht|exact Hcn|by apply Hc].
  - apply wp_bind. eapply wp_page_update; [exact Hp|].
    eapply wp_readpage; [apply lookup_insert_eq|]. cbn [pg_virt pg_index set_locked page_of]. rewrite shiftl_page.
    eapply wp_mono; [eapply wp_read_page; [by eapply labelled_file_same|exact Hi|exact Ht|exact Hcn]|].
    intros rc s1 (Hrc & Hl1 & Hp1 & Hk & cur' & Ht1 & Hn1 & Hc1). split; [done|]. split; [done|].
    eapply Hend; [|exact Ht1|done|done].
    eapply (serving_page src _ s); [exact Hpg|exact Hfr| | | |exact Ht1|done|done|done].
    + by eapply labelled_file_same.
    + simpl. rewrite Hp1. simpl. by rewrite insert_insert_eq.
    + exact Hk.
Qed.

Lemma wp_page_op src s op : serving src s → page_op_ok frames op src →
  wp (run_page_op file dentry op) (λ r s',
    r = (spec_op frames op src).1 ∧ serving (spec_op frames op src).2 s') s.
Proof.
  intros Hs. destruct op as [pg n|pg pos data]; simpl.
  - intros (fr & Hfr & Hn). rewrite Hfr. by eapply wp_read_turn.
  - intros (fr & Hfr & start & Hpos & Hst & Hd & Hlen & Hle).
    apply wp_bind. eapply wp_mono; [by eapply wp_write_turn|]. by intros rc s' [-> Hs'].
Qed.

End Refinement.

(** * The end of a write, without a label *)
Section Plain.
Context `{KernelEnv}.

(** The end of a write to a file that is neither deciphered nor refused: the
    lower file is given the bytes of the page from the position on, the upper
    inode gets the lower size, the page is unlocked and put; all bytes are
    reported as written, however few of them the lower file system took. *)
Theorem write_end_hides_short (s : kstate) (file b lf pg t host li : positive) (fl : Kernel.file) (mode : Z)
    (p : page) (ino : Kernel.inode) (cur : bytes) (pos n rc : Z) (l : lfs) :
  let start := Z.land pos (PAGE_CACHE_SIZE - 1) in
  kzalloc_total → opened s file b fl lf mode → mode ≠ OFR_ENCRYPT → mode ≠ OFR_DECRYPT →
  ks_pages s !! pg = Some p → pg_virt p = Ptr t 0 → pg_host p = host → ks_inodes s !! host = Some ino →
  lower_inode ino = Some li → live s !! t = Some (OBytes cur) → in_range start n cur = true →
  kernel_write (ks_lfs s) lf (slice start n cur) pos = (rc, l) → 0 ≤ rc →
  wp (teadfs_write_end file pg pos n n) (λ r s', r = n ∧ ks_lfs s' = l ∧ live s' = live s ∧
    ks_pages s' = <[pg := set_count (pg_count p - 1) (set_locked false p)]> (ks_pages s) ∧
    ∃ y, ks_inodes s' = <[host := y]> (ks_inodes s) ∧ i_size y = lower_i_size l li) s.
Proof.
  intros start Ha Ho H1 H2 Hp Hv Hh Hi Hli Ht Hin Hw Hrc. unfold teadfs_write_end.
  apply wp_bind. eapply wp_get_page; [exact Hp|]. rewrite Z.ltb_irrefl. cbn [andb]. fold start.
  rewrite Hv. cbn [padd]. rewrite Z.add_0_l.
  apply wp_bind. eapply wp_write_plain; [done|exact Ho|done|done|exact Ht|exact Hin|exact Hw|].
  intros s1 HL Hl Hf Hino _ Hpg _ _ _ _.
  replace (if 0 <? rc then 0 else rc) with 0 by (destruct (0 <? rc) eqn:?; lia). change (0 =? 0) with true. cbv iota.
  apply wp_bind, wp_bind. eapply wp_get_inode; [by rewrite Hino, Hh|]. rewrite Hli.
  apply wp_bind, wp_bind, wp_gets, wp_bind, wp_gets. eapply wp_update_inode; [by rewrite Hino, Hh|]. apply wp_ret.
  apply wp_bind. eapply wp_page_update; [by simpl; rewrite Hpg|].
  apply wp_bind. eapply wp_page_update; [apply lookup_insert_eq|]. apply wp_ret.
  split_and!; [done|exact Hl|exact HL|simpl; by rewrite insert_insert_eq, Hpg|].
  eexists. simpl. rewrite Hino, Hh, Hl. by split.
Qed.
End Plain.
