(* ===== verification/Miscdev.v ===== *)
(** [TEADFS/src/miscdev.c]: the device whose opening makes a process the
    client.

    Each access to the connection flag is one critical section of
    [global_param.c]; opening the device is two of them.  [Opener] is the
    interleaving of several opens at that granularity. *)
From S2P Require Import Prelude Kernel Wp GlobalParam.
Local Open Scope Z_scope.

Section Miscdev.
Context `{KernelEnv}.

Definition teadfs_miscdev_open : M Z :=
  rc ← teadfs_get_client_connect;
  if negb (rc =? 0) then mret (- EBUSY)
  else teadfs_set_clinet_connect 1;; mret 0.

Definition teadfs_miscdev_release : M Z := teadfs_set_clinet_connect 0;; mret 0.
Definition teadfs_miscdev_read : M Z := mret (- EFAULT).
Definition teadfs_miscdev_write : M Z := mret (- EFAULT).
Definition teadfs_miscdev_poll : M Z := mret 0.

Definition teadfs_init_miscdev : M Z :=
  teadfs_set_clinet_connect 0;;
  vfs VC_misc_register.
Definition teadfs_destroy_miscdev : M () := vfs VC_misc_deregister;; mret ().

(** One client at a time, for opens that do not overlap: an open of the
    free device succeeds, every further one is EBUSY and changes nothing, and
    the release makes the device free again. *)
Theorem miscdev_exclusive (s : kstate) :
  (connect (ks_global s) = 0 →
     ∃ s', teadfs_miscdev_open s = Ret 0 s' ∧ connect (ks_global s') = 1 ∧
       pid (ks_global s') = pid (ks_global s) ∧
       teadfs_miscdev_open s' = Ret (- EBUSY) s' ∧
       ∃ s'', teadfs_miscdev_release s' = Ret 0 s'' ∧ connect (ks_global s'') = 0) ∧
  (connect (ks_global s) ≠ 0 → teadfs_miscdev_open s = Ret (- EBUSY) s).
Proof.
  split.
  - intros Hc. unfold teadfs_miscdev_open at 1, teadfs_get_client_connect, gets, mbind, M_bind.
    simpl. rewrite Hc. simpl. eexists. split; [done|]. split_and!; [done|done|done|].
    eexists. split; [done|]. done.
  - intros Hc. unfold teadfs_miscdev_open, teadfs_get_client_connect, gets, mbind, M_bind.
    simpl. rewrite (proj2 (Z.eqb_neq _ _)) by done. done.
Qed.
End Miscdev.

(** * Overlapping opens *)
Module Opener.

(** Where an open is: before the read of the flag, between the read (which
    gave the value) and the write, or back with its result. *)
Inductive pc := Enter | Read (seen : Z) | Back (rc : Z).
Record state := State { flag : Z; openers : list pc }.

(** One critical section of opener [i]. *)
Definition turn (i : nat) (s : state) : option state :=
  match openers s !! i with
  | Some Enter => Some (State (flag s) (<[i := Read (flag s)]> (openers s)))
  | Some (Read seen) =>
      if seen =? 0 then Some (State 1 (<[i := Back 0]> (openers s)))
      else Some (State (flag s) (<[i := Back (- EBUSY)]> (openers s)))
  | _ => None
  end.
Fixpoint turns (sched : list nat) (s : state) : option state :=
  match sched with
  | [] => Some s
  | i :: sched => s' ← turn i s; turns sched s'
  end.

#[local] Instance pc_eq_dec : EqDecision pc.
Proof. solve_decision. Defined.

Definition start (n : nat) : state := State 0 (replicate n Enter).
(** How many opens came back with success. *)
Definition holders (s : state) : nat :=
  length (filter (λ p, p = Back 0) (openers s)).

Lemma turns_app l1 l2 s : turns (l1 ++ l2) s = (s' ← turns l1 s; turns l2 s').
Proof.
  revert s. induction l1 as [|i l1 IH]; intros s; [done|].
  simpl. destruct (turn i s); [apply IH|done].
Qed.

(** A pass over the openers from [i] on that moves each from [p] to [p']. *)
Lemma turns_pass p p' f' k : (∀ pre post f, f = f' ∨ f = 0 →
    turn (length pre) (State f (pre ++ p :: post)) = Some (State f' (pre ++ p' :: post))) →
  ∀ i pre f, length pre = i → f = f' ∨ f = 0 → k ≠ O →
  turns (seq i k) (State f (pre ++ replicate k p)) = Some (State f' (pre ++ replicate k p')).
Proof.
  intros Hstep. induction k as [|k IH]; intros i pre f Hi Hf Hk; [done|].
  simpl. rewrite <- Hi at 1. rewrite Hstep by done. simpl.
  destruct k as [|k]; [done|].
  rewrite (cons_middle p'), app_assoc.
  rewrite (IH (S i) (pre ++ [p'])); [by rewrite <- app_assoc|rewrite length_app; simpl; lia|by left|done].
Qed.

(** The check and the claim of the device are separate: any number of
    overlapping opens can all read the free flag first, and then all of them
    succeed. *)
Theorem opens_race (n : nat) : n ≠ O →
  ∃ sched s, turns sched (start n) = Some s ∧ holders s = n.
Proof.
  intros Hn. exists (seq 0 n ++ seq 0 n), (State 1 (replicate n (Back 0))). split.
  - rewrite turns_app. unfold start.
    rewrite (turns_pass Enter (Read 0) 0 n) with (pre := []); [|..]; try done.
    + simpl. rewrite (turns_pass (Read 0) (Back 0) 1 n) with (pre := []); try done; [|by right].
      intros pre post f _. unfold turn. simpl. rewrite list_lookup_middle by done. simpl.
      by rewrite insert_app_r_alt, Nat.sub_diag by done.
    + intros pre post f [-> | ->]; unfold turn; simpl; rewrite list_lookup_middle by done;
        by rewrite insert_app_r_alt, Nat.sub_diag by done.
    + by left.
  - unfold holders. simpl. induction n as [|n IH]; [done|].
    destruct n; [done|]. change (replicate (S (S n)) (Back 0)) with (Back 0 :: replicate (S n) (Back 0)).
    rewrite filter_cons_True by done. simpl length. f_equal. by apply IH.
Qed.
End Opener.
