(* ===== verification/Concurrent.v ===== *)
(** Requests and replies interleaved: [teadfs_request_send] and
    [teadfs_request_wait_answer] of [user_com.c] against
    [teadfs_netlink_receive] of [netlink.c], at the granularity of their
    accesses to shared storage.

    Any number of requesters and receivers run; the environment starts them and
    chooses who moves, which allocations fail and when a wait times out.  The
    queue's mutex and the contexts' mutexes are modelled; an access to a context
    that is not allocated is the outcome [Uaf]. *)
From S2P Require Import Prelude Protocol Netlink GlobalParam Daemon.
Local Open Scope Z_scope.

(** * The system *)

(** [struct teadfs_msg_ctx]; [cx_resp] is the block of the response. *)
Record ctx := Ctx {
  cx_done : bool;               (* state is DONE, else PENDING *)
  cx_id : Z;
  cx_size : Z;
  cx_resp : option positive;
  cx_mux : option positive;     (* the thread that holds the mutex *)
}.

(** Where a requester is. *)
Inductive rq_pc :=
  | RqAlloc                                       (* line 50 *)
  | RqAdd (c : positive)                          (* 66-68, one critical section *)
  | RqSend (c : positive)                         (* 70 *)
  | RqWait (c : positive)                         (* 28, wait_event_timeout *)
  | RqTimedOut (c : positive)                     (* 31-35, one critical section *)
  | RqSize (c : positive)                         (* 75 *)
  | RqMsg (c : positive) (size : Z)               (* 76 *)
  | RqDel (c : positive) (size : Z) (resp : option positive)    (* 79-81 *)
  | RqFree (c : positive) (size : Z) (resp : option positive)   (* 83 *)
  | RqDone (size : Z) (resp : option positive).

(** Where a receiver of a datagram is. *)
Inductive rc_pc :=
  | RcLock                                        (* line 73 *)
  | RcScan                                        (* 74-75 *)
  | RcMux (c : positive)                          (* 76 *)
  | RcMark (c : positive)                         (* 79 *)
  | RcAlloc (c : positive)                        (* 80 *)
  | RcSize (c : positive) (r : positive)          (* 85 *)
  | RcCopy (c : positive) (r : positive)          (* 86 *)
  | RcWake (c : positive)                         (* 88-89 *)
  | RcUnlock                                      (* 93 *)
  | RcEnd.

Inductive thread := Rq (id : Z) (p : rq_pc) | Rc (d : bytes) (p : rc_pc).

(** A response block: the datagram it is for, and whether the copy is done. *)
Record block := Block { bk_dgram : bytes; bk_copied : bool }.

Record conf := Conf {
  cf_uid : Z;
  cf_threads : gmap positive thread;
  cf_qlock : option positive;
  cf_queue : list positive;
  cf_ctxs : gmap positive ctx;
  cf_blocks : gmap positive block;
}.

Definition start (uid : Z) : conf := Conf uid ∅ None [] ∅ ∅.

(** What a move leads to: nothing is possible, an access to storage that is not
    allocated, or the next state. *)
Inductive outcome := Blocked | Uaf | Next (s : conf).

Inductive move :=
  | Request                          (* somebody starts a request *)
  | Datagram (d : bytes)             (* a datagram for the kernel arrives *)
  | Run (t : positive)               (* thread t takes its next step *)
  | Timeout (t : positive)           (* thread t's wait times out *)
  | NoMemory (t : positive).         (* thread t's allocation fails *)

Definition goto (s : conf) (t : positive) (th : thread) : conf :=
  Conf (cf_uid s) (<[t := th]> (cf_threads s)) (cf_qlock s) (cf_queue s) (cf_ctxs s) (cf_blocks s).
Definition set_qlock (q : option positive) (s : conf) : conf :=
  Conf (cf_uid s) (cf_threads s) q (cf_queue s) (cf_ctxs s) (cf_blocks s).
Definition set_queue (q : list positive) (s : conf) : conf :=
  Conf (cf_uid s) (cf_threads s) (cf_qlock s) q (cf_ctxs s) (cf_blocks s).
Definition set_ctxs (m : gmap positive ctx) (s : conf) : conf :=
  Conf (cf_uid s) (cf_threads s) (cf_qlock s) (cf_queue s) m (cf_blocks s).
Definition set_blocks (m : gmap positive block) (s : conf) : conf :=
  Conf (cf_uid s) (cf_threads s) (cf_qlock s) (cf_queue s) (cf_ctxs s) m.
Definition set_uid (u : Z) (s : conf) : conf :=
  Conf u (cf_threads s) (cf_qlock s) (cf_queue s) (cf_ctxs s) (cf_blocks s).

(** Access to a context. *)
Definition with_ctx (s : conf) (c : positive) (k : ctx → outcome) : outcome :=
  match cf_ctxs s !! c with Some x => k x | None => Uaf end.
Definition put_ctx (c : positive) (x : ctx) (s : conf) : conf :=
  set_ctxs (<[c := x]> (cf_ctxs s)) s.

(** [list_for_each_entry]: the first context of the queue with this id; [None]
    when a context it visits is gone. *)
Fixpoint scan (m : gmap positive ctx) (id : Z) (q : list positive) : option (option positive) :=
  match q with
  | [] => Some None
  | c :: q =>
      match m !! c with
      | None => None
      | Some x => if id =? cx_id x then Some (Some c) else scan m id q
      end
  end.

Definition fresh_ctx (s : conf) : positive := fresh (dom (cf_ctxs s) : gset positive).
Definition fresh_block (s : conf) : positive := fresh (dom (cf_blocks s) : gset positive).
Definition fresh_thread (s : conf) : positive := fresh (dom (cf_threads s) : gset positive).

Definition is_free (l : option positive) : bool := match l with None => true | _ => false end.

Definition rq_run (s : conf) (t : positive) (id : Z) (p : rq_pc) : outcome :=
  match p with
  | RqAlloc =>
      let c := fresh_ctx s in
      Next (goto (put_ctx c (Ctx false id 0 None None) s) t (Rq id (RqAdd c)))
  | RqAdd c =>
      if is_free (cf_qlock s)
      then with_ctx s c (λ _, Next (goto (set_queue (cf_queue s ++ [c]) s) t (Rq id (RqSend c))))
      else Blocked
  | RqSend c => Next (goto s t (Rq id (RqWait c)))
  | RqWait c =>
      with_ctx s c (λ x, if cx_done x then Next (goto s t (Rq id (RqSize c))) else Blocked)
  | RqTimedOut c =>
      with_ctx s c (λ x,
        if is_free (cx_mux x)
        then Next (goto (put_ctx c (Ctx true (cx_id x) 0 None None) s) t (Rq id (RqSize c)))
        else Blocked)
  | RqSize c => with_ctx s c (λ x, Next (goto s t (Rq id (RqMsg c (cx_size x)))))
  | RqMsg c n => with_ctx s c (λ x, Next (goto s t (Rq id (RqDel c n (cx_resp x)))))
  | RqDel c n r =>
      if is_free (cf_qlock s)
      then with_ctx s c (λ _,
             Next (goto (set_queue (filter (λ c', c' ≠ c) (cf_queue s)) s) t (Rq id (RqFree c n r))))
      else Blocked
  | RqFree c n r =>
      with_ctx s c (λ _, Next (goto (set_ctxs (delete c (cf_ctxs s)) s) t (Rq id (RqDone n r))))
  | RqDone _ _ => Blocked
  end.

Definition rc_run (s : conf) (t : positive) (d : bytes) (p : rc_pc) : outcome :=
  match p with
  | RcLock =>
      if is_free (cf_qlock s) then Next (goto (set_qlock (Some t) s) t (Rc d RcScan)) else Blocked
  | RcScan =>
      match scan (cf_ctxs s) (dgram_id d) (cf_queue s) with
      | None => Uaf
      | Some None => Next (goto s t (Rc d RcUnlock))
      | Some (Some c) => Next (goto s t (Rc d (RcMux c)))
      end
  | RcMux c =>
      with_ctx s c (λ x,
        if is_free (cx_mux x)
        then Next (goto (put_ctx c (Ctx (cx_done x) (cx_id x) (cx_size x) (cx_resp x) (Some t)) s)
                     t (Rc d (RcMark c)))
        else Blocked)
  | RcMark c =>
      with_ctx s c (λ x,
        Next (goto (put_ctx c (Ctx true (cx_id x) (cx_size x) (cx_resp x) (cx_mux x)) s)
                t (Rc d (RcAlloc c))))
  | RcAlloc c =>
      with_ctx s c (λ x,
        let r := fresh_block s in
        Next (goto (put_ctx c (Ctx (cx_done x) (cx_id x) (cx_size x) (Some r) (cx_mux x))
                     (set_blocks (<[r := Block d false]> (cf_blocks s)) s))
                t (Rc d (RcSize c r))))
  | RcSize c r =>
      with_ctx s c (λ x,
        Next (goto (put_ctx c (Ctx (cx_done x) (cx_id x) (blen d - NLMSG_HDRLEN) (cx_resp x) (cx_mux x)) s)
                t (Rc d (RcCopy c r))))
  | RcCopy c r =>
      with_ctx s c (λ _,
        Next (goto (set_blocks (<[r := Block d true]> (cf_blocks s)) s) t (Rc d (RcWake c))))
  | RcWake c =>
      with_ctx s c (λ x,
        Next (goto (put_ctx c (Ctx (cx_done x) (cx_id x) (cx_size x) (cx_resp x) None) s)
                t (Rc d RcUnlock)))
  | RcUnlock => Next (goto (set_qlock None s) t (Rc d RcEnd))
  | RcEnd => Blocked
  end.

Definition exec (s : conf) (m : move) : outcome :=
  match m with
  | Request =>
      let id := next_unique_id (cf_uid s) in
      Next (goto (set_uid id s) (fresh_thread s) (Rq id RqAlloc))
  | Datagram d => Next (goto s (fresh_thread s) (Rc d RcLock))
  | Run t =>
      match cf_threads s !! t with
      | Some (Rq id p) => rq_run s t id p
      | Some (Rc d p) => rc_run s t d p
      | None => Blocked
      end
  | Timeout t =>
      match cf_threads s !! t with
      | Some (Rq id (RqWait c)) =>
          with_ctx s c (λ x, if cx_done x then Blocked else Next (goto s t (Rq id (RqTimedOut c))))
      | _ => Blocked
      end
  | NoMemory t =>
      match cf_threads s !! t with
      | Some (Rq id RqAlloc) => Next (goto s t (Rq id (RqDone 0 None)))
      | Some (Rc d (RcAlloc c)) =>
          with_ctx s c (λ x,
            Next (goto (put_ctx c (Ctx (cx_done x) (cx_id x) (cx_size x) None (cx_mux x)) s)
                    t (Rc d (RcWake c))))
      | _ => Blocked
      end
  end.

Inductive reachable (uid : Z) : conf → Prop :=
  | R_start : reachable uid (start uid)
  | R_step s m s' : reachable uid s → exec s m = Next s' → reachable uid s'.

(** A schedule, for concrete runs. *)
Fixpoint execs (ms : list move) (s : conf) : option conf :=
  match ms with
  | [] => Some s
  | m :: ms => match exec s m with Next s' => execs ms s' | _ => None end
  end.

Lemma execs_reachable uid ms s s' : reachable uid s → execs ms s = Some s' → reachable uid s'.
Proof.
  revert s. induction ms as [|m ms IH]; intros s Hs; simpl; [by intros [= <-]|].
  destruct (exec s m) eqn:E; [done..|]. apply IH. by eapply R_step.
Qed.

(** * The invariant *)

(** The context a requester works on, whether it is queued, and the response
    it has taken from it. *)
Definition rq_ctx (p : rq_pc) : option positive :=
  match p with
  | RqAdd c | RqSend c | RqWait c | RqTimedOut c | RqSize c | RqMsg c _ | RqDel c _ _
  | RqFree c _ _ => Some c
  | _ => None
  end.
Definition rq_queued (p : rq_pc) : bool :=
  match p with
  | RqSend _ | RqWait _ | RqTimedOut _ | RqSize _ | RqMsg _ _ | RqDel _ _ _ => true
  | _ => false
  end.
Definition rq_resp (p : rq_pc) : option positive :=
  match p with RqDel _ _ r | RqFree _ _ r | RqDone _ r => r | _ => None end.
Definition rq_left (p : rq_pc) : bool :=
  match p with RqFree _ _ _ | RqDone _ _ => true | _ => false end.

(** Whether a receiver holds the queue's mutex, the context it found, the one
    whose mutex it holds, the block it is filling. *)
Definition rc_holds (p : rc_pc) : bool :=
  match p with RcLock | RcEnd => false | _ => true end.
Definition rc_ctx (p : rc_pc) : option positive :=
  match p with
  | RcMux c | RcMark c | RcAlloc c | RcSize c _ | RcCopy c _ | RcWake c => Some c
  | _ => None
  end.
Definition rc_mux (p : rc_pc) : option positive :=
  match p with RcMux _ => None | _ => rc_ctx p end.
Definition rc_block (p : rc_pc) : option positive :=
  match p with RcSize _ r | RcCopy _ r => Some r | _ => None end.

(** Who has which lock. *)
Record lock_inv (s : conf) : Prop := LockInv {
  li_holder : ∀ t d p, cf_threads s !! t = Some (Rc d p) → rc_holds p = true → cf_qlock s = Some t;
  li_held : ∀ t, cf_qlock s = Some t →
    ∃ d p, cf_threads s !! t = Some (Rc d p) ∧ rc_holds p = true;
}.

(** Which contexts are there, and whose they are. *)
Record ctx_inv (s : conf) : Prop := CtxInv {
  ci_live : ∀ t id p c, cf_threads s !! t = Some (Rq id p) → rq_ctx p = Some c →
    ∃ x, cf_ctxs s !! c = Some x ∧ cx_id x = id;
  ci_own : ∀ t t' id id' p p' c,
    cf_threads s !! t = Some (Rq id p) → rq_ctx p = Some c →
    cf_threads s !! t' = Some (Rq id' p') → rq_ctx p' = Some c → t = t';
  ci_queue : ∀ c, c ∈ cf_queue s → ∃ t id p,
    cf_threads s !! t = Some (Rq id p) ∧ rq_ctx p = Some c ∧ rq_queued p = true;
  ci_found : ∀ t d p c, cf_threads s !! t = Some (Rc d p) → rc_ctx p = Some c →
    c ∈ cf_queue s ∧ ∃ x, cf_ctxs s !! c = Some x ∧ cx_id x = dgram_id d;
  ci_mux : ∀ c x t, cf_ctxs s !! c = Some x → cx_mux x = Some t →
    ∃ d p, cf_threads s !! t = Some (Rc d p) ∧ rc_mux p = Some c;
}.

(** Which response is whose. *)
Record block_inv (s : conf) : Prop := BlockInv {
  bi_resp : ∀ c x r, cf_ctxs s !! c = Some x → cx_resp x = Some r →
    ∃ b, cf_blocks s !! r = Some b ∧ dgram_id (bk_dgram b) = cx_id x;
  bi_taken : ∀ t id p r, cf_threads s !! t = Some (Rq id p) → rq_resp p = Some r →
    ∃ b, cf_blocks s !! r = Some b ∧ dgram_id (bk_dgram b) = id;
  bi_left : ∀ t id p r b, cf_threads s !! t = Some (Rq id p) → rq_resp p = Some r →
    rq_left p = true → cf_blocks s !! r = Some b → bk_copied b = true;
  bi_mine : ∀ t d p r, cf_threads s !! t = Some (Rc d p) → rc_block p = Some r →
    cf_blocks s !! r = Some (Block d false);
  bi_copying : ∀ r b, cf_blocks s !! r = Some b → bk_copied b = false →
    ∃ t d p, cf_threads s !! t = Some (Rc d p) ∧ rc_block p = Some r;
}.

(** Split the lookups of an updated map, everywhere. *)
Ltac look :=
  repeat match goal with
  | H : <[_ := _]> _ !! _ = Some _ |- _ =>
      apply lookup_insert_Some in H as [[? ?]|[? ?]]; simplify_eq/=
  | H : delete _ _ !! _ = Some _ |- _ =>
      apply lookup_delete_Some in H as [? ?]; simplify_eq/=
  end.

Lemma fresh_thread_none s : cf_threads s !! fresh_thread s = None.
Proof. unfold fresh_thread. apply not_elem_of_dom, is_fresh. Qed.
Lemma fresh_ctx_none s : cf_ctxs s !! fresh_ctx s = None.
Proof. unfold fresh_ctx. apply not_elem_of_dom, is_fresh. Qed.
Lemma fresh_block_none s : cf_blocks s !! fresh_block s = None.
Proof. unfold fresh_block. apply not_elem_of_dom, is_fresh. Qed.

(** The moves as a relation, one rule for each way to get on. *)
Inductive step (s : conf) : conf → Prop :=
  | St_request t id : cf_threads s !! t = None → id = next_unique_id (cf_uid s) →
      step s (goto (set_uid id s) t (Rq id RqAlloc))
  | St_datagram t d : cf_threads s !! t = None → step s (goto s t (Rc d RcLock))
  | St_alloc t id c : cf_threads s !! t = Some (Rq id RqAlloc) → cf_ctxs s !! c = None →
      step s (goto (put_ctx c (Ctx false id 0 None None) s) t (Rq id (RqAdd c)))
  | St_nomem t id : cf_threads s !! t = Some (Rq id RqAlloc) →
      step s (goto s t (Rq id (RqDone 0 None)))
  | St_add t id c : cf_threads s !! t = Some (Rq id (RqAdd c)) → cf_qlock s = None →
      step s (goto (set_queue (cf_queue s ++ [c]) s) t (Rq id (RqSend c)))
  | St_move t id p p' : cf_threads s !! t = Some (Rq id p) →
      rq_ctx p' = rq_ctx p → rq_queued p = true → rq_queued p' = true → rq_left p' = false →
      (∀ r, rq_resp p' = Some r → ∃ c x, rq_ctx p = Some c ∧ cf_ctxs s !! c = Some x ∧ cx_resp x = Some r) →
      step s (goto s t (Rq id p'))
  | St_give_up t id c x : cf_threads s !! t = Some (Rq id (RqTimedOut c)) →
      cf_ctxs s !! c = Some x → cx_mux x = None →
      step s (goto (put_ctx c (Ctx true (cx_id x) 0 None None) s) t (Rq id (RqSize c)))
  | St_del t id c n r : cf_threads s !! t = Some (Rq id (RqDel c n r)) → cf_qlock s = None →
      step s (goto (set_queue (filter (λ c', c' ≠ c) (cf_queue s)) s) t (Rq id (RqFree c n r)))
  | St_free t id c n r : cf_threads s !! t = Some (Rq id (RqFree c n r)) →
      step s (goto (set_ctxs (delete c (cf_ctxs s)) s) t (Rq id (RqDone n r)))
  | St_lock t d : cf_threads s !! t = Some (Rc d RcLock) → cf_qlock s = None →
      step s (goto (set_qlock (Some t) s) t (Rc d RcScan))
  | St_none t d : cf_threads s !! t = Some (Rc d RcScan) → step s (goto s t (Rc d RcUnlock))
  | St_found t d c x : cf_threads s !! t = Some (Rc d RcScan) → c ∈ cf_queue s →
      cf_ctxs s !! c = Some x → cx_id x = dgram_id d → step s (goto s t (Rc d (RcMux c)))
  | St_mux t d c x : cf_threads s !! t = Some (Rc d (RcMux c)) →
      cf_ctxs s !! c = Some x → cx_mux x = None →
      step s (goto (put_ctx c (Ctx (cx_done x) (cx_id x) (cx_size x) (cx_resp x) (Some t)) s)
                t (Rc d (RcMark c)))
  | St_mark t d c x : cf_threads s !! t = Some (Rc d (RcMark c)) → cf_ctxs s !! c = Some x →
      step s (goto (put_ctx c (Ctx true (cx_id x) (cx_size x) (cx_resp x) (cx_mux x)) s)
                t (Rc d (RcAlloc c)))
  | St_block t d c x r : cf_threads s !! t = Some (Rc d (RcAlloc c)) → cf_ctxs s !! c = Some x →
      cf_blocks s !! r = None →
      step s (goto (put_ctx c (Ctx (cx_done x) (cx_id x) (cx_size x) (Some r) (cx_mux x))
                     (set_blocks (<[r := Block d false]> (cf_blocks s)) s)) t (Rc d (RcSize c r)))
  | St_noblock t d c x : cf_threads s !! t = Some (Rc d (RcAlloc c)) → cf_ctxs s !! c = Some x →
      step s (goto (put_ctx c (Ctx (cx_done x) (cx_id x) (cx_size x) None (cx_mux x)) s)
                t (Rc d (RcWake c)))
  | St_size t d c x r n : cf_threads s !! t = Some (Rc d (RcSize c r)) → cf_ctxs s !! c = Some x →
      step s (goto (put_ctx c (Ctx (cx_done x) (cx_id x) n (cx_resp x) (cx_mux x)) s)
                t (Rc d (RcCopy c r)))
  | St_copy t d c r : cf_threads s !! t = Some (Rc d (RcCopy c r)) →
      step s (goto (set_blocks (<[r := Block d true]> (cf_blocks s)) s) t (Rc d (RcWake c)))
  | St_wake t d c x : cf_threads s !! t = Some (Rc d (RcWake c)) → cf_ctxs s !! c = Some x →
      step s (goto (put_ctx c (Ctx (cx_done x) (cx_id x) (cx_size x) (cx_resp x) None) s)
                t (Rc d RcUnlock))
  | St_unlock t d : cf_threads s !! t = Some (Rc d RcUnlock) →
      step s (goto (set_qlock None s) t (Rc d RcEnd)).

Lemma scan_found m id q c : scan m id q = Some (Some c) →
  c ∈ q ∧ ∃ x, m !! c = Some x ∧ cx_id x = id.
Proof.
  induction q as [|c' q IH]; simpl; [done|]. destruct (m !! c') as [x|] eqn:E; [|done].
  destruct (id =? cx_id x) eqn:Eid.
  - intros [= <-]. apply Z.eqb_eq in Eid. split; [left|eauto].
  - intros Hs. destruct (IH Hs) as [? ?]. split; [by right|done].
Qed.

Lemma exec_step s m s' : exec s m = Next s' → step s s'.
Proof.
  destruct m as [|d|t|t|t]; simpl.
  - intros [= <-]. by apply St_request; [apply fresh_thread_none|].
  - intros [= <-]. apply St_datagram, fresh_thread_none.
  - destruct (cf_threads s !! t) as [[id p|d p]|] eqn:Ht; [| |done].
    + destruct p; unfold rq_run, with_ctx; intros Hex.
      * injection Hex as <-. by apply St_alloc; [|apply fresh_ctx_none].
      * destruct (cf_qlock s) eqn:?; [done|]. destruct (cf_ctxs s !! c); [|done].
        injection Hex as <-. by apply St_add.
      * injection Hex as <-. by eapply St_move.
      * destruct (cf_ctxs s !! c) as [x|]; [|done]. destruct (cx_done x); [|done].
        injection Hex as <-. by eapply St_move.
      * destruct (cf_ctxs s !! c) as [x|] eqn:?; [|done]. destruct (cx_mux x) eqn:?; [done|].
        injection Hex as <-. by eapply St_give_up.
      * destruct (cf_ctxs s !! c) as [x|]; [|done]. injection Hex as <-. by eapply St_move.
      * destruct (cf_ctxs s !! c) as [x|] eqn:?; [|done]. injection Hex as <-.
        eapply St_move; [done..|]. simpl. eauto.
      * destruct (cf_qlock s) eqn:?; [done|]. destruct (cf_ctxs s !! c); [|done].
        injection Hex as <-. by apply St_del.
      * destruct (cf_ctxs s !! c); [|done]. injection Hex as <-. by apply St_free.
      * done.
    + destruct p; unfold rc_run, with_ctx; intros Hex.
      * destruct (cf_qlock s) eqn:?; [done|]. injection Hex as <-. by apply St_lock.
      * destruct (scan _ _ _) as [[c|]|] eqn:Hsc; [| |done]; injection Hex as <-.
        -- apply scan_found in Hsc as (? & x & ? & ?). by eapply St_found.
        -- by apply St_none.
      * destruct (cf_ctxs s !! c) as [x|] eqn:?; [|done]. destruct (cx_mux x) eqn:?; [done|].
        injection Hex as <-. by eapply St_mux.
      * destruct (cf_ctxs s !! c) as [x|] eqn:?; [|done]. injection Hex as <-. by eapply St_mark.
      * destruct (cf_ctxs s !! c) as [x|] eqn:?; [|done]. injection Hex as <-.
        by eapply St_block; [| |apply fresh_block_none].
      * destruct (cf_ctxs s !! c) as [x|] eqn:?; [|done]. injection Hex as <-. by eapply St_size.
      * destruct (cf_ctxs s !! c) as [x|] eqn:?; [|done]. injection Hex as <-. by eapply St_copy.
      * destruct (cf_ctxs s !! c) as [x|] eqn:?; [|done]. injection Hex as <-. by eapply St_wake.
      * injection Hex as <-. by apply St_unlock.
      * done.
  - destruct (cf_threads s !! t) as [[id p|d p]|] eqn:Ht; [|done..].
    destruct p; try done. unfold with_ctx. destruct (cf_ctxs s !! c) as [x|]; [|done].
    destruct (cx_done x); [done|]. intros [= <-]. by eapply St_move.
  - destruct (cf_threads s !! t) as [[id p|d p]|] eqn:Ht; [| |done].
    + destruct p; try done. intros [= <-]. by apply St_nomem.
    + destruct p; try done. unfold with_ctx. destruct (cf_ctxs s !! c) as [x|] eqn:?; [|done].
      intros [= <-]. by eapply St_noblock.
Qed.

(** Find a thread of the old state, at [t0], in the new one, where [t] moved. *)
Ltac still t0 t :=
  destruct (decide (t0 = t)) as [->|?];
  [simplify_eq/=; try (do 2 eexists; rewrite lookup_insert_eq; split; [reflexivity|by eauto])
  |do 2 eexists; rewrite lookup_insert_ne by done; by eauto].

Lemma lock_step s s' : lock_inv s → step s s' → lock_inv s'.
Proof.
  intros [H1 H2] Hs. destruct Hs; split; simpl.
  all: try (intros t0 d0 p0 Hl0 Hh0; look; by eauto).
  all: try (intros t0 Hq; destruct (H2 t0) as (d0 & p0 & Ht0 & Hh0); [by eauto|]; still t0 t; fail).
  - intros t0 d0 p0 Hl0 Hh0. look; [done|]. rename select (_ !! t0 = _) into Ht0.
    specialize (H1 _ _ _ Ht0 Hh0). congruence.
  - intros t0 [= ->]. do 2 eexists. rewrite lookup_insert_eq. done.
  - intros t0 d0 p0 Hl0 Hh0. look. rename select (_ !! t0 = _) into Ht0.
    pose proof (H1 _ _ _ Ht0 Hh0). pose proof (H1 _ _ _ H eq_refl). congruence.
Qed.

(** An update of a context that keeps its id. *)
Lemma live_put (m : gmap positive ctx) c x y c0 id :
  (∃ x0, m !! c0 = Some x0 ∧ cx_id x0 = id) → m !! c = Some x → cx_id y = cx_id x →
  ∃ x0, <[c := y]> m !! c0 = Some x0 ∧ cx_id x0 = id.
Proof.
  intros (x0 & H0 & <-) Hc Hy. destruct (decide (c0 = c)) as [->|].
  - rewrite lookup_insert_eq. exists y. split; [done|]. congruence.
  - rewrite lookup_insert_ne by done. eauto.
Qed.

Lemma live_new (m : gmap positive ctx) c y c0 id :
  (∃ x0, m !! c0 = Some x0 ∧ cx_id x0 = id) → m !! c = None →
  ∃ x0, <[c := y]> m !! c0 = Some x0 ∧ cx_id x0 = id.
Proof. intros (x0 & H0 & <-) Hc. rewrite lookup_insert_ne by congruence. eauto. Qed.

Lemma ctx_live_step s s' : ctx_inv s → step s s' →
  ∀ t id p c, cf_threads s' !! t = Some (Rq id p) → rq_ctx p = Some c →
    ∃ x, cf_ctxs s' !! c = Some x ∧ cx_id x = id.
Proof.
  intros Hinv Hs t0 id0 p0 c0. pose proof (ci_live s Hinv) as HL.
  destruct Hs; simpl; intros Ht0 Hc0; look;
    try (by eapply HL); try (by eapply live_put; [by eapply HL|..]);
    try (by eapply live_new; [by eapply HL|..]).
  - rewrite lookup_insert_eq. eauto.
  - eapply HL; [done|congruence].
  - destruct (decide (c0 = c)) as [->|].
    + exfalso. by eauto using ci_own.
    + rewrite lookup_delete_ne by done. by eapply HL.
Qed.

Lemma ctx_own_step s s' : ctx_inv s → step s s' →
  ∀ t t' id id' p p' c,
    cf_threads s' !! t = Some (Rq id p) → rq_ctx p = Some c →
    cf_threads s' !! t' = Some (Rq id' p') → rq_ctx p' = Some c → t = t'.
Proof.
  intros Hinv Hs t0 t1 id0 id1 p0 p1 c0. pose proof (ci_live s Hinv) as HL.
  pose proof (ci_own s Hinv) as HO.
  destruct Hs; simpl; intros Ht0 Hc0 Ht1 Hc1; look; try done; try (by eapply HO).
  - exfalso. rename select (rq_ctx p0 = _) into Hp. destruct (HL _ _ _ _ H2 Hp) as (? & ? & ?). congruence.
  - exfalso. rename select (rq_ctx p1 = _) into Hp. destruct (HL _ _ _ _ H2 Hp) as (? & ? & ?). congruence.
  - eapply (HO t0 t1); [exact H6|exact Hc0|exact H|by rewrite <- H0].
  - eapply (HO t0 t1); [exact H|by rewrite <- H0|exact H6|exact Hc1].
Qed.

(** Find a queued requester of the old state in the new one. *)
Ltac still_queued t0 t :=
  destruct (decide (t0 = t)) as [->|?];
  [simplify_eq/=; try (do 3 eexists; rewrite lookup_insert_eq; split_and!; [reflexivity|by eauto|by eauto])
  |do 3 eexists; rewrite lookup_insert_ne by done; by eauto].

Lemma ctx_queue_step s s' : ctx_inv s → step s s' →
  ∀ c, c ∈ cf_queue s' → ∃ t id p,
    cf_threads s' !! t = Some (Rq id p) ∧ rq_ctx p = Some c ∧ rq_queued p = true.
Proof.
  intros Hinv Hs c0. pose proof (ci_queue s Hinv) as HQ.
  destruct Hs; simpl; intros Hc0;
    try (destruct (HQ c0 Hc0) as (t0 & id0 & p0 & Ht0 & Hp0 & Hq0); still_queued t0 t).
  - apply elem_of_app in Hc0 as [Hc0|Hc0%list_elem_of_singleton].
    + destruct (HQ c0 Hc0) as (t0 & id0 & p0 & Ht0 & Hp0 & Hq0). still_queued t0 t.
    + subst c0. do 3 eexists. by rewrite lookup_insert_eq.
  - do 3 eexists. rewrite lookup_insert_eq. split_and!; [reflexivity|congruence|done].
  - apply list_elem_of_filter in Hc0 as [Hne Hc0].
    destruct (HQ c0 Hc0) as (t0 & id0 & p0 & Ht0 & Hp0 & Hq0). still_queued t0 t.
Qed.

Lemma rc_ctx_holds p c : rc_ctx p = Some c → rc_holds p = true.
Proof. by destruct p. Qed.

(** A context that is queued is not the one a leaving requester frees. *)
Lemma freed_not_queued s t id c n r :
  ctx_inv s → cf_threads s !! t = Some (Rq id (RqFree c n r)) → c ∉ cf_queue s.
Proof.
  intros Hinv Ht Hc. destruct (ci_queue s Hinv c Hc) as (t0 & id0 & p0 & Ht0 & Hp0 & Hq0).
  assert (t0 = t) as -> by (by eapply (ci_own s Hinv t0 t)). by simplify_eq.
Qed.

Lemma ctx_found_step s s' : lock_inv s → ctx_inv s → step s s' →
  ∀ t d p c, cf_threads s' !! t = Some (Rc d p) → rc_ctx p = Some c →
    c ∈ cf_queue s' ∧ ∃ x, cf_ctxs s' !! c = Some x ∧ cx_id x = dgram_id d.
Proof.
  intros Hlock Hinv Hs t0 d0 p0 c0. pose proof (ci_found s Hinv) as HF.
  destruct Hs; simpl; intros Ht0 Hc0; look;
    try (rename select (cf_threads s !! t0 = Some (Rc d0 p0)) into Ht0;
         destruct (HF _ _ _ _ Ht0 Hc0) as [Hq Hl]);
    try (by eauto); try (by split; [|by eapply live_put]); try (by split; [|by eapply live_new]);
    try (by destruct (HF _ _ _ _ H eq_refl); split; [|by eapply live_put]).
  - split; [|done]. apply elem_of_app. by left.
  - exfalso. pose proof (li_holder s Hlock _ _ _ Ht0 (rc_ctx_holds _ _ Hc0)). congruence.
  - split; [done|]. pose proof (freed_not_queued s _ _ _ _ _ Hinv H).
    rewrite lookup_delete_ne by (intros ->; done). done.
Qed.

Lemma ctx_mux_step s s' : ctx_inv s → step s s' →
  ∀ c x t, cf_ctxs s' !! c = Some x → cx_mux x = Some t →
    ∃ d p, cf_threads s' !! t = Some (Rc d p) ∧ rc_mux p = Some c.
Proof.
  intros Hinv Hs c0 x0 t0. pose proof (ci_mux s Hinv) as HM.
  destruct Hs; simpl; intros Hc0 Hm0; look;
    try (match goal with Hx : cf_ctxs s !! ?c = Some ?x, Hm : cx_mux ?x = Some t0 |- _ =>
           destruct (HM _ _ _ Hx Hm) as (d0 & p0 & Ht0 & Hp0); still t0 t; fail end).
  do 2 eexists. by rewrite lookup_insert_eq.
Qed.

Lemma ctx_step s s' : lock_inv s → ctx_inv s → step s s' → ctx_inv s'.
Proof.
  intros Hlock Hinv Hs. split.
  - by eapply ctx_live_step.
  - by eapply ctx_own_step.
  - by eapply ctx_queue_step.
  - by eapply ctx_found_step.
  - by eapply ctx_mux_step.
Qed.

(** A block stays when another is allocated, and when its copy is completed. *)
Lemma block_new (m : gmap positive block) r b r0 (P : bytes → Prop) :
  (∃ b0, m !! r0 = Some b0 ∧ P (bk_dgram b0)) → m !! r = None →
  ∃ b0, <[r := b]> m !! r0 = Some b0 ∧ P (bk_dgram b0).
Proof. intros (b0 & H0 & HP) Hr. rewrite lookup_insert_ne by congruence. eauto. Qed.

Lemma block_filled (m : gmap positive block) r d r0 (P : bytes → Prop) :
  (∃ b0, m !! r0 = Some b0 ∧ P (bk_dgram b0)) → m !! r = Some (Block d false) →
  ∃ b0, <[r := Block d true]> m !! r0 = Some b0 ∧ P (bk_dgram b0).
Proof.
  intros (b0 & H0 & HP) Hr. destruct (decide (r0 = r)) as [->|].
  - rewrite lookup_insert_eq. eexists; split; [done|]. by simplify_eq/=.
  - rewrite lookup_insert_ne by done. eauto.
Qed.

Lemma block_resp_step s s' : ctx_inv s → block_inv s → step s s' →
  ∀ c x r, cf_ctxs s' !! c = Some x → cx_resp x = Some r →
    ∃ b, cf_blocks s' !! r = Some b ∧ dgram_id (bk_dgram b) = cx_id x.
Proof.
  intros Hctx Hinv Hs c0 x0 r0. pose proof (bi_resp s Hinv) as HR.
  destruct Hs; simpl; intros Hc0 Hr0; look; try (by eapply HR);
    try (by eapply (block_new _ _ _ _ (λ d, dgram_id d = _)); [eapply HR|..]);
    try (by eapply (block_filled _ _ _ _ (λ d, dgram_id d = _)); [eapply HR|eapply bi_mine]).
  eexists. rewrite lookup_insert_eq. split; [done|]. simpl.
  destruct (ci_found s Hctx _ _ _ _ H eq_refl) as [_ (x0 & ? & ?)]. by simplify_eq.
Qed.

Lemma block_taken_step s s' : ctx_inv s → block_inv s → step s s' →
  ∀ t id p r, cf_threads s' !! t = Some (Rq id p) → rq_resp p = Some r →
    ∃ b, cf_blocks s' !! r = Some b ∧ dgram_id (bk_dgram b) = id.
Proof.
  intros Hctx Hinv Hs t0 id0 p0 r0. pose proof (bi_taken s Hinv) as HT.
  destruct Hs; simpl; intros Ht0 Hr0; look; try (by eapply HT);
    try (by eapply (block_new _ _ _ _ (λ d, dgram_id d = _)); [eapply HT|..]);
    try (by eapply (block_filled _ _ _ _ (λ d, dgram_id d = _)); [eapply HT|eapply bi_mine]).
  destruct (H4 _ Hr0) as (c & x & Hc & Hx & Hr).
  destruct (ci_live s Hctx _ _ _ _ H Hc) as (x' & ? & <-). simplify_eq.
  by eapply bi_resp.
Qed.

Lemma rc_block_holds p r : rc_block p = Some r → rc_holds p = true.
Proof. by destruct p. Qed.

Lemma block_left_step s s' : lock_inv s → block_inv s → step s s' →
  ∀ t id p r b, cf_threads s' !! t = Some (Rq id p) → rq_resp p = Some r →
    rq_left p = true → cf_blocks s' !! r = Some b → bk_copied b = true.
Proof.
  intros Hlock Hinv Hs t0 id0 p0 r0 b0. pose proof (bi_left s Hinv) as HL.
  destruct Hs; simpl; intros Ht0 Hr0 Hl0 Hb0; look; try (by eapply HL).
  all: try done. all: try congruence.
  - destruct (bk_copied b0) eqn:Hf; [done|]. exfalso.
    destruct (bi_copying s Hinv _ _ Hb0 Hf) as (t1 & d1 & p1 & Ht1 & Hp1).
    pose proof (li_holder s Hlock _ _ _ Ht1 (rc_block_holds _ _ Hp1)). congruence.
  - exfalso. rename select (cf_threads s !! t0 = _) into Ht0.
    destruct (bi_taken s Hinv _ _ _ _ Ht0 Hr0) as (? & ? & _). congruence.
Qed.

Lemma block_mine_step s s' : lock_inv s → block_inv s → step s s' →
  ∀ t d p r, cf_threads s' !! t = Some (Rc d p) → rc_block p = Some r →
    cf_blocks s' !! r = Some (Block d false).
Proof.
  intros Hlock Hinv Hs t0 d0 p0 r0. pose proof (bi_mine s Hinv) as HM.
  destruct Hs; simpl; intros Ht0 Hr0; look; try (by eapply HM).
  - apply lookup_insert_eq.
  - rename select (cf_threads s !! t0 = _) into Ht0. pose proof (HM _ _ _ _ Ht0 Hr0).
    by rewrite lookup_insert_ne by congruence.
  - rename select (cf_threads s !! t0 = _) into Ht0.
    pose proof (li_holder s Hlock _ _ _ Ht0 (rc_block_holds _ _ Hr0)).
    pose proof (li_holder s Hlock _ _ _ H eq_refl). congruence.
Qed.

Lemma block_copying_step s s' : block_inv s → step s s' →
  ∀ r b, cf_blocks s' !! r = Some b → bk_copied b = false →
    ∃ t d p, cf_threads s' !! t = Some (Rc d p) ∧ rc_block p = Some r.
Proof.
  intros Hinv Hs r0 b0. pose proof (bi_copying s Hinv) as HC.
  destruct Hs; simpl; intros Hr0 Hb0; look;
    try (match goal with Hr : cf_blocks s !! ?r = Some ?b, Hb : bk_copied ?b = false |- _ =>
           destruct (HC _ _ Hr Hb) as (t0 & d0 & p0 & Ht0 & Hp0); exists t0; still t0 t; fail end).
  do 3 eexists. by rewrite lookup_insert_eq.
Qed.

Lemma block_step s s' : lock_inv s → ctx_inv s → block_inv s → step s s' → block_inv s'.
Proof.
  intros Hlock Hctx Hinv Hs. split.
  - by eapply block_resp_step.
  - by eapply block_taken_step.
  - by eapply block_left_step.
  - by eapply block_mine_step.
  - by eapply block_copying_step.
Qed.

Record inv (s : conf) : Prop := Inv {
  inv_lock : lock_inv s;
  inv_ctx : ctx_inv s;
  inv_block : block_inv s;
}.

Lemma inv_start uid : inv (start uid).
Proof. split; split; intros *; simpl; try done; set_solver. Qed.

Lemma inv_reachable uid s : reachable uid s → inv s.
Proof.
  induction 1 as [|s m s' _ [Hl Hc Hb] Hex%exec_step]; [apply inv_start|].
  split; [by eapply lock_step|by eapply ctx_step|by eapply block_step].
Qed.

(** * What holds in every reachable state *)

Lemma queue_live s c : ctx_inv s → c ∈ cf_queue s → is_Some (cf_ctxs s !! c).
Proof.
  intros Hinv Hc. destruct (ci_queue s Hinv c Hc) as (t & id & p & Ht & Hp & _).
  destruct (ci_live s Hinv _ _ _ _ Ht Hp) as (x & Hx & _). eauto.
Qed.

Lemma scan_safe m id q : (∀ c, c ∈ q → is_Some (m !! c)) → is_Some (scan m id q).
Proof.
  induction q as [|c q IH]; intros Hq; simpl; [eauto|].
  destruct (Hq c) as [x ->]; [left|]. destruct (id =? cx_id x); [eauto|].
  apply IH. intros c' Hc'. apply Hq. by right.
Qed.

Lemma with_ctx_safe s c x k : cf_ctxs s !! c = Some x → k x ≠ Uaf → with_ctx s c k ≠ Uaf.
Proof. unfold with_ctx. by intros ->. Qed.

Lemma rq_run_safe s t id p : ctx_inv s → cf_threads s !! t = Some (Rq id p) → rq_run s t id p ≠ Uaf.
Proof.
  intros Hinv Ht. destruct p; simpl; try done;
    try (destruct (is_free (cf_qlock s)); [|done]);
    (destruct (ci_live s Hinv _ _ _ _ Ht eq_refl) as (x & Hx & _);
     eapply with_ctx_safe; [exact Hx|]); simpl; by try case_match.
Qed.

Lemma rc_run_safe s t d p : ctx_inv s → cf_threads s !! t = Some (Rc d p) → rc_run s t d p ≠ Uaf.
Proof.
  intros Hinv Ht. destruct p; simpl; try done;
    try (destruct (ci_found s Hinv _ _ _ _ Ht eq_refl) as [_ (x & Hx & _)];
         eapply with_ctx_safe; [exact Hx|]; simpl; by try case_match).
  - by destruct (is_free (cf_qlock s)).
  - destruct (scan_safe (cf_ctxs s) (dgram_id d) (cf_queue s)) as [[c|] ->]; [|done..].
    intros c. by apply queue_live.
Qed.

(** C4: whatever the interleaving of any number of requests, replies, timeouts
    and failed allocations, neither [teadfs_request_send] nor
    [teadfs_netlink_receive] touches a context that has been freed. *)
Theorem no_use_after_free uid s m : reachable uid s → exec s m ≠ Uaf.
Proof.
  intros [_ Hinv _]%inv_reachable. destruct m as [|d|t|t|t]; simpl; [done..| | |].
  - destruct (cf_threads s !! t) as [[id p|d p]|] eqn:Ht; [| |done].
    + by apply rq_run_safe.
    + by apply rc_run_safe.
  - destruct (cf_threads s !! t) as [[id p|d p]|] eqn:Ht; try done. destruct p; try done.
    destruct (ci_live s Hinv _ _ _ _ Ht eq_refl) as (x & Hx & _).
    eapply with_ctx_safe; [exact Hx|]. by destruct (cx_done x).
  - destruct (cf_threads s !! t) as [[id p|d p]|] eqn:Ht; try done; destruct p; try done.
    destruct (ci_found s Hinv _ _ _ _ Ht eq_refl) as [_ (x & Hx & _)].
    by eapply with_ctx_safe.
Qed.

(** C5: a request that has returned a response returned a block that holds a
    datagram with the request's own message id, completely copied, even though
    [teadfs_request_send] reads the response without the context's mutex. *)
Theorem reply_is_own uid s t id n r :
  reachable uid s → cf_threads s !! t = Some (Rq id (RqDone n (Some r))) →
  ∃ d, cf_blocks s !! r = Some (Block d true) ∧ dgram_id d = id.
Proof.
  intros [_ _ Hinv]%inv_reachable Ht.
  destruct (bi_taken s Hinv _ _ _ _ Ht eq_refl) as ([d b] & Hb & Hid).
  pose proof (bi_left s Hinv _ _ _ _ _ Ht eq_refl eq_refl Hb) as Hc. simpl in *. subst. eauto.
Qed.

(** The steps a receiver still makes before it lets the queue's mutex go. *)
Definition rc_left (p : rc_pc) : nat :=
  match p with
  | RcLock => 9 | RcScan => 8 | RcMux _ => 7 | RcMark _ => 6 | RcAlloc _ => 5
  | RcSize _ _ => 4 | RcCopy _ _ => 3 | RcWake _ => 2 | RcUnlock => 1 | RcEnd => 0
  end.

Ltac moved :=
  do 2 eexists; split; [reflexivity|]; simpl; rewrite lookup_insert_eq;
  split_and!; [reflexivity|simpl; lia|done].

(** The holder of the queue's mutex is never blocked. *)
Lemma holder_moves s t d p : inv s → cf_threads s !! t = Some (Rc d p) → rc_holds p = true →
  ∃ s' p', exec s (Run t) = Next s' ∧ cf_threads s' !! t = Some (Rc d p') ∧
    (rc_left p' < rc_left p)%nat ∧ (rc_holds p' = false → cf_qlock s' = None).
Proof.
  intros [Hl Hc Hb] Ht Hh. simpl. rewrite Ht.
  destruct p; simpl in *; try done;
    try (destruct (ci_found s Hc _ _ _ _ Ht eq_refl) as [_ (x & Hx & _)]; unfold with_ctx;
         rewrite ?Hx).
  all: try (moved; fail).
  - destruct (scan_safe (cf_ctxs s) (dgram_id d) (cf_queue s)) as [[c|] ->];
      [by intros c; apply queue_live|..];
      moved.
  - destruct (cx_mux x) as [t'|] eqn:Hm.
    + exfalso. destruct (ci_mux s Hc _ _ _ Hx Hm) as (d' & p' & Ht' & Hp').
      assert (Hh' : rc_holds p' = true) by (by destruct p').
      pose proof (li_holder s Hl _ _ _ Ht Hh). pose proof (li_holder s Hl _ _ _ Ht' Hh').
      simplify_eq.
    + moved.
Qed.

(** C34: the queue's mutex is always let go: in every reachable state where it is
    held, its holder, left to run, gives it up in at most eight steps. *)
Theorem queue_lock_released uid s t :
  reachable uid s → cf_qlock s = Some t →
  ∃ n s', (n ≤ 8)%nat ∧ execs (repeat (Run t) n) s = Some s' ∧ cf_qlock s' = None.
Proof.
  intros Hs Ht. destruct (li_held s (inv_lock s (inv_reachable uid s Hs)) t Ht) as (d & p & Hp & Hh).
  assert (Hn : (rc_left p ≤ 8)%nat) by (destruct p; simpl in *; lia || done).
  clear Ht. revert s p Hs Hp Hh Hn. generalize 8%nat. intros k. induction k as [|k IH]; intros s p Hs Hp Hh Hn.
  { destruct p; simpl in *; lia || done. }
  destruct (holder_moves s t d p) as (s' & p' & Hex & Hp' & Hlt & Hq); [by eapply inv_reachable|done..|].
  destruct (rc_holds p') eqn:Hh'.
  - destruct (IH s' p') as (n & s'' & ? & Hex' & ?); [by eapply R_step|done..|lia|].
    exists (S n), s''. split; [lia|]. cbn [repeat execs]. by rewrite Hex.
  - exists 1%nat, s'. split; [lia|]. cbn [repeat execs]. rewrite Hex. auto.
Qed.

(** * Replies that go astray *)

(** The datagram of a process that answers message [id] with a bare packet. *)
Definition answer (id : Z) : bytes := SendMsg 0 0 (put h_msg_id id (zeros sizeof_packet_info)).

(** [RcMark] sets [DONE] before the response is there: the requester leaves with
    nothing while the block stays behind; one step later it has the block but
    still the size 0. *)
Definition schedule (k : nat) : list move :=
  [Request; Run 1; Run 1; Run 1; Datagram (answer 1)]
    ++ repeat (Run 2) k ++ repeat (Run 1) 3 ++ repeat (Run 2) (9 - k) ++ repeat (Run 1) 2.

(** A reply that is delivered can still be lost or torn.  The state is set to
    [DONE] before the response and its size are there, and the requester looks at
    the three without the context's mutex: there is a run where the datagram is
    received in full while the request returns no response and the block stays
    behind unreferenced, and one where the request returns the whole block with
    the size 0. *)
Theorem reply_lost_or_torn :
  (∃ s, reachable 0 s ∧ cf_threads s !! 1%positive = Some (Rq 1 (RqDone 0 None)) ∧
     cf_threads s !! 2%positive = Some (Rc (answer 1) RcEnd) ∧ cf_ctxs s = ∅ ∧
     cf_blocks s = {[ 1%positive := Block (answer 1) true ]}) ∧
  (∃ s, reachable 0 s ∧ cf_threads s !! 1%positive = Some (Rq 1 (RqDone 0 (Some 1%positive))) ∧
     cf_threads s !! 2%positive = Some (Rc (answer 1) RcEnd) ∧ cf_ctxs s = ∅ ∧
     cf_blocks s = {[ 1%positive := Block (answer 1) true ]}).
Proof.
  split; eexists;
    [split; [apply (execs_reachable 0 (schedule 4) (start 0)); [constructor|vm_compute; reflexivity]|]
    |split; [apply (execs_reachable 0 (schedule 5) (start 0)); [constructor|vm_compute; reflexivity]|]];
    vm_compute; repeat split.
Qed.
