(* ===== verification/Super.v ===== *)
(** [TEADFS/src/super.c]: allocating, evicting and destroying the inodes of the
    upper layer.

    The storage of [struct teadfs_inode_info], with the inode inside it, is the
    entry of [ks_inodes]: allocation adds one, [teadfs_free] removes it, and an
    access to a removed one is undefined. *)
From S2P Require Import Prelude Kernel Protocol Wp Vfs.
Local Open Scope Z_scope.

Definition TEADFS_SUPER_MAGIC : Z := 1145128276.   (* 0x44414554 *)

(** What [teadfs_zalloc] and the initialisers of [teadfs_alloc_inode] leave. *)
Definition blank_mapping (i : positive) : address_space := AddressSpace 0 i 0 0 0 0 0.
Definition blank_inode (i : positive) : inode :=
  Inode zero_attr (IMeta 1 0 0 0 NoIops NoFops false) 0 None 0 0 (blank_mapping i) (blank_mapping i).

Section Super.
Context `{KernelEnv}.

Definition teadfs_alloc_inode (sb : positive) : M (option positive) :=
  i ← gets (λ s, fresh (dom (ks_inodes s) : gset positive));
  ok ← kzalloc_try sizeof_inode_info;
  if (ok : bool) then put_inode i (blank_inode i);; mret (Some i) else mret None.

(** The callback frees the storage, then writes a field of it. *)
Definition teadfs_i_callback (i : positive) : M () :=
  get_inode i;;
  modify (set_inodes (delete i));;
  teadfs_set_inode_lower i None.

(** [call_rcu] defers the callback. *)
Definition teadfs_destroy_inode (i : positive) : M () :=
  vfs (VC_call_rcu i);; mret ().

(** The second result is [buf->f_type], when the function sets it. *)
Definition teadfs_statfs (dentry : positive) : M (Z * option Z) :=
  lower_path ← teadfs_get_lower_path (Some dentry);
  lower_dentry ← deref (p_dentry lower_path);
  has ← gets (λ s, lower_has_op (ks_lfs s) (lower_d_sb (ks_lfs s) lower_dentry) IO_statfs);
  r ← (if negb has then mret (- ENOSYS, None) else
       rc ← vfs (VC_statfs lower_dentry);
       if negb (rc =? 0) then mret (rc, None) else mret (rc, Some TEADFS_SUPER_MAGIC));
  teadfs_put_lower_path dentry;;
  mret r.

Definition teadfs_evict_inode (i : positive) : M () :=
  vfs (VC_truncate_inode_pages i);;
  vfs (VC_clear_inode i);;
  l ← teadfs_inode_to_lower i;
  iput l.

Definition teadfs_show_options : bytes := str "teadfs".

End Super.

(** * Properties *)
Section SuperLemmas.
Context `{KernelEnv}.

(** Every inode that is destroyed is written to after it was freed. *)
Theorem destroy_use_after_free (s : kstate) (i : positive) :
  is_Some (ks_inodes s !! i) → teadfs_i_callback i s = Ub WildPointer.
Proof.
  intros [x Hi]. apply ub_bind_wp. eapply wp_get_inode; [exact Hi|].
  apply ub_bind_wp, wp_modify, ub_bind. unfold get_inode. simpl. by rewrite lookup_delete_eq.
Qed.

(** Evicting an inode empties its page cache and gives back the one
    reference it holds to its lower inode. *)
Theorem evict_puts_lower (s : kstate) (i li : positive) (x : inode) (X : gmultiset ref) :
  ks_inodes s !! i = Some x → lower_inode x = Some li → ks_refs s = {[+ RInode li +]} ⊎ X →
  wp (teadfs_evict_inode i) (λ _ s', ks_refs s' = X ∧ ks_inodes s' = ks_inodes s ∧
    ks_calls s' = ks_calls s ++ [VC_truncate_inode_pages i; VC_clear_inode i]) s.
Proof.
  intros Hi Hl HX. apply wp_bind, wp_vfs, wp_bind, wp_vfs, wp_bind, wp_bind.
  eapply wp_get_inode; [exact Hi|]. apply wp_ret. rewrite Hl. eapply wp_ref_put; [exact HX|].
  split_and!; [done|done|]. simpl. by rewrite <- app_assoc.
Qed.

(** The statistics of the upper file system are the lower one's, but for the
    magic number, which is set when the lower call succeeds; a lower file
    system without the call is ENOSYS. *)
Theorem statfs_passes_through (s : kstate) (d ld : positive) (x : dentry) :
  dentry_at s d x → p_dentry (lower_path x) = Some ld →
  let rc := vcall_rc (ks_calls s) (VC_statfs ld) in
  wp (teadfs_statfs d) (λ r s', r =
    (if lower_has_op (ks_lfs s) (lower_d_sb (ks_lfs s) ld) IO_statfs
     then (rc, if rc =? 0 then Some TEADFS_SUPER_MAGIC else None) else (- ENOSYS, None))) s.
Proof.
  intros Hx Hl rc. apply wp_bind. eapply wp_get_lower_path; [exact Hx|]. rewrite Hl.
  apply wp_bind, wp_deref, wp_bind, wp_gets. destruct (lower_has_op _ _ _); cbn [negb].
  - apply wp_bind, wp_bind, wp_vfs. fold rc. destruct (rc =? 0); cbn [negb];
      apply wp_ret, wp_bind; (eapply wp_put_lower_path; [exact Hx|]); by apply wp_ret.
  - apply wp_bind, wp_ret, wp_bind. eapply wp_put_lower_path; [exact Hx|]. by apply wp_ret.
Qed.

End SuperLemmas.
