(* ===== verification/Lookup.v ===== *)
(** [TEADFS/src/lookup.c]: the upper inode of a lower inode, and looking up
    names.

    [iget5_locked] is the kernel's inode cache: it is [ks_inodes] searched by
    super block and by the module's test, or a new inode made by the module's
    [alloc_inode] and [teadfs_inode_set]. *)
From S2P Require Import Prelude Kernel Protocol Wp Vfs Super.
Local Open Scope Z_scope.

(** The address of [teadfs_aops]. *)
Definition teadfs_aops : Z := 1.

Section Lookup.
Context `{KernelEnv}.

Definition teadfs_inode_test (x : inode) (lower_inode : positive) : bool :=
  bool_decide (Kernel.lower_inode x = Some lower_inode).

Definition set_mapping (f : address_space → address_space) (x : inode) : inode :=
  Inode (i_attr x) (i_meta x) (i_size x) (lower_inode x) (lower_file_count x) (file_decrypt x)
    (f (i_mapping x)) (i_decrypt x).
Definition with_ops (io : iops) (fo : fops) (m : imeta) : imeta :=
  IMeta (i_sb m) (i_ino m) (i_version m) (i_blocks m) io fo (i_new m).
Definition with_number (n v : Z) (m : imeta) : imeta :=
  IMeta (i_sb m) n v (i_blocks m) (i_op m) (i_fop m) (i_new m).
Definition with_aops (ops bdi : Z) (a : address_space) : address_space :=
  AddressSpace ops (host a) (as_flags a) (gfp_mask a) (private_data a) bdi (writeback_index a).

(** The operations an inode gets for its type. *)
Definition iops_of (mode : Z) : iops :=
  if S_ISLNK mode then teadfs_symlink_iops
  else if S_ISDIR mode then teadfs_dir_iops else teadfs_main_iops.
Definition fops_of (mode rdev : Z) : fops :=
  if S_ISDIR mode then teadfs_dir_fops
  else if special_file mode then SpecialFops mode rdev else teadfs_main_fops.

Definition teadfs_inode_set (i lower_inode : positive) : M Z :=
  teadfs_set_inode_lower i (Some lower_inode);;
  fsstack_copy_attr_all i lower_inode;;
  fsstack_copy_inode_size i lower_inode;;
  ino ← gets (λ s, lower_i_ino (ks_lfs s) lower_inode);
  update_inode (λ x, set_meta (with_number ino (u64 (i_version (i_meta x) + 1))) x) i;;
  x ← get_inode i;
  sb ← get_super (i_sb (i_meta x));
  update_inode (set_mapping (with_aops teadfs_aops (s_bdi sb))) i;;
  x ← get_inode i;
  update_inode (set_meta (with_ops (iops_of (i_mode x)) (fops_of (i_mode x) (at_rdev (i_attr x))))) i;;
  mret 0.

(** [inode_init_always], which the cache calls on a new inode. *)
Definition inode_init_always (sb i : positive) : M () :=
  update_inode (λ x, set_attr (λ a, with_nlink a 1)
    (set_meta (λ m, IMeta sb (i_ino m) (i_version m) (i_blocks m) (i_op m) (i_fop m) true) x)) i.

(** The inode of the super block that passes the test. *)
Definition passes (sb lower_inode : positive) (ix : positive * inode) : bool :=
  bool_decide (i_sb (i_meta (snd ix)) = sb) && teadfs_inode_test (snd ix) lower_inode.
Definition cached (sb lower_inode : positive) (m : gmap positive inode) : option positive :=
  (λ r, fst (snd r)) <$> list_find (λ ix, Is_true (passes sb lower_inode ix)) (map_to_list m).

(** An inode whose [I_NEW] is set is waited for. *)
Definition iget5_locked (sb lower_inode : positive) : M (option positive) :=
  c ← gets (λ s, cached sb lower_inode (ks_inodes s));
  match c with
  | Some i =>
    x ← get_inode i;
    if i_new (i_meta x) then fail_ub Deadlock
    else ref_get (RUpInode i);; mret (Some i)
  | None =>
    i ← teadfs_alloc_inode sb;
    match i with
    | None => mret None
    | Some i =>
      inode_init_always sb i;;
      rc ← teadfs_inode_set i lower_inode;
      if negb (rc =? 0) then teadfs_destroy_inode i;; mret None
      else ref_get (RUpInode i);; mret (Some i)
    end
  end.

Definition igrab (l : positive) : M bool :=
  ok ← gets (λ s, igrab_ok (ks_lfs s) l);
  if (ok : bool) then ref_get (RInode l);; mret true else mret false.

Definition __teadfs_get_inode (lower_inode sb : positive) : M kptr :=
  lsb ← gets (λ s, lower_i_sb (ks_lfs s) lower_inode);
  usb ← teadfs_superblock_to_lower sb;
  if negb (bool_decide (Some lsb = usb)) then mret (KErr (- EXDEV)) else
  ok ← igrab lower_inode;
  if negb (ok : bool) then mret (KErr (- ESTALE)) else
  inode ← iget5_locked sb lower_inode;
  match inode with
  | None => iput (Some lower_inode);; mret (KErr (- EACCES))
  | Some i =>
    x ← get_inode i;
    (if i_new (i_meta x) then mret () else iput (Some lower_inode));;
    mret (KObj i)
  end.

Definition unlock_new_inode : positive → M () := update_inode (set_meta (with_new false)).
Definition unlock_if_new (i : positive) : M () :=
  x ← get_inode i; if i_new (i_meta x) then unlock_new_inode i else mret ().

Definition teadfs_get_inode (lower_inode sb : positive) : M kptr :=
  inode ← __teadfs_get_inode lower_inode sb;
  (match inode with KObj i => unlock_if_new i | _ => mret () end);;
  mret inode.

Definition teadfs_interpose (lower_dentry dentry sb : positive) : M Z :=
  lower_inode ← lower_inode_at lower_dentry;
  inode ← teadfs_get_inode lower_inode sb;
  match inode with
  | KErr e => mret (s32 e)
  | KObj i => d_instantiate dentry (Some i);; mret 0
  | KNull => d_instantiate dentry None;; mret 0
  end.

(** The end of the block of [teadfs_lookup_interpose]: the inode of the name. *)
Definition interpose_found (dentry lower_dentry dir_inode : positive) (lower_inode : option positive) : M Z :=
  li ← lower_inode_of lower_dentry;
  match li with
  | None => d_add dentry None;; mret 0
  | Some _ =>
    dir ← get_inode dir_inode;
    lower_inode ← deref lower_inode;
    inode ← __teadfs_get_inode lower_inode (i_sb (i_meta dir));
    match inode with
    | KErr e => mret (s32 e)
    | KNull => fail_ub NullDeref
    | KObj i => unlock_if_new i;; d_add dentry (Some i);; mret 0
    end
  end.

Definition teadfs_lookup_interpose (dentry lower_dentry dir_inode : positive) : M Z :=
  lower_inode ← lower_inode_of lower_dentry;
  rc ← (
    ok ← kzalloc_try sizeof_dentry_info;
    if negb (ok : bool) then dput (Some lower_dentry);; mret (- ENOMEM) else
    teadfs_set_dentry_private dentry (Some (Path None None));;
    parent ← upper_dget_parent dentry;
    lower_parent_path ← teadfs_get_lower_path (Some parent);
    let lower_mnt := p_mnt lower_parent_path in
    mntget lower_mnt;;
    p ← get_dentry parent;
    pi ← deref (d_inode p);
    pattr ← get_inode pi;
    update_inode (set_attr (λ a, with_atime a (at_atime (i_attr pattr)))) dir_inode;;
    teadfs_put_lower_path parent;;
    upper_dput parent;;
    teadfs_set_lower_path dentry (Path (Some lower_dentry) lower_mnt);;
    interpose_found dentry lower_dentry dir_inode lower_inode);
  (if negb (rc =? 0) then teadfs_set_dentry_private dentry None else mret ());;
  mret rc.

(** The kernel's [lookup_one_len]: the lower dentry comes with a reference. *)
Definition lookup_one_len (name : bytes) (dir : positive) : M kptr := λ s,
  let '(l, r) := lower_lookup (ks_lfs s) dir name in
  let s := set_lfs (λ _, l) s in
  match r with
  | KObj d => Ret r (set_refs (λ X, {[+ RDentry d +]} ⊎ X) s)
  | _ => Ret r s
  end.

(** The result is [ERR_PTR(rc)], null when [rc] is 0. *)
Definition teadfs_lookup (dir_inode dentry : positive) : M kptr :=
  parent ← upper_dget_parent dentry;
  lower_parent_path ← teadfs_get_lower_path (Some parent);
  lower_dir_dentry ← deref (p_dentry lower_parent_path);
  rc ← (
    i ← lower_inode_at lower_dir_dentry;
    mutex_lock i;;
    x ← get_dentry dentry;
    lower_dentry ← lookup_one_len (d_name x) lower_dir_dentry;
    i ← lower_inode_at lower_dir_dentry;
    mutex_unlock i;;
    match lower_dentry with
    | KErr e => mret (s32 e)
    | KNull => fail_ub NullDeref
    | KObj l => teadfs_lookup_interpose dentry l dir_inode
    end);
  upper_dput parent;;
  teadfs_put_lower_path parent;;
  mret (if rc =? 0 then KNull else KErr rc).

End Lookup.

(** * Lemmas *)
Section LookupLemmas.
Context `{KernelEnv}.

Lemma passes_spec sb l i x :
  passes sb l (i, x) ↔ i_sb (i_meta x) = sb ∧ lower_inode x = Some l.
Proof.
  unfold passes, teadfs_inode_test. simpl. by rewrite andb_True, !bool_decide_spec.
Qed.

Lemma cached_Some sb l m i :
  cached sb l m = Some i →
  ∃ x, m !! i = Some x ∧ i_sb (i_meta x) = sb ∧ lower_inode x = Some l.
Proof.
  unfold cached. intros (r & Hf & ->)%fmap_Some. destruct r as [k [i x]].
  apply list_find_Some in Hf as (Hr & Ht & _). simpl.
  apply list_elem_of_lookup_2, elem_of_map_to_list in Hr. apply passes_spec in Ht. eauto.
Qed.

Lemma cached_None sb l m i x :
  cached sb l m = None → m !! i = Some x → i_sb (i_meta x) = sb → lower_inode x ≠ Some l.
Proof.
  unfold cached. intros Hc%fmap_None Hi Hsb Hl. apply list_find_None in Hc.
  rewrite Forall_forall in Hc. apply (Hc (i, x)); [by apply elem_of_map_to_list|].
  by apply passes_spec.
Qed.

(** The new upper inode of a lower inode. *)
Definition interposed (l : lfs) (sb li i : positive) (bdi : Z) : inode :=
  let a := lower_attr l li in
  Inode a
    (IMeta sb (lower_i_ino l li) 1 (lower_i_blocks l li) (iops_of (at_mode a))
       (fops_of (at_mode a) (at_rdev a)) true)
    (lower_i_size l li) (Some li) 0 0 (with_aops teadfs_aops bdi (blank_mapping i)) (blank_mapping i).

Lemma wp_inode_set li i x sb sbx (Q : Z → kstate → Prop) s :
  ks_inodes s !! i = Some (set_attr (λ a, with_nlink a 1)
    (set_meta (λ m, IMeta sb (i_ino m) (i_version m) (i_blocks m) (i_op m) (i_fop m) true)
      (blank_inode i))) →
  x = interposed (ks_lfs s) sb li i (s_bdi sbx) →
  ks_supers s !! sb = Some sbx →
  Q 0 (set_inodes (insert i x) s) → wp (teadfs_inode_set i li) Q s.
Proof.
  intros Hi -> Hsb HQ. unfold teadfs_inode_set.
  apply wp_bind. eapply wp_update_inode; [exact Hi|].
  apply wp_bind, wp_bind, wp_gets, wp_update_again.
  apply wp_bind, wp_bind, wp_gets, wp_bind, wp_gets, wp_update_again.
  apply wp_bind, wp_gets, wp_bind, wp_update_again.
  apply wp_bind, wp_get_inode_again, wp_bind. eapply wp_get_super; [exact Hsb|].
  apply wp_bind, wp_update_again, wp_bind, wp_get_inode_again, wp_bind, wp_update_again, wp_ret, HQ.
Qed.

(** Every way [__teadfs_get_inode] can end. *)
Lemma wp___get_inode li sb sbx usb (Q : kptr → kstate → Prop) s :
  ks_supers s !! sb = Some sbx → s_fs_info sbx = Some usb →
  (∀ i x, ks_inodes s !! i = Some x → i_new (i_meta x) = false) →
  (Some (lower_i_sb (ks_lfs s) li) ≠ usb → Q (KErr (- EXDEV)) s) →
  (igrab_ok (ks_lfs s) li = false → Q (KErr (- ESTALE)) s) →
  let found := Some (lower_i_sb (ks_lfs s) li) = usb ∧ igrab_ok (ks_lfs s) li = true in
  (found → kzalloc_ok (m_allocs (ks_mem s)) sizeof_inode_info = false → Q (KErr (- EACCES)) (tick s)) →
  (∀ i, found → cached sb li (ks_inodes s) = Some i → Q (KObj i) (set_refs (λ X, {[+ RUpInode i +]} ⊎ X) s)) →
  (∀ i, found → cached sb li (ks_inodes s) = None → ks_inodes s !! i = None →
     Q (KObj i) (set_refs (λ X, {[+ RUpInode i +]} ⊎ ({[+ RInode li +]} ⊎ X))
       (set_inodes (insert i (interposed (ks_lfs s) sb li i (s_bdi sbx))) (tick s)))) →
  wp (__teadfs_get_inode li sb) Q s.
Proof.
  intros Hsb Hfs Hnew Hxdev Hstale found Hmem Hold Hfresh. unfold __teadfs_get_inode.
  apply wp_bind, wp_gets, wp_bind, wp_bind. eapply wp_get_super; [exact Hsb|]. rewrite Hfs. apply wp_deref.
  case_bool_decide as Hd; [|by apply wp_ret, Hxdev]. cbn [negb].
  apply wp_bind. unfold igrab. apply wp_bind, wp_gets.
  destruct (igrab_ok _ _) eqn:Hg; [|by apply wp_ret, wp_ret, Hstale].
  apply wp_bind, wp_ref_get, wp_ret. cbn [negb].
  apply wp_bind, wp_bind, wp_gets. wp_simpl.
  destruct (cached sb li (ks_inodes s)) as [i|] eqn:Hc.
  - apply cached_Some in Hc as (x & Hi & _). pose proof (Hnew _ _ Hi) as Hn.
    apply wp_bind. eapply wp_get_inode; [exact Hi|]. rewrite Hn.
    apply wp_bind, wp_ref_get, wp_ret, wp_bind. eapply wp_get_inode; [exact Hi|]. rewrite Hn.
    apply wp_bind. eapply (wp_ref_put _ ({[+ RUpInode i +]} ⊎ ks_refs s)).
    + wp_simpl. multiset_solver.
    + apply wp_ret. by eapply Hold.
  - apply wp_bind, wp_bind, wp_gets, wp_bind. wp_simpl.
    unfold wp at 1, kzalloc_try. wp_simpl.
    set (i := fresh _). assert (Hi : ks_inodes s !! i = None).
    { apply not_elem_of_dom, is_fresh. }
    destruct (kzalloc_ok _ _) eqn:Ha.
    + apply wp_bind, wp_modify, wp_ret.
      apply wp_bind, wp_update_again, wp_bind.
      eapply wp_inode_set; [apply lookup_insert_eq|reflexivity|exact Hsb|].
      rewrite set_inodes_twice. cbn [negb Z.eqb].
      apply wp_bind, wp_ref_get, wp_ret, wp_bind.
      eapply wp_get_inode; [apply lookup_insert_eq|]. apply wp_bind, wp_ret, wp_ret.
      by apply Hfresh.
    + apply wp_ret, wp_bind. eapply (wp_ref_put _ (ks_refs s)); [done|].
      apply wp_ret. specialize (Hmem (conj Hd eq_refl) eq_refl). destruct s. exact Hmem.
Qed.

(** ** Looking a name up *)

(** The name [d] has no private data yet; its parent [q] is over the lower
    directory [ldir], on the mount [m]. *)
Record looking (s : kstate) (dir d q : positive) (x qx : dentry) (dx qy : inode) (qi ldir di m : positive)
    : Prop := {
  lk_name : ks_dentries s !! d = Some x;
  lk_blank : d_fsdata x = None;
  lk_negative : d_inode x = None;
  lk_parent : d_parent x = q;
  lk_other : d ≠ q;
  lk_parent_at : dentry_at s q qx;
  lk_parent_inode : d_inode qx = Some qi;
  lk_parent_upper : ks_inodes s !! qi = Some qy;
  lk_dir : ks_inodes s !! dir = Some dx;
  lk_path : lower_path qx = Path (Some ldir) (Some m);
  lk_ldir : lower_d_inode (ks_lfs s) ldir = Some di;
  lk_free : di ∉ ks_locks s;
}.

(** The name with its lower path; the directory with its new access time; and
    the state in which the inode is looked for. *)
Definition with_lower (ld m : positive) (x : dentry) : dentry :=
  set_fsdata (Some (Path (Some ld) (Some m))) x.
Definition touched (qy dx : inode) : inode :=
  set_attr (λ a, with_atime a (at_atime (i_attr qy))) dx.
Definition lookup_state (s : kstate) (dir d q : positive) (x : dentry) (dx qy : inode) (l : lfs)
    (ld m : positive) : kstate :=
  set_dentries (insert d (with_lower ld m x))
    (set_inodes (insert dir (touched qy dx))
      (set_refs (λ X, {[+ RUpDentry q +]} ⊎ ({[+ RMnt m +]} ⊎ ({[+ RDentry ld +]} ⊎ X)))
        (tick (set_lfs (λ _, l) s)))).

Lemma wp_set_private d x p (Q : () → kstate → Prop) s :
  ks_dentries s !! d = Some x → Q () (set_dentries (insert d (set_fsdata p x)) s) →
  wp (teadfs_set_dentry_private d p) Q s.
Proof. intros Hx HQ. apply wp_bind. eapply wp_get_dentry; [exact Hx|]. by apply wp_modify. Qed.

Lemma wp_lookup (s : kstate) (dir d q : positive) (x qx : dentry) (dx qy : inode) (qi ldir di m ld : positive)
    (l : lfs) (Q : kptr → kstate → Prop) :
  looking s dir d q x qx dx qy qi ldir di m →
  lower_lookup (ks_lfs s) ldir (d_name x) = (l, KObj ld) → lower_d_inode l ldir = Some di →
  kzalloc_ok (m_allocs (ks_mem s)) sizeof_dentry_info = true →
  wp (interpose_found d ld dir (lower_d_inode l ld)) (λ rc s2, ∃ y X,
      ks_dentries s2 !! d = Some y ∧ ks_dentries s2 !! q = Some qx ∧
      ks_refs s2 = {[+ RUpDentry q +]} ⊎ X ∧
      Q (if rc =? 0 then KNull else KErr rc)
        (set_refs (λ _, X) (if rc =? 0 then s2 else set_dentries (insert d (set_fsdata None y)) s2)))
    (lookup_state s dir d q x dx qy l ld m) →
  wp (teadfs_lookup dir d) Q s.
Proof.
  intros [Hx Hb Hn Hq Hne Hqx Hqi Hqy Hdx Hp Hdi Hfree] Hl Hdi2 Ha HQ.
  apply wp_bind, wp_bind. eapply wp_get_dentry; [exact Hx|]. rewrite Hq. apply wp_bind, wp_ref_get, wp_ret.
  apply wp_bind. eapply wp_get_lower_path; [exact Hqx|]. rewrite Hp. apply wp_bind, wp_deref.
  apply wp_bind, wp_bind. eapply wp_lower_inode_at; [exact Hdi|].
  apply wp_bind, wp_mutex_lock; [exact Hfree|].
  apply wp_bind. eapply wp_get_dentry; [exact Hx|].
  apply wp_bind. unfold wp at 1, lookup_one_len. wp_simpl. rewrite Hl.
  apply wp_bind. eapply wp_lower_inode_at; [exact Hdi2|].
  apply wp_bind. eapply (wp_mutex_unlock _ (ks_locks s)); [done|].
  apply wp_bind, wp_gets, wp_bind, wp_bind. wp_simpl.
  unfold wp at 1, kzalloc_try. wp_simpl. rewrite Ha. cbn [negb].
  apply wp_bind. eapply wp_set_private; [exact Hx|].
  apply wp_bind, wp_bind. eapply wp_get_dentry; [apply lookup_insert_eq|]. simpl d_parent. rewrite Hq.
  apply wp_bind, wp_ref_get, wp_ret.
  apply wp_bind. eapply (wp_get_lower_path q qx).
  { unfold dentry_at. simpl. by rewrite lookup_insert_ne. }
  rewrite Hp. cbv zeta. simpl p_mnt. apply wp_bind, wp_ref_get.
  apply wp_bind. eapply (wp_get_dentry q qx); [simpl; rewrite lookup_insert_ne by done; apply Hqx|]. rewrite Hqi.
  apply wp_bind, wp_deref, wp_bind. eapply wp_get_inode; [exact Hqy|].
  apply wp_bind. eapply wp_update_inode; [exact Hdx|].
  apply wp_bind. eapply (wp_put_lower_path q qx).
  { unfold dentry_at. simpl. by rewrite lookup_insert_ne. }
  apply wp_bind. eapply (wp_ref_put _ ({[+ RUpDentry q +]} ⊎ ({[+ RMnt m +]} ⊎ ({[+ RDentry ld +]} ⊎ ks_refs s)))).
  { simpl. multiset_solver. }
  apply wp_bind, wp_bind. eapply wp_get_dentry; [apply lookup_insert_eq|].
  apply wp_modify. fold (touched qy dx).
  match goal with |- wp _ _ ?st => replace st with (lookup_state s dir d q x dx qy l ld m) end.
  2: { unfold lookup_state, with_lower, tick, set_dentries. wp_simpl. rewrite insert_insert_eq. reflexivity. }
  eapply wp_mono; [exact HQ|]. intros rc s2 (y & X & Hy & Hq2 & HX & HQ2).
  apply wp_bind. destruct (rc =? 0) eqn:E; cbn [negb].
  - apply wp_ret, wp_ret. rewrite E. apply wp_bind. eapply wp_ref_put; [exact HX|].
    apply wp_bind. eapply (wp_put_lower_path q qx); [split; [exact Hq2|apply Hqx]|]. by apply wp_ret.
  - eapply wp_set_private; [exact Hy|]. apply wp_ret. rewrite E.
    apply wp_bind. eapply wp_ref_put; [exact HX|].
    apply wp_bind. eapply (wp_put_lower_path q qx).
    { split; [|apply Hqx]. simpl. by rewrite lookup_insert_ne. }
    by apply wp_ret.
Qed.

(** The name after a lookup that gave it an inode or none. *)
Definition looked_up (i : option positive) (ld m : positive) (x : dentry) : dentry :=
  Dentry i (Some (Path (Some ld) (Some m))) (d_name x) (d_parent x) true.

(** [teadfs_get_inode] when nothing stands in its way. *)
Lemma wp_unlock_if_new i x (Q : () → kstate → Prop) s :
  ks_inodes s !! i = Some x → i_new (i_meta x) = false → Q () s → wp (unlock_if_new i) Q s.
Proof. intros Hx Hn HQ. apply wp_bind. eapply wp_get_inode; [exact Hx|]. rewrite Hn. by apply wp_ret. Qed.

Lemma wp_unlock_made i x (Q : () → kstate → Prop) s :
  i_new (i_meta x) = true → Q () (set_inodes (insert i (set_meta (with_new false) x)) s) →
  wp (unlock_if_new i) Q (set_inodes (insert i x) s).
Proof. intros Hn HQ. apply wp_bind, wp_get_inode_again. rewrite Hn. by apply wp_update_again. Qed.

Definition made (l : lfs) (sb li i : positive) (bdi : Z) : inode :=
  set_meta (with_new false) (interposed l sb li i bdi).

Lemma wp_get_inode_ok li sb sbx (Q : kptr → kstate → Prop) s :
  ks_supers s !! sb = Some sbx → s_fs_info sbx = Some (Some (lower_i_sb (ks_lfs s) li)) →
  igrab_ok (ks_lfs s) li = true → (∀ n sz, kzalloc_ok n sz = true) →
  (∀ i x, ks_inodes s !! i = Some x → i_new (i_meta x) = false) →
  (∀ i, cached sb li (ks_inodes s) = Some i → Q (KObj i) (set_refs (λ X, {[+ RUpInode i +]} ⊎ X) s)) →
  (∀ i, cached sb li (ks_inodes s) = None → ks_inodes s !! i = None →
     Q (KObj i) (set_inodes (insert i (made (ks_lfs s) sb li i (s_bdi sbx)))
       (set_refs (λ X, {[+ RUpInode i +]} ⊎ ({[+ RInode li +]} ⊎ X)) (tick s)))) →
  wp (teadfs_get_inode li sb) Q s.
Proof.
  intros Hsb Hfs Hg Hmem Hnew Hold Hfresh. apply wp_bind.
  eapply wp___get_inode; [exact Hsb|exact Hfs|exact Hnew|by intros []|by rewrite Hg|by intros _; rewrite Hmem| |].
  - intros i _ Hi. pose proof (cached_Some _ _ _ _ Hi) as (x & Hx & _).
    apply wp_bind. eapply wp_unlock_if_new; [exact Hx|by eapply Hnew|]. by apply wp_ret, Hold.
  - intros i _ Hc Hi. apply wp_bind.
    change (set_refs ?f (set_inodes ?g ?t)) with (set_inodes g (set_refs f t)).
    apply wp_unlock_made; [done|]. by apply wp_ret, Hfresh.
Qed.

(** * Properties *)

(** C11: asking twice for the upper inode of a lower one gives the same inode
    twice, with two references to it and one to the lower inode, which a cached
    inode held before. *)
Theorem get_inode_unique (s : kstate) (li sb : positive) (sbx : super) :
  ks_supers s !! sb = Some sbx → s_fs_info sbx = Some (Some (lower_i_sb (ks_lfs s) li)) →
  igrab_ok (ks_lfs s) li = true → (∀ n sz, kzalloc_ok n sz = true) →
  (∀ i x, ks_inodes s !! i = Some x → i_new (i_meta x) = false) →
  wp (a ← teadfs_get_inode li sb; b ← teadfs_get_inode li sb; mret (a, b)) (λ r s',
    ∃ i x, r = (KObj i, KObj i) ∧ ks_inodes s' !! i = Some x ∧ lower_inode x = Some li ∧
      i_new (i_meta x) = false ∧
      ks_refs s' = {[+ RUpInode i +]} ⊎ ({[+ RUpInode i +]} ⊎
        match cached sb li (ks_inodes s) with Some _ => ks_refs s | None => {[+ RInode li +]} ⊎ ks_refs s end)) s.
Proof.
  intros Hsb Hfs Hg Hmem Hnew. apply wp_bind.
  eapply wp_get_inode_ok; [exact Hsb|exact Hfs|exact Hg|exact Hmem|exact Hnew| |].
  - intros i Hi. rewrite Hi. pose proof (cached_Some _ _ _ _ Hi) as (x & Hx & _ & Hl). apply wp_bind.
    eapply wp_get_inode_ok; [exact Hsb|exact Hfs|exact Hg|exact Hmem|exact Hnew| |].
    + intros j Hj. simpl in Hj. rewrite Hi in Hj. injection Hj as <-. apply wp_ret.
      exists i, x. split_and!; [done|done|done|by eapply Hnew|done].
    + intros j Hj. simpl in Hj. congruence.
  - intros i Hc Hi. rewrite Hc. apply wp_bind.
    eapply wp_get_inode_ok; [exact Hsb|exact Hfs|exact Hg|exact Hmem| | |].
    + intros j y Hj. cbn [set_inodes ks_inodes] in Hj. apply lookup_insert_Some in Hj as [[_ <-]|[_ Hj]]; [done|by eapply Hnew].
    + intros j Hj. assert (j = i) as ->.
      { apply cached_Some in Hj as (y & Hy & Hsby & Hly).
        cbn [set_inodes ks_inodes] in Hy. apply lookup_insert_Some in Hy as [[<- _]|[_ Hy]]; [done|].
        by destruct (cached_None _ _ _ _ _ Hc Hy Hsby). }
      apply wp_ret. eexists i, _. split_and!; [done|apply lookup_insert_eq|done|done|done].
    + intros j Hj _. exfalso. eapply cached_None; [exact Hj|apply lookup_insert_eq|done|done].
Qed.

(** C12: looking up a name that the lower directory has: the dentry gets the
    lower path, with the references to the lower dentry and the mount, and the
    upper inode of the lower one, which keeps a reference of its own when it is
    new; the mutex of the lower directory is given back. *)
Theorem lookup_finds (s : kstate) (dir d q : positive) (x qx : dentry) (dx qy : inode)
    (qi ldir di m ld li : positive) (l : lfs) (sbx : super) :
  let sb := i_sb (i_meta dx) in
  let m1 := <[dir := touched qy dx]> (ks_inodes s) in
  looking s dir d q x qx dx qy qi ldir di m →
  lower_lookup (ks_lfs s) ldir (d_name x) = (l, KObj ld) → lower_d_inode l ldir = Some di →
  lower_d_inode l ld = Some li → (∀ n sz, kzalloc_ok n sz = true) →
  ks_supers s !! sb = Some sbx → s_fs_info sbx = Some (Some (lower_i_sb l li)) → igrab_ok l li = true →
  (∀ i y, ks_inodes s !! i = Some y → i_new (i_meta y) = false) →
  wp (teadfs_lookup dir d) (λ r s', r = KNull ∧ ks_lfs s' = l ∧ ks_locks s' = ks_locks s ∧
    ks_refs s' = {[+ RMnt m +]} ⊎ ({[+ RDentry ld +]} ⊎
      match cached sb li m1 with Some _ => ks_refs s | None => {[+ RInode li +]} ⊎ ks_refs s end) ∧
    ∃ i y, ks_dentries s' = <[d := looked_up (Some i) ld m x]> (ks_dentries s) ∧
      ks_inodes s' !! i = Some y ∧ lower_inode y = Some li) s.
Proof.
  intros sb m1 Hlk Hl Hdi Hli Hmem Hsb Hfs Hg Hnew. eapply wp_lookup; [exact Hlk|exact Hl|exact Hdi|apply Hmem|].
  destruct Hlk as [Hx Hb Hn Hq Hne Hqx _ _ Hdx _ _ _]. rewrite Hli.
  assert (Hnew1 : ∀ i y, m1 !! i = Some y → i_new (i_meta y) = false).
  { intros i y Hi. apply lookup_insert_Some in Hi as [[_ <-]|[_ Hi]]; [|by eapply Hnew].
    simpl. by eapply Hnew. }
  apply wp_bind, wp_gets. wp_simpl. change (ks_lfs (lookup_state _ _ _ _ _ _ _ _ _ _)) with l. rewrite Hli.
  apply wp_bind. eapply wp_get_inode; [apply lookup_insert_eq|].
  apply wp_bind, wp_deref, wp_bind.
  eapply wp___get_inode; [exact Hsb|exact Hfs|exact Hnew1|by intros []| |by intros _; rewrite Hmem| |].
  - intros Hbad. change (igrab_ok l li = false) in Hbad. congruence.
  - intros i _ Hi. change (cached sb li m1 = Some i) in Hi.
    pose proof (cached_Some _ _ _ _ Hi) as (y & Hy & _ & Hly).
    apply wp_bind. eapply wp_unlock_if_new; [exact Hy|by eapply Hnew1|].
    apply wp_bind. eapply wp_attach; [apply lookup_insert_eq|exact Hn|reflexivity|]. apply wp_ret.
    eexists _, _. split; [apply lookup_insert_eq|]. split.
    { unfold lookup_state. wp_simpl. rewrite !lookup_insert_ne by done. apply Hqx. }
    split; [reflexivity|]. cbn [Z.eqb]. rewrite Hi. split_and!; [done|done|done|done|]. exists i, y. split_and!; [|exact Hy|exact Hly].
    unfold lookup_state. wp_simpl. by rewrite insert_insert_eq.
  - intros i _ Hc Hi. change (cached sb li m1 = None) in Hc. apply wp_bind.
    change (set_refs ?f (set_inodes ?g ?t)) with (set_inodes g (set_refs f t)).
    apply wp_unlock_made; [done|].
    apply wp_bind. eapply wp_attach; [apply lookup_insert_eq|exact Hn|reflexivity|]. apply wp_ret.
    exists (looked_up (Some i) ld m x), ({[+ RMnt m +]} ⊎ ({[+ RDentry ld +]} ⊎ ({[+ RInode li +]} ⊎ ks_refs s))).
    split; [apply lookup_insert_eq|]. split.
    { unfold lookup_state, tick. wp_simpl. rewrite !lookup_insert_ne by done. apply Hqx. }
    split; [unfold lookup_state, tick; wp_simpl; multiset_solver|]. cbn [Z.eqb]. rewrite Hc. split_and!; [done|done|done|done|]. eexists i, _.
    split_and!; [|apply lookup_insert_eq|done].
    unfold lookup_state, tick. wp_simpl. by rewrite insert_insert_eq.
Qed.

(** Looking up a name that the lower directory does not have: the dentry is
    hashed without an inode, with the lower dentry under which it may be
    created, and nothing but the references to that and to the mount is
    taken. *)
Lemma lookup_negative (s : kstate) (dir d q : positive) (x qx : dentry) (dx qy : inode)
    (qi ldir di m ld : positive) (l : lfs) :
  looking s dir d q x qx dx qy qi ldir di m →
  lower_lookup (ks_lfs s) ldir (d_name x) = (l, KObj ld) → lower_d_inode l ldir = Some di →
  lower_d_inode l ld = None → kzalloc_ok (m_allocs (ks_mem s)) sizeof_dentry_info = true →
  wp (teadfs_lookup dir d) (λ r s', r = KNull ∧ ks_lfs s' = l ∧ ks_locks s' = ks_locks s ∧
    ks_refs s' = {[+ RMnt m +]} ⊎ ({[+ RDentry ld +]} ⊎ ks_refs s) ∧
    ks_inodes s' = <[dir := touched qy dx]> (ks_inodes s) ∧
    ks_dentries s' = <[d := looked_up None ld m x]> (ks_dentries s)) s.
Proof.
  intros Hlk Hl Hdi Hli Hmem. eapply wp_lookup; [exact Hlk|exact Hl|exact Hdi|exact Hmem|].
  destruct Hlk as [Hx Hb Hn Hq Hne Hqx _ _ Hdx _ _ _].
  apply wp_bind, wp_gets. change (ks_lfs (lookup_state _ _ _ _ _ _ _ _ _ _)) with l. rewrite Hli.
  apply wp_bind, wp_bind. eapply wp_get_dentry; [apply lookup_insert_eq|].
  cbn [with_lower set_fsdata d_inode]. rewrite Hn.
  apply wp_bind, wp_ret, wp_modify, wp_ret. exists (looked_up None ld m x), ({[+ RMnt m +]} ⊎ ({[+ RDentry ld +]} ⊎ ks_refs s)).
  split; [apply lookup_insert_eq|]. split.
  { unfold lookup_state, tick. wp_simpl. rewrite !lookup_insert_ne by done. apply Hqx. }
  split; [reflexivity|]. cbn [Z.eqb]. split_and!; [done|done|done|done|done|].
  unfold lookup_state. wp_simpl. by rewrite insert_insert_eq.
Qed.

(** When the lower inode cannot be referenced any more, or belongs to
    another super block, the lookup fails, but the references to the lower
    dentry and the mount stay: the name's private data, which says what to put,
    is already gone. *)
Theorem lookup_leaks (s : kstate) (dir d q : positive) (x qx : dentry) (dx qy : inode)
    (qi ldir di m ld li : positive) (l : lfs) (sbx : super) (usb : option positive) :
  looking s dir d q x qx dx qy qi ldir di m →
  lower_lookup (ks_lfs s) ldir (d_name x) = (l, KObj ld) → lower_d_inode l ldir = Some di →
  lower_d_inode l ld = Some li → kzalloc_ok (m_allocs (ks_mem s)) sizeof_dentry_info = true →
  ks_supers s !! i_sb (i_meta dx) = Some sbx → s_fs_info sbx = Some usb →
  Some (lower_i_sb l li) ≠ usb ∨ igrab_ok l li = false →
  (∀ i y, ks_inodes s !! i = Some y → i_new (i_meta y) = false) →
  wp (teadfs_lookup dir d) (λ r s', (r = KErr (- EXDEV) ∨ r = KErr (- ESTALE)) ∧
    ks_dentries s' = ks_dentries s ∧
    ks_refs s' = {[+ RMnt m +]} ⊎ ({[+ RDentry ld +]} ⊎ ks_refs s)) s.
Proof.
  intros Hlk Hl Hdi Hli Hmem Hsb Hfs Hbad Hnew.
  eapply wp_lookup; [exact Hlk|exact Hl|exact Hdi|exact Hmem|].
  destruct Hlk as [Hx Hb Hn Hq Hne Hqx _ _ Hdx _ _ _]. rewrite Hli.
  apply wp_bind, wp_gets. change (ks_lfs (lookup_state _ _ _ _ _ _ _ _ _ _)) with l. rewrite Hli.
  apply wp_bind. eapply wp_get_inode; [apply lookup_insert_eq|]. apply wp_bind, wp_deref, wp_bind.
  set (s1 := lookup_state s dir d q x dx qy l ld m).
  assert (Hend : ∃ y X, ks_dentries s1 !! d = Some y ∧ ks_dentries s1 !! q = Some qx ∧
    ks_refs s1 = {[+ RUpDentry q +]} ⊎ X ∧ X = {[+ RMnt m +]} ⊎ ({[+ RDentry ld +]} ⊎ ks_refs s) ∧
    ks_dentries (set_dentries (insert d (set_fsdata None y)) s1) = ks_dentries s).
  { eexists _, _. split; [apply lookup_insert_eq|]. split.
    { unfold s1, lookup_state, tick. wp_simpl. rewrite !lookup_insert_ne by done. apply Hqx. }
    split; [reflexivity|]. split; [done|]. unfold s1, lookup_state, with_lower, tick. wp_simpl.
    rewrite insert_insert_eq. apply insert_id. rewrite Hx. destruct x; simpl in *. by rewrite Hb. }
  destruct Hend as (y & X & Hy & Hq1 & HX & -> & Hde).
  assert (Hno : ¬ (Some (lower_i_sb l li) = usb ∧ igrab_ok l li = true)) by (intros []; destruct Hbad; congruence).
  eapply wp___get_inode; [exact Hsb|exact Hfs| | | | | |].
  - intros i z Hi. change (<[dir := touched qy dx]> (ks_inodes s) !! i = Some z) in Hi.
    apply lookup_insert_Some in Hi as [[_ <-]|[_ Hi]]; [simpl; by eapply Hnew|by eapply Hnew].
  - intros _. apply wp_ret. eexists y, _. split_and!; [exact Hy|exact Hq1|exact HX|by left|exact Hde|done].
  - intros _. apply wp_ret. eexists y, _. split_and!; [exact Hy|exact Hq1|exact HX|by right|exact Hde|done].
  - intros Hf. by destruct (Hno Hf).
  - intros i Hf. by destruct (Hno Hf).
  - intros i Hf. by destruct (Hno Hf).
Qed.

End LookupLemmas.
