(* ===== verification/Refs.v ===== *)
(** Accounting for references, mutexes and cached inodes.

    [icache_ok]: every upper inode holds exactly one reference to its lower
    inode, and a super block has at most one upper inode for each lower one.
    [bal s A L N D l s']: a run from [s] to [s'] has in hand, beyond what it
    started with, the references [A] and the mutexes [L], has made the inodes
    [N] that are still locked, may have attached inodes to the dentries [D],
    and left the lower file system at [l]. *)
From S2P Require Import Prelude Kernel Protocol Wp Vfs Super Lookup.
Local Open Scope Z_scope.

(** ** The inode cache *)

Definition sharers (l : positive) (m : gmap positive inode) : nat :=
  size (filter (λ ix, lower_inode (snd ix) = Some l) m).

Lemma sharers_insert_new l i x m :
  m !! i = None →
  sharers l (<[i := x]> m) = (if decide (lower_inode x = Some l) then S (sharers l m) else sharers l m).
Proof.
  intros Hi. unfold sharers. case_decide as Hl.
  - rewrite map_filter_insert_True by done. apply map_size_insert_None.
    by apply map_lookup_filter_None_2; left.
  - rewrite map_filter_insert_False, delete_id by done. done.
Qed.

Lemma sharers_update l i x y m :
  m !! i = Some x → lower_inode y = lower_inode x → sharers l (<[i := y]> m) = sharers l m.
Proof.
  intros Hi Hl. rewrite <- insert_delete_eq.
  rewrite sharers_insert_new by apply lookup_delete_eq.
  symmetry. rewrite <- (insert_delete_id m i x Hi) at 1.
  rewrite sharers_insert_new by apply lookup_delete_eq. by rewrite Hl.
Qed.

(** ** What the lower file system promises

    An operation changes the inodes of the dentries it names as entries only,
    and a successful [vfs_create] gives its dentry an inode. *)
Definition op_entries (op : lower_op) : list positive :=
  match op with
  | LO_create _ d _ _ | LO_link _ _ d | LO_unlink _ d | LO_symlink _ d _ | LO_mkdir _ d _
  | LO_rmdir _ d | LO_mknod _ d _ _ => [d]
  | LO_rename _ old _ new => [old; new]
  | LO_notify_change _ _ | LO_setxattr _ _ _ _ | LO_removexattr _ _ => []
  end.
Class LowerLaws `{KernelEnv} : Prop := {
  lower_inode_stable l op d : d ∉ op_entries op → lower_d_inode (lower_do l op).2 d = lower_d_inode l d;
  lower_create_made l dir d mode excl :
    (lower_do l (LO_create dir d mode excl)).1 = 0 →
    is_Some (lower_d_inode (lower_do l (LO_create dir d mode excl)).2 d);
}.

Section Refs.
Context `{KernelEnv}.

Record icache_ok (N : gset positive) (s : kstate) : Prop := ICacheOk {
  ic_refs : ∀ l, multiplicity (RInode l) (ks_refs s) = sharers l (ks_inodes s);
  ic_unique : ∀ i j x y l, ks_inodes s !! i = Some x → ks_inodes s !! j = Some y →
    lower_inode x = Some l → lower_inode y = Some l →
    i_sb (i_meta x) = i_sb (i_meta y) → i = j;
  ic_old : ∀ i x, ks_inodes s !! i = Some x → i ∉ N → i_new (i_meta x) = false;
}.

(** Only the references and the inodes matter. *)
Lemma icache_frame N s s' :
  icache_ok N s → (∀ l, multiplicity (RInode l) (ks_refs s') = multiplicity (RInode l) (ks_refs s)) →
  ks_inodes s' = ks_inodes s → icache_ok N s'.
Proof. intros [Hr Hu Ho] HR HI. split; [intros l; rewrite HR|..]; rewrite HI; auto. Qed.

(** An update that leaves an inode's identity alone. *)
Definition same_inode (x y : inode) : Prop :=
  lower_inode y = lower_inode x ∧ i_sb (i_meta y) = i_sb (i_meta x) ∧
  i_new (i_meta y) = i_new (i_meta x).

Lemma icache_change N N' s i x y :
  icache_ok N s → ks_inodes s !! i = Some x →
  lower_inode y = lower_inode x → i_sb (i_meta y) = i_sb (i_meta x) →
  (i ∉ N' → i_new (i_meta y) = false) → N ⊆ {[ i ]} ∪ N' →
  icache_ok N' (set_inodes (insert i y) s).
Proof.
  intros [Hr Hu Ho] Hi Hl Hsb Hn HN'. split; wp_simpl.
  - intros l. by rewrite (sharers_update _ _ x).
  - intros j k xj xk l Hj Hk Hlj Hlk Hs.
    assert (Hj' : ∃ xj', ks_inodes s !! j = Some xj' ∧ lower_inode xj' = lower_inode xj ∧ i_sb (i_meta xj') = i_sb (i_meta xj)).
    { apply lookup_insert_Some in Hj as [[<- <-]|[_ Hj]]; [exists x|exists xj]; auto. }
    assert (Hk' : ∃ xk', ks_inodes s !! k = Some xk' ∧ lower_inode xk' = lower_inode xk ∧ i_sb (i_meta xk') = i_sb (i_meta xk)).
    { apply lookup_insert_Some in Hk as [[<- <-]|[_ Hk]]; [exists x|exists xk]; auto. }
    destruct Hj' as (? & ? & ? & ?), Hk' as (? & ? & ? & ?). eapply (Hu j k _ _ l); [done|done|congruence..].
  - intros j xj Hj HN. apply lookup_insert_Some in Hj as [[<- <-]|[Hne Hj]]; [auto|].
    eapply Ho; [exact Hj|]. by intros [->%elem_of_singleton|?]%HN'%elem_of_union.
Qed.

Lemma icache_update N s i x y :
  icache_ok N s → ks_inodes s !! i = Some x → same_inode x y →
  icache_ok N (set_inodes (insert i y) s).
Proof.
  intros Hc Hi (Hl & Hsb & Hn). eapply icache_change; [exact Hc|exact Hi|done|done| |set_solver].
  intros. rewrite Hn. by eapply ic_old.
Qed.

(** A new inode, with the reference it holds. *)
Lemma icache_add N s i x l sb :
  icache_ok N s → ks_inodes s !! i = None → cached sb l (ks_inodes s) = None →
  lower_inode x = Some l → i_sb (i_meta x) = sb →
  icache_ok ({[ i ]} ∪ N) (set_refs (λ X, {[+ RInode l +]} ⊎ X) (set_inodes (insert i x) s)).
Proof.
  intros [Hr Hu Ho] Hi Hc Hl Hsb. split; wp_simpl.
  - intros l'. rewrite multiplicity_disj_union, sharers_insert_new, Hl, Hr by done.
    case_decide as E.
    + injection E as ->. by rewrite multiplicity_singleton, decide_True.
    + rewrite multiplicity_singleton_ne by congruence. done.
  - intros j k xj xk l' Hj Hk Hlj Hlk Hs.
    assert (Hno : ∀ m y, ks_inodes s !! m = Some y → i_sb (i_meta y) = sb → lower_inode y ≠ Some l).
    { intros m y. by apply cached_None. }
    apply lookup_insert_Some in Hj, Hk.
    destruct Hj as [[<- <-]|[_ Hj]], Hk as [[<- <-]|[_ Hk]].
    + done.
    + destruct (Hno _ _ Hk); congruence.
    + destruct (Hno _ _ Hj); congruence.
    + by eapply Hu.
  - intros j xj Hj HN. apply lookup_insert_Some in Hj as [[<- _]|[_ ?]]; [set_solver|].
    eapply Ho; [done|set_solver].
Qed.

(** ** What a run has in hand *)

Definition inode_ref (r : ref) : bool := match r with RInode _ => true | _ => false end.

Record bal (s : kstate) (A : gmultiset ref) (L : gmultiset positive) (N : gset positive)
    (D : gmap positive positive) (l : lfs) (s' : kstate) : Prop := Bal {
  bal_lfs : ks_lfs s' = l;
  bal_refs : ∀ r, inode_ref r = false →
    multiplicity r (ks_refs s') = (multiplicity r A + multiplicity r (ks_refs s))%nat;
  bal_locks : ks_locks s' = L ⊎ ks_locks s;
  bal_icache : icache_ok N s';
  bal_dentries : ∀ d x, ks_dentries s !! d = Some x → ∃ x', ks_dentries s' !! d = Some x' ∧
    d_fsdata x' = d_fsdata x ∧ d_parent x' = d_parent x ∧
    d_inode x' = match D !! d with Some i => Some i | None => d_inode x end;
  bal_attached : ∀ i, i ∈ N ∨ (∃ d, D !! d = Some i) → is_Some (ks_inodes s' !! i);
  bal_inodes : ∀ i x, ks_inodes s !! i = Some x →
    ∃ x', ks_inodes s' !! i = Some x' ∧ lower_inode x' = lower_inode x ∧ i_sb (i_meta x') = i_sb (i_meta x);
  bal_supers : ks_supers s' = ks_supers s;
  bal_live : live s' = live s;
}.

Lemma bal_refl s : icache_ok ∅ s → bal s ∅ ∅ ∅ ∅ (ks_lfs s) s.
Proof.
  intros Hc. split; [done| | |done| | | |done|done].
  - intros r _. by rewrite multiplicity_empty.
  - multiset_solver.
  - intros d x Hd. exists x. by rewrite lookup_empty.
  - intros i [Hi|[d Hd]]; [by apply elem_of_empty in Hi|by rewrite lookup_empty in Hd].
  - intros i x Hi. eauto.
Qed.

(** A step that keeps dentries, inodes and super blocks. *)
Lemma bal_frame s A L N D l s1 A' L' l' s2 :
  bal s A L N D l s1 →
  ks_dentries s2 = ks_dentries s1 → ks_inodes s2 = ks_inodes s1 → ks_supers s2 = ks_supers s1 →
  live s2 = live s1 → ks_lfs s2 = l' →
  (∀ r, multiplicity r (ks_refs s2) + multiplicity r A = multiplicity r (ks_refs s1) + multiplicity r A')%nat →
  (∀ r, inode_ref r = true → multiplicity r (ks_refs s2) = multiplicity r (ks_refs s1)) →
  (∀ i, multiplicity i (ks_locks s2) + multiplicity i L = multiplicity i (ks_locks s1) + multiplicity i L')%nat →
  bal s A' L' N D l' s2.
Proof.
  intros [Hl Hr Hk Hc Hd Ha Hi Hs Hv] Ed Ei Es Ev El Er Er' Ek. split; try congruence.
  - intros r Hr0. specialize (Er r). rewrite (Hr r Hr0) in Er. lia.
  - apply gmultiset_eq. intros i. specialize (Ek i). rewrite Hk in Ek.
    rewrite multiplicity_disj_union in *. lia.
  - eapply icache_frame; [exact Hc| |done]. intros li. by apply Er'.
  - intros d x. rewrite Ed. apply Hd.
  - intros i. rewrite Ei. apply Ha.
  - intros i x. rewrite Ei. apply Hi.
Qed.

Lemma wp_bal_ref_get r s A L N D l s1 (Q : () → kstate → Prop) :
  inode_ref r = false → bal s A L N D l s1 →
  (∀ s2, bal s ({[+ r +]} ⊎ A) L N D l s2 → Q () s2) → wp (ref_get r) Q s1.
Proof.
  intros Hr Hb HQ. apply wp_ref_get, HQ. eapply bal_frame; [exact Hb|..]; try done.
  - by destruct Hb.
  - intros r'. wp_simpl. rewrite !multiplicity_disj_union. lia.
  - intros r' Hr'. wp_simpl. rewrite multiplicity_disj_union, multiplicity_singleton_ne by congruence. done.
Qed.

Lemma bal_ref_put r s A L N D l s1 :
  inode_ref r = false → bal s ({[+ r +]} ⊎ A) L N D l s1 →
  ∃ X, ks_refs s1 = {[+ r +]} ⊎ X ∧ bal s A L N D l (set_refs (λ _, X) s1).
Proof.
  intros Hr Hb. exists (ks_refs s1 ∖ {[+ r +]}).
  assert (Hm : (1 ≤ multiplicity r (ks_refs s1))%nat).
  { rewrite (bal_refs _ _ _ _ _ _ _ Hb) by done.
    rewrite multiplicity_disj_union, multiplicity_singleton_eq. lia. }
  assert (Er : ks_refs s1 = {[+ r +]} ⊎ (ks_refs s1 ∖ {[+ r +]})).
  { apply gmultiset_eq. intros r'. rewrite multiplicity_disj_union, multiplicity_difference, multiplicity_singleton.
    case_decide; [subst|]; lia. }
  split; [exact Er|]. eapply bal_frame; [exact Hb|..]; try done.
  - by destruct Hb.
  - intros r'. wp_simpl. rewrite Er at 2. rewrite !multiplicity_disj_union. lia.
  - intros r' Hr'. wp_simpl. rewrite multiplicity_difference, multiplicity_singleton_ne by congruence. lia.
Qed.

Lemma wp_bal_ref_put r A' s A L N D l s1 (Q : () → kstate → Prop) :
  inode_ref r = false → A = {[+ r +]} ⊎ A' → bal s A L N D l s1 →
  (∀ s2, bal s A' L N D l s2 → Q () s2) → wp (ref_put r) Q s1.
Proof.
  intros Hr -> Hb HQ. destruct (bal_ref_put _ _ _ _ _ _ _ _ Hr Hb) as (X & Er & Hb').
  eapply wp_ref_put; [exact Er|]. by apply HQ.
Qed.

Lemma wp_bal_mutex_lock i s A L N D l s1 (Q : () → kstate → Prop) :
  i ∉ L → i ∉ ks_locks s → bal s A L N D l s1 →
  (∀ s2, bal s A ({[+ i +]} ⊎ L) N D l s2 → Q () s2) → wp (mutex_lock i) Q s1.
Proof.
  intros HL Hs Hb HQ. apply wp_mutex_lock.
  { rewrite (bal_locks _ _ _ _ _ _ _ Hb), gmultiset_elem_of_disj_union. tauto. }
  apply HQ. eapply bal_frame; [exact Hb|..]; try done.
  - by destruct Hb.
  - intros j. wp_simpl. rewrite !multiplicity_disj_union. lia.
Qed.

Lemma wp_bal_mutex_unlock i L' s A L N D l s1 (Q : () → kstate → Prop) :
  L = {[+ i +]} ⊎ L' → bal s A L N D l s1 →
  (∀ s2, bal s A L' N D l s2 → Q () s2) → wp (mutex_unlock i) Q s1.
Proof.
  intros -> Hb HQ. pose proof (bal_locks _ _ _ _ _ _ _ Hb) as Hk.
  eapply (wp_mutex_unlock _ (L' ⊎ ks_locks s)); [by rewrite Hk, (assoc_L (⊎))|].
  apply HQ. eapply bal_frame; [exact Hb|..]; try done.
  - by destruct Hb.
  - intros j. wp_simpl. rewrite Hk, !multiplicity_disj_union. lia.
Qed.

Lemma wp_bal_lower op s A L N D l s1 (Q : Z → kstate → Prop) :
  bal s A L N D l s1 →
  (∀ s2, bal s A L N D (lower_do l op).2 s2 → Q (lower_do l op).1 s2) → wp (lower op) Q s1.
Proof.
  intros Hb HQ. apply wp_lower. rewrite (bal_lfs _ _ _ _ _ _ _ Hb).
  apply HQ. by eapply bal_frame; [exact Hb|..].
Qed.

Lemma wp_bal_vfs c s A L N D l s1 (Q : Z → kstate → Prop) :
  bal s A L N D l s1 → (∀ rc s2, bal s A L N D l s2 → Q rc s2) → wp (vfs c) Q s1.
Proof.
  intros Hb HQ. apply wp_vfs, HQ. eapply bal_frame; [exact Hb|..]; try done. by destruct Hb.
Qed.

Lemma wp_bal_lower_inode_at d i s A L N D l s1 (Q : positive → kstate → Prop) :
  bal s A L N D l s1 → lower_d_inode l d = Some i → Q i s1 → wp (lower_inode_at d) Q s1.
Proof. intros Hb Hd. apply wp_lower_inode_at. by rewrite (bal_lfs _ _ _ _ _ _ _ Hb). Qed.

Lemma bal_dentry_at s A L N D l s1 d x :
  bal s A L N D l s1 → dentry_at s d x →
  ∃ x', dentry_at s1 d x' ∧ lower_path x' = lower_path x.
Proof.
  intros Hb [Hd Hf]. destruct (bal_dentries _ _ _ _ _ _ _ Hb _ _ Hd) as (x' & Hd' & Hf' & _).
  exists x'. unfold dentry_at, lower_path. by rewrite Hf'.
Qed.

Lemma wp_bal_get_lower_path d x s A L N D l s1 (Q : path → kstate → Prop) :
  bal s A L N D l s1 → dentry_at s d x → Q (lower_path x) s1 → wp (teadfs_get_lower_path (Some d)) Q s1.
Proof.
  intros Hb Hd HQ. destruct (bal_dentry_at _ _ _ _ _ _ _ _ _ Hb Hd) as (x' & Hx & E).
  eapply wp_get_lower_path; [exact Hx|]. by rewrite E.
Qed.

Lemma wp_bal_put_lower_path d x s A L N D l s1 (Q : () → kstate → Prop) :
  bal s A L N D l s1 → dentry_at s d x → Q () s1 → wp (teadfs_put_lower_path d) Q s1.
Proof.
  intros Hb Hd HQ. destruct (bal_dentry_at _ _ _ _ _ _ _ _ _ Hb Hd) as (x' & Hx & _).
  by eapply wp_put_lower_path.
Qed.

(** ** Inodes *)

Lemma wp_bal_update_now f i s A L N D l s1 (Q : () → kstate → Prop) :
  is_Some (ks_inodes s1 !! i) → (∀ y, same_inode y (f y)) → bal s A L N D l s1 →
  (∀ s2, bal s A L N D l s2 → Q () s2) → wp (update_inode f i) Q s1.
Proof.
  intros [y Hy] Hf Hb HQ.
  eapply wp_update_inode; [exact Hy|]. apply HQ.
  destruct Hb as [Hl Hr Hk Hc Hd Ha Hi Hs Hv]. split; try done.
  - by eapply icache_update.
  - intros j Hj. wp_simpl. destruct (decide (i = j)) as [<-|]; [by rewrite lookup_insert_eq|].
    rewrite lookup_insert_ne by done. eauto.
  - intros j z Hz. wp_simpl. destruct (Hi _ _ Hz) as (z' & Hz' & E1 & E2).
    destruct (decide (i = j)) as [<-|]; [|rewrite lookup_insert_ne by done; eauto].
    rewrite lookup_insert_eq. destruct (Hf y) as (E1' & E2' & _).
    exists (f y). replace z' with y in * by congruence. rewrite E1', E2'. done.
Qed.

Lemma wp_bal_update_inode f i s A L N D l s1 (Q : () → kstate → Prop) :
  is_Some (ks_inodes s !! i) → (∀ y, same_inode y (f y)) → bal s A L N D l s1 →
  (∀ s2, bal s A L N D l s2 → Q () s2) → wp (update_inode f i) Q s1.
Proof.
  intros [x Hx] Hf Hb HQ. destruct (bal_inodes _ _ _ _ _ _ _ Hb _ _ Hx) as (y & Hy & _).
  eapply wp_bal_update_now; [by exists y|done..].
Qed.

Lemma wp_bal_copy_attr_all i li s A L N D l s1 (Q : () → kstate → Prop) :
  is_Some (ks_inodes s !! i) → bal s A L N D l s1 →
  (∀ s2, bal s A L N D l s2 → Q () s2) → wp (fsstack_copy_attr_all i li) Q s1.
Proof. intros Hi Hb HQ. apply wp_bind, wp_gets. by eapply wp_bal_update_inode. Qed.

Lemma wp_bal_copy_attr_times i li s A L N D l s1 (Q : () → kstate → Prop) :
  is_Some (ks_inodes s !! i) → bal s A L N D l s1 →
  (∀ s2, bal s A L N D l s2 → Q () s2) → wp (fsstack_copy_attr_times i li) Q s1.
Proof. intros Hi Hb HQ. apply wp_bind, wp_gets. by eapply wp_bal_update_inode. Qed.

Lemma wp_bal_copy_inode_size i li s A L N D l s1 (Q : () → kstate → Prop) :
  is_Some (ks_inodes s !! i) → bal s A L N D l s1 →
  (∀ s2, bal s A L N D l s2 → Q () s2) → wp (fsstack_copy_inode_size i li) Q s1.
Proof. intros Hi Hb HQ. apply wp_bind, wp_gets, wp_bind, wp_gets. by eapply wp_bal_update_inode. Qed.

Lemma wp_bal_set_nlink i n s A L N D l s1 (Q : () → kstate → Prop) :
  is_Some (ks_inodes s !! i) → bal s A L N D l s1 →
  (∀ s2, bal s A L N D l s2 → Q () s2) → wp (set_nlink i n) Q s1.
Proof. intros Hi Hb HQ. by eapply wp_bal_update_inode. Qed.

Lemma wp_bal_get_inode i x s A L N D l s1 (Q : inode → kstate → Prop) :
  ks_inodes s !! i = Some x → bal s A L N D l s1 →
  (∀ y, lower_inode y = lower_inode x → i_sb (i_meta y) = i_sb (i_meta x) → Q y s1) →
  wp (get_inode i) Q s1.
Proof.
  intros Hi Hb HQ. destruct (bal_inodes _ _ _ _ _ _ _ Hb _ _ Hi) as (y & Hy & ? & ?).
  eapply wp_get_inode; [exact Hy|]. by apply HQ.
Qed.

(** ** Dentries *)

Lemma wp_bal_get_dentry d x s A L N D l s1 (Q : dentry → kstate → Prop) :
  ks_dentries s !! d = Some x → bal s A L N D l s1 →
  (∀ y, d_inode y = match D !! d with Some i => Some i | None => d_inode x end → Q y s1) →
  wp (get_dentry d) Q s1.
Proof.
  intros Hd Hb HQ. destruct (bal_dentries _ _ _ _ _ _ _ Hb _ _ Hd) as (y & Hy & _ & _ & Hin).
  eapply wp_get_dentry; [exact Hy|]. by apply HQ.
Qed.

Lemma wp_bal_d_drop d s A L N D l s1 (Q : () → kstate → Prop) :
  is_Some (ks_dentries s !! d) → bal s A L N D l s1 →
  (∀ s2, bal s A L N D l s2 → Q () s2) → wp (d_drop d) Q s1.
Proof.
  intros [x Hx] Hb HQ. destruct (bal_dentries _ _ _ _ _ _ _ Hb _ _ Hx) as (y & Hy & _).
  apply wp_bind. eapply wp_get_dentry; [exact Hy|]. apply wp_modify, HQ.
  destruct Hb as [Hl Hr Hk Hc Hd Ha Hi Hs Hv]. split; try done; [by eapply icache_frame|].
  intros e z Hz. wp_simpl. destruct (Hd _ _ Hz) as (z' & Hz' & E).
  destruct (decide (d = e)) as [<-|]; [|rewrite lookup_insert_ne by done; eauto].
  rewrite lookup_insert_eq. eexists. split; [done|]. simpl. replace y with z' by congruence. done.
Qed.

(** The dentry takes the reference to the inode over. *)
Lemma wp_bal_attach hash d i x s A L N D l s1 (Q : () → kstate → Prop) :
  ks_dentries s !! d = Some x → d_inode x = None → D !! d = None →
  bal s ({[+ RUpInode i +]} ⊎ A) L N D l s1 → is_Some (ks_inodes s1 !! i) →
  (∀ s2, bal s A L N (<[d := i]> D) l s2 → Q () s2) → wp (attach_inode hash d (Some i)) Q s1.
Proof.
  intros Hx Hn HD Hb Hi1 HQ. destruct (bal_dentries _ _ _ _ _ _ _ Hb _ _ Hx) as (y & Hy & Hf & Hp & Hin).
  rewrite HD, Hn in Hin. apply wp_bind. eapply wp_get_dentry; [exact Hy|]. rewrite Hin.
  destruct (bal_ref_put (RUpInode i) _ _ _ _ _ _ _ eq_refl Hb) as (X & Er & Hb').
  apply wp_bind. eapply wp_ref_put; [exact Er|]. apply wp_modify, HQ.
  destruct Hb' as [Hl Hr Hk Hc Hd Ha Hi Hs Hv]. split; try done; [by eapply icache_frame| |].
  - intros e z Hz. wp_simpl. destruct (Hd _ _ Hz) as (z' & Hz' & E).
    destruct (decide (d = e)) as [<-|]; [|rewrite !lookup_insert_ne by done; eauto].
    rewrite !lookup_insert_eq. eexists. split; [done|]. replace z with x by congruence. done.
  - intros j [Hj|[e He]]; [by apply Ha; left|].
    apply lookup_insert_Some in He as [[_ <-]|[_ He]]; [done|]. apply Ha. right. by exists e.
Qed.

(** ** Interposition *)

Lemma icache_mono N N' s : N ⊆ N' → icache_ok N s → icache_ok N' s.
Proof. intros HN [Hr Hu Ho]. split; [done..|]. intros i x Hi Hn. eapply Ho; [done|set_solver]. Qed.

Lemma wp_bal___get_inode li sb sbx usb s A L D l s1 (Q : kptr → kstate → Prop) :
  ks_supers s !! sb = Some sbx → s_fs_info sbx = Some usb → bal s A L ∅ D l s1 →
  (∀ e s2, s32 e ≠ 0 → bal s A L ∅ D l s2 → Q (KErr e) s2) →
  (∀ i s2, bal s ({[+ RUpInode i +]} ⊎ A) L {[ i ]} D l s2 → Q (KObj i) s2) →
  wp (__teadfs_get_inode li sb) Q s1.
Proof.
  intros Hsb Hfs Hb HE HQ. rewrite <- (bal_supers _ _ _ _ _ _ _ Hb) in Hsb.
  pose proof (bal_icache _ _ _ _ _ _ _ Hb) as Hc.
  eapply wp___get_inode; [exact Hsb|exact Hfs| | | | | |].
  - intros i x Hi. eapply ic_old; [exact Hc|exact Hi|set_solver].
  - intros _. by apply HE.
  - intros _. by apply HE.
  - intros _ _. apply HE; [done|]. eapply bal_frame; [exact Hb|..]; try done. by destruct Hb.
  - intros i _ Hi. apply cached_Some in Hi as (x & Hi & _). apply HQ.
    assert (Hb' : bal s ({[+ RUpInode i +]} ⊎ A) L ∅ D l (set_refs (λ X, {[+ RUpInode i +]} ⊎ X) s1)).
    { eapply bal_frame; [exact Hb|..]; try done; [by destruct Hb| |].
      - intros r. wp_simpl. rewrite !multiplicity_disj_union. lia.
      - intros r Hr. wp_simpl. rewrite multiplicity_disj_union, multiplicity_singleton_ne; [done|by intros ->]. }
    destruct Hb' as [? ? ? Hc' ? Ha ? ? ?]. split; try done; [by eapply icache_mono; [|exact Hc']|].
    intros j [->%elem_of_singleton|?]; [by exists x|]. apply Ha. by right.
  - intros i _ Hn Hi. apply HQ.
    rewrite <- (union_empty_r_L {[ i ]}).
    destruct Hb as [Hl Hr Hk _ Hd Ha Hin Hs Hv]. split; try done.
    + intros r Hr0. unfold tick. wp_simpl. rewrite !multiplicity_disj_union, (Hr r) by done.
      rewrite (multiplicity_singleton_ne r (RInode li)) by (by intros ->). lia.
    + eapply icache_frame; [eapply (icache_add ∅ (tick s1) i (interposed (ks_lfs s1) sb li i (s_bdi sbx)) li sb); [|exact Hi|exact Hn|done|done]| |done].
      * eapply icache_frame; [exact Hc|done|done].
      * intros l0. wp_simpl. rewrite multiplicity_disj_union, multiplicity_singleton_ne by done. done.
    + intros j Hj. wp_simpl. destruct (decide (i = j)) as [<-|Hne]; [by rewrite lookup_insert_eq|].
      rewrite lookup_insert_ne by done. apply Ha. right.
      by destruct Hj as [[->%elem_of_singleton|?%elem_of_empty]%elem_of_union|Hj].
    + intros j y Hj. wp_simpl. destruct (Hin _ _ Hj) as (y' & Hy & ?).
      rewrite lookup_insert_ne by congruence. eauto.
Qed.

Lemma wp_bal_unlock_new i s A L D l s1 (Q : () → kstate → Prop) :
  bal s A L {[ i ]} D l s1 →
  (∀ s2, bal s A L ∅ D l s2 → is_Some (ks_inodes s2 !! i) → Q () s2) →
  wp (unlock_new_inode i) Q s1.
Proof.
  intros Hb HQ. destruct (bal_attached _ _ _ _ _ _ _ Hb i) as [y Hy]; [set_solver|]. eapply wp_update_inode; [exact Hy|].
  apply HQ; [|eexists; apply lookup_insert_eq].
  destruct Hb as [Hl Hr Hk Hc Hd Ha Hi Hs Hv]. split; try done.
  - eapply icache_change; [exact Hc|exact Hy|done|done|done|set_solver].
  - intros j Hj. wp_simpl. destruct (decide (i = j)) as [<-|]; [by rewrite lookup_insert_eq|].
    rewrite lookup_insert_ne by done. apply Ha. right. by destruct Hj as [?%elem_of_empty|Hj].
  - intros j z Hz. wp_simpl. destruct (Hi _ _ Hz) as (z' & Hz' & E).
    destruct (decide (i = j)) as [<-|]; [|rewrite lookup_insert_ne by done; eauto].
    rewrite lookup_insert_eq. eexists. split; [done|]. by replace y with z' by congruence.
Qed.

(** Whichever inode it is, it is not new afterwards. *)
Lemma wp_bal_unlock_if_new i s A L D l s1 (Q : () → kstate → Prop) :
  bal s A L {[ i ]} D l s1 →
  (∀ s2, bal s A L ∅ D l s2 → is_Some (ks_inodes s2 !! i) → Q () s2) →
  wp (unlock_if_new i) Q s1.
Proof.
  intros Hb HQ. destruct (bal_attached _ _ _ _ _ _ _ Hb i) as [y Hy]; [set_solver|]. apply wp_bind. eapply wp_get_inode; [exact Hy|].
  destruct (i_new (i_meta y)) eqn:Hn; [by eapply wp_bal_unlock_new|].
  apply wp_ret, HQ; [|by exists y].
  destruct Hb as [Hl Hr Hk [Cr Cu Co] Hd Ha Hi Hs Hv]. split; try done; 
    [|intros j [?%elem_of_empty|Hj]; [done|apply Ha; by right]].
  split; try done. intros j z Hj _. destruct (decide (j = i)) as [->|Hne]; [congruence|].
  eapply Co; [exact Hj|]. by intros ->%elem_of_singleton.
Qed.

Lemma wp_bal_teadfs_get_inode li sb sbx usb s A L D l s1 (Q : kptr → kstate → Prop) :
  ks_supers s !! sb = Some sbx → s_fs_info sbx = Some usb → bal s A L ∅ D l s1 →
  (∀ e s2, s32 e ≠ 0 → bal s A L ∅ D l s2 → Q (KErr e) s2) →
  (∀ i s2, bal s ({[+ RUpInode i +]} ⊎ A) L ∅ D l s2 → is_Some (ks_inodes s2 !! i) →
    Q (KObj i) s2) →
  wp (teadfs_get_inode li sb) Q s1.
Proof.
  intros Hsb Hfs Hb HE HQ. apply wp_bind. eapply wp_bal___get_inode; [done|done|done| |].
  - intros e s2 He Hb2. apply wp_bind, wp_ret, wp_ret. by apply HE.
  - intros i s2 Hb2. apply wp_bind. eapply wp_bal_unlock_if_new; [exact Hb2|].
    intros s3 Hb3 Hi3. apply wp_ret. by apply HQ.
Qed.

Lemma wp_bal_interpose ld li d x sb sbx usb s A L D l s1 (Q : Z → kstate → Prop) :
  lower_d_inode l ld = Some li → ks_supers s !! sb = Some sbx → s_fs_info sbx = Some usb →
  ks_dentries s !! d = Some x → d_inode x = None → D !! d = None → bal s A L ∅ D l s1 →
  (∀ rc s2, rc ≠ 0 → bal s A L ∅ D l s2 → Q rc s2) →
  (∀ i s2, bal s A L ∅ (<[d := i]> D) l s2 → Q 0 s2) →
  wp (teadfs_interpose ld d sb) Q s1.
Proof.
  intros Hld Hsb Hfs Hx Hn HD Hb HE HQ.
  apply wp_bind. eapply wp_bal_lower_inode_at; [exact Hb|exact Hld|].
  apply wp_bind. eapply wp_bal_teadfs_get_inode; [done|done|done| |].
  - intros e s2 He Hb2. apply wp_ret. by apply HE.
  - intros i s2 Hb2 Hi. apply wp_bind. eapply wp_bal_attach; [done..|].
    intros s3 Hb3. apply wp_ret. by eapply HQ.
Qed.

End Refs.
