(* ===== verification/Dentry.v ===== *)
(** [TEADFS/src/dentry.c]: revalidating and releasing the dentries of the upper
    layer. *)
From S2P Require Import Prelude Kernel Protocol Wp Vfs Super Lookup.
Local Open Scope Z_scope.

Definition LOOKUP_RCU : Z := 64.   (* 0x0040 *)

Section Dentry.
Context `{KernelEnv}.

Definition teadfs_d_revalidate (dentry : positive) (flags : Z) : M Z :=
  if negb (Z.land flags LOOKUP_RCU =? 0) then mret (- ECHILD) else
  lower_path ← teadfs_get_lower_path (Some dentry);
  lower_dentry ← deref (p_dentry lower_path);
  has ← gets (λ s, lower_has_op (ks_lfs s) lower_dentry IO_d_revalidate);
  if negb (has : bool) then mret 1 else
  rc ← vfs (VC_d_revalidate lower_dentry flags);
  x ← get_dentry dentry;
  (match d_inode x with
   | None => mret ()
   | Some i =>
     l ← teadfs_inode_to_lower i;
     li ← deref l;
     fsstack_copy_attr_all i li
   end);;
  teadfs_put_lower_path dentry;;
  mret rc.

Definition teadfs_d_release (dentry : positive) : M () :=
  x ← get_dentry dentry;
  match d_fsdata x with
  | None => mret ()
  | Some _ =>
    lower_path ← teadfs_get_lower_path (Some dentry);
    dput (p_dentry lower_path);;
    mntput (p_mnt lower_path);;
    teadfs_put_lower_path dentry;;
    teadfs_set_dentry_private dentry None
  end.

End Dentry.

(** * Properties *)
Section DentryLemmas.
Context `{KernelEnv}.

(** Revalidation: never under RCU; what the lower file system answers
    otherwise, 1 when it has nothing to say; an upper inode then mirrors the
    lower one, whatever the answer was. *)
Theorem d_revalidate_mirrors (s : kstate) (d i li ld : positive) (x : dentry) (y : inode) (flags : Z) :
  dentry_at s d x → p_dentry (lower_path x) = Some ld →
  d_inode x = Some i → ks_inodes s !! i = Some y → lower_inode y = Some li →
  let asked := lower_has_op (ks_lfs s) ld IO_d_revalidate in
  wp (teadfs_d_revalidate d flags) (λ rc s',
    if negb (Z.land flags LOOKUP_RCU =? 0) then rc = - ECHILD ∧ s' = s
    else if asked then rc = vcall_rc (ks_calls s) (VC_d_revalidate ld flags) ∧
      ks_inodes s' = <[i := set_attr (λ _, lower_attr (ks_lfs s) li) y]> (ks_inodes s)
    else rc = 1 ∧ s' = s) s.
Proof.
  intros Hx Hl Hi Hy Hli asked. unfold teadfs_d_revalidate. destruct (negb _); [by apply wp_ret|].
  apply wp_bind. eapply wp_get_lower_path; [exact Hx|]. rewrite Hl.
  apply wp_bind, wp_deref, wp_bind, wp_gets. fold asked. destruct asked; cbn [negb]; [|by apply wp_ret].
  apply wp_bind, wp_vfs, wp_bind. eapply wp_get_dentry; [apply Hx|]. rewrite Hi.
  apply wp_bind, wp_bind, wp_bind. eapply wp_get_inode; [exact Hy|]. rewrite Hli.
  apply wp_ret, wp_bind, wp_deref, wp_bind, wp_gets. eapply wp_update_inode; [exact Hy|].
  apply wp_bind. eapply wp_put_lower_path; [exact Hx|]. by apply wp_ret.
Qed.

(** Putting and resetting a lower path gives back the references it held, once:
    done again, it gives back nothing. *)
Theorem put_reset_once (s : kstate) (d ld m : positive) (x : dentry) (X : gmultiset ref) :
  ks_dentries s !! d = Some x → d_fsdata x = Some (Path (Some ld) (Some m)) →
  ks_refs s = {[+ RMnt m +]} ⊎ ({[+ RDentry ld +]} ⊎ X) →
  let reset s' := ks_refs s' = X ∧
    ks_dentries s' = <[d := set_fsdata (Some (Path None None)) x]> (ks_dentries s) in
  wp (wrapfs_put_reset_lower_path d) (λ _ s', reset s') s ∧
  wp (wrapfs_put_reset_lower_path d;; wrapfs_put_reset_lower_path d) (λ _ s', reset s') s.
Proof.
  intros Hx Hf HX reset. assert (Hl : lower_path x = Path (Some ld) (Some m)) by (unfold lower_path; by rewrite Hf).
  assert (H1 : ∀ Q : () → kstate → Prop,
    Q () (set_refs (λ _, X) (set_dentries (insert d (set_fsdata (Some (Path None None)) x)) s)) →
    wp (wrapfs_put_reset_lower_path d) Q s).
  { intros Q HQ. apply wp_bind. eapply wp_get_lower_path; [split; [exact Hx|by rewrite Hf]|]. rewrite Hl.
    apply wp_bind, wp_bind. eapply wp_get_dentry; [exact Hx|]. apply wp_modify.
    apply wp_bind. eapply (wp_ref_put _ ({[+ RMnt m +]} ⊎ X)); [simpl; rewrite HX; multiset_solver|].
    eapply wp_ref_put; [reflexivity|]. exact HQ. }
  split; [by apply H1|]. apply wp_bind, H1.
  apply wp_bind. eapply wp_get_lower_path; [split; [apply lookup_insert_eq|done]|].
  apply wp_bind, wp_bind. eapply wp_get_dentry; [apply lookup_insert_eq|].
  apply wp_modify, wp_bind, wp_ret, wp_ret. split; [done|]. simpl. by rewrite insert_insert_eq.
Qed.

Lemma wp_d_release d x ld m X (Q : () → kstate → Prop) s :
  ks_dentries s !! d = Some x → d_fsdata x = Some (Path (Some ld) (Some m)) →
  ks_refs s = {[+ RMnt m +]} ⊎ ({[+ RDentry ld +]} ⊎ X) →
  Q () (set_dentries (insert d (set_fsdata None x)) (set_refs (λ _, X) s)) →
  wp (teadfs_d_release d) Q s.
Proof.
  intros Hx Hf HX HQ. assert (Hat : dentry_at s d x) by (split; [done|by rewrite Hf]).
  assert (Hl : lower_path x = Path (Some ld) (Some m)) by (unfold lower_path; by rewrite Hf).
  apply wp_bind. eapply wp_get_dentry; [exact Hx|]. rewrite Hf.
  apply wp_bind. eapply wp_get_lower_path; [exact Hat|]. rewrite Hl.
  apply wp_bind. eapply (wp_ref_put _ ({[+ RMnt m +]} ⊎ X)); [rewrite HX; multiset_solver|].
  apply wp_bind. eapply wp_ref_put; [reflexivity|].
  apply wp_bind. eapply wp_put_lower_path; [exact Hat|].
  eapply wp_set_private; [exact Hx|]. exact HQ.
Qed.

(** C35: A name that was looked up and not found, and is then thrown away, leaves
    no reference behind. *)
Theorem lookup_released (s : kstate) (dir d q : positive) (x qx : dentry) (dx qy : inode)
    (qi ldir di m ld : positive) (l : lfs) :
  looking s dir d q x qx dx qy qi ldir di m →
  lower_lookup (ks_lfs s) ldir (d_name x) = (l, KObj ld) → lower_d_inode l ldir = Some di →
  lower_d_inode l ld = None → kzalloc_ok (m_allocs (ks_mem s)) sizeof_dentry_info = true →
  wp (teadfs_lookup dir d;; teadfs_d_release d) (λ _ s', ks_refs s' = ks_refs s ∧
    ks_locks s' = ks_locks s ∧ d_fsdata <$> ks_dentries s' !! d = Some None) s.
Proof.
  intros Hlk Hl Hdi Hli Hmem. apply wp_bind.
  eapply wp_mono; [eapply lookup_negative; [exact Hlk|exact Hl|exact Hdi|exact Hli|exact Hmem]|].
  intros r s1 (_ & _ & HL & HR & _ & HD). eapply wp_d_release.
  - rewrite HD. apply lookup_insert_eq.
  - done.
  - exact HR.
  - split_and!; [done|exact HL|]. simpl. by rewrite lookup_insert_eq.
Qed.

End DentryLemmas.
