(* ===== verification/Inode.v ===== *)
(** [TEADFS/src/inode.c]: names, links, attributes and extended attributes.

    The tests of [IS_ERR] on what [lock_parent] returns are left out:
    [dget_parent] does not fail.  Storage that is read before it is written
    holds [junk]. *)
From S2P Require Import Prelude Kernel Protocol Wp Vfs GlobalParam Netlink UserCom Requests Daemon Client Session File Mmap Super Lookup Refs Dentry.
Local Open Scope Z_scope.

(** [struct kstat], as [generic_fillattr] fills it. *)
Record kstat := Kstat { st_ino : Z; st_attr : attr; st_size : Z; st_blocks : Z }.

Section Inode.
Context `{KernelEnv}.

(** A local [int] nobody assigned. *)
Definition junk_int : Z := s32 (le_decode (map junk (seq 0 4))).

(** [dentry->d_inode] of an upper dentry, where it is used. *)
Definition upper_inode_at (d : positive) : M positive := x ← get_dentry d; deref (d_inode x).
(** [teadfs_inode_to_lower], where the result is used. *)
Definition lower_of (i : positive) : M positive := l ← teadfs_inode_to_lower i; deref l.

Definition lock_parent (d : positive) : M positive :=
  dir ← lower_dget_parent d;
  i ← lower_inode_at dir;
  mutex_lock i;;
  mret dir.
Definition unlock_dir (dir : positive) : M () :=
  i ← lower_inode_at dir;
  mutex_unlock i;;
  dput (Some dir).

(** Times and size of a directory, and the link count of an inode, from the
    lower ones. *)
Definition copy_dir (dir lower_dir_dentry : positive) : M () :=
  li ← lower_inode_at lower_dir_dentry;
  fsstack_copy_attr_times dir li;;
  li ← lower_inode_at lower_dir_dentry;
  fsstack_copy_inode_size dir li.
Definition copy_nlink (i li : positive) : M () :=
  a ← lower_attr_of li; set_nlink i (at_nlink a).

(** ** Making names *)

Definition teadfs_create (dir dentry : positive) (mode : Z) (want_excl : bool) : M Z :=
  lower_path ← teadfs_get_lower_path (Some dentry);
  lower_dentry ← deref (p_dentry lower_path);
  lower_parent_dentry ← lock_parent lower_dentry;
  rc ← (
    pi ← lower_inode_at lower_parent_dentry;
    rc ← lower (LO_create pi lower_dentry mode want_excl);
    if negb (rc =? 0) then mret rc else
    li ← lower_inode_at lower_dentry;
    x ← get_inode dir;
    inode ← __teadfs_get_inode li (i_sb (i_meta x));
    match inode with
    | KErr _ =>
      pi ← lower_inode_at lower_parent_dentry;
      lower (LO_unlink pi lower_dentry);;
      mret rc
    | KNull => fail_ub NullDeref
    | KObj i =>
      copy_dir dir lower_parent_dentry;;
      unlock_new_inode i;;
      d_instantiate dentry (Some i);;
      mret rc
    end);
  unlock_dir lower_parent_dentry;;
  teadfs_put_lower_path dentry;;
  mret rc.

(** What [link], [symlink], [mkdir] and [mknod] do once the lower name is
    made. *)
Definition interpose_made (rc : Z) (dir dentry lower_dentry lower_dir_dentry : positive)
    (rest : M ()) : M Z :=
  if negb (rc =? 0) then mret rc else
  ln ← lower_inode_of lower_dentry;
  match ln with
  | None => mret rc
  | Some _ =>
    x ← get_inode dir;
    rc ← teadfs_interpose lower_dentry dentry (i_sb (i_meta x));
    if negb (rc =? 0) then mret rc else
    copy_dir dir lower_dir_dentry;;
    rest;;
    mret rc
  end.
(** ... and at their end, except [link]. *)
Definition drop_negative (dentry : positive) : M () :=
  x ← get_dentry dentry;
  match d_inode x with None => d_drop dentry | Some _ => mret () end.

Definition teadfs_link (old_dentry dir new_dentry : positive) : M Z :=
  oi ← upper_inode_at old_dentry;
  o ← get_inode oi;
  let file_size_save := i_size o in
  lower_old_path ← teadfs_get_lower_path (Some old_dentry);
  lower_new_path ← teadfs_get_lower_path (Some new_dentry);
  lower_old_dentry ← deref (p_dentry lower_old_path);
  lower_new_dentry ← deref (p_dentry lower_new_path);
  dget lower_old_dentry;;
  dget lower_new_dentry;;
  lower_dir_dentry ← lock_parent lower_new_dentry;
  pi ← lower_inode_at lower_dir_dentry;
  rc ← lower (LO_link lower_old_dentry pi lower_new_dentry);
  rc ← interpose_made rc dir new_dentry lower_new_dentry lower_dir_dentry (
    oi ← upper_inode_at old_dentry;
    li ← lower_of oi;
    copy_nlink oi li;;
    ni ← upper_inode_at new_dentry;
    i_size_write ni file_size_save);
  unlock_dir lower_dir_dentry;;
  dput (Some lower_new_dentry);;
  dput (Some lower_old_dentry);;
  teadfs_put_lower_path old_dentry;;
  teadfs_put_lower_path new_dentry;;
  mret rc.

Definition teadfs_symlink (dir dentry : positive) (symname : bytes) : M Z :=
  lower_path ← teadfs_get_lower_path (Some dentry);
  lower_dentry ← deref (p_dentry lower_path);
  dget lower_dentry;;
  lower_dir_dentry ← lock_parent lower_dentry;
  pi ← lower_inode_at lower_dir_dentry;
  rc ← lower (LO_symlink pi lower_dentry symname);
  rc ← interpose_made rc dir dentry lower_dentry lower_dir_dentry (mret ());
  unlock_dir lower_dir_dentry;;
  dput (Some lower_dentry);;
  drop_negative dentry;;
  teadfs_put_lower_path dentry;;
  mret rc.

Definition teadfs_mkdir (dir dentry : positive) (mode : Z) : M Z :=
  lower_path ← teadfs_get_lower_path (Some dentry);
  lower_dentry ← deref (p_dentry lower_path);
  lower_dir_dentry ← lock_parent lower_dentry;
  pi ← lower_inode_at lower_dir_dentry;
  rc ← lower (LO_mkdir pi lower_dentry mode);
  rc ← interpose_made rc dir dentry lower_dentry lower_dir_dentry (
    li ← lower_inode_at lower_dir_dentry; copy_nlink dir li);
  unlock_dir lower_dir_dentry;;
  drop_negative dentry;;
  teadfs_put_lower_path dentry;;
  mret rc.

Definition teadfs_mknod (dir dentry : positive) (mode dev : Z) : M Z :=
  lower_path ← teadfs_get_lower_path (Some dentry);
  lower_dentry ← deref (p_dentry lower_path);
  lower_dir_dentry ← lock_parent lower_dentry;
  pi ← lower_inode_at lower_dir_dentry;
  rc ← lower (LO_mknod pi lower_dentry mode dev);
  rc ← interpose_made rc dir dentry lower_dentry lower_dir_dentry (mret ());
  unlock_dir lower_dir_dentry;;
  drop_negative dentry;;
  teadfs_put_lower_path dentry;;
  mret rc.

(** ** Removing names *)

Definition set_ctime (i : positive) (t : Z) : M () := update_inode (set_attr (λ a, with_ctime a t)) i.

Definition teadfs_unlink (dir dentry : positive) : M Z :=
  lower_dir_inode ← teadfs_inode_to_lower dir;
  x ← get_dentry dentry;
  let inode := d_inode x in
  lower_path ← teadfs_get_lower_path (Some dentry);
  lower_dentry ← deref (p_dentry lower_path);
  dget lower_dentry;;
  lower_dir_dentry ← lock_parent lower_dentry;
  lower_dir ← deref lower_dir_inode;
  rc ← lower (LO_unlink lower_dir lower_dentry);
  rc ← (
    if negb (rc =? 0) then mret rc else
    fsstack_copy_attr_times dir lower_dir;;
    i ← deref inode;
    li ← lower_of i;
    copy_nlink i li;;
    d ← get_inode dir;
    set_ctime i (at_ctime (i_attr d));;
    d_drop dentry;;
    mret rc);
  unlock_dir lower_dir_dentry;;
  dput (Some lower_dentry);;
  teadfs_put_lower_path dentry;;
  mret rc.

Definition teadfs_rmdir (dir dentry : positive) : M Z :=
  lower_path ← teadfs_get_lower_path (Some dentry);
  lower_dentry ← deref (p_dentry lower_path);
  ref_get (RUpDentry dentry);;
  lower_dir_dentry ← lock_parent lower_dentry;
  dget lower_dentry;;
  pi ← lower_inode_at lower_dir_dentry;
  rc ← lower (LO_rmdir pi lower_dentry);
  dput (Some lower_dentry);;
  x ← get_dentry dentry;
  (match d_inode x with
   | Some i => if rc =? 0 then set_nlink i 0 else mret ()
   | None => mret ()
   end);;
  pi ← lower_inode_at lower_dir_dentry;
  fsstack_copy_attr_times dir pi;;
  copy_nlink dir pi;;
  unlock_dir lower_dir_dentry;;
  (if rc =? 0 then d_drop dentry else mret ());;
  upper_dput dentry;;
  teadfs_put_lower_path dentry;;
  mret rc.

(** ** Renaming *)

Definition teadfs_rename (old_dir old_dentry new_dir new_dentry : positive) : M Z :=
  lower_old_path ← teadfs_get_lower_path (Some old_dentry);
  lower_old_dentry ← deref (p_dentry lower_old_path);
  lower_new_path ← teadfs_get_lower_path (Some new_dentry);
  lower_new_dentry ← deref (p_dentry lower_new_path);
  dget lower_old_dentry;;
  dget lower_new_dentry;;
  lower_old_dir_dentry ← lower_dget_parent lower_old_dentry;
  lower_new_dir_dentry ← lower_dget_parent lower_new_dentry;
  x ← get_dentry new_dentry;
  let target_inode := d_inode x in
  trap ← lock_rename lower_old_dir_dentry lower_new_dir_dentry;
  '(rc, is_rename_lock) ← (
    if bool_decide (trap = Some lower_old_dentry) then mret (- EINVAL, false) else
    if bool_decide (trap = Some lower_new_dentry) then mret (- ENOTEMPTY, false) else
    oi ← lower_inode_at lower_old_dir_dentry;
    ni ← lower_inode_at lower_new_dir_dentry;
    rc ← lower (LO_rename oi lower_old_dentry ni lower_new_dentry);
    if negb (rc =? 0) then mret (rc, true) else
    (match target_inode with
     | Some t => li ← lower_of t; fsstack_copy_attr_all t li
     | None => mret ()
     end);;
    ni ← lower_inode_at lower_new_dir_dentry;
    fsstack_copy_attr_all new_dir ni;;
    (if bool_decide (new_dir = old_dir) then mret () else
       oi ← lower_inode_at lower_old_dir_dentry; fsstack_copy_attr_all old_dir oi);;
    mret (rc, true));
  (if (is_rename_lock : bool) then unlock_rename lower_old_dir_dentry lower_new_dir_dentry else mret ());;
  dput (Some lower_new_dir_dentry);;
  dput (Some lower_old_dir_dentry);;
  dput (Some lower_new_dentry);;
  dput (Some lower_old_dentry);;
  teadfs_put_lower_path old_dentry;;
  teadfs_put_lower_path new_dentry;;
  mret rc.

(** ** Attributes *)

(** The second result is [*stat] when the function fills it. *)
Definition teadfs_getattr (dentry : positive) : M (Z * option kstat) :=
  i ← upper_inode_at dentry;
  lower_path ← teadfs_get_lower_path (Some dentry);
  rc ← vfs (VC_vfs_getattr lower_path);
  stat ← (
    if negb (rc =? 0) then mret None else
    li ← lower_of i;
    fsstack_copy_attr_all i li;;
    x ← get_inode i;
    blocks ← gets (λ s, lower_stat_blocks (ks_lfs s) lower_path);
    size ← (
      if S_ISREG (i_mode x) && negb (file_decrypt x =? 0) then
        access ← teadfs_request_open_path lower_path;
        mret (if OFR_DECRYPT =? access then i_size x - ENCRYPT_FILE_HEADER_SIZE else i_size x)
      else mret (i_size x));
    mret (Some (Kstat (i_ino (i_meta x)) (i_attr x) size blocks)));
  teadfs_put_lower_path dentry;;
  mret (rc, stat).

Definition teadfs_getattr_link (dentry : positive) : M (Z * kstat) :=
  i ← upper_inode_at dentry;
  x ← get_inode i;
  mret (0, Kstat (i_ino (i_meta x)) (i_attr x) (i_size x) (i_blocks (i_meta x))).

Definition with_valid (v : Z) (ia : iattr) : iattr := IAttr v (ia_size ia) (ia_file ia) (ia_rest ia).
Definition has_bits (v bits : Z) : bool := negb (Z.land v bits =? 0).

Definition teadfs_setattr (dentry : positive) (ia : iattr) : M Z :=
  inode ← upper_inode_at dentry;
  lower_inode ← teadfs_inode_to_lower inode;
  lower_path ← teadfs_get_lower_path (Some dentry);
  rc ← (
    rc ← vfs (VC_inode_change_ok inode ia);
    if negb (rc =? 0) then mret rc else
    lower_ia ← (
      if has_bits (ia_valid ia) ATTR_FILE then
        match ia_file ia with
        | KObj f => lf ← teadfs_file_to_lower f; mret (IAttr (ia_valid ia) (ia_size ia) lf (ia_rest ia))
        | KNull => fail_ub NullDeref
        | KErr _ => fail_ub WildPointer
        end
      else mret ia);
    '(rc, lower_ia) ← (
      if has_bits (ia_valid ia) ATTR_SIZE then truncate_upper dentry ia lower_ia
      else mret (rc, lower_ia));
    if rc <? 0 then mret rc else
    let lower_ia :=
      if has_bits (ia_valid lower_ia) (Z.lor ATTR_KILL_SUID ATTR_KILL_SGID)
      then with_valid (Z.land (ia_valid lower_ia) (Z.lnot ATTR_MODE)) lower_ia else lower_ia in
    lower_dentry ← deref (p_dentry lower_path);
    notify_change lower_dentry lower_ia);
  li ← deref lower_inode;
  fsstack_copy_attr_all inode li;;
  teadfs_put_lower_path dentry;;
  mret rc.

Definition teadfs_permission (inode : positive) (mask : Z) : M Z :=
  li ← lower_of inode;
  vfs (VC_permission li mask).

(** ** Extended attributes *)

(** Does the inode of a lower dentry have the operation. *)
Definition lower_can (lower_dentry : positive) (op : lower_iop) : M bool :=
  li ← lower_inode_at lower_dentry;
  gets (λ s, lower_has_op (ks_lfs s) li op).
(** Run something under the mutex of a lower dentry's inode. *)
Definition under_mutex (lower_dentry : positive) (m : M Z) : M Z :=
  li ← lower_inode_at lower_dentry;
  mutex_lock li;;
  rc ← m;
  li ← lower_inode_at lower_dentry;
  mutex_unlock li;;
  mret rc.
(** The frame the four share. *)
Definition with_lower (dentry : positive) (op : lower_iop) (m : positive → M Z) : M Z :=
  lower_path ← teadfs_get_lower_path (Some dentry);
  lower_dentry ← deref (p_dentry lower_path);
  ok ← lower_can lower_dentry op;
  rc ← (if negb (ok : bool) then mret (- EOPNOTSUPP) else m lower_dentry);
  teadfs_put_lower_path dentry;;
  mret rc.

Definition teadfs_setxattr (dentry : positive) (name value : bytes) (flags : Z) : M Z :=
  with_lower dentry IO_setxattr (λ lower_dentry,
    rc ← lower (LO_setxattr lower_dentry name value flags);
    x ← get_dentry dentry;
    (match d_inode x with
     | Some i => if rc =? 0 then li ← lower_inode_at lower_dentry; fsstack_copy_attr_all i li
                 else mret ()
     | None => mret ()
     end);;
    mret rc).
Definition teadfs_getxattr (dentry : positive) (name : bytes) (size : Z) : M Z :=
  with_lower dentry IO_getxattr (λ lower_dentry,
    under_mutex lower_dentry (rc ← vfs (VC_getxattr lower_dentry name size); mret (s32 rc))).
Definition teadfs_listxattr (dentry : positive) (size : Z) : M Z :=
  with_lower dentry IO_listxattr (λ lower_dentry,
    under_mutex lower_dentry (rc ← vfs (VC_listxattr lower_dentry size); mret (s32 rc))).
Definition teadfs_removexattr (dentry : positive) (name : bytes) : M Z :=
  with_lower dentry IO_removexattr (λ lower_dentry,
    under_mutex lower_dentry (lower (LO_removexattr lower_dentry name))).

(** ** Symbolic links *)

(** The result and the buffer; [*bufsiz] is not written. *)
Definition teadfs_readlink_lower (dentry : positive) : M (Z * ptr) :=
  buf ← teadfs_zalloc PATH_MAX;
  rc ← (
    if is_null buf then mret junk_int else
    lower_path ← teadfs_get_lower_path (Some dentry);
    lower_dentry ← deref (p_dentry lower_path);
    lower_inode_at lower_dentry;;
    r ← gets (λ s, lower_readlink (ks_lfs s) lower_dentry);
    match r with
    | inl e => mret (s32 e)
    | inr text => store_bytes buf text;; mret (s32 (blen text))
    end);
  teadfs_put_lower_path dentry;;
  mret (rc, buf).

(** The function has no [return]. *)
Definition teadfs_readlink (dentry : positive) (buflen : Z) : M Z :=
  teadfs_get_lower_path (Some dentry);;
  vfs (VC_generic_readlink dentry buflen);;
  teadfs_put_lower_path dentry;;
  mret junk_int.

(** What [nd_set_link] gets is the result. *)
Definition teadfs_follow_link (dentry : positive) : M ptr :=
  lower_path ← teadfs_get_lower_path (Some dentry);
  lower_dentry ← deref (p_dentry lower_path);
  '(rc, buf) ← teadfs_readlink_lower dentry;
  (if negb (rc =? 0) then mret () else
     i ← upper_inode_at dentry;
     li ← lower_inode_at lower_dentry;
     fsstack_copy_attr_atime i li;;
     store_bytes (padd buf PATH_MAX) [zero_byte]);;
  teadfs_put_lower_path dentry;;
  mret buf.

Definition teadfs_put_link (buf : ptr) : M () := teadfs_free buf.

End Inode.

(** * Lemmas *)
Section InodeLemmas.
Context `{Env : KernelEnv}.

Section Run.
Context (s : kstate).

Lemma wp_bal_lock_parent d p pi A L N D l s1 (Q : positive → kstate → Prop) :
  bal s A L N D l s1 → lower_d_parent l d = p → lower_d_inode l p = Some pi →
  pi ∉ L → pi ∉ ks_locks s →
  (∀ s2, bal s ({[+ RDentry p +]} ⊎ A) ({[+ pi +]} ⊎ L) N D l s2 → Q p s2) →
  wp (lock_parent d) Q s1.
Proof.
  intros Hb Hp Hpi HL Hs HQ. apply wp_bind, wp_bind, wp_gets.
  rewrite (bal_lfs _ _ _ _ _ _ _ Hb), Hp.
  apply wp_bind. eapply wp_bal_ref_get; [done|exact Hb|]. intros s2 Hb2. apply wp_ret.
  apply wp_bind. eapply wp_bal_lower_inode_at; [exact Hb2|exact Hpi|].
  apply wp_bind. eapply wp_bal_mutex_lock; [exact HL|exact Hs|exact Hb2|]. intros s3 Hb3. by apply wp_ret, HQ.
Qed.

Lemma wp_bal_unlock_dir p pi A L N D l s1 (Q : () → kstate → Prop) :
  bal s ({[+ RDentry p +]} ⊎ A) ({[+ pi +]} ⊎ L) N D l s1 → lower_d_inode l p = Some pi →
  (∀ s2, bal s A L N D l s2 → Q () s2) → wp (unlock_dir p) Q s1.
Proof.
  intros Hb Hpi HQ. apply wp_bind. eapply wp_bal_lower_inode_at; [exact Hb|exact Hpi|].
  apply wp_bind. eapply wp_bal_mutex_unlock; [done|exact Hb|]. intros s2 Hb2.
  by eapply wp_bal_ref_put.
Qed.

Lemma wp_bal_copy_dir dir p pi A L N D l s1 (Q : () → kstate → Prop) :
  bal s A L N D l s1 → is_Some (ks_inodes s !! dir) → lower_d_inode l p = Some pi →
  (∀ s2, bal s A L N D l s2 → Q () s2) → wp (copy_dir dir p) Q s1.
Proof.
  intros Hb Hdir Hpi HQ. apply wp_bind. eapply wp_bal_lower_inode_at; [exact Hb|exact Hpi|].
  apply wp_bind. eapply wp_bal_copy_attr_times; [done|exact Hb|]. intros s2 Hb2.
  apply wp_bind. eapply wp_bal_lower_inode_at; [exact Hb2|exact Hpi|].
  eapply wp_bal_copy_inode_size; [done|exact Hb2|]. exact HQ.
Qed.

Lemma wp_bal_copy_nlink i li A L N D l s1 (Q : () → kstate → Prop) :
  bal s A L N D l s1 → is_Some (ks_inodes s !! i) →
  (∀ s2, bal s A L N D l s2 → Q () s2) → wp (copy_nlink i li) Q s1.
Proof. intros Hb Hi HQ. apply wp_bind, wp_gets. by eapply wp_bal_set_nlink. Qed.

(** An inode of a mounted super block. *)
Definition inode_of (i : positive) : Prop :=
  ∃ x sbx usb, ks_inodes s !! i = Some x ∧ ks_supers s !! i_sb (i_meta x) = Some sbx ∧
    s_fs_info sbx = Some usb.
(** A dentry without an inode. *)
Definition negative (d : positive) : Prop := ∃ x, ks_dentries s !! d = Some x ∧ d_inode x = None.

Lemma inode_of_exists i : inode_of i → is_Some (ks_inodes s !! i).
Proof. intros (x & ? & ? & ? & _). by exists x. Qed.

Lemma wp_bal_interpose_made rc dir d ld p pi rest A L l s1 (Q : Z → kstate → Prop) :
  bal s A L ∅ ∅ l s1 → inode_of dir → negative d → lower_d_inode l p = Some pi →
  (∀ i s2, bal s A L ∅ (<[d := i]> ∅) l s2 → wp rest (λ _ s3, bal s A L ∅ (<[d := i]> ∅) l s3) s2) →
  (∀ rc' D s2, bal s A L ∅ D l s2 → Q rc' s2) →
  wp (interpose_made rc dir d ld p rest) Q s1.
Proof.
  intros Hb Hdir (x & Hx & Hn) Hpi Hrest HQ. pose proof (inode_of_exists _ Hdir) as Hdir'.
  destruct Hdir as (dx & sbx & usb & Hdx & Hsb & Hfs). unfold interpose_made.
  destruct (negb (rc =? 0)); [by eapply wp_ret, HQ|].
  apply wp_bind, wp_gets. rewrite (bal_lfs _ _ _ _ _ _ _ Hb).
  destruct (lower_d_inode l ld) as [li|] eqn:Hld; [|by eapply wp_ret, HQ].
  apply wp_bind. eapply wp_bal_get_inode; [exact Hdx|exact Hb|]. intros y _ Esb. rewrite Esb.
  apply wp_bind. eapply wp_bal_interpose; [exact Hld|exact Hsb|exact Hfs|exact Hx|exact Hn|apply lookup_empty|exact Hb| |].
  - intros rc' s2 Hrc Hb2. rewrite (proj2 (Z.eqb_neq _ _) Hrc). by eapply wp_ret, HQ.
  - intros i s2 Hb2. cbn [negb Z.eqb]. apply wp_bind.
    eapply wp_bal_copy_dir; [exact Hb2|done|exact Hpi|]. intros s3 Hb3.
    apply wp_bind. eapply wp_mono; [apply (Hrest i s3 Hb3)|]. intros a s4 Hb4. apply wp_ret. eapply HQ. exact Hb4.
Qed.

Lemma wp_bal_drop_negative d A L N D l s1 (Q : () → kstate → Prop) :
  bal s A L N D l s1 → is_Some (ks_dentries s !! d) →
  (∀ s2, bal s A L N D l s2 → Q () s2) → wp (drop_negative d) Q s1.
Proof.
  intros Hb [x Hx] HQ. apply wp_bind. eapply wp_bal_get_dentry; [exact Hx|exact Hb|].
  intros y _. destruct (d_inode y); [by apply wp_ret, HQ|]. eapply wp_bal_d_drop; [|exact Hb|exact HQ]; by exists x.
Qed.

(** The dentry [d] is over the lower dentry [ld], whose parent [p] is the lower
    directory with the inode [pi], which nobody has locked. *)
Record name_at (d ld : positive) (x : dentry) (p pi : positive) : Prop := NameAt {
  na_dentry : dentry_at s d x;
  na_lower : p_dentry (lower_path x) = Some ld;
  na_parent : lower_d_parent (ks_lfs s) ld = p;
  na_ne : p ≠ ld;
  na_inode : lower_d_inode (ks_lfs s) p = Some pi;
  na_free : pi ∉ ks_locks s;
}.

(** All references to dentries and mounts, and all mutexes, are given back; the
    inode cache is well formed; the heap is as before. *)
Definition balanced (s' : kstate) : Prop := ∃ D l, bal s ∅ ∅ ∅ D l s'.

Context `{!LowerLaws}.

Lemma stable_parent l op d p pi :
  op_entries op = [d] → p ≠ d → lower_d_inode l p = Some pi →
  lower_d_inode (lower_do l op).2 p = Some pi.
Proof.
  intros He Hne <-. apply lower_inode_stable. rewrite He. by intros ->%list_elem_of_singleton.
Qed.

Lemma bal_symlink dir d ld x p pi symname :
  icache_ok ∅ s → name_at d ld x p pi → negative d → inode_of dir →
  wp (teadfs_symlink dir d symname) (λ _, balanced) s.
Proof.
  intros Hc [Hd Hl Hp Hne Hpi Hfree] Hneg Hdir. pose proof (bal_refl s Hc) as Hb.
  apply wp_bind. eapply wp_bal_get_lower_path; [exact Hb|exact Hd|]. rewrite Hl.
  apply wp_bind, wp_deref, wp_bind. eapply wp_bal_ref_get; [done|exact Hb|]. intros s1 Hb1.
  apply wp_bind. eapply wp_bal_lock_parent; [exact Hb1|exact Hp|exact Hpi|multiset_solver|exact Hfree|].
  intros s2 Hb2. apply wp_bind. eapply wp_bal_lower_inode_at; [exact Hb2|exact Hpi|].
  apply wp_bind. eapply wp_bal_lower; [exact Hb2|]. intros s3 Hb3.
  pose proof (stable_parent _ (LO_symlink pi ld symname) _ _ _ eq_refl Hne Hpi) as Hpi3.
  apply wp_bind. eapply wp_bal_interpose_made; [exact Hb3|done|done|exact Hpi3| |].
  { intros i s4 Hb4. by apply wp_ret. }
  intros rc D s4 Hb4. apply wp_bind. eapply wp_bal_unlock_dir; [exact Hb4|exact Hpi3|]. intros s5 Hb5.
  apply wp_bind. eapply wp_bal_ref_put; [done|done|exact Hb5|]. intros s6 Hb6.
  apply wp_bind. eapply wp_bal_drop_negative; [exact Hb6|exists x; apply Hd|]. intros s7 Hb7.
  apply wp_bind. eapply wp_bal_put_lower_path; [exact Hb7|exact Hd|]. apply wp_ret.
  eexists _, _. exact Hb7.
Qed.

Lemma bal_mknod dir d ld x p pi mode dev :
  icache_ok ∅ s → name_at d ld x p pi → negative d → inode_of dir →
  wp (teadfs_mknod dir d mode dev) (λ _, balanced) s.
Proof.
  intros Hc [Hd Hl Hp Hne Hpi Hfree] Hneg Hdir. pose proof (bal_refl s Hc) as Hb.
  apply wp_bind. eapply wp_bal_get_lower_path; [exact Hb|exact Hd|]. rewrite Hl. apply wp_bind, wp_deref.
  apply wp_bind. eapply wp_bal_lock_parent; [exact Hb|exact Hp|exact Hpi|multiset_solver|exact Hfree|].
  intros s2 Hb2. apply wp_bind. eapply wp_bal_lower_inode_at; [exact Hb2|exact Hpi|].
  apply wp_bind. eapply wp_bal_lower; [exact Hb2|]. intros s3 Hb3.
  pose proof (stable_parent _ (LO_mknod pi ld mode dev) _ _ _ eq_refl Hne Hpi) as Hpi3.
  apply wp_bind. eapply wp_bal_interpose_made; [exact Hb3|done|done|exact Hpi3| |].
  { intros i s4 Hb4. by apply wp_ret. }
  intros rc D s4 Hb4. apply wp_bind. eapply wp_bal_unlock_dir; [exact Hb4|exact Hpi3|]. intros s5 Hb5.
  apply wp_bind. eapply wp_bal_drop_negative; [exact Hb5|exists x; apply Hd|]. intros s7 Hb7.
  apply wp_bind. eapply wp_bal_put_lower_path; [exact Hb7|exact Hd|]. apply wp_ret.
  eexists _, _. exact Hb7.
Qed.

Lemma bal_mkdir dir d ld x p pi mode :
  icache_ok ∅ s → name_at d ld x p pi → negative d → inode_of dir →
  wp (teadfs_mkdir dir d mode) (λ _, balanced) s.
Proof.
  intros Hc [Hd Hl Hp Hne Hpi Hfree] Hneg Hdir. pose proof (bal_refl s Hc) as Hb.
  apply wp_bind. eapply wp_bal_get_lower_path; [exact Hb|exact Hd|]. rewrite Hl. apply wp_bind, wp_deref.
  apply wp_bind. eapply wp_bal_lock_parent; [exact Hb|exact Hp|exact Hpi|multiset_solver|exact Hfree|].
  intros s2 Hb2. apply wp_bind. eapply wp_bal_lower_inode_at; [exact Hb2|exact Hpi|].
  apply wp_bind. eapply wp_bal_lower; [exact Hb2|]. intros s3 Hb3.
  pose proof (stable_parent _ (LO_mkdir pi ld mode) _ _ _ eq_refl Hne Hpi) as Hpi3.
  apply wp_bind. eapply wp_bal_interpose_made; [exact Hb3|done|done|exact Hpi3| |].
  { intros i s4 Hb4. apply wp_bind. eapply wp_bal_lower_inode_at; [exact Hb4|exact Hpi3|].
    eapply wp_bal_copy_nlink; [exact Hb4|by apply inode_of_exists|done]. }
  intros rc D s4 Hb4. apply wp_bind. eapply wp_bal_unlock_dir; [exact Hb4|exact Hpi3|]. intros s5 Hb5.
  apply wp_bind. eapply wp_bal_drop_negative; [exact Hb5|exists x; apply Hd|]. intros s7 Hb7.
  apply wp_bind. eapply wp_bal_put_lower_path; [exact Hb7|exact Hd|]. apply wp_ret.
  eexists _, _. exact Hb7.
Qed.

(** A dentry with an inode that has a lower inode. *)
Definition positive_dentry (d : positive) (i li : positive) : Prop :=
  ∃ x y, ks_dentries s !! d = Some x ∧ d_inode x = Some i ∧ ks_inodes s !! i = Some y ∧ lower_inode y = Some li.

Lemma wp_bal_upper_inode_at d x i A L N D l s1 (Q : positive → kstate → Prop) :
  bal s A L N D l s1 → ks_dentries s !! d = Some x →
  match D !! d with Some i => Some i | None => d_inode x end = Some i →
  Q i s1 → wp (upper_inode_at d) Q s1.
Proof.
  intros Hb Hx Hi HQ. apply wp_bind. eapply wp_bal_get_dentry; [exact Hx|exact Hb|].
  intros y ->. rewrite Hi. by apply wp_deref.
Qed.

Lemma wp_bal_lower_of i x li A L N D l s1 (Q : positive → kstate → Prop) :
  bal s A L N D l s1 → ks_inodes s !! i = Some x → lower_inode x = Some li →
  Q li s1 → wp (lower_of i) Q s1.
Proof.
  intros Hb Hx Hli HQ. apply wp_bind, wp_bind. eapply wp_bal_get_inode; [exact Hx|exact Hb|].
  intros y E _. rewrite E, Hli. by apply wp_ret, wp_deref.
Qed.

Lemma bal_link old oi oli oldl ox dir d ld x p pi :
  icache_ok ∅ s → name_at d ld x p pi → negative d → inode_of dir →
  positive_dentry old oi oli → dentry_at s old ox → p_dentry (lower_path ox) = Some oldl → old ≠ d →
  wp (teadfs_link old dir d) (λ _, balanced) s.
Proof.
  intros Hc [Hd Hl Hp Hne Hpi Hfree] Hneg Hdir (ox' & oy & Hox & Hoi & Hoy & Holi) Hold Holl Hod.
  pose proof (bal_refl s Hc) as Hb.
  apply wp_bind. eapply wp_bal_upper_inode_at; [exact Hb|exact Hox|by rewrite lookup_empty|].
  apply wp_bind. eapply wp_bal_get_inode; [exact Hoy|exact Hb|]. intros o _ _.
  apply wp_bind. eapply wp_bal_get_lower_path; [exact Hb|exact Hold|]. rewrite Holl.
  apply wp_bind. eapply wp_bal_get_lower_path; [exact Hb|exact Hd|]. rewrite Hl.
  apply wp_bind, wp_deref, wp_bind, wp_deref.
  apply wp_bind. eapply wp_bal_ref_get; [done|exact Hb|]. intros s0 Hb0.
  apply wp_bind. eapply wp_bal_ref_get; [done|exact Hb0|]. intros s1 Hb1.
  apply wp_bind. eapply wp_bal_lock_parent; [exact Hb1|exact Hp|exact Hpi|multiset_solver|exact Hfree|].
  intros s2 Hb2. apply wp_bind. eapply wp_bal_lower_inode_at; [exact Hb2|exact Hpi|].
  apply wp_bind. eapply wp_bal_lower; [exact Hb2|]. intros s3 Hb3.
  pose proof (stable_parent _ (LO_link oldl pi ld) _ _ _ eq_refl Hne Hpi) as Hpi3.
  apply wp_bind. eapply wp_bal_interpose_made; [exact Hb3|done|done|exact Hpi3| |].
  { intros i s4 Hb4. apply wp_bind. eapply wp_bal_upper_inode_at; [exact Hb4|exact Hox| |].
    { rewrite lookup_insert_ne, lookup_empty by done. exact Hoi. }
    apply wp_bind. eapply wp_bal_lower_of; [exact Hb4|exact Hoy|exact Holi|].
    apply wp_bind. eapply wp_bal_copy_nlink; [exact Hb4|by exists oy|]. intros s5 Hb5.
    apply wp_bind. eapply wp_bal_upper_inode_at; [exact Hb5|apply Hd|by rewrite lookup_insert_eq|].
    eapply wp_bal_update_now; [|done|exact Hb5|done].
    eapply bal_attached; [exact Hb5|]. right. exists d. apply lookup_insert_eq. }
  intros rc D s4 Hb4. apply wp_bind. eapply wp_bal_unlock_dir; [exact Hb4|exact Hpi3|]. intros s5 Hb5.
  apply wp_bind. eapply wp_bal_ref_put; [done|done|exact Hb5|]. intros s6 Hb6.
  apply wp_bind. eapply wp_bal_ref_put; [done|done|exact Hb6|]. intros s7 Hb7.
  apply wp_bind. eapply wp_bal_put_lower_path; [exact Hb7|exact Hold|].
  apply wp_bind. eapply wp_bal_put_lower_path; [exact Hb7|exact Hd|]. apply wp_ret.
  eexists _, _. exact Hb7.
Qed.

Lemma bal_create dir d ld x p pi mode excl :
  icache_ok ∅ s → name_at d ld x p pi → negative d → inode_of dir →
  wp (teadfs_create dir d mode excl) (λ _, balanced) s.
Proof.
  intros Hc [Hd Hl Hp Hne Hpi Hfree] (x' & Hx' & Hn) Hdir. pose proof (bal_refl s Hc) as Hb.
  pose proof (inode_of_exists _ Hdir) as Hdir'. destruct Hdir as (dx & sbx & usb & Hdx & Hsb & Hfs).
  apply wp_bind. eapply wp_bal_get_lower_path; [exact Hb|exact Hd|]. rewrite Hl. apply wp_bind, wp_deref.
  apply wp_bind. eapply wp_bal_lock_parent; [exact Hb|exact Hp|exact Hpi|multiset_solver|exact Hfree|].
  intros s2 Hb2. apply wp_bind, wp_bind. eapply wp_bal_lower_inode_at; [exact Hb2|exact Hpi|].
  apply wp_bind. eapply wp_bal_lower; [exact Hb2|]. intros s3 Hb3.
  set (op := LO_create pi ld mode excl) in *. set (l := (lower_do (ks_lfs s) op).2) in *.
  pose proof (stable_parent _ op _ _ _ eq_refl Hne Hpi) as Hpi3. fold l in Hpi3.
  assert (Hend : ∀ rc D l' s4, bal s ({[+ RDentry p +]} ⊎ ∅) ({[+ pi +]} ⊎ ∅) ∅ D l' s4 →
    lower_d_inode l' p = Some pi →
    wp (unlock_dir p;; teadfs_put_lower_path d;; mret (rc : Z)) (λ _, balanced) s4).
  { intros rc D l' s4 Hb4 Hpi4. apply wp_bind. eapply wp_bal_unlock_dir; [exact Hb4|exact Hpi4|].
    intros s5 Hb5. apply wp_bind. eapply wp_bal_put_lower_path; [exact Hb5|exact Hd|]. apply wp_ret.
    eexists _, _. exact Hb5. }
  destruct (negb _) eqn:Erc; [by eapply wp_ret, Hend|].
  apply negb_false_iff, Z.eqb_eq in Erc. destruct (lower_create_made _ _ _ _ _ Erc) as [li Hli].
  apply wp_bind. eapply wp_bal_lower_inode_at; [exact Hb3|exact Hli|].
  apply wp_bind. eapply wp_bal_get_inode; [exact Hdx|exact Hb3|]. intros y _ Esb. rewrite Esb.
  apply wp_bind. eapply wp_bal___get_inode; [exact Hsb|exact Hfs|exact Hb3| |].
  - intros e s4 _ Hb4. apply wp_bind. eapply wp_bal_lower_inode_at; [exact Hb4|exact Hpi3|].
    apply wp_bind. eapply wp_bal_lower; [exact Hb4|]. intros s5 Hb5. eapply wp_ret, Hend; [exact Hb5|].
    by apply (stable_parent _ (LO_unlink pi ld) ld).
  - intros i s4 Hb4. apply wp_bind. eapply wp_bal_copy_dir; [exact Hb4|done|exact Hpi3|]. intros s5 Hb5.
    apply wp_bind. eapply wp_bal_unlock_new; [exact Hb5|]. intros s6 Hb6 Hi6.
    apply wp_bind. eapply wp_bal_attach; [exact Hx'|exact Hn|apply lookup_empty|exact Hb6|done|].
    intros s7 Hb7. by eapply wp_ret, Hend.
Qed.

Lemma bal_unlink dir i li dli d ld x p pi :
  icache_ok ∅ s → name_at d ld x p pi → positive_dentry d i li →
  (∃ dx, ks_inodes s !! dir = Some dx ∧ lower_inode dx = Some dli) →
  wp (teadfs_unlink dir d) (λ _, balanced) s.
Proof.
  intros Hc [Hd Hl Hp Hne Hpi Hfree] (x' & y & Hx' & Hi & Hy & Hli) (dx & Hdx & Hdli).
  pose proof (bal_refl s Hc) as Hb.
  apply wp_bind, wp_bind. eapply wp_get_inode; [exact Hdx|]. apply wp_ret. rewrite Hdli.
  apply wp_bind. eapply wp_get_dentry; [exact Hx'|]. rewrite Hi. cbv zeta.
  apply wp_bind. eapply wp_bal_get_lower_path; [exact Hb|exact Hd|]. rewrite Hl. apply wp_bind, wp_deref.
  apply wp_bind. eapply wp_bal_ref_get; [done|exact Hb|]. intros s1 Hb1.
  apply wp_bind. eapply wp_bal_lock_parent; [exact Hb1|exact Hp|exact Hpi|multiset_solver|exact Hfree|].
  intros s2 Hb2. apply wp_bind, wp_deref.
  apply wp_bind. eapply wp_bal_lower; [exact Hb2|]. intros s3 Hb3.
  pose proof (stable_parent _ (LO_unlink dli ld) _ _ _ eq_refl Hne Hpi) as Hpi3.
  assert (Hend : ∀ rc s4, bal s ({[+ RDentry p +]} ⊎ ({[+ RDentry ld +]} ⊎ ∅)) ({[+ pi +]} ⊎ ∅) ∅ ∅
      (lower_do (ks_lfs s) (LO_unlink dli ld)).2 s4 →
    wp (unlock_dir p;; dput (Some ld);; teadfs_put_lower_path d;; mret (rc : Z)) (λ _, balanced) s4).
  { intros rc s4 Hb4. apply wp_bind. eapply wp_bal_unlock_dir; [exact Hb4|exact Hpi3|]. intros s5 Hb5.
    apply wp_bind. eapply wp_bal_ref_put; [done|done|exact Hb5|]. intros s6 Hb6.
    apply wp_bind. eapply wp_bal_put_lower_path; [exact Hb6|exact Hd|]. apply wp_ret. by eexists _, _. }
  apply wp_bind. destruct (negb _); [by eapply wp_ret, Hend|].
  apply wp_bind. eapply wp_bal_copy_attr_times; [by exists dx|exact Hb3|]. intros s4 Hb4.
  apply wp_bind, wp_deref, wp_bind. eapply wp_bal_lower_of; [exact Hb4|exact Hy|exact Hli|].
  apply wp_bind. eapply wp_bal_copy_nlink; [exact Hb4|by exists y|]. intros s5 Hb5.
  apply wp_bind. eapply wp_bal_get_inode; [exact Hdx|exact Hb5|]. intros dy _ _.
  apply wp_bind. eapply wp_bal_update_inode; [by exists y|done|exact Hb5|]. intros s6 Hb6.
  apply wp_bind. eapply wp_bal_d_drop; [by exists x'|exact Hb6|]. intros s7 Hb7.
  by eapply wp_ret, Hend.
Qed.

Lemma bal_rmdir dir d ld x p pi :
  icache_ok ∅ s → name_at d ld x p pi → is_Some (ks_inodes s !! dir) →
  (∀ i, d_inode x = Some i → is_Some (ks_inodes s !! i)) →
  wp (teadfs_rmdir dir d) (λ _, balanced) s.
Proof.
  intros Hc [Hd Hl Hp Hne Hpi Hfree] Hdir Hin. pose proof (bal_refl s Hc) as Hb.
  apply wp_bind. eapply wp_bal_get_lower_path; [exact Hb|exact Hd|]. rewrite Hl. apply wp_bind, wp_deref.
  apply wp_bind. eapply wp_bal_ref_get; [done|exact Hb|]. intros s0 Hb0.
  apply wp_bind. eapply wp_bal_lock_parent; [exact Hb0|exact Hp|exact Hpi|multiset_solver|exact Hfree|].
  intros s1 Hb1. apply wp_bind. eapply wp_bal_ref_get; [done|exact Hb1|]. intros s2 Hb2.
  apply wp_bind. eapply wp_bal_lower_inode_at; [exact Hb2|exact Hpi|].
  apply wp_bind. eapply wp_bal_lower; [exact Hb2|]. intros s3 Hb3.
  pose proof (stable_parent _ (LO_rmdir pi ld) _ _ _ eq_refl Hne Hpi) as Hpi3.
  set (rc := (lower_do (ks_lfs s) (LO_rmdir pi ld)).1). set (l := (lower_do _ _).2) in *.
  apply wp_bind. eapply wp_bal_ref_put; [done|done|exact Hb3|]. intros s4 Hb4.
  apply wp_bind. eapply wp_bal_get_dentry; [apply Hd|exact Hb4|]. rewrite lookup_empty. intros y ->.
  assert (Hend : ∀ s5, bal s ({[+ RDentry p +]} ⊎ ({[+ RUpDentry d +]} ⊎ ∅)) ({[+ pi +]} ⊎ ∅) ∅ ∅ l s5 →
    wp (pi ← lower_inode_at p; fsstack_copy_attr_times dir pi;; copy_nlink dir pi;; unlock_dir p;;
        (if rc =? 0 then d_drop d else mret ());; upper_dput d;; teadfs_put_lower_path d;; mret rc)
      (λ _, balanced) s5).
  { intros s5 Hb5. apply wp_bind. eapply wp_bal_lower_inode_at; [exact Hb5|exact Hpi3|].
    apply wp_bind. eapply wp_bal_copy_attr_times; [done|exact Hb5|]. intros s6 Hb6.
    apply wp_bind. eapply wp_bal_copy_nlink; [exact Hb6|done|]. intros s7 Hb7.
    apply wp_bind. eapply wp_bal_unlock_dir; [exact Hb7|exact Hpi3|]. intros s8 Hb8.
    apply wp_bind. eapply (wp_mono _ (λ _ s9, bal s ({[+ RUpDentry d +]} ⊎ ∅) ∅ ∅ ∅ l s9)).
    { destruct (rc =? 0); [eapply wp_bal_d_drop; [exists x; apply Hd|done|done]|by apply wp_ret]. }
    intros _ s9 Hb9. apply wp_bind. eapply wp_bal_ref_put; [done|done|exact Hb9|]. intros s10 Hb10.
    apply wp_bind. eapply wp_bal_put_lower_path; [exact Hb10|exact Hd|]. apply wp_ret. by eexists _, _. }
  apply wp_bind. destruct (d_inode x) as [i|] eqn:Ei; [|by apply wp_ret, Hend].
  destruct (rc =? 0); [|by apply wp_ret, Hend].
  eapply wp_bal_set_nlink; [by apply Hin|exact Hb4|]. exact Hend.
Qed.

End Run.

(** The operations on names, as the VFS calls them. *)
Inductive name_op :=
  | OpCreate (dir d : positive) (mode : Z) (excl : bool)
  | OpLink (old dir d : positive)
  | OpSymlink (dir d : positive) (symname : bytes)
  | OpMkdir (dir d : positive) (mode : Z)
  | OpMknod (dir d : positive) (mode dev : Z)
  | OpUnlink (dir d : positive)
  | OpRmdir (dir d : positive).

Definition run_name_op (op : name_op) : M Z :=
  match op with
  | OpCreate dir d mode excl => teadfs_create dir d mode excl
  | OpLink old dir d => teadfs_link old dir d
  | OpSymlink dir d symname => teadfs_symlink dir d symname
  | OpMkdir dir d mode => teadfs_mkdir dir d mode
  | OpMknod dir d mode dev => teadfs_mknod dir d mode dev
  | OpUnlink dir d => teadfs_unlink dir d
  | OpRmdir dir d => teadfs_rmdir dir d
  end.

(** What the VFS guarantees when it calls them. *)
Definition name_op_ok (s : kstate) (op : name_op) : Prop :=
  let named d := ∃ ld x p pi, name_at s d ld x p pi in
  match op with
  | OpCreate dir d _ _ | OpSymlink dir d _ | OpMkdir dir d _ | OpMknod dir d _ _ =>
    named d ∧ negative s d ∧ inode_of s dir
  | OpLink old dir d => named d ∧ negative s d ∧ inode_of s dir ∧
    (∃ oi oli, positive_dentry s old oi oli) ∧
    (∃ ox oldl, dentry_at s old ox ∧ p_dentry (lower_path ox) = Some oldl)
  | OpUnlink dir d => named d ∧ (∃ i li, positive_dentry s d i li) ∧
    (∃ dx dli, ks_inodes s !! dir = Some dx ∧ lower_inode dx = Some dli)
  | OpRmdir dir d => named d ∧ is_Some (ks_inodes s !! dir) ∧
    ∀ x i, ks_dentries s !! d = Some x → d_inode x = Some i → is_Some (ks_inodes s !! i)
  end.

Lemma wp_lock_parent d pi (Q : positive → kstate → Prop) s :
  let p := lower_d_parent (ks_lfs s) d in
  lower_d_inode (ks_lfs s) p = Some pi → pi ∉ ks_locks s →
  Q p (set_locks (λ X, {[+ pi +]} ⊎ X) (set_refs (λ X, {[+ RDentry p +]} ⊎ X) s)) →
  wp (lock_parent d) Q s.
Proof.
  intros p Hpi Hl HQ. apply wp_bind, wp_lower_dget_parent. fold p.
  apply wp_bind. eapply wp_lower_inode_at; [exact Hpi|].
  apply wp_bind, wp_mutex_lock; [done|]. by apply wp_ret.
Qed.

(** Where a thread stops that holds the mutex already. *)
Lemma lock_parent_deadlock d pi s :
  lower_d_inode (ks_lfs s) (lower_d_parent (ks_lfs s) d) = Some pi → pi ∈ ks_locks s →
  lock_parent d s = Ub Deadlock.
Proof.
  intros Hpi Hl. apply ub_bind_wp, wp_lower_dget_parent.
  apply ub_bind_wp. eapply wp_lower_inode_at; [exact Hpi|].
  apply ub_bind. unfold mutex_lock. by rewrite decide_True.
Qed.

(** What [fsstack_copy_attr_all] does to the inodes. *)
Definition copy_attr (l : lfs) (li i : positive) : gmap positive inode → gmap positive inode :=
  alter (set_attr (λ _, lower_attr l li)) i.

Lemma wp_copy_attr_all i li (Q : () → kstate → Prop) s :
  is_Some (ks_inodes s !! i) → Q () (set_inodes (copy_attr (ks_lfs s) li i) s) →
  wp (fsstack_copy_attr_all i li) Q s.
Proof. intros Hi HQ. apply wp_bind, wp_gets. by apply wp_update_alter. Qed.

Lemma wp_lower_of i x li (Q : positive → kstate → Prop) s :
  ks_inodes s !! i = Some x → lower_inode x = Some li → Q li s → wp (lower_of i) Q s.
Proof.
  intros Hi Hl HQ. apply wp_bind, wp_bind. eapply wp_get_inode; [exact Hi|]. rewrite Hl.
  by apply wp_ret, wp_deref.
Qed.

(** A directory after its lower one. *)
Definition dir_mirror (l : lfs) (pi : positive) (dx : inode) : inode :=
  set_meta (with_blocks (lower_i_blocks l pi)) (set_i_size (lower_i_size l pi)
    (set_attr (λ b, with_times b (lower_attr l pi)) dx)).

Lemma wp_copy_dir dir dx p pi (Q : () → kstate → Prop) s :
  ks_inodes s !! dir = Some dx → lower_d_inode (ks_lfs s) p = Some pi →
  Q () (set_inodes (insert dir (dir_mirror (ks_lfs s) pi dx)) s) → wp (copy_dir dir p) Q s.
Proof.
  intros Hd Hpi HQ. apply wp_bind. eapply wp_lower_inode_at; [exact Hpi|].
  apply wp_bind, wp_bind, wp_gets. eapply wp_update_inode; [exact Hd|].
  apply wp_bind. eapply wp_lower_inode_at; [exact Hpi|].
  apply wp_bind, wp_gets, wp_bind, wp_gets, wp_update_again, HQ.
Qed.

Lemma wp_unlock_dir p pi X L (Q : () → kstate → Prop) s :
  lower_d_inode (ks_lfs s) p = Some pi →
  ks_locks s = {[+ pi +]} ⊎ L → ks_refs s = {[+ RDentry p +]} ⊎ X →
  Q () (set_refs (λ _, X) (set_locks (λ _, L) s)) → wp (unlock_dir p) Q s.
Proof.
  intros Hpi HL HX HQ. apply wp_bind. eapply wp_lower_inode_at; [exact Hpi|].
  apply wp_bind. eapply wp_mutex_unlock; [exact HL|]. eapply wp_ref_put; [exact HX|done].
Qed.

(** * Properties *)

Lemma wp_name_op `{!LowerLaws} (s : kstate) (op : name_op) :
  icache_ok ∅ s → name_op_ok s op → wp (run_name_op op) (λ _, balanced s) s.
Proof.
  intros Hc Hok. destruct op; cbn [run_name_op]; destruct Hok as ((ld & x & p & pi & Hn) & Hok).
  - destruct Hok. by eapply bal_create.
  - destruct Hok as (Hneg & Hdir & (oi & oli & Hold) & (ox & oldl & Hox & Holl)).
    eapply bal_link; [done..|]. intros ->.
    destruct Hneg as (? & ? & ?), Hold as (? & ? & ? & ? & _). congruence.
  - destruct Hok. by eapply bal_symlink.
  - destruct Hok. by eapply bal_mkdir.
  - destruct Hok. by eapply bal_mknod.
  - destruct Hok as ((i & li & Hpos) & (dx & dli & Hdx & Hdli)).
    eapply (bal_unlink s dir i li dli); [exact Hc|exact Hn|exact Hpos|by exists dx].
  - destruct Hok as (Hdir & Hin). eapply (bal_rmdir s dir); [exact Hc|exact Hn|exact Hdir|].
    intros i. apply Hin. apply (na_dentry _ _ _ _ _ _ Hn).
Qed.

(** C6: whatever the lower file system answers, creating, linking and removing
    names gives back every reference to a dentry or a mount and every mutex it
    took, keeps one upper inode per lower inode with one reference each, and
    leaves the heap alone. *)
Theorem names_balanced `{!LowerLaws} (s : kstate) (op : name_op) :
  icache_ok ∅ s → name_op_ok s op →
  wp (run_name_op op) (λ _ s',
    ks_locks s' = ks_locks s ∧ icache_ok ∅ s' ∧ live s' = live s ∧
    ∀ r, inode_ref r = false → multiplicity r (ks_refs s') = multiplicity r (ks_refs s)) s.
Proof.
  intros Hc Hok. eapply wp_mono; [by apply wp_name_op|].
  intros _ s' (D & l & Hb). split_and!; [|apply Hb|apply Hb|].
  - rewrite (bal_locks _ _ _ _ _ _ _ Hb). multiset_solver.
  - intros r Hr. rewrite (bal_refs _ _ _ _ _ _ _ Hb) by done. by rewrite multiplicity_empty.
Qed.

(** What [teadfs_create] finds: a name without an inode in a mounted directory
    whose lower directory is [pi]. *)
Record creating (s : kstate) (dir d ld p pi : positive) (x : dentry) (dx : inode) (sbx : super) : Prop := {
  cr_name : name_at s d ld x p pi;
  cr_negative : d_inode x = None;
  cr_dir : ks_inodes s !! dir = Some dx;
  cr_super : ks_supers s !! i_sb (i_meta dx) = Some sbx;
  cr_old : ∀ i y, ks_inodes s !! i = Some y → i_new (i_meta y) = false;
}.

Definition with_inode (i : positive) (x : dentry) : dentry :=
  Dentry (Some i) (d_fsdata x) (d_name x) (d_parent x) (d_hashed x).


(** When no upper inode can be had for the file just created, the lower
    file is removed again, and the creation is reported as a success: the name
    is left without an inode. *)
Theorem create_hides_failure `{!LowerLaws} (s : kstate) (dir d ld p pi li : positive) (x : dentry)
    (dx : inode) (sbx : super) (usb : option positive) (mode : Z) (excl : bool) :
  let r := lower_do (ks_lfs s) (LO_create pi ld mode excl) in
  creating s dir d ld p pi x dx sbx → r.1 = 0 → lower_d_inode r.2 ld = Some li →
  s_fs_info sbx = Some usb → usb ≠ Some (lower_i_sb r.2 li) ∨ igrab_ok r.2 li = false →
  wp (teadfs_create dir d mode excl) (λ rc s', rc = 0 ∧
    ks_lfs s' = (lower_do r.2 (LO_unlink pi ld)).2 ∧
    ks_dentries s' = ks_dentries s ∧ ks_inodes s' = ks_inodes s ∧
    ks_refs s' = ks_refs s ∧ ks_locks s' = ks_locks s) s.
Proof.
  intros r [[Hd Hl Hp Hne Hpi Hfree] Hneg Hdir Hsb Hold] Hr Hli Hfs Hbad.
  assert (Hpi1 : lower_d_inode r.2 p = Some pi) by by apply (stable_parent _ _ ld).
  assert (Hpi2 : lower_d_inode (lower_do r.2 (LO_unlink pi ld)).2 p = Some pi) by by apply (stable_parent _ _ ld).
  apply wp_bind. eapply wp_get_lower_path; [exact Hd|]. rewrite Hl. apply wp_bind, wp_deref.
  apply wp_bind. eapply wp_lock_parent; [rewrite Hp; exact Hpi|exact Hfree|]. rewrite Hp.
  apply wp_bind, wp_bind. eapply wp_lower_inode_at; [exact Hpi|].
  apply wp_bind, wp_lower. wp_simpl. fold r. rewrite Hr. cbn [negb Z.eqb].
  apply wp_bind. eapply wp_lower_inode_at; [exact Hli|].
  apply wp_bind. eapply wp_get_inode; [exact Hdir|].
  assert (Hend : ∀ e, wp (pi ← lower_inode_at p; lower (LO_unlink pi ld);; mret 0) (λ rc s1,
      wp (unlock_dir p;; teadfs_put_lower_path d;; mret rc) (λ rc s', rc = 0 ∧
        ks_lfs s' = (lower_do r.2 (LO_unlink pi ld)).2 ∧ ks_dentries s' = ks_dentries s ∧
        ks_inodes s' = ks_inodes s ∧ ks_refs s' = ks_refs s ∧ ks_locks s' = ks_locks s) s1)
    (set_mem e (set_lfs (λ _, r.2) (set_locks (λ X, {[+ pi +]} ⊎ X)
      (set_refs (λ X, {[+ RDentry p +]} ⊎ X) s))))).
  { intros e. apply wp_bind. eapply wp_lower_inode_at; [exact Hpi1|].
    apply wp_bind, wp_lower, wp_ret. wp_simpl.
    apply wp_bind. eapply (wp_unlock_dir p pi (ks_refs s) (ks_locks s)); [exact Hpi2|done|done|].
    apply wp_bind. eapply wp_put_lower_path; [exact Hd|]. by apply wp_ret. }
  apply wp_bind, wp_bind. eapply wp___get_inode; [exact Hsb|exact Hfs|exact Hold| | | | |].
  1,2: intros _; exact (Hend (λ m, m)).
  - intros _ _. exact (Hend mem_tick).
  - intros i [H1 H2] _. simpl in H1, H2. destruct Hbad; congruence.
  - intros i [H1 H2] _ _. simpl in H1, H2. destruct Hbad; congruence.
Qed.

(** The two names of a rename, and their lower directories. *)
Record renaming (s : kstate) (od nd lo ln po pn io jn : positive) (ox nx : dentry) : Prop := {
  rn_old : dentry_at s od ox;
  rn_new : dentry_at s nd nx;
  rn_lower_old : p_dentry (lower_path ox) = Some lo;
  rn_lower_new : p_dentry (lower_path nx) = Some ln;
  rn_old_parent : lower_d_parent (ks_lfs s) lo = po;
  rn_new_parent : lower_d_parent (ks_lfs s) ln = pn;
  rn_old_dir : lower_d_inode (ks_lfs s) po = Some io;
  rn_new_dir : lower_d_inode (ks_lfs s) pn = Some jn;
  rn_distinct : po ≠ pn → io ≠ jn;
  rn_old_free : io ∉ ks_locks s;
  rn_new_free : jn ∉ ks_locks s;
}.

(** The mutexes [lock_rename] takes. *)
Definition rename_locks (po pn io jn : positive) (L : gmultiset positive) : gmultiset positive :=
  if decide (po = pn) then {[+ io +]} ⊎ L else {[+ jn +]} ⊎ ({[+ io +]} ⊎ L).

Lemma wp_lock_rename po pn io jn (Q : option positive → kstate → Prop) s :
  lower_d_inode (ks_lfs s) po = Some io → lower_d_inode (ks_lfs s) pn = Some jn →
  (po ≠ pn → io ≠ jn) → io ∉ ks_locks s → jn ∉ ks_locks s →
  Q (if decide (po = pn) then None else lower_trap (ks_lfs s) po pn)
    (set_locks (rename_locks po pn io jn) s) →
  wp (lock_rename po pn) Q s.
Proof.
  intros Hpo Hpn Hne Hio Hjn HQ. apply wp_bind. eapply wp_lower_inode_at; [exact Hpo|].
  unfold rename_locks in HQ. case_decide as E.
  - apply wp_bind, wp_mutex_lock; [done|]. by apply wp_ret.
  - apply wp_bind. eapply wp_lower_inode_at; [exact Hpn|].
    apply wp_bind, wp_mutex_lock; [done|]. apply wp_bind, wp_mutex_lock; [|by apply wp_gets].
    simpl. rewrite gmultiset_elem_of_disj_union, gmultiset_elem_of_singleton. intros [->|?]; [by destruct (Hne E)|done].
Qed.

Lemma wp_unlock_rename po pn io jn L (Q : () → kstate → Prop) s :
  lower_d_inode (ks_lfs s) po = Some io → (po ≠ pn → lower_d_inode (ks_lfs s) pn = Some jn) →
  ks_locks s = rename_locks po pn io jn L → Q () (set_locks (λ _, L) s) →
  wp (unlock_rename po pn) Q s.
Proof.
  intros Hpo Hpn HL HQ. apply wp_bind. eapply wp_lower_inode_at; [exact Hpo|].
  unfold rename_locks in HL. case_decide as E.
  - apply wp_bind. eapply wp_mutex_unlock; [exact HL|]. by apply wp_ret.
  - apply wp_bind. eapply (wp_mutex_unlock _ ({[+ jn +]} ⊎ L)).
    { rewrite HL, (assoc_L (⊎)), (comm_L (⊎) {[+ jn +]}), <- (assoc_L (⊎)). done. }
    apply wp_bind. eapply wp_lower_inode_at; [by apply Hpn|].
    by eapply wp_mutex_unlock.
Qed.

(** The references a rename takes, last first, and how it gives them back. *)
Definition rename_refs (lo ln po pn : positive) (X : gmultiset ref) : gmultiset ref :=
  {[+ RDentry pn +]} ⊎ ({[+ RDentry po +]} ⊎ ({[+ RDentry ln +]} ⊎ ({[+ RDentry lo +]} ⊎ X))).

Lemma wp_rename_end lo ln po pn od nd ox nx X rc (Q : Z → kstate → Prop) s :
  ks_refs s = rename_refs lo ln po pn X → dentry_at s od ox → dentry_at s nd nx →
  Q rc (set_refs (λ _, X) s) →
  wp (dput (Some pn);; dput (Some po);; dput (Some ln);; dput (Some lo);;
      teadfs_put_lower_path od;; teadfs_put_lower_path nd;; mret rc) Q s.
Proof.
  intros HX Hod Hnd HQ. apply wp_bind. eapply wp_ref_put; [exact HX|].
  do 3 (apply wp_bind; eapply wp_ref_put; [reflexivity|]).
  apply wp_bind. eapply wp_put_lower_path; [exact Hod|].
  apply wp_bind. eapply wp_put_lower_path; [exact Hnd|]. by apply wp_ret.
Qed.

Lemma wp_rename_start s old_dir od new_dir nd lo ln po pn io jn ox nx (Q : Z → kstate → Prop) :
  renaming s od nd lo ln po pn io jn ox nx →
  let trap := if decide (po = pn) then None else lower_trap (ks_lfs s) po pn in
  let s1 := set_locks (rename_locks po pn io jn) (set_refs (rename_refs lo ln po pn) s) in
  wp ('(rc, is_rename_lock) ← (
    if bool_decide (trap = Some lo) then mret (- EINVAL, false) else
    if bool_decide (trap = Some ln) then mret (- ENOTEMPTY, false) else
    oi ← lower_inode_at po; ni ← lower_inode_at pn;
    rc ← lower (LO_rename oi lo ni ln);
    if negb (rc =? 0) then mret (rc, true) else
    (match d_inode nx with
     | Some t => li ← lower_of t; fsstack_copy_attr_all t li
     | None => mret ()
     end);;
    ni ← lower_inode_at pn;
    fsstack_copy_attr_all new_dir ni;;
    (if bool_decide (new_dir = old_dir) then mret () else
       oi ← lower_inode_at po; fsstack_copy_attr_all old_dir oi);;
    mret (rc, true));
  (if (is_rename_lock : bool) then unlock_rename po pn else mret ());;
  dput (Some pn);; dput (Some po);; dput (Some ln);; dput (Some lo);;
  teadfs_put_lower_path od;; teadfs_put_lower_path nd;; mret rc) Q s1 →
  wp (teadfs_rename old_dir od new_dir nd) Q s.
Proof.
  intros [Hod Hnd Hlo Hln Hpo Hpn Hio Hjn Hne Hfo Hfn] trap s1 HQ.
  apply wp_bind. eapply wp_get_lower_path; [exact Hod|]. rewrite Hlo. apply wp_bind, wp_deref.
  apply wp_bind. eapply wp_get_lower_path; [exact Hnd|]. rewrite Hln. apply wp_bind, wp_deref.
  apply wp_bind, wp_ref_get, wp_bind, wp_ref_get.
  apply wp_bind, wp_lower_dget_parent, wp_bind, wp_lower_dget_parent. wp_simpl. rewrite Hpo, Hpn.
  apply wp_bind. eapply wp_get_dentry; [apply Hnd|].
  apply wp_bind. eapply (wp_lock_rename po pn io jn); [exact Hio|exact Hjn|exact Hne|exact Hfo|exact Hfn|].
  exact HQ.
Qed.

(** The upper inodes after a rename the lower file system made: the inode the
    new name had, and the directories, take the attributes of their lower
    ones. *)
Definition rename_mirror (l : lfs) (target : option (positive * positive)) (old_dir new_dir io jn : positive)
    (m : gmap positive inode) : gmap positive inode :=
  let m := match target with Some (t, tl) => copy_attr l tl t m | None => m end in
  let m := copy_attr l jn new_dir m in
  if bool_decide (new_dir = old_dir) then m else copy_attr l io old_dir m.

(** The inode a name has, with its lower inode. *)
Definition target_of (s : kstate) (x : dentry) (target : option (positive * positive)) : Prop :=
  d_inode x = fst <$> target ∧
  ∀ t tl, target = Some (t, tl) → ∃ y, ks_inodes s !! t = Some y ∧ lower_inode y = Some tl.


(** A rename that would move a directory below itself, or over an ancestor,
    is refused, but both directories stay locked: whoever creates a file in
    the old one next, waits for ever. *)
Theorem rename_leaks_locks (s : kstate) (old_dir od new_dir nd lo ln po pn io jn t : positive) (ox nx : dentry) :
  renaming s od nd lo ln po pn io jn ox nx → po ≠ pn →
  lower_trap (ks_lfs s) po pn = Some t → t = lo ∨ t = ln →
  wp (teadfs_rename old_dir od new_dir nd) (λ rc s',
    rc = (if bool_decide (t = lo) then - EINVAL else - ENOTEMPTY) ∧
    ks_lfs s' = ks_lfs s ∧ ks_refs s' = ks_refs s ∧
    ks_locks s' = {[+ jn +]} ⊎ ({[+ io +]} ⊎ ks_locks s) ∧
    ∀ dir d x ld mode excl, dentry_at s d x → p_dentry (lower_path x) = Some ld →
      lower_d_parent (ks_lfs s) ld = po → teadfs_create dir d mode excl s' = Ub Deadlock) s.
Proof.
  intros Hrn Hne Ht Hor. eapply wp_rename_start; [exact Hrn|].
  destruct Hrn as [Hodx Hndx _ _ _ _ Hio _ _ _ _]. cbv zeta.
  assert (HL : rename_locks po pn io jn (ks_locks s) = {[+ jn +]} ⊎ ({[+ io +]} ⊎ ks_locks s))
    by (unfold rename_locks; by rewrite decide_False).
  rewrite decide_False, Ht by done.
  match goal with |- wp _ _ ?st => set (s1 := st) end.
  assert (Hend : ∀ rc, wp (dput (Some pn);; dput (Some po);; dput (Some ln);; dput (Some lo);;
      teadfs_put_lower_path od;; teadfs_put_lower_path nd;; mret rc) (λ (rc' : Z) s', rc' = rc ∧
    ks_lfs s' = ks_lfs s ∧ ks_refs s' = ks_refs s ∧
    ks_locks s' = {[+ jn +]} ⊎ ({[+ io +]} ⊎ ks_locks s) ∧
    ∀ dir d x ld mode excl, dentry_at s d x → p_dentry (lower_path x) = Some ld →
      lower_d_parent (ks_lfs s) ld = po → teadfs_create dir d mode excl s' = Ub Deadlock) s1).
  { intros rc. eapply wp_rename_end; [reflexivity|exact Hodx|exact Hndx|].
    split_and!; [done|done|done|exact HL|]. intros dir d x ld mode excl Hx Hl Hp.
    apply ub_bind_wp. eapply wp_get_lower_path; [exact Hx|]. rewrite Hl.
    apply ub_bind_wp, wp_deref, ub_bind. apply (lock_parent_deadlock _ io); simpl.
    - by rewrite Hp.
    - rewrite HL, !gmultiset_elem_of_disj_union, !gmultiset_elem_of_singleton. tauto. }
  apply wp_bind. case_bool_decide as E1.
  - injection E1 as ->. rewrite bool_decide_eq_true_2 by done. apply wp_ret, wp_bind, wp_ret, Hend.
  - rewrite (bool_decide_eq_false_2 (t = lo)) by congruence.
    rewrite (bool_decide_eq_true_2 (Some t = Some ln)) by (destruct Hor; congruence).
    apply wp_ret, wp_bind, wp_ret, Hend.
Qed.

(** A dentry, its inode and lower inode, and its lower dentry with the inode
    that one has. *)
Record standing (s : kstate) (d i li ld lj : positive) (x : dentry) (y : inode) : Prop := {
  st_dentry : dentry_at s d x;
  st_inode : d_inode x = Some i;
  st_upper : ks_inodes s !! i = Some y;
  st_lower_inode : lower_inode y = Some li;
  st_lower : p_dentry (lower_path x) = Some ld;
  st_lower_d_inode : lower_d_inode (ks_lfs s) ld = Some lj;
}.

Lemma wp_upper_inode_at d x i (Q : positive → kstate → Prop) s :
  ks_dentries s !! d = Some x → d_inode x = Some i → Q i s → wp (upper_inode_at d) Q s.
Proof. intros Hx Hi HQ. apply wp_bind. eapply wp_get_dentry; [exact Hx|]. rewrite Hi. by apply wp_deref. Qed.

(** What [setattr] hands to the lower file system: a change that clears the
    set-id bits leaves the mode to it. *)
Definition lower_change (ia : iattr) : iattr :=
  if has_bits (ia_valid ia) (Z.lor ATTR_KILL_SUID ATTR_KILL_SGID)
  then with_valid (Z.land (ia_valid ia) (Z.lnot ATTR_MODE)) ia else ia.


(** What [stat] sees: the lower inode's attributes, the lower path's blocks,
    and, with [file_decrypt] 0 as opening always leaves it, the inode's size
    with the header of a label in it, whatever the client would answer: it is
    not asked. *)
Theorem getattr_mirrors (s : kstate) (d i li ld lj : positive) (x : dentry) (y : inode) :
  let rc := vcall_rc (ks_calls s) (VC_vfs_getattr (lower_path x)) in
  standing s d i li ld lj x y → file_decrypt y = 0 →
  wp (teadfs_getattr d) (λ r s',
    r = (rc, if rc =? 0 then Some (Kstat (i_ino (i_meta y)) (lower_attr (ks_lfs s) li) (i_size y)
                                     (lower_stat_blocks (ks_lfs s) (lower_path x))) else None) ∧
    ks_sent s' = ks_sent s ∧
    ks_inodes s' = (if rc =? 0 then copy_attr (ks_lfs s) li i (ks_inodes s) else ks_inodes s)) s.
Proof.
  intros rc [Hd Hi Hy Hli Hld Hlj] Hdec.
  apply wp_bind. eapply wp_upper_inode_at; [apply Hd|exact Hi|].
  apply wp_bind. eapply wp_get_lower_path; [exact Hd|].
  apply wp_bind, wp_vfs. fold rc. destruct (rc =? 0) eqn:E; cbn [negb]; apply wp_bind.
  - apply wp_bind. eapply wp_lower_of; [exact Hy|exact Hli|].
    apply wp_bind, wp_copy_attr_all; [by exists y|]. apply wp_bind. eapply wp_get_inode.
    { simpl. unfold copy_attr. by rewrite lookup_alter_eq, Hy. }
    apply wp_bind, wp_gets, wp_bind. cbn [set_attr file_decrypt]. rewrite Hdec, andb_false_r.
    apply wp_ret, wp_ret, wp_bind. eapply wp_put_lower_path; [exact Hd|]. apply wp_ret. done.
  - apply wp_ret, wp_bind. eapply wp_put_lower_path; [exact Hd|]. by apply wp_ret.
Qed.

(** Permissions are the lower inode's: it is asked with the mask that was asked
    for, its answer is the result, and nothing else happens. *)
Theorem permission_relays (s : kstate) (i li : positive) (y : inode) (mask : Z) :
  ks_inodes s !! i = Some y → lower_inode y = Some li →
  wp (teadfs_permission i mask) (λ rc s',
    rc = vcall_rc (ks_calls s) (VC_permission li mask) ∧
    s' = set_calls (λ l, l ++ [VC_permission li mask]) s) s.
Proof. intros Hy Hli. apply wp_bind. eapply wp_lower_of; [exact Hy|exact Hli|]. by apply wp_vfs. Qed.

(** Extended attributes: the four operations, and what the lower file system
    makes of each. *)
Inductive xattr_op :=
  | XSet (name value : bytes) (flags : Z) | XGet (name : bytes) (size : Z) | XList (size : Z) | XRemove (name : bytes).
Definition run_xattr (d : positive) (op : xattr_op) : M Z :=
  match op with
  | XSet name value flags => teadfs_setxattr d name value flags
  | XGet name size => teadfs_getxattr d name size
  | XList size => teadfs_listxattr d size
  | XRemove name => teadfs_removexattr d name
  end.
Definition xattr_iop (op : xattr_op) : lower_iop :=
  match op with XSet _ _ _ => IO_setxattr | XGet _ _ => IO_getxattr | XList _ => IO_listxattr | XRemove _ => IO_removexattr end.
Definition xattr_answer (s : kstate) (ld : positive) (op : xattr_op) : Z * lfs :=
  match op with
  | XSet name value flags => lower_do (ks_lfs s) (LO_setxattr ld name value flags)
  | XGet name size => (s32 (vcall_rc (ks_calls s) (VC_getxattr ld name size)), ks_lfs s)
  | XList size => (s32 (vcall_rc (ks_calls s) (VC_listxattr ld size)), ks_lfs s)
  | XRemove name => lower_do (ks_lfs s) (LO_removexattr ld name)
  end.
(** Attributes are copied after one has been set. *)
Definition xattr_mirror (op : xattr_op) (rc : Z) (l : lfs) (lj i : positive) : gmap positive inode → gmap positive inode :=
  match op with XSet _ _ _ => if rc =? 0 then copy_attr l lj i else id | _ => id end.

Lemma wp_under_mutex ld lj m (Q : Z → kstate → Prop) s :
  lower_d_inode (ks_lfs s) ld = Some lj → lj ∉ ks_locks s →
  wp m (λ rc s', ks_locks s' = {[+ lj +]} ⊎ ks_locks s ∧ lower_d_inode (ks_lfs s') ld = Some lj ∧
    Q rc (set_locks (λ _, ks_locks s) s')) (set_locks (λ X, {[+ lj +]} ⊎ X) s) →
  wp (under_mutex ld m) Q s.
Proof.
  intros Hlj Hlk Hm. apply wp_bind. eapply wp_lower_inode_at; [exact Hlj|].
  apply wp_bind, wp_mutex_lock; [done|]. apply wp_bind. eapply wp_mono; [exact Hm|].
  intros rc s' (Hl & Hj & HQ). apply wp_bind. eapply wp_lower_inode_at; [exact Hj|].
  apply wp_bind. eapply wp_mutex_unlock; [exact Hl|]. by apply wp_ret.
Qed.

Lemma wp_with_lower d i li ld lj x y iop m (Q : Z → kstate → Prop) s :
  standing s d i li ld lj x y →
  (if lower_has_op (ks_lfs s) lj iop then wp (m ld) (λ rc s', ks_dentries s' = ks_dentries s ∧ Q rc s') s
   else Q (- EOPNOTSUPP) s) → wp (with_lower d iop m) Q s.
Proof.
  intros [Hd Hi Hy Hli Hld Hlj] Hm. apply wp_bind. eapply wp_get_lower_path; [exact Hd|]. rewrite Hld.
  apply wp_bind, wp_deref, wp_bind, wp_bind. eapply wp_lower_inode_at; [exact Hlj|]. apply wp_gets.
  destruct (lower_has_op _ _ _); cbn [negb]; apply wp_bind.
  - eapply wp_mono; [exact Hm|]. intros rc s' [Hds HQ]. apply wp_bind.
    eapply wp_put_lower_path; [|by apply wp_ret]. destruct Hd as [Hd1 Hd2]. split; [by rewrite Hds|exact Hd2].
  - apply wp_ret, wp_bind. eapply wp_put_lower_path; [exact Hd|]. by apply wp_ret.
Qed.

(** An operation on an extended attribute is the lower file system's, or
    refused where it has none; it is asked under the mutex of the lower inode
    (its own [setxattr] takes it); all mutexes and references are given back,
    and the upper inode mirrors the lower one after one was set. *)
Theorem xattr_relays (s : kstate) (op : xattr_op) (d i li ld lj : positive) (x : dentry) (y : inode) :
  let r := if lower_has_op (ks_lfs s) lj (xattr_iop op) then xattr_answer s ld op else (- EOPNOTSUPP, ks_lfs s) in
  standing s d i li ld lj x y → lj ∉ ks_locks s → lower_d_inode r.2 ld = Some lj →
  wp (run_xattr d op) (λ rc s', rc = r.1 ∧ ks_lfs s' = r.2 ∧ ks_locks s' = ks_locks s ∧ ks_refs s' = ks_refs s ∧
    ks_inodes s' = xattr_mirror op r.1 r.2 lj i (ks_inodes s)) s.
Proof.
  intros r [Hd Hi Hy Hli Hld Hlj] Hlk Hr.
  destruct (lower_has_op (ks_lfs s) lj (xattr_iop op)) eqn:E.
  2: { destruct op; (eapply wp_with_lower; [by split|]); simpl in E; rewrite E; done. }
  destruct op; (eapply wp_with_lower; [by split|]); simpl in E; rewrite E; cbn [xattr_answer] in r.
  - apply wp_bind, wp_lower. fold r. apply wp_bind. destruct Hd as [Hd _]. eapply wp_get_dentry; [exact Hd|].
    rewrite Hi. apply wp_bind. unfold xattr_mirror. destruct (r.1 =? 0) eqn:E0; [|by apply wp_ret, wp_ret].
    apply wp_bind. eapply wp_lower_inode_at; [exact Hr|]. apply wp_copy_attr_all; [by exists y|]. by apply wp_ret.
  - eapply wp_under_mutex; [exact Hlj|exact Hlk|]. by apply wp_bind, wp_vfs, wp_ret.
  - eapply wp_under_mutex; [exact Hlj|exact Hlk|]. by apply wp_bind, wp_vfs, wp_ret.
  - eapply wp_under_mutex; [exact Hlj|exact Hlk|]. apply wp_lower. done.
Qed.

Lemma splice_nil bs : splice 0 [] bs = bs.
Proof. done. Qed.

(** The text of a link; an error has none. *)
Definition link_text (r : Z + bytes) : bytes := match r with inr text => text | inl _ => [] end.

(** Following a link: the buffer holds the lower link's text, followed by
    zeros, and [put_link] frees it; an error of the lower file system is lost,
    as an empty text. *)
Theorem follow_link_text (s : kstate) (d i li ld lj : positive) (x : dentry) (y : inode) :
  let r := lower_readlink (ks_lfs s) ld in
  standing s d i li ld lj x y → kzalloc_total →
  match r with inr text => 0 < blen text ≤ PATH_MAX | inl e => - 2 ^ 31 ≤ e < 0 end →
  wp (teadfs_follow_link d) (λ buf s', ks_inodes s' = ks_inodes s ∧ ∃ b, buf = Ptr b 0 ∧
    live s' = <[b := OBytes (splice 0 (link_text r) (zeros PATH_MAX))]> (live s) ∧
    wp (teadfs_put_link buf) (λ _ s2, live s2 = live s) s') s.
Proof.
  intros r [Hd Hi Hy Hli Hld Hlj] Hmem Hr.
  apply wp_bind. eapply wp_get_lower_path; [exact Hd|]. rewrite Hld. apply wp_bind, wp_deref.
  apply wp_bind, wp_bind, wp_zalloc_obj; [|by rewrite Hmem].
  intros _ b Hb. rewrite is_null_ptr. apply wp_bind, wp_bind. eapply wp_get_lower_path; [exact Hd|]. rewrite Hld.
  apply wp_bind, wp_deref, wp_bind. eapply wp_lower_inode_at; [exact Hlj|].
  apply wp_bind, wp_gets.
  change (lower_readlink (ks_lfs (upd b (OBytes (zeros PATH_MAX)) (tick s))) ld) with r.
  assert (Hend : ∀ (rc : Z) bs, rc ≠ 0 → wp (teadfs_put_lower_path d;; mret (rc, Ptr b 0))
    (λ p s1, wp (let '(rc, buf) := p in (if negb (rc =? 0) then mret () else
        i ← upper_inode_at d; li ← lower_inode_at ld; fsstack_copy_attr_atime i li;;
        store_bytes (padd buf PATH_MAX) [zero_byte]);; teadfs_put_lower_path d;; mret buf)
      (λ buf s', ks_inodes s' = ks_inodes s ∧ ∃ b, buf = Ptr b 0 ∧
        live s' = <[b := OBytes bs]> (live s) ∧
        wp (teadfs_put_link buf) (λ _ s2, live s2 = live s) s') s1) (upd b (OBytes bs) (tick s))).
  { intros rc bs Hrc. apply wp_bind. eapply wp_put_lower_path; [exact Hd|]. apply wp_ret.
    rewrite (proj2 (Z.eqb_neq _ _) Hrc). apply wp_bind, wp_ret, wp_bind.
    eapply wp_put_lower_path; [exact Hd|]. apply wp_ret. split; [done|]. exists b.
    split_and!; [done|heap_eq|]. eapply wp_free; [apply live_upd_eq|]. heap_eq. }
  destruct r as [e|text].
  - apply wp_ret. rewrite s32_small by lia. specialize (Hend e (zeros PATH_MAX)).
    unfold link_text. rewrite splice_nil. apply Hend. lia.
  - apply wp_bind. eapply wp_store_bytes; [apply live_upd_eq| |].
    { apply in_range_spec. rewrite blen_zeros by done. lia. }
    rewrite upd_upd. apply wp_ret. assert (PATH_MAX < 2 ^ 31) by done.
    rewrite s32_small by lia. apply Hend. lia.
Qed.

(** The only link after whose text the code writes its terminator is an
    empty one, and it writes it past the end of the buffer. *)
Theorem follow_link_overruns (s : kstate) (d i li ld lj : positive) (x : dentry) (y : inode) :
  standing s d i li ld lj x y → kzalloc_total → lower_readlink (ks_lfs s) ld = inr [] →
  teadfs_follow_link d s = Ub OutOfBounds.
Proof.
  intros [Hd Hi Hy Hli Hld Hlj] Hmem Hr.
  apply ub_bind_wp. eapply wp_get_lower_path; [exact Hd|]. rewrite Hld. apply ub_bind_wp, wp_deref.
  apply ub_bind_wp, wp_bind, wp_zalloc_obj; [|by rewrite Hmem].
  intros _ b Hb. rewrite is_null_ptr. apply wp_bind, wp_bind. eapply wp_get_lower_path; [exact Hd|]. rewrite Hld.
  apply wp_bind, wp_deref, wp_bind. eapply wp_lower_inode_at; [exact Hlj|].
  apply wp_bind, wp_gets.
  change (lower_readlink (ks_lfs (upd b (OBytes (zeros PATH_MAX)) (tick s))) ld) with (lower_readlink (ks_lfs s) ld).
  rewrite Hr. apply wp_bind. eapply wp_store_bytes; [apply live_upd_eq|done|].
  apply wp_ret, wp_bind. eapply wp_put_lower_path; [exact Hd|]. apply wp_ret.
  apply ub_bind. apply ub_bind_wp. eapply wp_upper_inode_at; [apply Hd|exact Hi|].
  apply ub_bind_wp. eapply wp_lower_inode_at; [exact Hlj|].
  apply ub_bind_wp, wp_bind, wp_gets. eapply wp_update_inode; [exact Hy|].
  unfold store_bytes. simpl. rewrite lookup_insert_eq. done.
Qed.

End InodeLemmas.
