(* ===== verification/Main.v ===== *)
(** [TEADFS/src/main.c]: mounting, unmounting, and loading the module.

    Kernels before 3.11 are modelled, where the super block has no backing
    device of its own.  [sget], [kern_path], [d_make_root], [kill_anon_super]
    and [deactivate_locked_super] are the kernel's: their documented effects on
    super blocks, references and the root dentry are written out here. *)
From S2P Require Import Prelude Kernel Protocol Wp Vfs GlobalParam Netlink Super Lookup Refs Dentry Miscdev.
Local Open Scope Z_scope.

Definition MS_RDONLY : Z := 1.
Definition MS_POSIXACL : Z := 65536.
Definition MS_ACTIVE : Z := 1073741824.

Section Main.
Context `{KernelEnv}.

(** ** What the kernel does *)

Definition blank_super : super := Super None 0 0 0 0 None 0 false.
Definition sget : M kptr :=
  rc ← vfs VC_sget;
  if rc <? 0 then mret (KErr rc) else
  b ← gets (λ s, fresh (dom (ks_supers s) : gset positive));
  put_super b blank_super;;
  ref_get (RSuper b);;
  mret (KObj b).

Definition kern_path_get (name : bytes) : M (Z + path) := λ s,
  match kern_path (ks_lfs s) name with
  | inl e => Ret (inl e) s
  | inr p =>
    Ret (inr p) (set_refs (λ X,
      (match p_dentry p with Some d => {[+ RDentry d +]} | None => ∅ end) ⊎
      ((match p_mnt p with Some m => {[+ RMnt m +]} | None => ∅ end) ⊎ X)) s)
  end.

(** The last [iput] of an upper inode. *)
Definition upper_iput (i : positive) : M () :=
  ref_put (RUpInode i);;
  teadfs_evict_inode i;;
  teadfs_destroy_inode i.

(** The root dentry takes over the inode's reference; on failure it is put. *)
Definition d_make_root (i : positive) : M (option positive) :=
  rc ← vfs VC_d_make_root;
  if rc <? 0 then upper_iput i;; mret None else
  d ← gets (λ s, fresh (dom (ks_dentries s) : gset positive));
  ref_put (RUpInode i);;
  put_dentry d (Dentry (Some i) None [] d true);;
  mret (Some d).

Definition set_root (r : option positive) (x : super) : super :=
  Super (s_fs_info x) (s_flags x) (s_maxbytes x) (s_blocksize x) (s_magic x) r (s_bdi x) (s_ops_set x).
Definition set_fs_info (i : option (option positive)) (x : super) : super :=
  Super i (s_flags x) (s_maxbytes x) (s_blocksize x) (s_magic x) (s_root x) (s_bdi x) (s_ops_set x).
Definition set_s_flags (f : Z) (x : super) : super :=
  Super (s_fs_info x) f (s_maxbytes x) (s_blocksize x) (s_magic x) (s_root x) (s_bdi x) (s_ops_set x).
Definition update_super (f : super → super) (b : positive) : M () := x ← get_super b; put_super b (f x).

(** The root dentry, when there is one, is released and its inode evicted. *)
Definition kill_anon_super (b : positive) : M () :=
  x ← get_super b;
  match s_root x with
  | None => mret ()
  | Some d =>
    y ← get_dentry d;
    teadfs_d_release d;;
    (match d_inode y with
     | Some i => teadfs_evict_inode i;; teadfs_destroy_inode i
     | None => mret ()
     end);;
    modify (set_dentries (delete d));;
    update_super (set_root None) b
  end.

(** ** The module *)

Definition teadfs_kill_block_super (b : positive) : M () :=
  x ← get_super b;
  kill_anon_super b;;
  match s_fs_info x with
  | None => mret ()
  | Some _ =>
    update_super (set_fs_info (Some None)) b;;
    (* the storage is freed; [s_fs_info] goes on pointing to it *)
    mret ()
  end.

Definition deactivate_locked_super (p : kptr) : M () :=
  match p with
  | KObj b => ref_put (RSuper b);; teadfs_kill_block_super b
  | _ => fail_ub WildPointer
  end.

(** After the block: what was got is given back. *)
Definition mount_failed (lower_path : option path) (p : kptr) (rc : Z) : M kptr :=
  (match lower_path with Some q => path_put q | None => mret () end);;
  (match p with KNull => mret () | _ => deactivate_locked_super p end);;
  mret (KErr rc).

(** [s_flags], [s_maxbytes], [s_blocksize] and [s_magic] from the lower super
    block. *)
Definition mount_flags (flags lower : Z) : Z :=
  let f := Z.lor (Z.land flags (Z.lnot MS_POSIXACL)) (Z.land lower MS_POSIXACL) in
  if negb (Z.land lower MS_RDONLY =? 0) then Z.lor f MS_RDONLY else f.
Definition super_of (l : lfs) (flags : Z) (lsb : positive) : super :=
  Super (Some (Some lsb)) (mount_flags flags (lower_s_flags l lsb)) (lower_s_maxbytes l lsb)
    (lower_s_blocksize l lsb) TEADFS_SUPER_MAGIC None 0 true.

Definition teadfs_mount (flags : Z) (dev_name : bytes) : M kptr :=
  ok ← kzalloc_try sizeof_sb_info;
  if negb (ok : bool) then mount_failed None KNull (- ENOMEM) else
  s ← sget;
  match s with
  | KNull => fail_ub NullDeref
  | KErr e => mount_failed None s e
  | KObj b =>
    put_super b (Super (Some None) 0 0 0 0 None 0 true);;
    r ← kern_path_get dev_name;
    match r with
    | inl rc => mount_failed None s rc
    | inr lower_path =>
      lower_dentry ← deref (p_dentry lower_path);
      l ← gets ks_lfs;
      let lsb := lower_d_sb l lower_dentry in
      if bool_decide (lower_s_type l lsb = str "teadfs") then mount_failed (Some lower_path) s (- EINVAL) else
      put_super b (super_of l flags lsb);;
      li ← lower_inode_at lower_dentry;
      inode ← teadfs_get_inode li b;
      match inode with
      | KNull => fail_ub NullDeref
      | KErr rc => mount_failed (Some lower_path) s (s32 rc)
      | KObj i =>
        root ← d_make_root i;
        update_super (set_root root) b;;
        match root with
        | None => mount_failed (Some lower_path) s (- ENOMEM)
        | Some d =>
          ok ← kzalloc_try sizeof_dentry_info;
          if negb (ok : bool) then mount_failed (Some lower_path) s (- ENOMEM) else
          teadfs_set_dentry_private d (Some (Path None None));;
          teadfs_set_lower_path d lower_path;;
          update_super (λ x, set_s_flags (Z.lor (s_flags x) MS_ACTIVE) x) b;;
          ref_get (RUpDentry d);;
          mret (KObj d)
        end
      end
    end
  end.

(** The second result is the netlink socket. *)
Definition teadfs_module_init : M (Z * kptr) :=
  vfs VC_log_create;;
  rc ← vfs VC_register_filesystem;
  if negb (rc =? 0) then mret (0, KNull) else
  teadfs_init_global_param;;
  '(_, nlfd) ← teadfs_start_netlink;
  teadfs_init_miscdev;;
  mret (0, nlfd).

Definition teadfs_module_exit (nlfd : kptr) : M () :=
  vfs VC_unregister_filesystem;;
  teadfs_release_netlink nlfd;;
  teadfs_destroy_miscdev;;
  vfs VC_log_release;;
  mret ().

End Main.

(** * Lemmas *)
Section MainLemmas.
Context `{KernelEnv}.

(** What a mount holds until it ends, besides what was held before. *)
Definition mount_refs (b ld m : positive) (X : gmultiset ref) : gmultiset ref :=
  {[+ RDentry ld +]} ⊎ ({[+ RMnt m +]} ⊎ ({[+ RSuper b +]} ⊎ X)).

Lemma mount_refs_swap b ld m r X :
  {[+ r +]} ⊎ mount_refs b ld m X = mount_refs b ld m ({[+ r +]} ⊎ X).
Proof. unfold mount_refs. multiset_solver. Qed.

Lemma wp_update_super f b x (Q : () → kstate → Prop) s :
  ks_supers s !! b = Some x → Q () (set_supers (insert b (f x)) s) → wp (update_super f b) Q s.
Proof. intros Hx HQ. apply wp_bind. eapply wp_get_super; [exact Hx|]. by apply wp_modify. Qed.

(** Giving a super block back that has no root. *)
Lemma wp_deactivate_rootless b x X (Q : () → kstate → Prop) s :
  ks_supers s !! b = Some x → s_root x = None → ks_refs s = {[+ RSuper b +]} ⊎ X →
  (∀ s', ks_refs s' = X → ks_locks s' = ks_locks s → Q () s') →
  wp (deactivate_locked_super (KObj b)) Q s.
Proof.
  intros Hx Hr HX HQ. apply wp_bind. eapply wp_ref_put; [exact HX|].
  apply wp_bind. eapply wp_get_super; [exact Hx|].
  apply wp_bind, wp_bind. eapply wp_get_super; [exact Hx|]. rewrite Hr. apply wp_ret.
  destruct (s_fs_info x); [|by apply wp_ret, HQ].
  apply wp_bind. eapply wp_update_super; [exact Hx|]. by apply wp_ret, HQ.
Qed.

(** ... and one whose root has the inode [i] over [li], with or without its lower
    path. *)
Lemma wp_deactivate_rooted b x d y i z li X (Q : () → kstate → Prop) s :
  ks_supers s !! b = Some x → s_root x = Some d → ks_dentries s !! d = Some y → d_inode y = Some i →
  ks_inodes s !! i = Some z → lower_inode z = Some li →
  match d_fsdata y with
  | Some p => ∃ ld m, p = Path (Some ld) (Some m) ∧
      ks_refs s = {[+ RSuper b +]} ⊎ ({[+ RMnt m +]} ⊎ ({[+ RDentry ld +]} ⊎ ({[+ RInode li +]} ⊎ X)))
  | None => ks_refs s = {[+ RSuper b +]} ⊎ ({[+ RInode li +]} ⊎ X)
  end →
  (∀ s', ks_refs s' = X → ks_locks s' = ks_locks s → Q () s') →
  wp (deactivate_locked_super (KObj b)) Q s.
Proof.
  intros Hx Hr Hy Hi Hz Hl HX HQ.
  set (Y := match d_fsdata y with Some p =>
    match p with Path (Some ld) (Some m) => {[+ RMnt m +]} ⊎ ({[+ RDentry ld +]} ⊎ ({[+ RInode li +]} ⊎ X))
    | _ => ∅ end | None => {[+ RInode li +]} ⊎ X end).
  assert (HY : ks_refs s = {[+ RSuper b +]} ⊎ Y).
  { unfold Y. destruct (d_fsdata y); [destruct HX as (ld & m & -> & HX); exact HX|exact HX]. }
  apply wp_bind. eapply wp_ref_put; [exact HY|].
  apply wp_bind. eapply wp_get_super; [exact Hx|].
  apply wp_bind, wp_bind. eapply wp_get_super; [exact Hx|]. rewrite Hr.
  apply wp_bind. eapply wp_get_dentry; [exact Hy|].
  assert (Hend : ∀ s1, ks_refs s1 = {[+ RInode li +]} ⊎ X → ks_supers s1 !! b = Some x →
    ks_inodes s1 !! i = Some z → ks_locks s1 = ks_locks s →
    wp ((match d_inode y with
     | Some i => teadfs_evict_inode i;; teadfs_destroy_inode i
     | None => mret ()
     end);; modify (set_dentries (delete d));; update_super (set_root None) b)
     (λ _ s2, wp (match s_fs_info x with None => mret ()
       | Some _ => update_super (set_fs_info (Some None)) b;; mret () end) Q s2) s1).
  { intros s1 HX1 Hx1 Hz1 HL1. rewrite Hi. apply wp_bind, wp_bind.
    apply wp_bind, wp_vfs, wp_bind, wp_vfs, wp_bind, wp_bind. eapply wp_get_inode; [exact Hz1|].
    apply wp_ret. rewrite Hl. eapply wp_ref_put; [exact HX1|]. apply wp_bind, wp_vfs, wp_ret.
    apply wp_bind, wp_modify. eapply wp_update_super; [exact Hx1|].
    destruct (s_fs_info x); [|by apply wp_ret, HQ].
    apply wp_bind. eapply wp_update_super; [apply lookup_insert_eq|]. by apply wp_ret, HQ. }
  apply wp_bind. destruct (d_fsdata y) as [p|] eqn:Hf.
  - destruct HX as (ld & m & -> & HX). eapply wp_d_release; [exact Hy|exact Hf|reflexivity|].
    by apply Hend.
  - apply wp_bind. eapply wp_get_dentry; [exact Hy|]. rewrite Hf. by apply wp_ret, Hend.
Qed.

Lemma wp_mount_failed b ld m rc (Q : kptr → kstate → Prop) s X :
  ks_refs s = mount_refs b ld m X →
  wp (deactivate_locked_super (KObj b)) (λ _ s', Q (KErr rc) s')
    (set_refs (λ _, {[+ RSuper b +]} ⊎ X) s) →
  wp (mount_failed (Some (Path (Some ld) (Some m))) (KObj b) rc) Q s.
Proof.
  intros HX Hd. apply wp_bind, wp_bind. eapply wp_ref_put; [exact HX|]. eapply wp_ref_put; [reflexivity|].
  apply wp_bind. eapply wp_mono; [exact Hd|]. intros a s' HQ. by apply wp_ret.
Qed.

(** The lower file system is there: its root is [ld] on the mount [m], with the
    inode [li]; cached inodes belong to known super blocks. *)
Record mountable (s : kstate) (dev : bytes) (ld m li : positive) : Prop := {
  mt_sget : 0 ≤ vcall_rc (ks_calls s) VC_sget;
  mt_path : kern_path (ks_lfs s) dev = inr (Path (Some ld) (Some m));
  mt_inode : lower_d_inode (ks_lfs s) ld = Some li;
  mt_known : ∀ i x, ks_inodes s !! i = Some x →
    i_new (i_meta x) = false ∧ is_Some (ks_supers s !! i_sb (i_meta x));
}.

(** A mounted file system: its super block [b], root [d] and root inode [i]. *)
Record mounted (s' : kstate) (l : lfs) (flags : Z) (b d i ld m li : positive) (X : gmultiset ref) : Prop := {
  mo_super : ks_supers s' !! b = Some (set_s_flags
    (Z.lor (mount_flags flags (lower_s_flags l (lower_d_sb l ld))) MS_ACTIVE)
    (set_root (Some d) (super_of l flags (lower_d_sb l ld))));
  mo_dentry : ks_dentries s' !! d = Some (Dentry (Some i) (Some (Path (Some ld) (Some m))) [] d true);
  mo_inode : ks_inodes s' !! i = Some (made l b li i 0);
  mo_refs : ks_refs s' = {[+ RUpDentry d +]} ⊎ mount_refs b ld m ({[+ RInode li +]} ⊎ X);
}.

Lemma wp_mount flags dev ld m li (Q : kptr → kstate → Prop) s :
  mountable s dev ld m li →
  (∀ e s', ks_refs s' = ks_refs s → Q (KErr e) s') →
  (∀ b d i s', mounted s' (ks_lfs s) flags b d i ld m li (ks_refs s) → Q (KObj d) s') →
  wp (teadfs_mount flags dev) Q s.
Proof.
  intros [Hsget Hp Hli Hknown] HE HQ. apply wp_bind. unfold wp at 1, kzalloc_try.
  destruct (kzalloc_ok _ _); cbn [negb].
  2: { apply wp_bind, wp_ret, wp_bind, wp_ret, wp_ret. by apply HE. }
  apply wp_bind, wp_bind, wp_vfs. change (ks_calls (tick s)) with (ks_calls s).
  rewrite (proj2 (Z.ltb_ge _ _) Hsget). apply wp_bind, wp_gets. set (b := fresh _).
  assert (Hb : ks_supers s !! b = None) by apply not_elem_of_dom, is_fresh.
  apply wp_bind, wp_modify, wp_bind, wp_ref_get, wp_ret.
  apply wp_bind, wp_modify, wp_bind. unfold wp at 1, kern_path_get. wp_simpl.
  change (ks_lfs (tick s)) with (ks_lfs s). rewrite Hp. cbn [p_dentry p_mnt].
  apply wp_bind, wp_deref, wp_bind, wp_gets. wp_simpl. change (ks_lfs (tick s)) with (ks_lfs s).
  assert (Hfail : ∀ e x s1, ks_supers s1 !! b = Some x → s_root x = None →
    ks_refs s1 = mount_refs b ld m (ks_refs s) →
    wp (mount_failed (Some (Path (Some ld) (Some m))) (KObj b) e) Q s1).
  { intros e x s1 Hx Hr HX. eapply wp_mount_failed; [exact HX|].
    eapply wp_deactivate_rootless; [exact Hx|exact Hr|reflexivity|]. intros s2 HX2 _. by apply HE. }
  case_bool_decide as Ht; [eapply Hfail; [apply lookup_insert_eq|done|done]|]. clear Ht.
  apply wp_bind, wp_modify, wp_bind. eapply wp_lower_inode_at; [exact Hli|].
  match goal with |- wp _ _ ?st => set (s1 := st) end.
  assert (Hs1 : ks_supers s1 !! b = Some (super_of (ks_lfs s) flags (lower_d_sb (ks_lfs s) ld)))
    by apply lookup_insert_eq.
  assert (HR1 : ks_refs s1 = mount_refs b ld m (ks_refs s)) by reflexivity.
  assert (Hi1 : ks_inodes s1 = ks_inodes s) by reflexivity.
  assert (Hl1 : ks_lfs s1 = ks_lfs s) by reflexivity. clearbody s1.
  apply wp_bind, wp_bind. eapply wp___get_inode; [exact Hs1|reflexivity| | | | | |].
  - intros i x. rewrite Hi1. apply Hknown.
  - intros _. apply wp_bind, wp_ret, wp_ret. by eapply Hfail.
  - intros _. apply wp_bind, wp_ret, wp_ret. by eapply Hfail.
  - intros _ _. apply wp_bind, wp_ret, wp_ret. by eapply Hfail.
  - intros i _ Hc. apply cached_Some in Hc as (x & Hx & Hsb & _). rewrite Hi1 in Hx.
    destruct (Hknown _ _ Hx) as [_ [y Hy]]. rewrite Hsb in Hy. congruence.
  - intros i _ _ Hi. rewrite Hl1. change (set_refs ?f (set_inodes ?g ?t)) with (set_inodes g (set_refs f t)).
    apply wp_bind, wp_unlock_made; [done|]. apply wp_ret. fold (made (ks_lfs s) b li i 0).
    match goal with |- wp _ _ ?st => set (s2 := st) end.
    assert (HR2 : ks_refs s2 = {[+ RUpInode i +]} ⊎ ({[+ RInode li +]} ⊎ mount_refs b ld m (ks_refs s))).
    { unfold s2, tick. wp_simpl. by rewrite HR1. }
    assert (Hi2 : ks_inodes s2 !! i = Some (made (ks_lfs s) b li i 0)) by apply lookup_insert_eq.
    assert (Hs2 : ks_supers s2 !! b = Some (super_of (ks_lfs s) flags (lower_d_sb (ks_lfs s) ld))) by exact Hs1.
    clearbody s2. clear s1 Hs1 HR1 Hi1 Hl1 Hi.
    apply wp_bind, wp_bind, wp_vfs. destruct (_ <? 0).
    + apply wp_bind, wp_bind. eapply wp_ref_put; [exact HR2|].
      apply wp_bind, wp_bind, wp_vfs, wp_bind, wp_vfs, wp_bind, wp_bind. eapply wp_get_inode; [exact Hi2|].
      apply wp_ret. eapply (wp_ref_put _ (mount_refs b ld m (ks_refs s))); [done|].
      apply wp_bind, wp_vfs, wp_ret, wp_ret, wp_bind. eapply wp_update_super; [exact Hs2|].
      eapply Hfail; [apply lookup_insert_eq|done|done].
    + apply wp_bind, wp_gets. set (d := fresh _).
      apply wp_bind. eapply wp_ref_put; [exact HR2|]. apply wp_bind, wp_modify, wp_ret.
      apply wp_bind. eapply wp_update_super; [exact Hs2|].
      pose proof (mount_refs_swap b ld m (RInode li) (ks_refs s)) as HX.
      apply wp_bind. unfold wp at 1, kzalloc_try. destruct (kzalloc_ok _ _); cbn [negb].
      * apply wp_bind, wp_bind. eapply wp_get_dentry; [apply lookup_insert_eq|]. apply wp_modify.
        apply wp_bind, wp_bind. eapply wp_get_dentry; [apply lookup_insert_eq|]. cbn [set_fsdata d_fsdata].
        apply wp_modify, wp_bind. eapply wp_update_super; [apply lookup_insert_eq|].
        apply wp_bind, wp_ref_get, wp_ret. apply (HQ b d i). split.
        -- apply lookup_insert_eq.
        -- apply lookup_insert_eq.
        -- exact Hi2.
        -- unfold tick. wp_simpl. by rewrite HX.
      * eapply wp_mount_failed; [unfold tick; wp_simpl; exact HX|].
        eapply wp_deactivate_rooted; [apply lookup_insert_eq|done|apply lookup_insert_eq|done|exact Hi2|done| |].
        -- reflexivity.
        -- intros s3 HR3 _. by apply HE.
Qed.

(** The VFS's unmount: the root dentry is put, then the super block. *)
Definition umount (d : positive) : M () :=
  y ← get_dentry d;
  i ← deref (d_inode y);
  x ← get_inode i;
  upper_dput d;;
  deactivate_locked_super (KObj (i_sb (i_meta x))).

(** * Properties *)

(** C29: mounting and unmounting: every way in which a mount can fail once it has
    its super block gives back what it took, and a mount that succeeds is
    undone by the unmount: no reference to the lower root, to its mount or to
    its inode is left. *)
Theorem mount_umount (s : kstate) (flags : Z) (dev : bytes) (ld m li : positive) :
  mountable s dev ld m li →
  wp (r ← teadfs_mount flags dev;
      (match r with KObj d => umount d | _ => mret () end);; mret r)
    (λ r s', r ≠ KNull ∧ ks_refs s' = ks_refs s) s.
Proof.
  intros Hm. apply wp_bind. eapply wp_mount; [exact Hm| |].
  - intros e s1 HR. by apply wp_bind, wp_ret, wp_ret.
  - intros b d i s1 [Hs Hd Hi HR]. apply wp_bind, wp_bind. eapply wp_get_dentry; [exact Hd|].
    apply wp_bind, wp_deref, wp_bind. eapply wp_get_inode; [exact Hi|].
    apply wp_bind. eapply wp_ref_put; [exact HR|]. cbn [made set_meta interposed i_meta with_new i_sb].
    eapply (wp_deactivate_rooted b _ d _ i _ li (ks_refs s)); [exact Hs|done|exact Hd|done|exact Hi|done| |].
    + exists ld, m. split; [done|]. wp_simpl. unfold mount_refs. multiset_solver.
    + intros s2 HR2 _. by apply wp_ret.
Qed.

(** The flags of a mount: whether there are ACLs is the lower mount's to say;
    a read-only lower mount makes it read-only; the rest is what was asked
    for. *)
Theorem mount_flags_spec (flags lower k : Z) :
  0 ≤ k → Z.testbit (mount_flags flags lower) k =
    (if k =? 16 then Z.testbit lower 16
     else if k =? 0 then Z.testbit flags 0 || Z.testbit lower 0
     else Z.testbit flags k).
Proof.
  intros Hk. unfold mount_flags. change MS_POSIXACL with (2 ^ 16). change MS_RDONLY with (2 ^ 0).
  assert (Hf : Z.testbit (Z.lor (Z.land flags (Z.lnot (2 ^ 16))) (Z.land lower (2 ^ 16))) k =
    if k =? 16 then Z.testbit lower 16 else Z.testbit flags k).
  { rewrite Z.lor_spec, !Z.land_spec, Z.lnot_spec, Z.pow2_bits_eqb by lia. rewrite (Z.eqb_sym 16).
    destruct (Z.eqb_spec k 16) as [->|]; simpl; by rewrite ?andb_false_r, ?andb_true_r, ?orb_false_r. }
  assert (Hr : (Z.land lower (2 ^ 0) =? 0) = negb (Z.testbit lower 0)).
  { change (2 ^ 0) with (Z.ones 1). rewrite Z.land_ones, Z.bit0_odd by lia. change (2 ^ 1) with 2.
    rewrite Zmod_odd. by destruct (Z.odd lower). }
  cbv zeta. rewrite Hr. destruct (Z.testbit lower 0) eqn:E0; cbn [negb].
  - rewrite Z.lor_spec, Hf, Z.pow2_bits_eqb, (Z.eqb_sym 0) by lia.
    destruct (Z.eqb_spec k 16) as [->|]; [by rewrite orb_false_r|].
    destruct (Z.eqb_spec k 0) as [->|]; [by rewrite orb_true_r|by rewrite orb_false_r].
  - rewrite Hf. destruct (Z.eqb_spec k 0) as [->|]; [by rewrite orb_false_r|done].
Qed.

(** When no super block can be had, its error pointer is given back as if it
    were one. *)
Theorem mount_sget_error (s : kstate) (flags : Z) (dev : bytes) :
  kzalloc_ok (m_allocs (ks_mem s)) sizeof_sb_info = true →
  vcall_rc (ks_calls s) VC_sget < 0 → teadfs_mount flags dev s = Ub WildPointer.
Proof.
  intros Ha Hs. apply ub_bind_wp. unfold wp, kzalloc_try. rewrite Ha. cbn [negb].
  apply ub_bind_wp, wp_bind, wp_vfs. change (ks_calls (tick s)) with (ks_calls s).
  rewrite (proj2 (Z.ltb_lt _ _) Hs). apply wp_ret, ub_bind_wp, wp_ret. by apply ub_bind.
Qed.

(** Loading the module succeeds whatever fails: the registration of the file
    system, the netlink socket (a failed creation is a null pointer, which is
    not an error pointer) or the device. *)
Theorem module_init_succeeds (s : kstate) :
  wp teadfs_module_init (λ r s', r.1 = 0 ∧
    (vcall_rc (ks_calls s ++ [VC_log_create]) VC_register_filesystem ≠ 0 → r.2 = KNull ∧
      ks_calls s' = ks_calls s ++ [VC_log_create; VC_register_filesystem])) s.
Proof.
  apply wp_bind, wp_vfs, wp_bind, wp_vfs. set (s1 := set_calls _ _). set (rc := vcall_rc _ _).
  destruct (Z.eqb_spec rc 0) as [E|E]; cbn [negb].
  - apply wp_bind. eapply (wp_intro _ _ _ _ _ eq_refl).
    apply wp_bind, wp_bind, wp_vfs. cbv zeta. destruct (_ <? 0); apply wp_ret;
      repeat (wp_step || apply wp_vfs); (split; [done|]); intros Hbad; by destruct Hbad.
  - apply wp_ret. split; [done|]. intros _. split; [done|]. simpl. by rewrite <- app_assoc.
Qed.

End MainLemmas.
