(* ===== verification/Tables.v ===== *)
(** The tables of operations the module gives the kernel: those of inodes
    ([TEADFS/src/inode.c]), files ([file.c]), page caches ([mmap.c]), super blocks
    ([super.c]), dentries ([dentry.c]), the file system ([main.c]) and the device
    ([miscdev.c]).

    A table is a record of operations; an operation the table leaves out is
    [None].  An entry is a definition of this development or one of the kernel's
    own functions, by its name. *)
From S2P Require Import Prelude Kernel Protocol Wp Vfs GlobalParam Netlink UserCom Requests Daemon Client Session File Mmap Miscdev Super Lookup Refs Dentry Inode Main.
Local Open Scope Z_scope.

(** The functions of the kernel that stand in the tables. *)
Inductive library :=
  | generic_read_dir | do_sync_read | do_sync_write | generic_file_mmap | generic_file_splice_read
  | default_llseek | noop_llseek.
Inductive entry (A : Type) := Own (f : A) | Library (g : library).
Arguments Own {A}.
Arguments Library {A}.

Section Tables.
Context `{KernelEnv}.
(** [CONFIG_COMPAT]. *)
Context (compat : bool).

(** * Inodes *)
Record inode_operations := {
  io_create : option (positive → positive → Z → bool → M Z);
  io_lookup : option (positive → positive → M kptr);
  io_link : option (positive → positive → positive → M Z);
  io_unlink : option (positive → positive → M Z);
  io_symlink : option (positive → positive → bytes → M Z);
  io_mkdir : option (positive → positive → Z → M Z);
  io_rmdir : option (positive → positive → M Z);
  io_mknod : option (positive → positive → Z → Z → M Z);
  io_rename : option (positive → positive → positive → positive → M Z);
  io_readlink : option (positive → Z → M Z);
  io_follow_link : option (positive → M ptr);
  io_put_link : option (ptr → M ());
  io_permission : option (positive → Z → M Z);
  io_setattr : option (positive → iattr → M Z);
  io_getattr : option (positive → M (Z * option kstat));
  io_setxattr : option (positive → bytes → bytes → Z → M Z);
  io_getxattr : option (positive → bytes → Z → M Z);
  io_listxattr : option (positive → Z → M Z);
  io_removexattr : option (positive → bytes → M Z);
}.

Definition symlink_table : inode_operations := {|
  io_create := None; io_lookup := None; io_link := None; io_unlink := None; io_symlink := None;
  io_mkdir := None; io_rmdir := None; io_mknod := None; io_rename := None;
  io_readlink := Some teadfs_readlink;
  io_follow_link := Some teadfs_follow_link;
  io_put_link := Some teadfs_put_link;
  io_permission := Some teadfs_permission;
  io_setattr := Some teadfs_setattr;
  io_getattr := Some (λ d, '(rc, st) ← teadfs_getattr_link d; mret (rc, Some st));
  io_setxattr := Some teadfs_setxattr;
  io_getxattr := Some teadfs_getxattr;
  io_listxattr := Some teadfs_listxattr;
  io_removexattr := Some teadfs_removexattr;
|}.
Definition dir_table : inode_operations := {|
  io_create := Some teadfs_create;
  io_lookup := Some teadfs_lookup;
  io_link := Some teadfs_link;
  io_unlink := Some teadfs_unlink;
  io_symlink := Some teadfs_symlink;
  io_mkdir := Some teadfs_mkdir;
  io_rmdir := Some teadfs_rmdir;
  io_mknod := Some teadfs_mknod;
  io_rename := Some teadfs_rename;
  io_readlink := None; io_follow_link := None; io_put_link := None;
  io_permission := Some teadfs_permission;
  io_setattr := Some teadfs_setattr;
  io_getattr := None;
  io_setxattr := Some teadfs_setxattr;
  io_getxattr := Some teadfs_getxattr;
  io_listxattr := Some teadfs_listxattr;
  io_removexattr := Some teadfs_removexattr;
|}.
Definition main_table : inode_operations := {|
  io_create := None; io_lookup := None; io_link := None; io_unlink := None; io_symlink := None;
  io_mkdir := None; io_rmdir := None; io_mknod := None; io_rename := None;
  io_readlink := None; io_follow_link := None; io_put_link := None;
  io_permission := Some teadfs_permission;
  io_setattr := Some teadfs_setattr;
  io_getattr := Some teadfs_getattr;
  io_setxattr := Some teadfs_setxattr;
  io_getxattr := Some teadfs_getxattr;
  io_listxattr := Some teadfs_listxattr;
  io_removexattr := Some teadfs_removexattr;
|}.
Definition inode_table (t : iops) : option inode_operations :=
  match t with
  | NoIops => None
  | teadfs_symlink_iops => Some symlink_table
  | teadfs_dir_iops => Some dir_table
  | teadfs_main_iops => Some main_table
  end.

(** * Files *)
Record file_operations := {
  fo_llseek : option (entry (positive → Z → Z → M Z));
  fo_read : option library;
  fo_aio_read : option (positive → Z → M Z);
  fo_write : option library;
  fo_aio_write : option (positive → Z → M Z);
  fo_readdir : option (∀ U, positive → Z → (dirent → U → Z * U) → U → M (Z * Z * U));
  fo_unlocked_ioctl : option (positive → M Z);
  fo_compat_ioctl : option (positive → M Z);
  fo_mmap : option library;
  fo_open : option (positive → positive → M Z);
  fo_flush : option (positive → M Z);
  fo_release : option (positive → positive → M Z);
  fo_fsync : option (positive → Z → M Z);
  fo_fasync : option (positive → M Z);
  fo_splice_read : option library;
}.

Definition dir_file_table : file_operations := {|
  fo_llseek := Some (Library default_llseek);
  fo_read := Some generic_read_dir;
  fo_aio_read := None; fo_write := None; fo_aio_write := None;
  fo_readdir := Some (@teadfs_readdir _);
  fo_unlocked_ioctl := Some teadfs_unlocked_ioctl;
  fo_compat_ioctl := if compat then Some teadfs_compat_ioctl else None;
  fo_mmap := None;
  fo_open := Some teadfs_open;
  fo_flush := Some teadfs_flush;
  fo_release := Some teadfs_release;
  fo_fsync := Some teadfs_fsync;
  fo_fasync := Some teadfs_fasync;
  fo_splice_read := Some generic_file_splice_read;
|}.
Definition main_file_table : file_operations := {|
  fo_llseek := Some (Own teadfs_file_llseek);
  fo_read := Some do_sync_read;
  fo_aio_read := Some teadfs_aio_read_update_atime;
  fo_write := Some do_sync_write;
  fo_aio_write := Some teadfs_aio_write;
  fo_readdir := Some (@teadfs_readdir _);
  fo_unlocked_ioctl := Some teadfs_unlocked_ioctl;
  fo_compat_ioctl := if compat then Some teadfs_compat_ioctl else None;
  fo_mmap := Some generic_file_mmap;
  fo_open := Some teadfs_open;
  fo_flush := Some teadfs_flush;
  fo_release := Some teadfs_release;
  fo_fsync := Some teadfs_fsync;
  fo_fasync := Some teadfs_fasync;
  fo_splice_read := Some generic_file_splice_read;
|}.
(** Special files have the kernel's tables. *)
Definition file_table (t : fops) : option file_operations :=
  match t with
  | teadfs_dir_fops => Some dir_file_table
  | teadfs_main_fops => Some main_file_table
  | NoFops | SpecialFops _ _ => None
  end.

(** [read] and [write] of a file: [do_sync_read] and [do_sync_write] call the
    asynchronous operation. *)
Definition reads (t : file_operations) : option (positive → Z → M Z) :=
  match fo_read t with Some do_sync_read => fo_aio_read t | _ => None end.
Definition writes (t : file_operations) : option (positive → Z → M Z) :=
  match fo_write t with Some do_sync_write => fo_aio_write t | _ => None end.

(** * The others *)
Record address_space_operations := {
  as_writepage : positive → M Z;
  as_readpage : positive → positive → M Z;
  as_write_begin : positive → positive → option positive → Z → M (Z * option positive);
  as_write_end : positive → positive → Z → Z → Z → M Z;
  as_bmap : option (Z → Z) → Z → Z;
}.
Definition page_table : address_space_operations :=
  {| as_writepage := teadfs_writepage; as_readpage := teadfs_readpage;
     as_write_begin := treadfs_write_begin; as_write_end := teadfs_write_end; as_bmap := teadfs_bmap |}.

Record super_operations := {
  so_alloc_inode : positive → M (option positive);
  so_destroy_inode : positive → M ();
  so_statfs : positive → M (Z * option Z);
  so_remount_fs : option (positive → Z → bytes → M Z);
  so_evict_inode : positive → M ();
  so_show_options : bytes;
}.
Definition teadfs_sops : super_operations :=
  {| so_alloc_inode := teadfs_alloc_inode; so_destroy_inode := teadfs_destroy_inode;
     so_statfs := teadfs_statfs; so_remount_fs := None; so_evict_inode := teadfs_evict_inode;
     so_show_options := teadfs_show_options |}.

Record dentry_operations := {
  do_revalidate : positive → Z → M Z;
  do_release : positive → M ();
}.
Definition teadfs_dops : dentry_operations :=
  {| do_revalidate := teadfs_d_revalidate; do_release := teadfs_d_release |}.

Record file_system_type := {
  fs_name : bytes;
  fs_mount : Z → bytes → M kptr;
  fs_kill_sb : positive → M ();
  fs_flags : Z;
}.
Definition teadfs_fs_type : file_system_type :=
  {| fs_name := str "teadfs"; fs_mount := teadfs_mount; fs_kill_sb := teadfs_kill_block_super; fs_flags := 0 |}.

Record device_operations := {
  dev_open : M Z; dev_poll : M Z; dev_release : M Z; dev_read : M Z; dev_write : M Z;
  dev_llseek : entry (positive → Z → Z → M Z);
}.
Definition teadfs_miscdev_fops : device_operations :=
  {| dev_open := teadfs_miscdev_open; dev_poll := teadfs_miscdev_poll; dev_release := teadfs_miscdev_release;
     dev_read := teadfs_miscdev_read; dev_write := teadfs_miscdev_write; dev_llseek := Library noop_llseek |}.

(** * What the tables say *)

(** An operation on names, an access to extended attributes, through a table. *)
Definition name_entry (t : inode_operations) (op : name_op) : option (M Z) :=
  match op with
  | OpCreate dir d mode excl => f ← io_create t; Some (f dir d mode excl)
  | OpLink old dir d => f ← io_link t; Some (f old dir d)
  | OpSymlink dir d symname => f ← io_symlink t; Some (f dir d symname)
  | OpMkdir dir d mode => f ← io_mkdir t; Some (f dir d mode)
  | OpMknod dir d mode dev => f ← io_mknod t; Some (f dir d mode dev)
  | OpUnlink dir d => f ← io_unlink t; Some (f dir d)
  | OpRmdir dir d => f ← io_rmdir t; Some (f dir d)
  end.
Definition xattr_entry (t : inode_operations) (d : positive) (op : xattr_op) : option (M Z) :=
  match op with
  | XSet name value flags => f ← io_setxattr t; Some (f d name value flags)
  | XGet name size => f ← io_getxattr t; Some (f d name size)
  | XList size => f ← io_listxattr t; Some (f d size)
  | XRemove name => f ← io_removexattr t; Some (f d name)
  end.

(** What an inode of a mode serves: names and lookups when it is a directory,
    its text when it is a link, attributes always; a file of it that is no
    special file opens, and reads and writes when it is no directory. *)
Definition only {A} (b : bool) (a : A) : option A := if b then Some a else None.
Record inode_serves (mode : Z) (t : inode_operations) : Prop := {
  is_names : ∀ op, name_entry t op = only (S_ISDIR mode) (run_name_op op);
  is_lookup : io_lookup t = only (S_ISDIR mode) teadfs_lookup;
  is_rename : io_rename t = only (S_ISDIR mode) teadfs_rename;
  is_link : io_follow_link t = only (S_ISLNK mode) teadfs_follow_link ∧
    io_put_link t = only (S_ISLNK mode) teadfs_put_link;
  is_attr : io_setattr t = Some teadfs_setattr ∧ io_permission t = Some teadfs_permission ∧
    (is_Some (io_getattr t) ↔ S_ISDIR mode = false);
  is_xattr : ∀ d op, xattr_entry t d op = Some (run_xattr d op);
}.
Record file_serves (mode : Z) (t : file_operations) : Prop := {
  fs_open : fo_open t = Some teadfs_open ∧ fo_release t = Some teadfs_release;
  fs_data : reads t = only (negb (S_ISDIR mode)) teadfs_aio_read_update_atime ∧
    writes t = only (negb (S_ISDIR mode)) teadfs_aio_write;
  fs_seek : fo_llseek t = Some (if S_ISDIR mode then Library default_llseek else Own teadfs_file_llseek);
}.
Definition serves (y : inode) : Prop :=
  let mode := i_mode y in
  (∃ t, inode_table (i_op (i_meta y)) = Some t ∧ inode_serves mode t) ∧
  match file_table (i_fop (i_meta y)) with
  | Some t => special_file mode = false ∧ file_serves mode t
  | None => special_file mode = true
  end ∧ a_ops (i_mapping y) = teadfs_aops.

(** The tables that go with a mode serve it. *)
Lemma link_not_dir mode : S_ISLNK mode = true → S_ISDIR mode = false.
Proof. unfold S_ISLNK, S_ISDIR. lia. Qed.
Lemma dir_not_special mode : S_ISDIR mode = true → special_file mode = false.
Proof. unfold S_ISDIR, special_file. lia. Qed.
Lemma inode_table_serves mode : ∃ t, inode_table (iops_of mode) = Some t ∧ inode_serves mode t.
Proof.
  unfold iops_of. destruct (S_ISLNK mode) eqn:El; [|destruct (S_ISDIR mode) eqn:Ed];
    (eexists; split; [reflexivity|]).
  all: split; rewrite ?El, ?Ed, ?(link_not_dir _ El); try done; try (by intros []); try (by intros d []).
  all: split_and!; try done; split; [by intros [? ?]|intros ?; first [done|by eexists]].
Qed.
Lemma file_table_serves mode rdev :
  match file_table (fops_of mode rdev) with
  | Some t => special_file mode = false ∧ file_serves mode t
  | None => special_file mode = true
  end.
Proof.
  unfold fops_of. destruct (S_ISDIR mode) eqn:Ed; simpl.
  - split; [by apply dir_not_special|]. by split; rewrite ?Ed.
  - destruct (special_file mode); simpl; [done|]. split; [done|]. by split; rewrite ?Ed.
Qed.

(** Whatever an inode's table has for an operation on names: the inode is a
    directory, and the operation gives back what it takes. *)
Theorem served_balanced `{!LowerLaws} (s : kstate) (y : inode) (t : inode_operations) (op : name_op) (m : M Z) :
  serves y → inode_table (i_op (i_meta y)) = Some t → name_entry t op = Some m →
  icache_ok ∅ s → name_op_ok s op →
  S_ISDIR (i_mode y) = true ∧ wp m (λ _, balanced s) s.
Proof.
  intros ((t' & Ht' & Hs) & _) Ht Hm Hc Hok. rewrite Ht in Ht'. injection Ht' as <-.
  rewrite (is_names _ _ Hs) in Hm. unfold only in Hm. destruct (S_ISDIR _); [|done]. injection Hm as <-.
  split; [done|]. by apply wp_name_op.
Qed.

(** Every upper inode that has a lower one has the tables of its mode. *)
Definition typed (y : inode) : Prop :=
  i_op (i_meta y) = iops_of (i_mode y) ∧ i_fop (i_meta y) = fops_of (i_mode y) (at_rdev (i_attr y)) ∧
  a_ops (i_mapping y) = teadfs_aops.
Definition cache_typed (s : kstate) : Prop :=
  ∀ i y, ks_inodes s !! i = Some y → is_Some (lower_inode y) → typed y.

Lemma typed_serves y : typed y → serves y.
Proof.
  intros (Ho & Hf & Ha). unfold serves. rewrite Ho, Hf.
  split; [apply inode_table_serves|]. split; [apply file_table_serves|done].
Qed.

(** The upper inode of a lower inode, found or made, serves the operations of
    its type, and the cache goes on having the tables of every inode's mode. *)
Theorem get_inode_serves (s : kstate) (li sb : positive) (sbx : super) :
  ks_supers s !! sb = Some sbx → s_fs_info sbx = Some (Some (lower_i_sb (ks_lfs s) li)) →
  (∀ i y, ks_inodes s !! i = Some y → i_new (i_meta y) = false) → cache_typed s →
  wp (teadfs_get_inode li sb) (λ r s', cache_typed s' ∧
    ∀ i, r = KObj i → ∃ y, ks_inodes s' !! i = Some y ∧ lower_inode y = Some li ∧ serves y) s.
Proof.
  intros Hsb Hfs Hnew Ht. apply wp_bind.
  eapply wp___get_inode; [exact Hsb|exact Hfs|exact Hnew|..].
  1-3: intros; apply wp_bind, wp_ret, wp_ret; split; [exact Ht|done].
  - intros i _ Hi. destruct (cached_Some _ _ _ _ Hi) as (y & Hy & _ & Hl).
    apply wp_bind. eapply wp_unlock_if_new; [exact Hy|by eapply Hnew|]. apply wp_ret.
    split; [exact Ht|]. intros j [= <-]. exists y. split_and!; [done|done|]. apply typed_serves.
    eapply Ht; [exact Hy|by rewrite Hl].
  - intros i _ _ Hi. apply wp_bind.
    change (set_refs ?f (set_inodes ?g ?t)) with (set_inodes g (set_refs f t)).
    apply wp_unlock_made; [done|]. apply wp_ret.
    assert (Hmade : typed (made (ks_lfs s) sb li i (s_bdi sbx))) by done.
    split.
    + intros j y Hj Hlj. cbn [set_inodes ks_inodes] in Hj.
      apply lookup_insert_Some in Hj as [[_ <-]|[_ Hj]]; [exact Hmade|].
      by eapply Ht.
    + intros j [= <-]. eexists. split; [apply lookup_insert_eq|]. split; [done|by apply typed_serves].
Qed.
End Tables.
