(* ===== verification/Log.v ===== *)
(** [teadfs_log.c] and [teadfs_log.h], the module's log: the file it opens, the
    messages it appends, and the states in which it faults.

    The log has a state of its own ([log_state]), which nothing else in the
    module reads; the rest of the development leaves its calls out.  The text
    [vsnprintf] makes of a format and what a write does to the file are the
    kernel's and the lower file system's ([LogEnv]); the bound of [vsnprintf] and its
    terminator are written out. *)
From S2P Require Import Prelude Kernel Wp.
Local Open Scope Z_scope.

(** * Data *)

Inductive TEADFS_LOG_LEVEL := TLL_DBG | TLL_INF | TLL_ERR | TLL_CNT.

Definition LOG_MAX_BUF : Z := 4096.

Definition O_RDWR : Z := 2.
Definition O_CREAT : Z := 64.
Definition O_APPEND : Z := 1024.
Definition O_LARGEFILE : Z := 32768.

(** The variable arguments, and a [va_list]: the arguments still to be taken,
    indeterminate once a function it was passed to has taken some. *)
Inductive arg := AInt (z : Z) | AStr (s : bytes) | APtr (p : Z).
Definition va_list : Type := option (list arg).

(** [struct file]: what the log uses of it. *)
Record logfile := LogFile { lf_flags : Z; lf_pos : Z }.

(** [g_file]; the open files; the contents of [/ttt.log], if it exists; and what
    was handed to the console. *)
Record log_state := LogState {
  g_file : kptr;
  open_files : gmap positive logfile;
  ttt_log : option bytes;
  console : list (bytes * list arg);
}.

(** When the module is loaded, the static variable is null. *)
Definition log_boot (opened : gmap positive logfile) (disk : option bytes) : log_state :=
  LogState KNull opened disk [].

Class LogEnv := {
  (** all of the text of a format and its arguments, without terminator *)
  log_text : bytes → list arg → bytes;
  (** the error with which the log cannot be opened, if it cannot *)
  log_open_error : log_state → option Z;
  (** a file's contents after a write: the flags the file was opened with, the
      contents, the data, the position *)
  log_written : Z → bytes → bytes → Z → bytes;
}.

(** * The monad *)

Definition LM (A : Type) : Type := log_state → A * log_state + ub.
#[export] Instance LM_ret : MRet LM := λ A a s, inl (a, s).
#[export] Instance LM_bind : MBind LM := λ A B f m s,
  match m s with inl (a, s) => f a s | inr u => inr u end.
Definition log_fault {A} (u : ub) : LM A := λ _, inr u.

Definition log_gets {A} (f : log_state → A) : LM A := λ s, inl (f s, s).
Definition log_modify (f : log_state → log_state) : LM () := λ s, inl ((), f s).

Definition set_g_file (p : kptr) : LM () :=
  log_modify (λ s, LogState p (open_files s) (ttt_log s) (console s)).

(** * Operations *)
Section Log.
Context `{LogEnv}.

(** [filp_open] of [/ttt.log]: [O_CREAT] makes the file when it is not there. *)
Definition filp_open_log (flags : Z) : LM kptr := λ s,
  match log_open_error s with
  | Some e => inl (KErr e, s)
  | None =>
    let f := fresh (dom (open_files s) : gset positive) in
    inl (KObj f, LogState (g_file s) (<[f := LogFile flags 0]> (open_files s))
      (Some (default [] (ttt_log s))) (console s))
  end.

Definition filp_close_log (p : kptr) : LM () := λ s,
  match p with
  | KNull => inr NullDeref
  | KErr _ => inr WildPointer
  | KObj f =>
    match open_files s !! f with
    | Some _ => inl ((), LogState (g_file s) (delete f (open_files s)) (ttt_log s) (console s))
    | None => inr DoubleFree
    end
  end.

(** [p->f_pos], and the flags. *)
Definition log_deref (p : kptr) : LM logfile := λ s,
  match p with
  | KNull => inr NullDeref
  | KErr _ => inr WildPointer
  | KObj f => match open_files s !! f with Some x => inl (x, s) | None => inr BadObject end
  end.

(** [kernel_write]: before 4.14 the position is passed by value. *)
Definition kernel_write_log (p : kptr) (data : bytes) (pos : Z) : LM () :=
  x ← log_deref p;
  log_modify (λ s, LogState (g_file s) (open_files s)
    (Some (log_written (lf_flags x) (default [] (ttt_log s)) data pos)) (console s)).

Definition take_args (ap : va_list) : LM (list arg) :=
  match ap with Some args => mret args | None => log_fault Bug end.

(** [vsnprintf]: at most [n - 1] bytes of the text and a terminator. *)
Definition vsnprintf (buf : bytes) (n : Z) (fmt : bytes) (args : list arg) : bytes :=
  splice 0 (take (Z.to_nat (n - 1)) (log_text fmt args) ++ [zero_byte]) buf.

Definition teadfs_write_log (fmt : bytes) (ap : va_list) : LM () :=
  let buf := zeros LOG_MAX_BUF in
  args ← take_args ap;
  let buf := vsnprintf buf LOG_MAX_BUF fmt args in
  p ← log_gets g_file;
  x ← log_deref p;
  match find_nul buf with
  | Some n => kernel_write_log p (take n buf) (lf_pos x)
  | None => log_fault OutOfBounds
  end.

(** [vprintk] takes the arguments. *)
Definition vprintk (fmt : bytes) (ap : va_list) : LM va_list :=
  args ← take_args ap;
  log_modify (λ s, LogState (g_file s) (open_files s) (ttt_log s) (console s ++ [(fmt, args)]));;
  mret None.

Definition teadfs_log (level : TEADFS_LOG_LEVEL) (format : bytes) (args : list arg) : LM () :=
  let ap := Some args in
  match level with
  | TLL_DBG => mret ()
  | TLL_INF => teadfs_write_log format ap
  | TLL_ERR => teadfs_write_log format ap
  | TLL_CNT => ap ← vprintk format ap; teadfs_write_log format ap
  end.

(** The three macros. *)
Definition LOG_DBG (fn : bytes) (line : Z) (FMT : bytes) (args : list arg) : LM () :=
  teadfs_log TLL_DBG (str "%s(%d)[debug] " ++ FMT) (AStr fn :: AInt line :: args).
Definition LOG_INF (fn : bytes) (line : Z) (FMT : bytes) (args : list arg) : LM () :=
  teadfs_log TLL_INF (str "%s(%d)[info ] " ++ FMT) (AStr fn :: AInt line :: args).
Definition LOG_ERR (fn : bytes) (line : Z) (FMT : bytes) (args : list arg) : LM () :=
  teadfs_log TLL_ERR (str "%s(%d)[error] " ++ FMT) (AStr fn :: AInt line :: args).

(** Neither function returns a value; nobody asks for one. *)
Definition teadfs_log_create : LM () :=
  let flags_new := Z.lor (Z.lor (Z.lor O_CREAT O_RDWR) O_APPEND) O_LARGEFILE in
  p ← filp_open_log flags_new;
  set_g_file p.
Definition teadfs_log_release : LM () :=
  p ← log_gets g_file;
  filp_close_log p.

(** Messages, one after the other: which macro, function, line, format and
    arguments. *)
Record message := Message {
  msg_level : TEADFS_LOG_LEVEL;
  msg_format : bytes;
  msg_args : list arg;
}.
Fixpoint log_all (ms : list message) : LM () :=
  match ms with
  | [] => mret ()
  | m :: ms => teadfs_log (msg_level m) (msg_format m) (msg_args m);; log_all ms
  end.

End Log.

(** * What the log holds *)

Section Lemmas.
Context `{LogEnv}.

(** A message's line: at most 4095 bytes, and none of a debug message. *)
Definition log_line (m : message) : bytes :=
  match msg_level m with
  | TLL_DBG => []
  | _ => c_text (take (Z.to_nat (LOG_MAX_BUF - 1)) (log_text (msg_format m) (msg_args m)))
  end.

(** The log can be written to. *)
Definition usable (s : log_state) : Prop :=
  ∃ f x, g_file s = KObj f ∧ open_files s !! f = Some x.

(** A file opened for appending is written at its end, wherever the position
    is, and there is room. *)
Definition appends : Prop := ∀ flags old data pos,
  Z.land flags O_APPEND ≠ 0 → log_written flags old data pos = old ++ data.

(** The string that ends up in the buffer is the message's line. *)
Lemma find_nul_vsnprintf buf n fmt args :
  let t := take (Z.to_nat (n - 1)) (log_text fmt args) in
  ∃ k, find_nul (vsnprintf buf n fmt args) = Some k ∧ take k (vsnprintf buf n fmt args) = c_text t.
Proof.
  intros t. unfold vsnprintf, splice. rewrite take_0. simpl. rewrite <- app_assoc. apply c_text_terminated.
Qed.

(** One call on a log that can be written to: the contents it leaves. *)
Definition logged (m : message) (x : logfile) (s : log_state) : log_state :=
  LogState (g_file s) (open_files s)
    (match msg_level m with
     | TLL_DBG => ttt_log s
     | _ => Some (log_written (lf_flags x) (default [] (ttt_log s)) (log_line m) (lf_pos x))
     end) (console s).

Lemma write_log_writes fmt args f x s :
  g_file s = KObj f → open_files s !! f = Some x →
  teadfs_write_log fmt (Some args) s = inl ((), logged (Message TLL_INF fmt args) x s).
Proof.
  intros Hg Hx. unfold teadfs_write_log, mbind, LM_bind, take_args, mret, LM_ret, log_gets, log_deref.
  rewrite Hg, Hx.
  destruct (find_nul_vsnprintf (zeros LOG_MAX_BUF) LOG_MAX_BUF fmt args) as (k & Hk & Ht).
  rewrite Hk, Ht.
  unfold kernel_write_log, mbind, LM_bind, log_deref. by rewrite Hx.
Qed.

Lemma log_logs m f x s :
  msg_level m ≠ TLL_CNT → g_file s = KObj f → open_files s !! f = Some x →
  teadfs_log (msg_level m) (msg_format m) (msg_args m) s = inl ((), logged m x s).
Proof.
  intros Hl Hg Hx. destruct m as [[] fmt args], s; simpl in *; try done;
    (rewrite (write_log_writes _ _ f x); done).
Qed.

(** What is left of a sequence of messages. *)
Lemma log_all_appends ms f x s old :
  appends → Forall (λ m, msg_level m ≠ TLL_CNT) ms →
  g_file s = KObj f → open_files s !! f = Some x → Z.land (lf_flags x) O_APPEND ≠ 0 →
  ttt_log s = Some old →
  log_all ms s = inl ((), LogState (g_file s) (open_files s) (Some (old ++ mjoin (log_line <$> ms))) (console s)).
Proof.
  intros Happ Hms Hg Hx Hfl. revert s old Hg Hx. induction Hms as [|m ms Hm Hms IH]; intros s old Hg Hx Hold.
  - simpl. rewrite app_nil_r. destruct s; simpl in *. by subst.
  - simpl. unfold mbind, LM_bind. rewrite (log_logs m f x) by done.
    rewrite (IH _ (old ++ log_line m)); [by rewrite <- app_assoc|done|done|].
    unfold logged, log_line. simpl. rewrite Hold.
    destruct (msg_level m); rewrite ?Happ by done; simpl; by rewrite ?app_nil_r.
Qed.

End Lemmas.

(** * Theorems *)
Section Theorems.
Context `{LogEnv}.


(** A message is logged without fault exactly when it is a debug message, or one
    of the two others' and the log is open: not before it was opened, not after
    it was closed, and not when opening it failed. *)
Theorem log_runs (level : TEADFS_LOG_LEVEL) (fmt : bytes) (args : list arg) (s : log_state) :
  (∃ s', teadfs_log level fmt args s = inl ((), s')) ↔
  level = TLL_DBG ∨ (level ≠ TLL_CNT ∧ usable s).
Proof.
  split.
  - assert (Hw : ∀ s', teadfs_write_log fmt (Some args) s = inl ((), s') → usable s).
    { intros s'. unfold teadfs_write_log, mbind, LM_bind, take_args, mret, LM_ret, log_gets, log_deref.
      destruct (g_file s) as [| |f] eqn:Hg; [done|done|].
      destruct (open_files s !! f) as [x|] eqn:Hx; [|done]. intros _. by exists f, x. }
    destruct level; intros [s' Hs]; [by left|right; split; [discriminate|by eapply Hw]..|done].
  - intros [->|[Hl (f & x & Hg & Hx)]]; [by exists s|].
    eexists. by apply (log_logs (Message level fmt args) f x).
Qed.

(** When the log could not be opened, the first message that is not for
    debugging faults, on the error that opening it gave. *)
Theorem log_open_unchecked (s : log_state) (e : Z) (fmt : bytes) (args : list arg) :
  log_open_error s = Some e →
  (teadfs_log_create;; teadfs_log TLL_ERR fmt args) s = inr WildPointer.
Proof.
  intros He. unfold teadfs_log_create, filp_open_log, mbind, LM_bind. by rewrite He.
Qed.

(** Nor can the log be used after it was closed: the pointer to it stays. *)
Theorem log_closed_dangles (s s' : log_state) (fmt : bytes) (args : list arg) :
  teadfs_log_release s = inl ((), s') → teadfs_log TLL_INF fmt args s' = inr BadObject.
Proof.
  unfold teadfs_log_release, filp_close_log, log_gets, mbind, LM_bind.
  destruct (g_file s) as [| |f] eqn:Hg; [done|done|]. destruct (open_files s !! f); [|done].
  intros [= <-]. unfold teadfs_log, teadfs_write_log, mbind, LM_bind, take_args, mret, LM_ret, log_gets, log_deref.
  simpl. by rewrite lookup_delete_eq.
Qed.

(** A message of the level that also goes to the console would use its arguments
    twice; no macro of the header has that level. *)
Theorem log_console_twice (fmt : bytes) (args : list arg) (s : log_state) :
  teadfs_log TLL_CNT fmt args s = inr Bug.
Proof. done. Qed.

End Theorems.

(** * An example

    A log that has one line, to which a debug message, an error and a notice
    are written. *)
Module Example.

#[local] Instance env : LogEnv := {|
  log_text fmt args := fmt ++ mjoin ((λ a, match a with AStr t => t | _ => [] end) <$> args);
  log_open_error _ := None;
  log_written flags old data pos := if Z.land flags O_APPEND =? 0 then splice pos data old else old ++ data;
|}.

Definition messages : list message :=
  [Message TLL_DBG (str "ENTRY") []; Message TLL_ERR (str "no memory: ") [AStr (str "open")];
   Message TLL_INF (str "Mount success") []].


End Example.
