(* ===== verification/ThreadPool.v ===== *)
(** [TEADFS-utils/thread_pool.h], the pool of threads that serves the kernel's
    requests, over the events of [TEADFS-utils/pevents.cpp].

    [Event] is an event as the pool uses it (pevents built without WFMO).
    [Pool] is the interleaving of the thread that adds tasks, the pool's thread
    and its workers; a step is one critical section, one access to a shared
    variable, or one turn of a wait. *)
From S2P Require Import Prelude.
Local Open Scope Z_scope.

(** * Events *)
Module Event.

Definition WAIT_TIMEOUT : Z := 110.   (* ETIMEDOUT *)
Definition WAIT_INFINITE : Z := 2 ^ 64 - 1.

Record event := Event { AutoReset : bool; State : bool }.

Definition CreateEvent (manualReset initialState : bool) : event := Event (negb manualReset) initialState.
Definition SetEvent (e : event) : event := Event (AutoReset e) true.
Definition ResetEvent (e : event) : event := Event (AutoReset e) false.

(** A wait returns, or is blocked on the condition variable. *)
Inductive waiting := Returned (rc : Z) (e : event) | Blocked.

(** What a wait that succeeded leaves. *)
Definition acquire (e : event) : event := if AutoReset e then Event true false else e.

(** [UnlockedWaitForEvent] up to the condition variable ... *)
Definition enter (milliseconds : Z) (e : event) : waiting :=
  if State e then Returned 0 (acquire e)
  else if milliseconds =? 0 then Returned WAIT_TIMEOUT e else Blocked.
(** ... and one return of the condition variable, which may be the timeout; the
    state is not looked at then. *)
Definition resume (timed_out : bool) (e : event) : waiting :=
  if timed_out then Returned WAIT_TIMEOUT e
  else if State e then Returned 0 (acquire e) else Blocked.

(** An event set once lets exactly one wait through, however often it was
    set before; one that is reset manually lets all of them through until it is
    reset. *)
Theorem event_once (e : event) (ms : Z) :
  let e' := SetEvent (SetEvent e) in
  enter ms e' = Returned 0 (if AutoReset e then ResetEvent e else SetEvent e) ∧
  enter 0 (ResetEvent e) = Returned WAIT_TIMEOUT (ResetEvent e) ∧
  (ms ≠ 0 → enter ms (ResetEvent e) = Blocked) ∧
  resume false (SetEvent e) = enter ms e' ∧ resume false (ResetEvent e) = Blocked.
Proof.
  destruct e as [[] st]; split_and!; try done; intros Hms; unfold enter; simpl;
    by rewrite (proj2 (Z.eqb_neq _ _) Hms).
Qed.

End Event.

(** * The pool *)
Module Pool.
Import Event.

Definition TIMEOUT_INTERVAL : Z := 5000.
Definition MAX_REPEAT_COUNT : Z := 12.

Inductive THREAD_STATUS := TS_WAIT | TS_RUNNING | TS_EXIT.

Section Pool.
Context {T : Type}.

(** Where a worker is in [Runnable]: at the head of the loop, before [Pop],
    before the mark that it waits, entering the wait, blocked in it, in the
    handler, after the loop, or returned. *)
Inductive worker_pc :=
  | WTop | WPop | WMark | WEnter | WBlocked | WHandle (t : T) | WLeave | WDone.
Record CThreadWork := Worker {
  m_event : event;
  m_bExit : bool;
  m_status : THREAD_STATUS;
  nRepeatCount : Z;
  w_pc : worker_pc;
}.
Definition new_worker : CThreadWork :=
  Worker (CreateEvent false false) false TS_WAIT MAX_REPEAT_COUNT WTop.
Definition goto (pc : worker_pc) (w : CThreadWork) : CThreadWork :=
  Worker (m_event w) (m_bExit w) (m_status w) (nRepeatCount w) pc.
Definition mark (st : THREAD_STATUS) (w : CThreadWork) : CThreadWork :=
  Worker (m_event w) (m_bExit w) st (nRepeatCount w) (w_pc w).
Definition set_event (e : event) (w : CThreadWork) : CThreadWork :=
  Worker e (m_bExit w) (m_status w) (nRepeatCount w) (w_pc w).
Definition Exit (w : CThreadWork) : CThreadWork :=
  Worker (m_event w) true (m_status w) (nRepeatCount w) (w_pc w).
Definition Wakeup (w : CThreadWork) : CThreadWork := set_event (SetEvent (m_event w)) w.
(** A wait timed out: after [MAX_REPEAT_COUNT] of them in a row the worker is
    told to leave. *)
Definition timed_out (w : CThreadWork) : CThreadWork :=
  let n := nRepeatCount w - 1 in
  Worker (m_event w) (m_bExit w || (n =? 0)) (m_status w) n WTop.
Definition rested (w : CThreadWork) : CThreadWork :=
  Worker (m_event w) (m_bExit w) (m_status w) MAX_REPEAT_COUNT WTop.

(** Where the pool's thread is: entering its wait, blocked in it, at the [i]-th
    of its workers with the one it has found, or about to wake one up. *)
Inductive pool_pc := PEnter | PBlocked | PScan (i : nat) (found : option nat) | PWake (w : nat).

(** [m_list] is the queue of tasks; [m_threadPool] names workers of [workers],
    which also holds the ones the pool has let go of; [adding] is set between
    [Push] and [SetEvent] of [AddTask].  [todo], [taken] and [finished] are the
    tasks that will be added, were popped, and were handled. *)
Record state := St {
  m_list : list T;
  p_event : event;
  p_pc : pool_pc;
  m_threadPool : list nat;
  workers : list CThreadWork;
  adding : bool;
  todo : list T;
  taken : list T;
  finished : list T;
}.

Definition start (tasks : list T) : state :=
  St [] (CreateEvent false false) PEnter [] [] false tasks [] [].

(** ** Steps *)

Definition set_worker (i : nat) (w : CThreadWork) (s : state) : state :=
  St (m_list s) (p_event s) (p_pc s) (m_threadPool s) (<[i := w]> (workers s)) (adding s) (todo s)
    (taken s) (finished s).
Definition set_pool (e : event) (pc : pool_pc) (s : state) : state :=
  St (m_list s) e pc (m_threadPool s) (workers s) (adding s) (todo s) (taken s) (finished s).

(** [CTaskList::Push] and [Pop]. *)
Definition Push (t : T) (l : list T) : list T := l ++ [t].
Definition Pop (l : list T) : option T * list T :=
  match l with [] => (None, []) | t :: l => (Some t, l) end.

(** [AddTask]. *)
Definition add_step (s : state) : option state :=
  if adding s then
    Some (St (m_list s) (SetEvent (p_event s)) (p_pc s) (m_threadPool s) (workers s) false (todo s)
      (taken s) (finished s))
  else match todo s with
       | [] => None
       | t :: ts =>
         Some (St (Push t (m_list s)) (p_event s) (p_pc s) (m_threadPool s) (workers s) true ts
           (taken s) (finished s))
       end.

(** [CThreadPool::Runnable]. *)
Definition pool_wait (r : waiting) (s : state) : option state :=
  match r with
  | Blocked => match p_pc s with PEnter => Some (set_pool (p_event s) PBlocked s) | _ => None end
  | Returned rc e => Some (set_pool e (if rc =? WAIT_TIMEOUT then PEnter else PScan 0 None) s)
  end.
Definition pool_step (late : bool) (s : state) : option state :=
  match p_pc s with
  | PEnter => pool_wait (enter TIMEOUT_INTERVAL (p_event s)) s
  | PBlocked => pool_wait (resume late (p_event s)) s
  | PScan i found =>
    match m_threadPool s !! i with
    | Some n =>
      match workers s !! n with
      | Some w =>
        match m_status w with
        | TS_WAIT => Some (set_pool (p_event s) (PScan (S i) (Some n)) s)
        | TS_EXIT =>
          Some (St (m_list s) (p_event s) (PScan i found) (delete i (m_threadPool s)) (workers s)
            (adding s) (todo s) (taken s) (finished s))
        | TS_RUNNING => Some (set_pool (p_event s) (PScan (S i) found) s)
        end
      | None => None
      end
    | None =>
      match found with
      | Some n => Some (set_pool (p_event s) (PWake n) s)
      | None =>
        let n := length (workers s) in
        Some (St (m_list s) (p_event s) (PWake n) (m_threadPool s ++ [n]) (workers s ++ [new_worker])
          (adding s) (todo s) (taken s) (finished s))
      end
    end
  | PWake n =>
    match workers s !! n with
    | Some w => Some (set_pool (p_event s) PEnter (set_worker n (Wakeup w) s))
    | None => None
    end
  end.

(** [CThreadWork::Runnable]. *)
Definition worker_wait (r : waiting) (w : CThreadWork) : option CThreadWork :=
  match r with
  | Blocked => match w_pc w with WEnter => Some (goto WBlocked w) | _ => None end
  | Returned rc e =>
    Some (if rc =? WAIT_TIMEOUT then timed_out (set_event e w) else goto WTop (set_event e w))
  end.
Definition worker_step (late : bool) (i : nat) (s : state) : option state :=
  w ← workers s !! i;
  match w_pc w with
  | WTop => Some (set_worker i (if m_bExit w then goto WLeave w else goto WPop (mark TS_RUNNING w)) s)
  | WPop =>
    match Pop (m_list s) with
    | (Some t, l) =>
      Some (St l (p_event s) (p_pc s) (m_threadPool s) (<[i := goto (WHandle t) w]> (workers s))
        (adding s) (todo s) (taken s ++ [t]) (finished s))
    | (None, _) => Some (set_worker i (goto WMark w) s)
    end
  | WMark => Some (set_worker i (goto WEnter (mark TS_WAIT w)) s)
  | WEnter => w ← worker_wait (enter TIMEOUT_INTERVAL (m_event w)) w; Some (set_worker i w s)
  | WBlocked => w ← worker_wait (resume late (m_event w)) w; Some (set_worker i w s)
  | WHandle t =>
    Some (St (m_list s) (p_event s) (p_pc s) (m_threadPool s) (<[i := rested w]> (workers s))
      (adding s) (todo s) (taken s) (finished s ++ [t]))
  | WLeave => Some (set_worker i (goto WDone (mark TS_EXIT w)) s)
  | WDone => None
  end.

(** Who moves; the flag says that a blocked wait times out. *)
Inductive actor := Adder | PoolThread (late : bool) | WorkThread (late : bool) (i : nat).
Definition step (a : actor) (s : state) : option state :=
  match a with
  | Adder => add_step s
  | PoolThread late => pool_step late s
  | WorkThread late i => worker_step late i s
  end.
Fixpoint run (l : list actor) (s : state) : option state :=
  match l with [] => Some s | a :: l => s ← step a s; run l s end.

End Pool.

(** ** What a pool promises

    The specification: tasks are submitted to a queue, taken from its head, and
    finished in any order. *)
Section Spec.
Context {T : Type} `{Countable T}.

Record spec := Spec { sp_todo : list T; sp_queue : list T; sp_busy : gmultiset T; sp_done : list T }.
Inductive spec_step : spec → spec → Prop :=
  | sp_submit t todo q b d : spec_step (Spec (t :: todo) q b d) (Spec todo (q ++ [t]) b d)
  | sp_take t todo q b d : spec_step (Spec todo (t :: q) b d) (Spec todo q ({[+ t +]} ⊎ b) d)
  | sp_finish t todo q b d : spec_step (Spec todo q ({[+ t +]} ⊎ b) d) (Spec todo q b (d ++ [t])).

(** The tasks in the workers' hands. *)
Definition in_hand (w : CThreadWork) : gmultiset T :=
  match w_pc w with WHandle t => {[+ t +]} | _ => ∅ end.
Definition busy (ws : list CThreadWork) : gmultiset T := foldr (λ w X, in_hand w ⊎ X) ∅ ws.
Definition abstract (s : state) : spec := Spec (todo s) (m_list s) (busy (workers s)) (finished s).

Lemma busy_app ws w : busy (ws ++ [w]) = busy ws ⊎ in_hand w.
Proof. induction ws as [|v ws IH]; simpl; [|rewrite IH]; multiset_solver. Qed.

(** Only a worker's own task changes when the worker does. *)
Lemma busy_insert ws i w w' :
  ws !! i = Some w → in_hand w ⊎ busy (<[i := w']> ws) = in_hand w' ⊎ busy ws.
Proof.
  revert i. induction ws as [|v ws IH]; intros [|i] Hi; [done|done| |].
  - injection Hi as ->. simpl. multiset_solver.
  - simpl in *. specialize (IH _ Hi). multiset_solver.
Qed.
Lemma busy_same ws i w w' :
  ws !! i = Some w → in_hand w' = in_hand w → busy (<[i := w']> ws) = busy ws.
Proof. intros Hi Hh. pose proof (busy_insert ws i w w' Hi) as E. rewrite Hh in E. multiset_solver. Qed.

(** What a step of a worker may be. *)
Lemma worker_step_cases late i (s s' : state) :
  worker_step late i s = Some s' →
  ∃ w w', workers s !! i = Some w ∧ workers s' = <[i := w']> (workers s) ∧ todo s' = todo s ∧
    ((in_hand w' = in_hand w ∧ m_list s' = m_list s ∧ taken s' = taken s ∧ finished s' = finished s) ∨
     (∃ t, in_hand w = ∅ ∧ in_hand w' = {[+ t +]} ∧ m_list s = t :: m_list s' ∧
        taken s' = taken s ++ [t] ∧ finished s' = finished s) ∨
     (∃ t, in_hand w = {[+ t +]} ∧ in_hand w' = ∅ ∧ m_list s' = m_list s ∧ taken s' = taken s ∧
        finished s' = finished s ++ [t])).
Proof.
  unfold worker_step. intros (w & Hw & Hs)%bind_Some. exists w.
  assert (Hh : in_hand w = match w_pc w with WHandle t => {[+ t +]} | _ => ∅ end) by done.
  destruct (w_pc w) eqn:Epc; simpl in Hs; rewrite Hh.
  - injection Hs as <-. eexists. split; [done|]. split; [done|]. split; [done|]. left. by destruct (m_bExit w).
  - destruct (m_list s) as [|t l] eqn:El; simpl in Hs; injection Hs as <-;
      (eexists; split; [done|]; split; [done|]; split; [done|]).
    + by left.
    + right; left. by exists t.
  - injection Hs as <-. eexists. split; [done|]. split; [done|]. split; [done|]. by left.
  - apply bind_Some in Hs as (w' & Hw' & [= <-]). exists w'. do 3 (split; [done|]). left.
    unfold worker_wait, enter in Hw'. rewrite Epc in Hw'. destruct (State _); simpl in Hw'; by injection Hw' as <-.
  - apply bind_Some in Hs as (w' & Hw' & [= <-]). exists w'. do 3 (split; [done|]). left.
    unfold worker_wait, resume in Hw'. rewrite Epc in Hw'.
    destruct late, (State (m_event w)); simpl in Hw'; try done; by injection Hw' as <-.
  - injection Hs as <-. eexists. do 3 (split; [done|]). right; right. by exists t.
  - injection Hs as <-. eexists. split; [done|]. split; [done|]. split; [done|]. by left.
  - done.
Qed.

(** The pool's thread leaves the tasks alone, and the workers' hands. *)
Lemma pool_step_abstract late (s s' : state) : pool_step late s = Some s' → abstract s' = abstract s.
Proof.
  unfold pool_step. destruct (p_pc s) as [| |i found|n] eqn:Epc.
  - unfold pool_wait, enter. rewrite Epc. by destruct (State (p_event s)); intros [= <-].
  - unfold pool_wait, resume. rewrite Epc. by destruct late, (State (p_event s)); intros [= <-].
  - destruct (_ !! i) as [n|].
    + destruct (_ !! n) as [w|]; [|done]. by destruct (m_status w); intros [= <-].
    + destruct found; intros [= <-]; [done|]. unfold abstract. simpl. rewrite busy_app. f_equal.
      apply (right_id_L ∅ (⊎)).
  - destruct (_ !! n) as [w|] eqn:Hw; intros [= <-]. unfold abstract. simpl. by rewrite (busy_same _ _ w).
Qed.

(** C13: the pool implements its specification: what any thread does next is one
    step of it, or nothing that it sees. *)
Theorem pool_refines (a : actor) (s s' : state) :
  step a s = Some s' → abstract s' = abstract s ∨ spec_step (abstract s) (abstract s').
Proof.
  destruct a as [|late|late i]; simpl; intros Hs.
  - unfold add_step in Hs. destruct (adding s); [injection Hs as <-; by left|].
    destruct (todo s) as [|t ts] eqn:Et; [done|]. injection Hs as <-. right.
    unfold abstract. simpl. rewrite Et. constructor.
  - left. apply pool_step_abstract in Hs. exact Hs.
  - apply worker_step_cases in Hs as (w & w' & Hw & Hws & Ht & Hc). pose proof (busy_insert _ _ _ w' Hw) as Hb.
    unfold abstract. rewrite Hws, Ht.
    destruct Hc as [(Hh & Hl & _ & Hf)|[(t & H1 & H2 & Hl & _ & Hf)|(t & H1 & H2 & Hl & _ & Hf)]].
    + left. by rewrite Hl, Hf, (busy_same _ _ w).
    + right. rewrite Hl, Hf. rewrite H1, H2, (left_id_L ∅ (⊎)) in Hb. rewrite Hb. constructor.
    + right. rewrite Hl, Hf. rewrite H1, H2, (left_id_L ∅ (⊎)) in Hb. rewrite <- Hb. constructor.
Qed.

(** Nothing is lost, doubled or overtaken. *)
Definition accounted (tasks : list T) (s : state) : Prop :=
  taken s ++ m_list s ++ todo s = tasks ∧
  list_to_set_disj (taken s) = busy (workers s) ⊎ list_to_set_disj (finished s).

Lemma step_accounted tasks a (s s' : state) : accounted tasks s → step a s = Some s' → accounted tasks s'.
Proof.
  intros [Ho Hm] Hs. destruct a as [|late|late i]; simpl in Hs.
  - unfold add_step in Hs. destruct (adding s); [by injection Hs as <-|].
    destruct (todo s) as [|t ts] eqn:Et; [done|]. injection Hs as <-. split; [|done]. simpl.
    unfold Push. by rewrite <- app_assoc.
  - pose proof (pool_step_abstract _ _ _ Hs) as [= E1 E2 E3 E4].
    assert (taken s' = taken s) as E5.
    { unfold pool_step, pool_wait in Hs. repeat case_match; by simplify_eq. }
    unfold accounted. by rewrite E1, E2, E3, E4, E5.
  - apply worker_step_cases in Hs as (w & w' & Hw & Hws & Ht & Hc). pose proof (busy_insert _ _ _ w' Hw) as Hb.
    unfold accounted. rewrite Hws, Ht.
    destruct Hc as [(Hh & -> & -> & ->)|[(t & H1 & H2 & Hl & -> & ->)|(t & H1 & H2 & -> & -> & ->)]].
    + by rewrite (busy_same _ _ w).
    + rewrite Hl in Ho. rewrite H1, H2, (left_id_L ∅ (⊎)) in Hb. rewrite Hb. split; [by rewrite <- app_assoc|].
      rewrite list_to_set_disj_app, Hm. simpl. multiset_solver.
    + rewrite H1, H2, (left_id_L ∅ (⊎)) in Hb. split; [done|].
      rewrite list_to_set_disj_app, Hm, <- Hb. simpl. multiset_solver.
Qed.

(** C14: whatever the order in which the threads run, the tasks taken from the
    queue, followed by those in it and those not yet added, are the tasks that
    were given, in their order; and each that was taken is in one worker's
    hands or was handled, once. *)
Theorem pool_accounts (tasks : list T) (l : list actor) (s : state) :
  run l (start tasks) = Some s → accounted tasks s.
Proof.
  assert (H0 : accounted tasks (start tasks)) by (split; [done|simpl; multiset_solver]).
  revert H0. generalize (start tasks). induction l as [|a l IH]; intros s0 H0 Hr; simpl in Hr.
  - by injection Hr as <-.
  - apply bind_Some in Hr as (s1 & Hs & Hr). eapply IH; [|exact Hr]. by eapply step_accounted.
Qed.

(** A worker that is woken while there is a task, and was not told to leave,
    has the oldest task in its hands three turns later. *)
Theorem woken_takes (i : nat) (s : state) (w : CThreadWork) (t : T) (ts : list T) :
  workers s !! i = Some w → w_pc w = WBlocked → State (m_event w) = true → m_bExit w = false →
  m_list s = t :: ts →
  ∃ s' w', run (replicate 3 (WorkThread false i)) s = Some s' ∧
    workers s' !! i = Some w' ∧ w_pc w' = WHandle t ∧ m_status w' = TS_RUNNING ∧ m_list s' = ts ∧
    taken s' = taken s ++ [t].
Proof.
  intros Hw Hpc Hev Hex Hl. assert (Hi : (i < length (workers s))%nat) by by eapply lookup_lt_Some.
  destruct w as [e x st n pc], s as [q pe pp tp ws ad td tk fi]. simpl in *. subst.
  assert (Hset : ∀ v : CThreadWork, <[i := v]> ws !! i = Some v).
  { intros v. by apply list_lookup_insert_eq. }
  unfold worker_step. simpl. rewrite Hw. simpl. unfold resume. rewrite Hev. simpl.
  rewrite Hset. simpl. rewrite list_insert_insert_eq, Hset. simpl.
  eexists _, _. split; [done|]. simpl. rewrite list_insert_insert_eq. by rewrite Hset.
Qed.

(** A state with a task in the queue that nobody will take: the pool's thread
    waits for an event that is not set, and every worker has returned. *)
Record stranded (t : T) (handled : list T) (s : state) : Prop := {
  sd_finished : finished s = handled;
  sd_list : m_list s = [t];
  sd_todo : todo s = [];
  sd_adding : adding s = false;
  sd_pool : p_pc s = PEnter ∨ p_pc s = PBlocked;
  sd_event : p_event s = Event true false;
  sd_workers : Forall (λ w, w_pc w = WDone) (workers s);
}.

Lemma step_stranded t d a (s s' : state) : stranded t d s → step a s = Some s' → stranded t d s'.
Proof.
  intros [Hf Hl Ht Ha Hp He Hw] Hs. destruct a as [|late|late i]; simpl in Hs.
  - unfold add_step in Hs. by rewrite Ha, Ht in Hs.
  - unfold pool_step in Hs. destruct Hp as [Hp|Hp]; rewrite Hp in Hs;
      unfold pool_wait, enter, resume in Hs; rewrite He, Hp in Hs; simpl in Hs.
    + injection Hs as <-. split; try done. by right.
    + destruct late; [|done]. simpl in Hs. injection Hs as <-. split; try done. by left.
  - unfold worker_step in Hs. apply bind_Some in Hs as (w & Hi & Hs).
    rewrite Forall_lookup in Hw. by rewrite (Hw _ _ Hi) in Hs.
Qed.

(** A worker's turns from the head of its loop to a wait that times out. *)
Definition idle_round : list actor :=
  [WorkThread false 0; WorkThread false 0; WorkThread false 0; WorkThread false 0; WorkThread true 0].
Definition stranding : list actor :=
  (* the first task is added; the pool makes a worker for it and wakes it up *)
  [Adder; Adder; PoolThread false; PoolThread false; PoolThread false; PoolThread false] ++
  (* the worker handles it, finds its event set, and times out twelve times *)
  replicate 7 (WorkThread false 0) ++ mjoin (replicate 12 idle_round) ++
  (* the second task is added; the pool sees the worker wait and wakes it up *)
  [Adder; Adder; PoolThread false; PoolThread false; PoolThread false; PoolThread false; PoolThread false] ++
  (* the worker leaves *)
  [WorkThread false 0; WorkThread false 0].

(** C36: A task can be stranded: a worker that gives up waiting still counts as
    waiting until it has left its loop, and the pool wakes it up for the task;
    as long as nothing more is added, the task stays in the queue, whatever
    the threads do. *)
Theorem pool_strands_task (t1 t2 : T) :
  ∃ l s, run l (start [t1; t2]) = Some s ∧ todo s = [] ∧ m_list s = [t2] ∧
    ∀ l' s', run l' s = Some s' → m_list s' = [t2] ∧ finished s' = [t1].
Proof.
  exists stranding. eexists. split; [vm_compute; reflexivity|]. split; [done|]. split; [done|].
  intros l'. match goal with |- context [run l' ?s0] => set (s := s0) end.
  assert (Hs : stranded t2 [t1] s).
  { split; try done; [by right|]. by repeat constructor. }
  clearbody s. revert s Hs. induction l' as [|a l' IH]; intros s Hs s' Hr; simpl in Hr.
  - injection Hr as <-. split; apply Hs.
  - apply bind_Some in Hr as (s1 & Hst & Hr). eapply IH; [by eapply step_stranded|exact Hr].
Qed.

End Spec.
(** ** Workers the pool lets go of

    [m_threadPool] and the pool's own [ptrThread] are the only references to a
    worker: one that is in neither is destroyed, its event with it. *)
Section Destroyed.
Context {T : Type}.
Implicit Types s : @state T.

(** [ptrThread], in the scan and when the worker is woken. *)
Definition ptrThread s : option nat :=
  match p_pc s with PScan _ found => found | PWake n => Some n | _ => None end.
Definition destroyed (n : nat) s : Prop :=
  (n < length (workers s))%nat ∧ (n ∉ m_threadPool s) ∧ ptrThread s ≠ Some n.

(** A worker with the status of one that has left its loop has returned; the
    pool's list names workers, each once, and everyone who has not returned;
    the worker found is in front of where the scan is. *)
Record owned s : Prop := {
  ow_exit : ∀ n w, workers s !! n = Some w → m_status w = TS_EXIT → w_pc w = WDone;
  ow_bound : ∀ n, n ∈ m_threadPool s → (n < length (workers s))%nat;
  ow_once : NoDup (m_threadPool s);
  ow_kept : ∀ n w, workers s !! n = Some w → n ∈ m_threadPool s ∨ w_pc w = WDone;
  ow_found : match p_pc s with
             | PScan i (Some n) => ∃ j, (j < i)%nat ∧ m_threadPool s !! j = Some n
             | PWake n => n ∈ m_threadPool s
             | _ => True
             end;
}.

Lemma start_owned tasks : owned (start tasks).
Proof. split; simpl; try done; try constructor; intros n w; try set_solver. Qed.

(** A worker's own turn, or the pool's [Wakeup]. *)
Lemma owned_worker n w w' s s' :
  owned s → workers s !! n = Some w → workers s' = <[n := w']> (workers s) →
  m_threadPool s' = m_threadPool s → p_pc s' = p_pc s ∨ p_pc s' = PEnter →
  (m_status w' = TS_EXIT → w_pc w' = WDone) → (w_pc w = WDone → w_pc w' = WDone) → owned s'.
Proof.
  intros [He Hb Hn Hk Hf] Hw Hws Hp Hpc Hst Hd.
  assert (Hlen : (n < length (workers s))%nat) by by eapply lookup_lt_Some.
  split; rewrite ?Hws, ?Hp; try done.
  - intros m v. rewrite list_lookup_insert_Some. intros [(<- & <- & _)|[_ Hm]]; [done|by eapply He].
  - rewrite length_insert. done.
  - intros m v. rewrite list_lookup_insert_Some. intros [(<- & <- & _)|[_ Hm]]; [|by eapply Hk].
    destruct (Hk _ _ Hw); eauto.
  - by destruct Hpc as [->| ->].
Qed.

(** The pool's thread, moving on. *)
Lemma owned_pc e pc s :
  owned s →
  match pc with
  | PScan i (Some n) => ∃ j, (j < i)%nat ∧ m_threadPool s !! j = Some n
  | PWake n => n ∈ m_threadPool s
  | _ => True
  end → owned (set_pool e pc s).
Proof. by intros [He Hb Hn Hk Hf] Hpc; split. Qed.

Lemma lookup_delete_before {A} (l : list A) (i j : nat) : (j < i)%nat → delete i l !! j = l !! j.
Proof. apply list_lookup_delete_lt. Qed.

(** [erase] of a worker that has left. *)
Lemma owned_erase i found n w s :
  owned s → p_pc s = PScan i found → m_threadPool s !! i = Some n → workers s !! n = Some w →
  m_status w = TS_EXIT →
  owned (St (m_list s) (p_event s) (PScan i found) (delete i (m_threadPool s)) (workers s)
    (adding s) (todo s) (taken s) (finished s)).
Proof.
  intros [He Hb Hn Hk Hf] Hpc Hi Hw Hst. split; simpl; try done.
  - intros m Hm. apply Hb. eapply elem_of_submseteq; [exact Hm|apply sublist_submseteq, sublist_delete].
  - eapply sublist_NoDup; [done|apply sublist_delete].
  - intros m v Hv. destruct (decide (m = n)) as [->|Hne]; [right; rewrite Hw in Hv; injection Hv as <-; eauto|].
    destruct (Hk _ _ Hv) as [Hin|]; [left|by right].
    rewrite (delete_Permutation _ _ _ Hi) in Hin. by apply elem_of_cons in Hin as [|].
  - rewrite Hpc in Hf. destruct found as [m|]; [|done]. destruct Hf as (j & Hj & Hm). exists j.
    by rewrite lookup_delete_before.
Qed.

(** A worker the pool makes. *)
Lemma owned_new i s :
  owned s → p_pc s = PScan i None →
  owned (St (m_list s) (p_event s) (PWake (length (workers s))) (m_threadPool s ++ [length (workers s)])
    (workers s ++ [new_worker]) (adding s) (todo s) (taken s) (finished s)).
Proof.
  intros [He Hb Hn Hk Hf] Hpc. split; simpl; rewrite ?length_app; simpl.
  - intros n w [Hw|[_ Hw]]%lookup_app_Some; [by eapply He|].
    apply list_lookup_singleton_Some in Hw as [_ <-]. done.
  - intros n [Hin|Hin]%elem_of_app; [specialize (Hb _ Hin); lia|set_unfold in Hin; lia].
  - apply NoDup_app. split; [done|]. split; [|apply NoDup_singleton].
    intros n Hin. specialize (Hb _ Hin). set_unfold. lia.
  - intros n w [Hw|[Hle Hw]]%lookup_app_Some.
    + destruct (Hk _ _ Hw); [left; set_solver|by right].
    + apply list_lookup_singleton_Some in Hw as [Hz _]. left. set_unfold. right. lia.
  - set_solver.
Qed.

(** What a worker's turn leaves alone, and when its status is that of one that
    has left. *)
Lemma worker_step_frame late n s s' :
  worker_step late n s = Some s' →
  ∃ w w', workers s !! n = Some w ∧ workers s' = <[n := w']> (workers s) ∧
    m_threadPool s' = m_threadPool s ∧ p_pc s' = p_pc s ∧
    (owned s → m_status w' = TS_EXIT → w_pc w' = WDone).
Proof.
  unfold worker_step. intros (w & Hw & Hs)%bind_Some. exists w.
  assert (Hex : owned s → m_status w = TS_EXIT → w_pc w = WDone) by (intros Ho; by apply (ow_exit s Ho _ _ Hw)).
  destruct w as [e x st k pc]. unfold worker_wait, enter, resume in Hs. simpl in Hs, Hex.
  destruct pc; simpl in Hs; repeat case_match; simplify_option_eq;
    (eexists; do 4 (split; [done|]); intros Ho Hst; try done; by specialize (Hex Ho Hst)).
Qed.

(** Every step keeps this. *)
Lemma pool_step_owned late s s' : owned s → pool_step late s = Some s' → owned s'.
Proof.
  intros Ho Hs. unfold pool_step in Hs. destruct (p_pc s) as [| |i found|n] eqn:Epc.
  - unfold pool_wait, enter in Hs. rewrite Epc in Hs.
    destruct (State (p_event s)); injection Hs as <-; by apply owned_pc.
  - unfold pool_wait, resume in Hs. rewrite Epc in Hs.
    destruct late, (State (p_event s)); simpl in Hs; try done; injection Hs as <-; by apply owned_pc.
  - pose proof (ow_found s Ho) as Hf. rewrite Epc in Hf. destruct (m_threadPool s !! i) as [n|] eqn:Hi.
    + destruct (workers s !! n) as [w|] eqn:Hw; [|done]. destruct (m_status w) eqn:Hst; injection Hs as <-.
      * apply owned_pc; [done|]. exists i. split; [lia|done].
      * apply owned_pc; [done|]. destruct found as [m|]; [|done]. destruct Hf as (j & Hj & Hm).
        exists j. split; [lia|done].
      * by eapply owned_erase.
    + destruct found as [n|]; injection Hs as <-.
      * apply owned_pc; [done|]. destruct Hf as (j & _ & Hj). by eapply list_elem_of_lookup_2, Hj.
      * by eapply owned_new.
  - destruct (workers s !! n) as [w|] eqn:Hw; [|done]. injection Hs as <-. destruct w as [e x st k pc].
    eapply (owned_worker n _ (Wakeup (Worker e x st k pc)) s); try done; [by right|].
    intros Hst. exact (ow_exit s Ho _ _ Hw Hst).
Qed.

Lemma worker_step_owned late n s s' : owned s → worker_step late n s = Some s' → owned s'.
Proof.
  intros Ho Hs. assert (Hs0 := Hs). apply worker_step_frame in Hs0 as (w & w' & Hw & Hws & Hp & Hpc & Hst).
  eapply owned_worker; try done; [by left|intros; by apply Hst|].
  intros Hd. unfold worker_step in Hs. rewrite Hw in Hs. simpl in Hs. by rewrite Hd in Hs.
Qed.

Lemma run_owned l s s' : owned s → run l s = Some s' → owned s'.
Proof.
  revert s. induction l as [|a l IH]; intros s Ho Hr; simpl in Hr; [by injection Hr as <-|].
  apply bind_Some in Hr as (s1 & Hs & Hr). eapply IH; [|exact Hr].
  destruct a as [|late|late n]; [|by eapply pool_step_owned|by eapply worker_step_owned].
  simpl in Hs. unfold add_step in Hs. destruct Ho as [He Hb Hn Hk Hf].
  destruct (adding s); [|destruct (todo s); [done|]]; injection Hs as <-; by split.
Qed.

(** A step does not depend on a destroyed worker's storage, nor write to it. *)
Lemma set_worker_comm n m (v w : @CThreadWork T) s :
  n ≠ m → set_worker m v (set_worker n w s) = set_worker n w (set_worker m v s).
Proof. intros Hne. unfold set_worker. simpl. by rewrite list_insert_insert_ne. Qed.
Lemma pool_step_untouched late n (v : CThreadWork) s :
  destroyed n s → pool_step late (set_worker n v s) = set_worker n v <$> pool_step late s.
Proof.
  intros (Hlen & Hn & Hp). unfold pool_step, ptrThread in *. simpl.
  destruct (p_pc s) as [| |i found|m] eqn:Epc.
  - unfold pool_wait, enter. simpl. rewrite Epc. by destruct (State (p_event s)).
  - unfold pool_wait, resume. simpl. rewrite Epc. by destruct late, (State (p_event s)).
  - destruct (m_threadPool s !! i) as [m|] eqn:Hi.
    + assert (n ≠ m) by (intros ->; by eapply Hn, list_elem_of_lookup_2).
      rewrite list_lookup_insert_ne by done. destruct (workers s !! m) as [w|]; [|done]. by destruct (m_status w).
    + destruct found as [m|]; [done|]. simpl. by rewrite length_insert, <- insert_app_l.
  - assert (n ≠ m) by congruence. rewrite list_lookup_insert_ne by done.
    destruct (workers s !! m) as [w|]; [|done]. simpl. by rewrite <- set_worker_comm.
Qed.

Lemma worker_step_untouched late n m (v : CThreadWork) s :
  n ≠ m → worker_step late m (set_worker n v s) = set_worker n v <$> worker_step late m s.
Proof.
  intros Hne. unfold worker_step. simpl. rewrite list_lookup_insert_ne by done.
  destruct (workers s !! m) as [w|]; [|done]. simpl.
  destruct (w_pc w); simpl; try (destruct (Pop (m_list s)) as [[t|] q]; simpl);
    try (destruct (worker_wait _ w); simpl); try done;
    unfold set_worker; simpl; by rewrite list_insert_insert_ne.
Qed.

(** A destroyed worker stays so. *)
Lemma destroyed_step n a s s' : destroyed n s → step a s = Some s' → destroyed n s'.
Proof.
  intros (Hlen & Hn & Hp) Hs. destruct a as [|late|late m]; simpl in Hs.
  - unfold add_step in Hs. destruct (adding s); [|destruct (todo s); [done|]]; injection Hs as <-; done.
  - unfold pool_step in Hs. unfold destroyed, ptrThread in *. destruct (p_pc s) as [| |i found|m] eqn:Epc.
    + unfold pool_wait, enter in Hs. rewrite Epc in Hs. by destruct (State (p_event s)); injection Hs as <-.
    + unfold pool_wait, resume in Hs. rewrite Epc in Hs.
      destruct late, (State (p_event s)); simpl in Hs; try done; by injection Hs as <-.
    + destruct (m_threadPool s !! i) as [m|] eqn:Hi.
      * assert (n ≠ m) by (intros ->; by eapply Hn, list_elem_of_lookup_2).
        destruct (workers s !! m) as [w|]; [|done]. destruct (m_status w); injection Hs as <-; simpl.
        -- split; [done|]. split; [done|congruence].
        -- done.
        -- split; [done|]. split; [|done]. intros Hin. apply Hn.
           eapply elem_of_submseteq; [exact Hin|apply sublist_submseteq, sublist_delete].
      * destruct found as [m|]; injection Hs as <-; simpl; [done|]. rewrite length_app. simpl.
        split; [lia|]. split; [|intros [= ?]; lia].
        intros [Hin|Hin]%elem_of_app; [done|]. apply list_elem_of_singleton in Hin. lia.
    + destruct (workers s !! m) as [w|]; [|done]. injection Hs as <-. simpl. by rewrite length_insert.
  - apply worker_step_frame in Hs as (w & w' & Hw & Hws & Hpl & Hpc & _).
    unfold destroyed, ptrThread in *. by rewrite Hws, Hpl, Hpc, length_insert.
Qed.

(** A worker that is told to leave does, after at most one more task and one
    more wait. *)
Theorem exit_leaves (n : nat) (s : state) (w : CThreadWork) :
  workers s !! n = Some w → w_pc w ≠ WDone →
  ∃ k s' w', (k ≤ 6)%nat ∧ run (replicate k (WorkThread true n)) (set_worker n (Exit w) s) = Some s' ∧
    workers s' !! n = Some w' ∧ w_pc w' = WDone ∧ m_status w' = TS_EXIT ∧
    (length (taken s') ≤ S (length (taken s)))%nat.
Proof.
  intros Hw Hpc. assert (Hi : (n < length (workers s))%nat) by by eapply lookup_lt_Some.
  destruct w as [[ar st] x ms k pc], s as [q pe pp tp ws ad td tk fi]. simpl in *.
  assert (Hset : ∀ v : CThreadWork, <[n := v]> ws !! n = Some v) by (intros v; by apply list_lookup_insert_eq).
  set (steps := match pc with
                | WTop => 2 | WPop => match q with [] => if st then 5 else 6 | _ => 4 end
                | WMark => if st then 4 else 5 | WEnter => if st then 3 else 4
                | WBlocked | WHandle _ => 3 | _ => 1 end%nat).
  exists steps. unfold steps. destruct pc; simpl; try done; try destruct st; try destruct q as [|t q];
    unfold set_worker; simpl; unfold worker_step; simpl;
    repeat (rewrite ?Hset, ?list_insert_insert_eq; simpl; unfold worker_wait, resume, enter; simpl);
    eexists _, _; (split; [lia|]); (split; [reflexivity|]); simpl; rewrite ?list_insert_insert_eq, Hset;
    split_and!; try reflexivity; rewrite ?length_app; simpl; lia.
Qed.

(** C22: A worker is destroyed, and its event with it, only when its thread has
    returned; from then on nothing any thread does reads its storage or
    writes to it, and it is not destroyed a second time. *)
Theorem destroyed_unused (tasks : list T) (l : list actor) (s : state) (n : nat) :
  run l (start tasks) = Some s → destroyed n s →
  (∃ w, workers s !! n = Some w ∧ w_pc w = WDone) ∧
  ∀ a, (∀ late, step (WorkThread late n) s = None) ∧
    (∀ s', step a s = Some s' → destroyed n s') ∧
    (∀ v, (∀ late, a ≠ WorkThread late n) → step a (set_worker n v s) = set_worker n v <$> step a s).
Proof.
  intros Hr Hd. assert (Ho : owned s) by (eapply run_owned; [apply start_owned|exact Hr]).
  assert (Hw : ∃ w, workers s !! n = Some w ∧ w_pc w = WDone).
  { destruct Hd as (Hlen & Hn & _). destruct (lookup_lt_is_Some_2 _ _ Hlen) as [w Hw]. exists w.
    split; [done|]. by destruct (ow_kept s Ho _ _ Hw). }
  split; [done|]. intros a. split; [|split].
  - intros late. destruct Hw as (w & Hw & Hpc). simpl. unfold worker_step. rewrite Hw. simpl. by rewrite Hpc.
  - intros s'. by apply destroyed_step.
  - intros v Ha. destruct a as [|late|late m]; simpl.
    + unfold add_step. simpl. destruct (adding s); [done|]. by destruct (todo s).
    + by apply pool_step_untouched.
    + apply worker_step_untouched. intros ->. by apply (Ha late).
Qed.
End Destroyed.

End Pool.
