(* ===== verification/PoolExit.v ===== *)
(** The destructor of [CThreadPool] ([TEADFS-utils/thread_pool.h]), interleaved
    with the threads of the pool, all of which are detached.

    [~CThreadPool] sets [m_bExit] and destroys the event; then the members go:
    the list of workers, whose elements are destroyed with it, and the queue of
    tasks last.  An access to what is no longer there is a [Fault]. *)
From S2P Require Import Prelude ThreadPool.
Import Event Pool.
Local Open Scope Z_scope.

Module PoolExit.
Section PoolExit.
Context {T : Type}.

(** * State *)

(** Where the destructor is: not called, after [m_bExit = true], after
    [DestroyEvent], in the destructor of [m_threadPool], in that of a worker,
    which was told to leave or whose event is gone, too, and finished. *)
Inductive dtor_pc :=
  | NotCalled | Told | EventGone | Unwind | WorkerTold (n : nat) | WorkerEvent (n : nat) | Finished.
(** Where the pool's thread is: at the condition of its loop, in its body
    ([p_pc]), or returned. *)
Inductive loop_pc := AtHead | InLoop | Left.

(** [freed]: the workers whose storage is gone while their threads may not be. *)
Record pool_object := Object {
  inner : Pool.state (T := T);
  p_bExit : bool;
  loop : loop_pc;
  dtor : dtor_pc;
  freed : gset nat;
}.
Implicit Types o : pool_object.

(** The constructor. *)
Definition CThreadPool (tasks : list T) : pool_object := Object (Pool.start tasks) false AtHead NotCalled ∅.

Definition set_inner (s : Pool.state (T := T)) o : pool_object := Object s (p_bExit o) (loop o) (dtor o) (freed o).
Definition set_loop (l : loop_pc) o : pool_object := Object (inner o) (p_bExit o) l (dtor o) (freed o).
Definition set_dtor (d : dtor_pc) o : pool_object := Object (inner o) (p_bExit o) (loop o) d (freed o).
Definition free_worker (n : nat) o : pool_object :=
  Object (inner o) (p_bExit o) (loop o) (dtor o) ({[n]} ∪ freed o).
Definition set_list (l : list nat) (s : Pool.state (T := T)) : Pool.state :=
  Pool.St (m_list s) (p_event s) (p_pc s) l (workers s) (adding s) (todo s) (taken s) (finished s).

(** What is there. *)
Definition event_there o : bool := match dtor o with NotCalled | Told => true | _ => false end.
Definition list_there o : bool := match dtor o with NotCalled | Told | EventGone => true | _ => false end.
Definition object_there o : bool := match dtor o with Finished => false | _ => true end.
Definition worker_there (n : nat) o : bool := bool_decide (n ∉ freed o).
Definition worker_event_there (n : nat) o : bool :=
  worker_there n o && match dtor o with WorkerEvent m => negb (n =? m)%nat | _ => true end.

(** * Turns *)
Inductive outcome := Next (o : pool_object) | Stuck | Fault.
Definition if_there (there : bool) (r : outcome) : outcome := if there then r else Fault.
Definition lift (f : Pool.state → pool_object) (s : option (Pool.state (T := T))) : outcome :=
  match s with Some s => Next (f s) | None => Stuck end.

(** [~CThreadPool].  A worker that the pool's thread holds, too, only leaves
    the list. *)
Definition destroy o : outcome :=
  match dtor o with
  | NotCalled => Next (Object (inner o) true (loop o) Told (freed o))
  | Told => Next (set_dtor EventGone o)
  | EventGone => Next (set_dtor Unwind o)
  | Unwind =>
    match m_threadPool (inner o) with
    | [] => Next (set_dtor Finished o)
    | n :: ns =>
      let o := set_inner (set_list ns (inner o)) o in
      if decide (ptrThread (inner o) = Some n) then Next o
      else match workers (inner o) !! n with
           | Some w => Next (set_dtor (WorkerTold n) (set_inner (set_worker n (Exit w) (inner o)) o))
           | None => Stuck
           end
    end
  | WorkerTold n => Next (set_dtor (WorkerEvent n) o)
  | WorkerEvent n => Next (set_dtor Unwind (free_worker n o))
  | Finished => Stuck
  end.

(** [AddTask]. *)
Definition add o : outcome :=
  if_there (if adding (inner o) then event_there o else object_there o)
    (lift (λ s, set_inner s o) (add_step (inner o))).

(** [CThreadPool::Runnable].  At the end of a turn of the loop [ptrThread] goes,
    and its worker when it was the last to hold it. *)
Definition after_body (s : Pool.state (T := T)) o : pool_object :=
  set_inner s (set_loop (match p_pc s with PEnter => AtHead | _ => InLoop end) o).
Definition drop_ptrThread (n : nat) o : pool_object :=
  if decide (n ∈ m_threadPool (inner o)) then o else free_worker n o.
Definition pool_turn (late : bool) o : outcome :=
  match loop o with
  | Left => Stuck
  | AtHead => if_there (object_there o) (Next (set_loop (if p_bExit o then Left else InLoop) o))
  | InLoop =>
    let r := lift (λ s, after_body s o) (pool_step late (inner o)) in
    match p_pc (inner o) with
    | PEnter | PBlocked => if_there (event_there o) r
    | PScan _ _ => if_there (list_there o) r
    | PWake n => match r with Next o => Next (drop_ptrThread n o) | r => r end
    end
  end.

(** [CThreadWork::Runnable]: every turn but the handler's looks at the worker,
    a wait at its event, [Pop] at the pool's queue. *)
Definition work_turn (late : bool) (n : nat) o : outcome :=
  let r := lift (λ s, set_inner s o) (worker_step late n (inner o)) in
  match w_pc <$> workers (inner o) !! n with
  | Some (WHandle _ | WDone) | None => r
  | Some (WEnter | WBlocked) => if_there (worker_event_there n o) r
  | Some WPop => if_there (worker_there n o && object_there o) r
  | Some _ => if_there (worker_there n o) r
  end.

Inductive turn := AddTurn | PoolTurn (late : bool) | WorkTurn (late : bool) (n : nat) | DestroyTurn.
Definition take_turn (t : turn) o : outcome :=
  match t with
  | AddTurn => add o
  | PoolTurn late => pool_turn late o
  | WorkTurn late n => work_turn late n o
  | DestroyTurn => destroy o
  end.
Fixpoint take_turns (ts : list turn) o : outcome :=
  match ts with
  | [] => Next o
  | t :: ts => match take_turn t o with Next o => take_turns ts o | r => r end
  end.

(** * Before the members go *)

(** While the list is there, the pool is as [ThreadPool] has it: the turns are
    steps of it. *)
Definition actor_of (t : turn) : list actor :=
  match t with
  | AddTurn => [Adder] | PoolTurn late => [PoolThread late] | WorkTurn late n => [WorkThread late n]
  | DestroyTurn => []
  end.

Lemma lift_Next f s o : lift f s = Next o → ∃ s', s = Some s' ∧ o = f s'.
Proof. destruct s; simpl; [|done]. intros [= <-]. eauto. Qed.
Lemma if_there_Next b r o : if_there b r = Next o → b = true ∧ r = Next o.
Proof. by destruct b. Qed.

(** A turn that is one of a thread of the pool is a step of [ThreadPool] ... *)
Lemma add_inner o o' : add o = Next o' → ∃ s, step Adder (inner o) = Some s ∧ o' = set_inner s o.
Proof. intros [_ (s & Hs & ->)%lift_Next]%if_there_Next. eauto. Qed.
Lemma work_inner late n o o' :
  work_turn late n o = Next o' → ∃ s, worker_step late n (inner o) = Some s ∧ o' = set_inner s o.
Proof.
  unfold work_turn. intros Hr.
  assert (Hl : lift (λ s, set_inner s o) (worker_step late n (inner o)) = Next o').
  { destruct (w_pc <$> _) as [[]|]; simpl in Hr; try done; by apply if_there_Next in Hr as [_ Hr]. }
  apply lift_Next in Hl as (s & Hs & ->). eauto.
Qed.
(** ... and one of the pool's thread, too, or a look at [m_bExit]. *)
Lemma pool_inner late o o' :
  pool_turn late o = Next o' →
  (loop o = AtHead ∧ object_there o = true ∧ o' = set_loop (if p_bExit o then Left else InLoop) o) ∨
  (loop o = InLoop ∧ ∃ s, pool_step late (inner o) = Some s ∧
    (list_there o = true ∧ o' = after_body s o ∨
     ∃ n, p_pc (inner o) = PWake n ∧ o' = drop_ptrThread n (after_body s o))).
Proof.
  unfold pool_turn. destruct (loop o); [| |done].
  - intros [Ho [= <-]]%if_there_Next. by left.
  - intros Hr. right. split; [done|].
    assert (He : event_there o = true → list_there o = true) by (unfold event_there, list_there; by destruct (dtor o)).
    destruct (p_pc (inner o)) as [| | |n] eqn:Epc; simpl in Hr.
    1-3: apply if_there_Next in Hr as [Hb (s & Hs & ->)%lift_Next]; exists s; eauto.
    destruct (lift _ _) as [o1| |] eqn:El; [|done|done]. injection Hr as <-.
    apply lift_Next in El as (s & Hs & ->). exists s. split; [done|]. right. eauto.
Qed.

(** * Who holds the workers *)

(** Once the list is going: a worker whose thread has not returned is still in
    it, held by the pool's thread, being destroyed, or freed. *)
Definition guarded (n : nat) o : Prop :=
  n ∈ m_threadPool (inner o) ∨ ptrThread (inner o) = Some n ∨ n ∈ freed o ∨
  dtor o = WorkerTold n ∨ dtor o = WorkerEvent n.
Record winding o : Prop := {
  wd_bound : ∀ n, n ∈ m_threadPool (inner o) → (n < length (workers (inner o)))%nat;
  wd_found : ∀ n, p_pc (inner o) = PWake n → (n < length (workers (inner o)))%nat;
  wd_kept : ∀ n w, workers (inner o) !! n = Some w → w_pc w = WDone ∨ guarded n o;
  wd_empty : dtor o = Finished → m_threadPool (inner o) = [];
}.
(** What always holds. *)
Record held o : Prop := {
  hd_loop : loop o ≠ InLoop → p_pc (inner o) = PEnter;
  hd_exit : p_bExit o = match dtor o with NotCalled => false | _ => true end;
  hd_freed : list_there o = true → freed o = ∅;
  hd_workers : if list_there o then owned (inner o) else winding o;
}.

(** A turn that moves workers on, from hand to hand, and keeps all of them. *)
Lemma winding_move o o' :
  winding o → (∀ n, n ∈ m_threadPool (inner o') → n ∈ m_threadPool (inner o)) →
  p_pc (inner o') = p_pc (inner o) ∨ p_pc (inner o') = PEnter →
  length (workers (inner o')) = length (workers (inner o)) →
  (∀ n w', workers (inner o') !! n = Some w' →
     ∃ w, workers (inner o) !! n = Some w ∧ (w_pc w = WDone → w_pc w' = WDone)) →
  (∀ n, guarded n o → guarded n o') → (dtor o' = Finished → m_threadPool (inner o') = []) → winding o'.
Proof.
  intros [Hb Hf Hk He] Hl Hpc Hlen Hw Hg Hfin. split; rewrite ?Hlen; auto.
  - intros n Hn. destruct Hpc as [E|E]; rewrite E in Hn; [auto|done].
  - intros n w' Hn. destruct (Hw _ _ Hn) as (w & Hn' & Hd). destruct (Hk _ _ Hn'); auto.
Qed.
Lemma insert_keeps (n : nat) (w w' : CThreadWork (T := T)) (ws : list CThreadWork) (m : nat) v :
  ws !! n = Some w → (w_pc w = WDone → w_pc w' = WDone) → <[n := w']> ws !! m = Some v →
  ∃ u, ws !! m = Some u ∧ (w_pc u = WDone → w_pc v = WDone).
Proof. intros Hn Hd. rewrite list_lookup_insert_Some. intros [(<- & <- & _)|[_ Hm]]; eauto. Qed.

Lemma held_work late n o s : held o → worker_step late n (inner o) = Some s → held (set_inner s o).
Proof.
  intros [Hl Hx Hfr Hw] Hs. assert (Hs0 := Hs). apply worker_step_frame in Hs0 as (w & w' & Hi & Hws & Hp & Hpc & _).
  split; [simpl; by rewrite Hpc|done|done|]. change (list_there (set_inner s o)) with (list_there o).
  destruct (list_there o); [by eapply worker_step_owned|].
  apply (winding_move o); unfold guarded, ptrThread; simpl; rewrite ?Hp, ?Hpc, ?Hws, ?length_insert; auto using wd_empty.
  intros m v. apply insert_keeps with w; [done|]. intros Hd. unfold worker_step in Hs. rewrite Hi in Hs. simpl in Hs.
  by rewrite Hd in Hs.
Qed.

Lemma held_add o s : held o → step Adder (inner o) = Some s → held (set_inner s o).
Proof.
  intros [Hl Hx Hfr Hw] Hs. simpl in Hs. unfold add_step in Hs.
  assert (Hsame : p_pc s = p_pc (inner o) ∧ m_threadPool s = m_threadPool (inner o) ∧ workers s = workers (inner o)).
  { destruct (adding (inner o)); [|destruct (todo (inner o)); [done|]]; by injection Hs as <-. }
  destruct Hsame as (Epc & El & Ew). split; [simpl; by rewrite Epc|done|done|].
  change (list_there (set_inner s o)) with (list_there o). destruct (list_there o).
  - destruct Hw as [H1 H2 H3 H4 H5]. split; simpl; rewrite ?Ew, ?El, ?Epc; done.
  - apply (winding_move o); unfold guarded, ptrThread; simpl; rewrite ?Ew, ?El, ?Epc; eauto using wd_empty.
Qed.

(** The end of a turn of the loop, when the list is going. *)
Lemma winding_wake late n s o :
  winding o → p_pc (inner o) = PWake n → pool_step late (inner o) = Some s →
  winding (drop_ptrThread n (after_body s o)) ∧ p_pc s = PEnter.
Proof.
  intros Hwd Hpc Hs. unfold pool_step in Hs. rewrite Hpc in Hs.
  destruct (workers (inner o) !! n) as [w|] eqn:Hw; [|done]. injection Hs as <-. split; [|done].
  assert (Hk : ∀ m v, <[n := Wakeup w]> (workers (inner o)) !! m = Some v →
    ∃ u, workers (inner o) !! m = Some u ∧ (w_pc u = WDone → w_pc v = WDone)).
  { intros m v. by apply insert_keeps with w. }
  pose proof (wd_empty _ Hwd) as He. unfold drop_ptrThread. simpl. destruct (decide _) as [Hn|Hn];
    (apply (winding_move o); unfold guarded, ptrThread; simpl; rewrite ?Hpc, ?length_insert; auto; intros m).
  - intros [?|[[= ->]|?]]; auto.
  - rewrite elem_of_union, elem_of_singleton. intros [?|[[= ->]|[?|?]]]; auto.
Qed.

Lemma held_pool late o o' : held o → pool_turn late o = Next o' → held o'.
Proof.
  intros [Hl Hx Hfr Hw] Hr.
  apply pool_inner in Hr as [(Hlo & Ho & ->)|(Hlo & s & Hs & Hc)].
  - split; simpl; [intros _; apply Hl; by rewrite Hlo|done|exact Hfr|].
    unfold list_there in *. simpl. by destruct (dtor o); try exact Hw; destruct Hw.
  - destruct (list_there o) eqn:El.
    + assert (Ho : owned s) by by eapply pool_step_owned.
      assert (E : o' = after_body s o).
      { destruct Hc as [[_ ->]|(n & Hpc & ->)]; [done|]. unfold drop_ptrThread. simpl. rewrite decide_True; [done|].
        pose proof (ow_found _ Hw) as Hf. rewrite Hpc in Hf. unfold pool_step in Hs. rewrite Hpc in Hs.
        destruct (workers _ !! n); [|done]. by injection Hs as <-. }
      rewrite E. split; simpl; [|done|intros _; by apply Hfr|].
      * by destruct (p_pc s).
      * change (list_there (after_body s o)) with (list_there o). by rewrite El.
    + destruct Hc as [[? _]|(n & Hpc & ->)]; [done|].
      destruct (winding_wake late n s o) as [Hw' Hs']; try done.
      split; unfold drop_ptrThread in *; simpl in *; destruct (decide _); simpl; try done;
        unfold list_there in *; simpl; by rewrite El.
Qed.

Lemma held_destroy o o' : held o → destroy o = Next o' → held o'.
Proof.
  intros [Hl Hx Hfr Hw] Hr. unfold destroy in Hr. unfold list_there in Hw, Hfr.
  destruct (dtor o) as [| | | |n|n|] eqn:Ed; try done.
  - injection Hr as <-. by split.
  - injection Hr as <-. by split.
  - injection Hr as <-. split; simpl; try done. destruct Hw as [He Hb Hn Hk Hf]. split; simpl; try done.
    + intros n Hpc. rewrite Hpc in Hf. by apply Hb.
    + intros n w Hn'. unfold guarded. simpl. destruct (Hk _ _ Hn'); auto.
  - destruct (m_threadPool (inner o)) as [|n ns] eqn:Em.
    + injection Hr as <-. split; simpl; try done. apply (winding_move o); simpl; rewrite ?Em; eauto.
      intros n. unfold guarded. simpl. rewrite Ed. intros [?|[?|[?|[?|?]]]]; auto; discriminate.
    + assert (Hin : ∀ m, m ∈ ns → m ∈ n :: ns) by (intros; by right).
      destruct (decide _) as [Hp|Hp].
      * injection Hr as <-. split; simpl; [done|by rewrite Ed|unfold list_there; simpl; by rewrite Ed|]. unfold list_there. simpl. rewrite Ed.
        apply (winding_move o); simpl; rewrite ?Em, ?Ed; eauto; [|done].
        intros m. unfold guarded, ptrThread in *. simpl. rewrite Em, elem_of_cons. intros [[->|?]|?]; auto.
      * simpl in Hr. destruct (workers (inner o) !! n) as [w|] eqn:Hn; [|done]. injection Hr as <-. split; simpl; try done.
        apply (winding_move o); simpl; rewrite ?Em, ?length_insert; eauto; [..|done].
        -- intros m v. by apply insert_keeps with w.
        -- intros m. unfold guarded, ptrThread in *. simpl. rewrite Em, elem_of_cons, Ed.
           intros [[->|?]|[?|[?|[?|?]]]]; auto; discriminate.
  - injection Hr as <-. split; simpl; try done. apply (winding_move o); simpl; eauto; [|done].
    intros m. unfold guarded, ptrThread. simpl. rewrite Ed. intros [?|[?|[?|[[= ->]|?]]]]; auto; discriminate.
  - injection Hr as <-. split; simpl; try done. apply (winding_move o); simpl; eauto; [|done].
    intros m. unfold guarded, ptrThread. simpl. rewrite Ed, elem_of_union, elem_of_singleton.
    intros [?|[?|[?|[?|[= ->]]]]]; auto; discriminate.
Qed.

Lemma held_turns ts o o' : held o → take_turns ts o = Next o' → held o'.
Proof.
  revert o. induction ts as [|t ts IH]; intros o Hh Hr; simpl in Hr; [by injection Hr as <-|].
  destruct (take_turn t o) as [o1| |] eqn:Et; [|done..]. eapply IH; [|exact Hr]. destruct t as [|late|late n|]; simpl in Et.
  - apply add_inner in Et as (s & Hs & ->). by apply held_add.
  - by eapply held_pool.
  - apply work_inner in Et as (s & Hs & ->). by eapply held_work.
  - by apply held_destroy in Et.
Qed.
Lemma start_held tasks : held (CThreadPool tasks).
Proof. split; try done. apply start_owned. Qed.

(** * When the destructor is safe *)

(** Every thread of the pool has returned. *)
Definition quiet o : Prop := loop o = Left ∧ Forall (λ w, w_pc w = WDone) (workers (inner o)).
(** Nobody adds a task to a pool that is destroyed. *)
Definition own (t : turn) : Prop := t ≠ AddTurn.

Lemma quiet_stuck t o : quiet o → dtor o = Finished → own t → take_turn t o = Stuck.
Proof.
  intros [Hl Hw] Hd Ht. destruct t as [|late|late n|]; simpl; [done| | |].
  - unfold pool_turn. by rewrite Hl.
  - unfold work_turn, worker_step. destruct (workers (inner o) !! n) as [w|] eqn:Hn; [|done]. simpl.
    rewrite Forall_lookup in Hw. by rewrite (Hw _ _ Hn).
  - unfold destroy. by rewrite Hd.
Qed.

(** A worker that is still running, and whose storage is gone. *)
Lemma freed_faults n w o :
  workers (inner o) !! n = Some w → w_pc w ≠ WDone → n ∈ freed o →
  take_turns [WorkTurn false n] o = Fault ∨ take_turns [WorkTurn false n; WorkTurn false n] o = Fault.
Proof.
  intros Hn Hw Hf.
  assert (Hg : ∀ o' : pool_object, freed o' = freed o → worker_there n o' = false ∧ worker_event_there n o' = false).
  { intros o' E. unfold worker_event_there, worker_there. rewrite E. by rewrite bool_decide_eq_false_2 by auto. }
  simpl. unfold work_turn at 1 2, worker_step. rewrite Hn. simpl. destruct (Hg o eq_refl) as [E1 E2].
  destruct (w_pc w) eqn:Epc; simpl; rewrite ?E1, ?E2; simpl; auto; [|done].
  right. unfold work_turn. simpl. rewrite list_lookup_insert_eq by (by eapply lookup_lt_Some). simpl.
  by rewrite (proj1 (Hg (set_inner _ o) eq_refl)).
Qed.

Lemma late_faults o :
  held o → dtor o = Finished → ¬ quiet o → ∃ ts, (length ts ≤ 2)%nat ∧ Forall own ts ∧ take_turns ts o = Fault.
Proof.
  intros [Hl _ _ Hw] Hd Hq. unfold list_there in Hw. rewrite Hd in Hw.
  destruct (loop o) eqn:Elo.
  - exists [PoolTurn false]. split_and!; [simpl; lia|by repeat constructor|].
    simpl. unfold pool_turn, object_there. by rewrite Elo, Hd.
  - destruct (p_pc (inner o)) as [| | |n] eqn:Epc.
    1-3: exists [PoolTurn false]; split_and!; [simpl; lia|by repeat constructor|];
      simpl; unfold pool_turn, event_there, list_there; by rewrite Elo, Epc, Hd.
    exists [PoolTurn false; PoolTurn false]. split_and!; [simpl; lia|by repeat constructor|].
    destruct (lookup_lt_is_Some_2 _ _ (wd_found _ Hw _ Epc)) as [w Hn].
    simpl. unfold pool_turn at 1. rewrite Elo, Epc. unfold pool_step. rewrite Epc, Hn. simpl.
    unfold drop_ptrThread, pool_turn, object_there. destruct (decide _); simpl; by rewrite Hd.
  - assert (Hx : ∃ n w, workers (inner o) !! n = Some w ∧ w_pc w ≠ WDone).
    { assert (Hdec : ∀ w : CThreadWork (T := T), Decision (w_pc w = WDone)) by (intros []; destruct w_pc; (left; done) || (right; done)).
      destruct (decide (Forall (λ w, w_pc w = WDone) (workers (inner o)))) as [|Hf]; [by destruct Hq|].
      apply not_Forall_Exists in Hf; [|exact _]. apply Exists_exists in Hf as (w & Hin & Hw').
      apply list_elem_of_lookup_1 in Hin as [n Hn]. by exists n, w. }
    destruct Hx as (n & w & Hn & Hnd).
    assert (Hf : n ∈ freed o).
    { destruct (wd_kept _ Hw _ _ Hn) as [|Hg]; [done|]. unfold guarded, ptrThread in Hg.
      rewrite (wd_empty _ Hw Hd), Hd, (Hl ltac:(done)) in Hg.
      destruct Hg as [Hg|[?|[?|[?|?]]]]; try done. by apply not_elem_of_nil in Hg. }
    destruct (freed_faults n w o Hn Hnd Hf) as [Hr|Hr]; (eexists; split_and!; [..|exact Hr]; [simpl; lia|by repeat constructor]).
Qed.

(** C23: The destructor of the pool is safe exactly when every thread of the pool
    has returned by the end of it: then no thread has a turn left; otherwise one
    of them accesses storage that is gone, in two turns. *)
Theorem destructor_safe_iff (tasks : list T) (ts : list turn) o :
  take_turns ts (CThreadPool tasks) = Next o → dtor o = Finished →
  (quiet o → ∀ t, own t → take_turn t o = Stuck) ∧
  (¬ quiet o → ∃ ts', (length ts' ≤ 2)%nat ∧ Forall own ts' ∧ take_turns ts' o = Fault).
Proof.
  intros Hr Hd. split.
  - intros Hq t Ht. by apply quiet_stuck.
  - apply late_faults; [|done]. eapply held_turns; [apply start_held|exact Hr].
Qed.

(** Before [DestroyEvent] nobody accesses what is gone. *)
Theorem told_safe (tasks : list T) (ts : list turn) (t : turn) o :
  take_turns ts (CThreadPool tasks) = Next o → dtor o = NotCalled ∨ dtor o = Told → take_turn t o ≠ Fault.
Proof.
  intros Hr Hd. assert (Hh : held o) by (eapply held_turns; [apply start_held|exact Hr]).
  assert (Hf : freed o = ∅) by (apply (hd_freed _ Hh); unfold list_there; by destruct Hd as [-> | ->]).
  assert (Ht : event_there o = true ∧ list_there o = true ∧ object_there o = true ∧
    ∀ n, worker_there n o = true ∧ worker_event_there n o = true).
  { unfold event_there, list_there, object_there, worker_event_there, worker_there. rewrite Hf.
    split_and!; [by destruct Hd as [-> | ->]..|]. intros n.
    rewrite bool_decide_eq_true_2 by set_solver. by destruct Hd as [-> | ->]. }
  destruct Ht as (He & Hli & Ho & Hn).
  assert (Hlift : ∀ f s, lift f s ≠ Fault) by (by intros f []).
  destruct t as [|late|late n|]; simpl.
  - unfold add. rewrite He, Ho. destruct (adding _); apply Hlift.
  - unfold pool_turn. rewrite He, Hli, Ho. destruct (loop o); [done| |done].
    destruct (p_pc (inner o)); simpl; try apply Hlift. by destruct (lift _ _) eqn:E; [|done|apply Hlift in E].
  - unfold work_turn. destruct (Hn n) as [-> ->]. rewrite Ho. destruct (w_pc <$> _) as [[]|]; apply Hlift.
  - unfold destroy. by destruct Hd as [-> | ->].
Qed.

(** Until the list goes, a run is one of [ThreadPool]. *)
Lemma turn_early t o o' :
  take_turn t o = Next o' → list_there o' = true →
  list_there o = true ∧ (held o → ∃ l, Pool.run l (inner o) = Some (inner o')).
Proof.
  intros Ht He. destruct t as [|late|late n|]; simpl in Ht.
  - apply add_inner in Ht as (s & Hs & ->). split; [done|]. intros _. exists [Adder]. simpl.
    simpl in Hs. by rewrite Hs.
  - apply pool_inner in Ht as [(_ & _ & ->)|(_ & s & Hs & [[_ ->]|(n & Hpc & ->)])].
    + split; [done|]. intros _. by exists [].
    + split; [done|]. intros _. exists [PoolThread late]. simpl. by rewrite Hs.
    + unfold drop_ptrThread in *. simpl in *.
      assert (list_there o = true) by by destruct (decide _). split; [done|]. intros _.
      exists [PoolThread late]. simpl. rewrite Hs. simpl. by destruct (decide _).
  - apply work_inner in Ht as (s & Hs & ->). split; [done|]. intros _. exists [WorkThread late n]. simpl. by rewrite Hs.
  - unfold destroy in Ht. unfold list_there in *.
    destruct (dtor o) eqn:Ed; repeat case_match; simplify_eq; simpl in *; rewrite ?Ed in *; try done;
      (split; [done|]; intros _; by exists []).
Qed.
Lemma run_trans l1 l2 (s s1 : Pool.state (T := T)) : Pool.run l1 s = Some s1 → Pool.run (l1 ++ l2) s = Pool.run l2 s1.
Proof.
  revert s. induction l1 as [|a l1 IH]; intros s Hr; simpl in *; [by simplify_eq|].
  apply bind_Some in Hr as (s' & -> & Hr). simpl. by apply IH.
Qed.
Lemma turns_early ts o o' :
  held o → take_turns ts o = Next o' → list_there o' = true →
  list_there o = true ∧ ∃ l, Pool.run l (inner o) = Some (inner o').
Proof.
  revert o. induction ts as [|t ts IH]; intros o Hh Hr He; simpl in Hr.
  { injection Hr as <-. split; [done|]. by exists []. }
  destruct (take_turn t o) as [o1| |] eqn:Et; [|done..].
  assert (Hh1 : held o1) by (eapply (held_turns [t]); [exact Hh|simpl; by rewrite Et]).
  destruct (IH _ Hh1 Hr He) as [He1 [l2 Hl2]]. destruct (turn_early _ _ _ Et He1) as [He0 Hl].
  destruct (Hl Hh) as [l1 Hl1]. split; [done|]. exists (l1 ++ l2). by rewrite (run_trans _ _ _ _ Hl1).
Qed.
Theorem early_is_pool (tasks : list T) (ts : list turn) o :
  take_turns ts (CThreadPool tasks) = Next o → list_there o = true →
  ∃ l, Pool.run l (Pool.start tasks) = Some (inner o).
Proof. intros Hr He. by apply (turns_early ts (CThreadPool tasks)); [apply start_held|..]. Qed.

(** * How long the pool's thread takes *)

(** The turns left of the loop's body, when the wait times out. *)
Definition body_left (s : Pool.state (T := T)) : nat :=
  match p_pc s with
  | PEnter => length (m_threadPool s) + 3
  | PBlocked => 1
  | PScan i _ => length (m_threadPool s) - i + 2
  | PWake _ => 1
  end.

(** A turn of the body, by the pool's thread alone. *)
Lemma body_turn o :
  held o → dtor o = Told → loop o = InLoop →
  ∃ o', pool_turn true o = Next o' ∧ dtor o' = Told ∧
    (loop o' = AtHead ∨ loop o' = InLoop ∧ (body_left (inner o') < body_left (inner o))%nat).
Proof.
  intros [Hl Hx Hfr Hw] Hd Hlo. unfold list_there in Hw. rewrite Hd in Hw.
  unfold pool_turn, event_there, list_there, body_left. rewrite Hlo, Hd. unfold pool_step.
  pose proof (ow_found _ Hw) as Hf. destruct (p_pc (inner o)) as [| |i found|n] eqn:Epc; simpl.
  - unfold pool_wait, enter. rewrite Epc.
    destruct (State (p_event (inner o))); (eexists; split; [done|]; split; [done|]; right; split; [done|]); simpl; lia.
  - eexists. split; [done|]. split; [done|]. by left.
  - destruct (m_threadPool (inner o) !! i) as [n|] eqn:Hi.
    + assert (Hlt := lookup_lt_Some _ _ _ Hi).
      destruct (lookup_lt_is_Some_2 _ _ (ow_bound _ Hw _ (list_elem_of_lookup_2 _ _ _ Hi))) as [w Hn]. rewrite Hn.
      destruct (m_status w); (eexists; split; [done|]; split; [done|]; right; split; [done|]); simpl; try lia.
      rewrite length_delete by (by eexists). lia.
    + destruct found; (eexists; split; [done|]; split; [done|]; right; split; [done|]); simpl; lia.
  - destruct (lookup_lt_is_Some_2 _ _ (ow_bound _ Hw _ Hf)) as [w Hn]. rewrite Hn. simpl.
    unfold drop_ptrThread. simpl. rewrite decide_True by done. eexists. split; [done|]. split; [done|]. by left.
Qed.

(** Told to leave, the pool's thread does: its wait ends, it looks at each of
    its workers and wakes one up at most, and returns. *)
Theorem told_leaves o :
  held o → dtor o = Told → loop o ≠ Left →
  ∃ k o', (k ≤ length (m_threadPool (inner o)) + 4)%nat ∧
    take_turns (replicate k (PoolTurn true)) o = Next o' ∧ loop o' = Left.
Proof.
  intros Hh Hd Hlo.
  assert (Hleft : ∀ o, held o → dtor o = Told → loop o = AtHead →
    ∃ o', take_turn (PoolTurn true) o = Next o' ∧ loop o' = Left).
  { intros o1 Hh1 Hd1 Hlo1. simpl. unfold pool_turn, object_there. rewrite Hlo1, Hd1, (hd_exit _ Hh1), Hd1.
    simpl. eauto. }
  assert (Hbody : ∀ m o, held o → dtor o = Told → loop o = InLoop → (body_left (inner o) < m)%nat →
    ∃ k o', (k ≤ m)%nat ∧ take_turns (replicate k (PoolTurn true)) o = Next o' ∧ loop o' = Left).
  { induction m as [|m IH]; intros o1 Hh1 Hd1 Hlo1 Hm; [lia|].
    destruct (body_turn o1 Hh1 Hd1 Hlo1) as (o2 & Ht & Hd2 & Hc).
    assert (Hh2 : held o2) by by eapply held_pool.
    destruct Hc as [Hlo2|[Hlo2 Hlt]].
    - destruct (Hleft o2 Hh2 Hd2 Hlo2) as (o3 & Ht3 & Hlo3). exists 2%nat, o3. 
      split; [|simpl in *; rewrite Ht; simpl; by rewrite Ht3].
      assert (1 ≤ body_left (inner o1))%nat by (unfold body_left; destruct (p_pc _); lia). lia.
    - destruct (IH o2) as (k & o3 & Hk & Ht3 & Hlo3); try done; [lia|]. exists (S k), o3.
      split; [lia|]. split; [|done]. simpl. by rewrite Ht. }
  destruct (loop o) eqn:El; [| |done].
  - destruct (Hleft o Hh Hd El) as (o' & Ht & Hlo'). exists 1%nat, o'. split; [lia|]. split; [|done].
    change (replicate 1 (PoolTurn true)) with [PoolTurn true]. cbn [take_turns]. by rewrite Ht.
  - destruct (Hbody (S (body_left (inner o))) o) as (k & o' & Hk & Ht & Hlo'); try done; [lia|].
    exists k, o'. split; [|done]. unfold body_left in Hk. destruct (p_pc _); lia.
Qed.

(** * Runs *)

(** A pool that never had a task: its thread waits. *)
Definition idle_exit : list turn := replicate 2 (PoolTurn false) ++ replicate 4 DestroyTurn.
(** The pool's thread is told before it waits again. *)
Definition early_exit : list turn := DestroyTurn :: PoolTurn false :: replicate 3 DestroyTurn.
(** One task: the worker handles it, finds its event set, and leaves after
    twelve waits; then the pool is destroyed, and its thread leaves in time. *)
Definition idle_round : list turn := replicate 4 (WorkTurn false 0) ++ [WorkTurn true 0].
Definition served_exit : list turn :=
  replicate 2 AddTurn ++ replicate 4 (PoolTurn false) ++
  replicate 7 (WorkTurn false 0) ++ mjoin (replicate 12 idle_round) ++ replicate 2 (WorkTurn false 0) ++
  [DestroyTurn; PoolTurn false] ++ replicate 6 DestroyTurn.

(** Both happen: a destructor that leaves everyone behind it safe, with and
    without workers, and one after which the pool's thread wakes up in an event
    that is gone, whether its wait was over or not. *)
Theorem exits (t : T) :
  (∃ o, take_turns idle_exit (CThreadPool []) = Next o ∧ dtor o = Finished ∧ ¬ quiet o ∧
     ∀ late, take_turn (PoolTurn late) o = Fault) ∧
  (∃ o, take_turns early_exit (CThreadPool []) = Next o ∧ dtor o = Finished ∧ quiet o) ∧
  (∃ o, take_turns served_exit (CThreadPool [t]) = Next o ∧ dtor o = Finished ∧ quiet o ∧
     finished (inner o) = [t]).
Proof.
  split; [|split].
  - eexists. split; [vm_compute; reflexivity|]. split; [done|]. split; [by intros [? _]|done].
  - eexists. split; [vm_compute; reflexivity|]. split; [done|]. split; [done|constructor].
  - eexists. split; [vm_compute; reflexivity|]. split; [done|]. split; [|done]. split; [done|by repeat constructor].
Qed.

End PoolExit.
End PoolExit.

(** * At concrete pools *)
Module Example.
Import PoolExit.

Lemma destructor_safe_iff_witness :
  match take_turns served_exit (CThreadPool [7%nat]) with
  | Next o => quiet o ∧ ∀ t, own t → take_turn t o = Stuck
  | _ => False
  end ∧
  match take_turns idle_exit (CThreadPool (T := nat) []) with
  | Next o => ∃ ts', (length ts' ≤ 2)%nat ∧ Forall own ts' ∧ take_turns ts' o = Fault
  | _ => False
  end.
Proof.
  split.
  - destruct (take_turns served_exit _) as [o| |] eqn:E; [|vm_compute in E; discriminate..].
    assert (Hd : dtor o = Finished) by (vm_compute in E; injection E as <-; reflexivity).
    assert (Hq : quiet o) by (vm_compute in E; injection E as <-; split; [reflexivity|by repeat constructor]).
    split; [exact Hq|]. exact (proj1 (destructor_safe_iff [7%nat] served_exit o E Hd) Hq).
  - destruct (take_turns idle_exit _) as [o| |] eqn:E; [|vm_compute in E; discriminate..].
    assert (Hd : dtor o = Finished) by (vm_compute in E; injection E as <-; reflexivity).
    apply (proj2 (destructor_safe_iff [] idle_exit o E Hd)).
    vm_compute in E. injection E as <-. intros [Hl _]. discriminate.
Defined.
End Example.
