(* ===== verification/Pevents.v ===== *)
(** [TEADFS-utils/pevents.cpp], the events the user process synchronises with,
    as built with [WFMO] and [PULSE]: waits for one event or for several,
    [SetEvent], [ResetEvent], [PulseEvent] and [DestroyEvent], called by any
    number of threads.

    A step is one access to storage another thread can reach, or the release of a
    mutex; what a thread does to storage only it can reach at that time is part
    of the step before.  Mutexes and condition variables are POSIX's: a wait on a
    condition variable releases the mutex and sleeps in one step, returns after a
    signal, spuriously, or late, and takes the mutex again.  Memory is
    sequentially consistent.

    Without a call of [WaitForMultipleEvents] no event has registered waits, and
    what is left of every function is the code compiled without [WFMO]. *)
From S2P Require Import Prelude.
Local Open Scope Z_scope.

Definition WAIT_TIMEOUT : Z := 110.   (* ETIMEDOUT *)
Definition WAIT_INFINITE : Z := 2 ^ 64 - 1.

(** * Storage *)

(** [neosmart_wfmo_info_t_]: who waits, and which of its events this is. *)
Record info := Info { Waiter : positive; WaitIndex : nat }.
#[export] Instance info_eq_dec : EqDecision info.
Proof. solve_decision. Defined.

(** [neosmart_event_t_].  [sets] and [wins] are history: how often the event was
    set, and how often a wait got through because of it. *)
Record event := Event {
  Mutex : option positive;        (* the thread that holds it *)
  AutoReset : bool;
  State : bool;
  RegisteredWaits : list info;
  sets : nat;
  wins : nat;
}.

(** [neosmart_wfmo_t_].  [Status] is the union of [FiredEvent] and [EventsLeft].
    History: [asked], the events waited for; [shares], the indices registered
    with an event; [hits], the indices whose event was found set. *)
Record wfmo := Wfmo {
  WMutex : option positive;
  RefCount : Z;
  Status : Z;
  WaitAll : bool;
  StillWaiting : bool;
  asked : list positive;
  shares : gset nat;
  hits : gset nat;
}.

Definition set_Mutex (m : option positive) (x : event) : event :=
  Event m (AutoReset x) (State x) (RegisteredWaits x) (sets x) (wins x).
Definition set_State (b : bool) (x : event) : event :=
  Event (Mutex x) (AutoReset x) b (RegisteredWaits x) (sets x) (wins x).
Definition set_Registered (l : list info) (x : event) : event :=
  Event (Mutex x) (AutoReset x) (State x) l (sets x) (wins x).
Definition count_set (x : event) : event :=
  Event (Mutex x) (AutoReset x) (State x) (RegisteredWaits x) (S (sets x)) (wins x).
Definition count_win (x : event) : event :=
  Event (Mutex x) (AutoReset x) (State x) (RegisteredWaits x) (sets x) (S (wins x)).

Definition set_WMutex (m : option positive) (x : wfmo) : wfmo :=
  Wfmo m (RefCount x) (Status x) (WaitAll x) (StillWaiting x) (asked x) (shares x) (hits x).
Definition set_RefCount (n : Z) (x : wfmo) : wfmo :=
  Wfmo (WMutex x) n (Status x) (WaitAll x) (StillWaiting x) (asked x) (shares x) (hits x).
Definition set_Status (n : Z) (x : wfmo) : wfmo :=
  Wfmo (WMutex x) (RefCount x) n (WaitAll x) (StillWaiting x) (asked x) (shares x) (hits x).
Definition set_StillWaiting (b : bool) (x : wfmo) : wfmo :=
  Wfmo (WMutex x) (RefCount x) (Status x) (WaitAll x) b (asked x) (shares x) (hits x).
Definition set_shares (X : gset nat) (x : wfmo) : wfmo :=
  Wfmo (WMutex x) (RefCount x) (Status x) (WaitAll x) (StillWaiting x) (asked x) X (hits x).
Definition add_hit (j : nat) (x : wfmo) : wfmo :=
  Wfmo (WMutex x) (RefCount x) (Status x) (WaitAll x) (StillWaiting x) (asked x) (shares x) ({[j]} ∪ hits x).

(** * Threads *)

Inductive call :=
  | WaitForEvent (e : positive) (milliseconds : Z)
  | WaitForMultipleEvents (es : list positive) (waitAll : bool) (milliseconds : Z)
  | SetEvent (e : positive)
  | ResetEvent (e : positive)
  | PulseEvent (e : positive)
  | DestroyEvent (e : positive).

(** The locals of [WaitForMultipleEvents]: [wfmo], [i] and [skipped_refs]. *)
Record frame := Frame { f_wfmo : positive; f_i : nat; skipped_refs : nat }.

Inductive pc :=
  (* WaitForEvent *)
  | W_zero                                    (* 155 *)
  | W_fast                                    (* 159 *)
  | W_acquire                                 (* 162 *)
  | W_lock                                    (* 167 *)
  | W_load                                    (* 103-122, to sleep *)
  | W_sleep                                   (* 123-126 *)
  | W_wake (rc : Z)                           (* back from the condition variable *)
  | W_reload                                  (* 130 *)
  | W_take                                    (* 144 *)
  | W_unlock (rc : Z)                         (* 172 *)
  (* WaitForMultipleEvents *)
  | M_new                                     (* 187-218 *)
  | M_head (f : frame)                        (* 220-227 *)
  | M_acquire (f : frame)                     (* 228 *)
  | M_lock (f : frame)                        (* 235 *)
  | M_clean (f : frame) (k : nat)             (* 240, 67 *)
  | M_expire (f : frame) (k : nat)            (* 71-78, 243 *)
  | M_try (f : frame)                         (* 246, 103 *)
  | M_take (f : frame)                        (* 144 *)
  | M_unlock (f : frame)                      (* 248 *)
  | M_hit (f : frame)                         (* 252-262 *)
  | M_push (f : frame)                        (* 264 *)
  | M_pushed (f : frame)                      (* 266 *)
  | M_check (f : frame)                       (* 274-293 *)
  | M_loop (f : frame)                        (* 301-308, to sleep *)
  | M_sleep (f : frame)
  | M_wake (f : frame) (rc : Z)
  | M_finish (f : frame) (rc : Z)             (* 317-321 *)
  | M_unlock_w (f : frame) (rc idx : Z)       (* 323 *)
  | M_drop (f : frame) (rc idx : Z)           (* 327-332 *)
  (* SetEvent *)
  | S_lock                                    (* 364 *)
  | S_store_manual                            (* 462 *)
  | S_front                                   (* 370-376, 464-470 *)
  | S_expired (i : info)                      (* 377-385, 401-409, 471-476 *)
  | S_lock_w (i : info)                       (* 388, 479 *)
  | S_fire (i : info)                         (* 396-424, 486-498 *)
  | S_stale (i : info)                        (* 397 *)
  | S_unlock_w (i : info)                     (* 426, 500 *)
  | S_signal (i : info)                       (* 429, 503 *)
  | S_drop (i : info)                         (* 433-440, 507-513 *)
  | S_unlock                                  (* 442 *)
  | S_store                                   (* 450 *)
  | S_unlock_signal                           (* 452 *)
  | S_signal_e                                (* 455 *)
  | S_unlock_broadcast                        (* 515-517 *)
  | S_broadcast                               (* 520 *)
  | R_store                                   (* 531 *)
  (* DestroyEvent *)
  | D_lock                                    (* 342 *)
  | D_clean (k : nat)                         (* 344, 67 *)
  | D_expire (k : nat)                        (* 71-78, 347 *)
  | D_unlock                                  (* 348 *)
  | D_delete                                  (* 352-358 *)
  | Done (rc idx : Z).

Record thread := Thread { t_call : call; t_pc : pc }.

Record conf := Conf {
  threads : gmap positive thread;
  events : gmap positive event;
  waiters : gmap positive wfmo;
}.

Definition start : conf := Conf ∅ ∅ ∅.

Definition put_thread (t : positive) (th : thread) (s : conf) : conf :=
  Conf (<[t := th]> (threads s)) (events s) (waiters s).
Definition put_event (e : positive) (x : event) (s : conf) : conf :=
  Conf (threads s) (<[e := x]> (events s)) (waiters s).
Definition put_waiter (w : positive) (x : wfmo) (s : conf) : conf :=
  Conf (threads s) (events s) (<[w := x]> (waiters s)).
Definition delete_waiter (w : positive) (s : conf) : conf :=
  Conf (threads s) (events s) (delete w (waiters s)).

(** What a move leads to: nothing is possible, something that was deleted is
    touched or an assertion fails, or the next state. *)
Inductive outcome := Blocked | Fault | Next (s : conf).

Definition with_event (s : conf) (e : positive) (k : event → outcome) : outcome :=
  match events s !! e with Some x => k x | None => Fault end.
Definition with_waiter (s : conf) (w : positive) (k : wfmo → outcome) : outcome :=
  match waiters s !! w with Some x => k x | None => Fault end.

(** [pthread_mutex_lock] and [pthread_mutex_unlock] of an event and of a waiter. *)
Definition lock_event (s : conf) (t e : positive) (k : conf → outcome) : outcome :=
  with_event s e (λ x,
    match Mutex x with None => k (put_event e (set_Mutex (Some t) x) s) | Some _ => Blocked end).
Definition unlock_event (s : conf) (e : positive) (k : conf → outcome) : outcome :=
  with_event s e (λ x, k (put_event e (set_Mutex None x) s)).
Definition lock_waiter (s : conf) (t w : positive) (k : conf → outcome) : outcome :=
  with_waiter s w (λ x,
    match WMutex x with None => k (put_waiter w (set_WMutex (Some t) x) s) | Some _ => Blocked end).
Definition unlock_waiter (s : conf) (w : positive) (k : conf → outcome) : outcome :=
  with_waiter s w (λ x, k (put_waiter w (set_WMutex None x) s)).

(** [RefCount.fetch_sub], the assertion, and the deletion of the last one's. *)
Definition release (s : conf) (w : positive) (n : Z) (f : wfmo → wfmo) (k : conf → outcome) : outcome :=
  with_waiter s w (λ x,
    if RefCount x <=? 0 then Fault
    else if RefCount x =? n then k (delete_waiter w s)
    else k (put_waiter w (f (set_RefCount (RefCount x - n) x)) s)).

(** A registration gives its reference back. *)
Definition release_info (s : conf) (i : info) (k : conf → outcome) : outcome :=
  release s (Waiter i) 1 (λ x, set_shares (shares x ∖ {[WaitIndex i]}) x) k.

Definition done (t : positive) (c : call) (rc idx : Z) (s : conf) : outcome :=
  Next (put_thread t (Thread c (Done rc idx)) s).
Definition goto (t : positive) (c : call) (p : pc) (s : conf) : outcome :=
  Next (put_thread t (Thread c p) s).

(** [CreateEvent]. *)
Definition CreateEvent (manualReset initialState : bool) : event :=
  Event None (negb manualReset) initialState [] (if initialState then 1 else 0) 0.

(** * The functions *)

(** [UnlockedWaitForEvent] once the state is known: a wait that succeeds takes an
    event that resets itself. *)
Definition after_load (x : event) : pc := if AutoReset x then W_take else W_unlock 0.

(** [WaitForEvent] and, from [W_load] to [W_take], [UnlockedWaitForEvent]. *)
Definition wait_step (s : conf) (t : positive) (c : call) (e : positive) (ms : Z) (p : pc) : outcome :=
  match p with
  | W_zero =>
    if ms =? 0
    then with_event s e (λ x, if State x then goto t c W_fast s else done t c WAIT_TIMEOUT 0 s)
    else goto t c W_fast s
  | W_fast =>
    with_event s e (λ x, if negb (AutoReset x) && State x then goto t c W_acquire s else goto t c W_lock s)
  | W_acquire => with_event s e (λ x, if State x then done t c 0 0 s else goto t c W_lock s)
  | W_lock => lock_event s t e (goto t c W_load)
  | W_load =>
    with_event s e (λ x,
      if State x then goto t c (after_load x) s
      else if ms =? 0 then goto t c (W_unlock WAIT_TIMEOUT) s
      else unlock_event s e (goto t c W_sleep))
  | W_wake rc => lock_event s t e (goto t c (if rc =? 0 then W_reload else W_unlock rc))
  | W_reload =>
    with_event s e (λ x,
      if State x then goto t c (after_load x) s else unlock_event s e (goto t c W_sleep))
  | W_take =>
    with_event s e (λ x, goto t c (W_unlock 0) (put_event e (count_win (set_State false x)) s))
  | W_unlock rc => unlock_event s e (done t c rc 0)
  | _ => Blocked
  end.

(** [RemoveExpiredWaitHelper] on the [k]-th registration: it is kept, or goes. *)
Definition expire_test (s : conf) (e : positive) (k : nat) (stay next stop : conf → outcome) : outcome :=
  with_event s e (λ x,
    match RegisteredWaits x !! k with
    | None => stop s
    | Some i => with_waiter s (Waiter i) (λ w, if StillWaiting w then stay s else next s)
    end).
Definition expire (s : conf) (e : positive) (k : nat) (next : conf → outcome) : outcome :=
  with_event s e (λ x,
    match RegisteredWaits x !! k with
    | None => Blocked
    | Some i =>
      release_info s i (λ s, next (put_event e (set_Registered (delete k (RegisteredWaits x)) x) s))
    end).

(** [WaitForMultipleEvents], the loop over the events. *)
Definition scan_step (s : conf) (t : positive) (c : call) (es : list positive) (all : bool) (p : pc) : outcome :=
  let at_event (f : frame) (k : positive → outcome) :=
    match es !! f_i f with Some e => k e | None => Blocked end in
  match p with
  | M_new =>
    let w := fresh (dom (waiters s) : gset positive) in
    let n := Z.of_nat (length es) in
    goto t c (M_head (Frame w 0 0))
      (put_waiter w (Wfmo (Some t) (1 + n) (if all then n else -1) all true es ∅ ∅) s)
  | M_head f =>
    match es !! f_i f with
    | None => goto t c (M_check f) s
    | Some e =>
      with_event s e (λ x, if negb (AutoReset x) && State x then goto t c (M_acquire f) s else goto t c (M_lock f) s)
    end
  | M_acquire f =>
    at_event f (λ e, with_event s e (λ x, if State x then goto t c (M_hit f) s else goto t c (M_lock f) s))
  | M_lock f => at_event f (λ e, lock_event s t e (goto t c (M_clean f 0)))
  | M_clean f k =>
    at_event f (λ e, expire_test s e k (goto t c (M_clean f (S k))) (goto t c (M_expire f k)) (goto t c (M_try f)))
  | M_expire f k => at_event f (λ e, expire s e k (goto t c (M_clean f k)))
  | M_try f =>
    at_event f (λ e, with_event s e (λ x,
      goto t c (if State x then (if AutoReset x then M_take f else M_unlock f) else M_push f) s))
  | M_take f =>
    at_event f (λ e, with_event s e (λ x,
      goto t c (M_unlock f) (put_event e (count_win (set_State false x)) s)))
  | M_unlock f => at_event f (λ e, unlock_event s e (goto t c (M_hit f)))
  | M_hit f =>
    with_waiter s (f_wfmo f) (λ w,
      if all then
        if Status w - 1 <? 0 then Fault else
        goto t c (M_head (Frame (f_wfmo f) (S (f_i f)) (S (skipped_refs f))))
          (put_waiter (f_wfmo f) (add_hit (f_i f) (set_Status (Status w - 1) w)) s)
      else
        goto t c (M_finish (Frame (f_wfmo f) (f_i f) (skipped_refs f + (length es - f_i f))) 0)
          (put_waiter (f_wfmo f) (add_hit (f_i f) (set_Status (Z.of_nat (f_i f)) w)) s))
  | M_push f =>
    at_event f (λ e, with_event s e (λ x, with_waiter s (f_wfmo f) (λ w,
      goto t c (M_pushed f)
        (put_waiter (f_wfmo f) (set_shares ({[f_i f]} ∪ shares w) w)
          (put_event e (set_Registered (RegisteredWaits x ++ [Info (f_wfmo f) (f_i f)]) x) s)))))
  | M_pushed f =>
    at_event f (λ e, unlock_event s e (goto t c (M_head (Frame (f_wfmo f) (S (f_i f)) (skipped_refs f)))))
  | _ => Blocked
  end.

(** The condition of the wait: all events have fired, or one has. *)
Definition fulfilled (w : wfmo) : bool :=
  if WaitAll w then Status w =? 0 else negb (Status w =? -1).

(** [WaitForMultipleEvents], from the end of the loop on. *)
Definition multi_step (s : conf) (t : positive) (c : call) (ms : Z) (p : pc) : outcome :=
  match p with
  | M_check f =>
    with_waiter s (f_wfmo f) (λ w,
      if WaitAll w && (Status w =? 0) then goto t c (M_finish f 0) s
      else if ms =? 0 then goto t c (M_finish f WAIT_TIMEOUT) s
      else goto t c (M_loop f) s)
  | M_loop f =>
    with_waiter s (f_wfmo f) (λ w,
      if fulfilled w then goto t c (M_finish f 0) s
      else unlock_waiter s (f_wfmo f) (goto t c (M_sleep f)))
  | M_wake f rc =>
    lock_waiter s t (f_wfmo f) (goto t c (if rc =? 0 then M_loop f else M_finish f rc))
  | M_finish f rc =>
    with_waiter s (f_wfmo f) (λ w,
      goto t c (M_unlock_w f rc (Status w)) (put_waiter (f_wfmo f) (set_StillWaiting false w) s))
  | M_unlock_w f rc idx => unlock_waiter s (f_wfmo f) (goto t c (M_drop f rc idx))
  | M_drop f rc idx =>
    release s (f_wfmo f) (1 + Z.of_nat (skipped_refs f)) id (done t c rc idx)
  | _ => Blocked
  end.

(** Who sleeps on the condition variable of an event, or of a waiter. *)
Definition asleep_on_event (e : positive) (th : thread) : bool :=
  match th with Thread (WaitForEvent e' _) W_sleep => bool_decide (e' = e) | _ => false end.
Definition asleep_on_waiter (w : positive) (th : thread) : bool :=
  match th with Thread (WaitForMultipleEvents _ _ _) (M_sleep f) => bool_decide (f_wfmo f = w) | _ => false end.
(** A sleeper leaves the condition variable. *)
Definition woken (rc : Z) (th : thread) : thread :=
  Thread (t_call th)
    match t_pc th with W_sleep => W_wake rc | M_sleep f => M_wake f rc | p => p end.
Definition waked (P : thread → bool) (th : thread) : thread := if P th then woken 0 th else th.
Definition wake_if (P : thread → bool) (s : conf) : conf :=
  Conf (waked P <$> threads s) (events s) (waiters s).

(** [SetEvent] has returned; [PulseEvent] goes on with [ResetEvent]. *)
Definition set_done (t : positive) (c : call) (s : conf) : outcome :=
  match c with PulseEvent _ => goto t c R_store s | _ => done t c 0 0 s end.

(** A waiter is told that its event is set. *)
Definition fire (i : info) (w : wfmo) : wfmo :=
  if WaitAll w then add_hit (WaitIndex i) (set_Status (Status w - 1) w)
  else add_hit (WaitIndex i) (set_StillWaiting false (set_Status (Z.of_nat (WaitIndex i)) w)).

(** [SetEvent].  The loop over a manual event's registrations removes those that
    are done with; [RegisteredWaits.clear] has nothing left then. *)
Definition set_step (s : conf) (t : positive) (c : call) (e : positive) (p : pc) : outcome :=
  let pop (s : conf) (k : conf → outcome) :=
    with_event s e (λ x, k (put_event e (set_Registered (tail (RegisteredWaits x)) x) s)) in
  match p with
  | S_lock =>
    lock_event s t e (λ s', with_event s' e (λ x, goto t c (if AutoReset x then S_front else S_store_manual) s'))
  | S_store_manual => with_event s e (λ x, goto t c S_front (put_event e (count_set (set_State true x)) s))
  | S_front =>
    with_event s e (λ x,
      match RegisteredWaits x with
      | [] => goto t c (if AutoReset x then S_store else S_unlock_broadcast) s
      | i :: _ =>
        with_waiter s (Waiter i) (λ w, goto t c (if StillWaiting w then S_lock_w i else S_expired i) s)
      end)
  | S_expired i => release_info s i (λ s, pop s (goto t c S_front))
  | S_lock_w i => lock_waiter s t (Waiter i) (goto t c (S_fire i))
  | S_fire i =>
    with_event s e (λ x, with_waiter s (Waiter i) (λ w,
      if AutoReset x && negb (StillWaiting w) then goto t c (S_stale i) s
      else if WaitAll w && (Status w - 1 <? 0) then Fault
      else goto t c (S_unlock_w i)
             (put_waiter (Waiter i) (fire i w)
               (if AutoReset x then put_event e (count_set (count_win x)) s else s))))
  | S_stale i => unlock_waiter s (Waiter i) (goto t c (S_expired i))
  | S_unlock_w i => unlock_waiter s (Waiter i) (goto t c (S_signal i))
  | S_signal i =>
    with_waiter s (Waiter i) (λ _, goto t c (S_drop i) (wake_if (asleep_on_waiter (Waiter i)) s))
  | S_drop i =>
    release_info s i (λ s, with_event s e (λ x, pop s (goto t c (if AutoReset x then S_unlock else S_front))))
  | S_unlock => unlock_event s e (set_done t c)
  | S_store => with_event s e (λ x, goto t c S_unlock_signal (put_event e (count_set (set_State true x)) s))
  | S_unlock_signal => unlock_event s e (goto t c S_signal_e)
  | S_signal_e =>
    (* somebody who sleeps is woken: see [Wake] *)
    with_event s e (λ _,
      if decide (map_Forall (λ _ th, asleep_on_event e th = false) (threads s)) then set_done t c s else Blocked)
  | S_unlock_broadcast => unlock_event s e (goto t c S_broadcast)
  | S_broadcast => with_event s e (λ _, set_done t c (wake_if (asleep_on_event e) s))
  | _ => Blocked
  end.

(** [ResetEvent]. *)
Definition reset_step (s : conf) (t : positive) (c : call) (e : positive) (p : pc) : outcome :=
  match p with
  | R_store => with_event s e (λ x, done t c 0 0 (put_event e (set_State false x) s))
  | _ => Blocked
  end.

(** [DestroyEvent]. *)
Definition destroy_step (s : conf) (t : positive) (c : call) (e : positive) (p : pc) : outcome :=
  match p with
  | D_lock => lock_event s t e (goto t c (D_clean 0))
  | D_clean k => expire_test s e k (goto t c (D_clean (S k))) (goto t c (D_expire k)) (goto t c D_unlock)
  | D_expire k => expire s e k (goto t c (D_clean k))
  | D_unlock => unlock_event s e (goto t c D_delete)
  | D_delete =>
    with_event s e (λ _, done t c 0 0 (Conf (threads s) (delete e (events s)) (waiters s)))
  | _ => Blocked
  end.

Definition run_thread (s : conf) (t : positive) (c : call) (p : pc) : outcome :=
  match c with
  | WaitForEvent e ms => wait_step s t c e ms p
  | WaitForMultipleEvents es all ms =>
    match scan_step s t c es all p with Blocked => multi_step s t c ms p | o => o end
  | SetEvent e => set_step s t c e p
  | PulseEvent e => match p with R_store => reset_step s t c e p | _ => set_step s t c e p end
  | ResetEvent e => reset_step s t c e p
  | DestroyEvent e => destroy_step s t c e p
  end.

(** Where a call begins, what its time limit is, and which events it is given. *)
Definition entry (c : call) : pc :=
  match c with
  | WaitForEvent _ _ => W_zero
  | WaitForMultipleEvents _ _ _ => M_new
  | SetEvent _ | PulseEvent _ => S_lock
  | ResetEvent _ => R_store
  | DestroyEvent _ => D_lock
  end.
Definition limit (c : call) : Z :=
  match c with WaitForEvent _ ms | WaitForMultipleEvents _ _ ms => ms | _ => WAIT_INFINITE end.
Definition call_events (c : call) : list positive :=
  match c with
  | WaitForMultipleEvents es _ _ => es
  | WaitForEvent e _ | SetEvent e | ResetEvent e | PulseEvent e | DestroyEvent e => [e]
  end.

Inductive move :=
  | Create (manualReset initialState : bool)
  | Call (c : call)               (* somebody calls; with events that exist *)
  | Run (t : positive)            (* thread t takes its next step *)
  | Wake (t u : positive)         (* thread t signals an event, which wakes u *)
  | Spurious (t : positive)       (* thread t wakes up by itself *)
  | Timeout (t : positive).       (* thread t's time is over *)

Definition is_asleep (th : thread) : bool :=
  match t_pc th with W_sleep | M_sleep _ => true | _ => false end.

Definition exec (s : conf) (m : move) : outcome :=
  match m with
  | Create manual initial =>
    Next (put_event (fresh (dom (events s) : gset positive)) (CreateEvent manual initial) s)
  | Call c =>
    if forallb (λ e, bool_decide (is_Some (events s !! e))) (call_events c)
    then Next (put_thread (fresh (dom (threads s) : gset positive)) (Thread c (entry c)) s)
    else Blocked
  | Run t => match threads s !! t with Some th => run_thread s t (t_call th) (t_pc th) | None => Blocked end
  | Wake t u =>
    match threads s !! t, threads s !! u with
    | Some (Thread c S_signal_e), Some th =>
      match c with
      | SetEvent e | PulseEvent e =>
        with_event s e (λ _,
          if asleep_on_event e th then set_done t c (put_thread u (woken 0 th) s) else Blocked)
      | _ => Blocked
      end
    | _, _ => Blocked
    end
  | Spurious t =>
    match threads s !! t with
    | Some th => if is_asleep th then Next (put_thread t (woken 0 th) s) else Blocked
    | None => Blocked
    end
  | Timeout t =>
    match threads s !! t with
    | Some th =>
      if is_asleep th && negb (limit (t_call th) =? WAIT_INFINITE)
      then Next (put_thread t (woken WAIT_TIMEOUT th) s) else Blocked
    | None => Blocked
    end
  end.

Fixpoint execs (ms : list move) (s : conf) : option conf :=
  match ms with
  | [] => Some s
  | m :: ms => match exec s m with Next s' => execs ms s' | _ => None end
  end.
