(* ===== verification/PeventsSteps.v ===== *)
(** The moves of [Pevents] as a relation, one rule for each way storage changes,
    and what the rules leave alone.

    Only runs in which nobody destroys an event are considered: see
    [PeventsRuns] for what happens otherwise. *)
From S2P Require Import Prelude Pevents.
Local Open Scope Z_scope.

(** * What a thread has *)

(** The event, and the waiter, whose mutex it holds. *)
Definition holds_e (th : thread) : option positive :=
  match t_call th with
  | WaitForEvent e _ =>
    match t_pc th with W_load | W_reload | W_take | W_unlock _ => Some e | _ => None end
  | WaitForMultipleEvents es _ _ =>
    match t_pc th with
    | M_clean f _ | M_expire f _ | M_try f | M_take f | M_unlock f | M_push f | M_pushed f => es !! f_i f
    | _ => None
    end
  | SetEvent e | PulseEvent e =>
    match t_pc th with
    | S_store_manual | S_front | S_expired _ | S_lock_w _ | S_fire _ | S_stale _ | S_unlock_w _ | S_signal _
    | S_drop _ | S_unlock | S_store | S_unlock_signal | S_unlock_broadcast => Some e
    | _ => None
    end
  | _ => None
  end.

Definition holds_w (th : thread) : option positive :=
  match t_call th with
  | WaitForMultipleEvents _ _ _ =>
    match t_pc th with
    | M_head f | M_acquire f | M_lock f | M_clean f _ | M_expire f _ | M_try f | M_take f | M_unlock f | M_hit f
    | M_push f | M_pushed f | M_check f | M_loop f | M_finish f _ | M_unlock_w f _ _ => Some (f_wfmo f)
    | _ => None
    end
  | SetEvent _ | PulseEvent _ =>
    match t_pc th with S_fire i | S_stale i | S_unlock_w i => Some (Waiter i) | _ => None end
  | _ => None
  end.

(** The waiter a thread made for itself, how many of its events it has dealt with,
    and how many of their references it will give back itself. *)
Definition owner (th : thread) : option (positive * nat * nat) :=
  match t_call th with
  | WaitForMultipleEvents es _ _ =>
    match t_pc th with
    | M_head f | M_acquire f | M_lock f | M_clean f _ | M_expire f _ | M_try f | M_take f | M_unlock f | M_hit f
    | M_push f => Some (f_wfmo f, min (f_i f) (length es), skipped_refs f)
    | M_pushed f => Some (f_wfmo f, min (S (f_i f)) (length es), skipped_refs f)
    | M_check f | M_loop f | M_sleep f | M_wake f _ | M_finish f _ | M_unlock_w f _ _ | M_drop f _ _ =>
      Some (f_wfmo f, length es, skipped_refs f)
    | _ => None
    end
  | _ => None
  end.

(** The registration at the head of an event's list that a thread is dealing with,
    and whether it has told its waiter. *)
Definition hand (th : thread) : option (info * bool) :=
  match t_call th with
  | SetEvent _ | PulseEvent _ =>
    match t_pc th with
    | S_expired i | S_lock_w i | S_fire i | S_stale i => Some (i, false)
    | S_unlock_w i | S_signal i | S_drop i => Some (i, true)
    | _ => None
    end
  | _ => None
  end.

(** The event a call of [SetEvent] or [PulseEvent] is for. *)
Definition setter (th : thread) : option positive :=
  match t_call th with SetEvent e | PulseEvent e => Some e | _ => None end.

Lemma setter_call c p e : setter (Thread c p) = Some e → c = SetEvent e ∨ c = PulseEvent e.
Proof. unfold setter. destruct c; intros [= ->]; auto. Qed.

Lemma woken_holds_e rc th : holds_e (woken rc th) = holds_e th.
Proof. by destruct th as [[] []]. Qed.
Lemma woken_holds_w rc th : holds_w (woken rc th) = holds_w th.
Proof. by destruct th as [[] []]. Qed.
Lemma woken_owner rc th : owner (woken rc th) = owner th.
Proof. by destruct th as [[] []]. Qed.
Lemma woken_hand rc th : hand (woken rc th) = hand th.
Proof. by destruct th as [[] []]. Qed.
Lemma woken_call rc th : t_call (woken rc th) = t_call th.
Proof. done. Qed.

(** * The rules *)

(** What a wait returns: it is only late when there is a time to be late for. *)
Definition rc_ok (c : call) (rc : Z) : Prop := rc = 0 ∨ rc = WAIT_TIMEOUT ∧ limit c ≠ WAIT_INFINITE.

(** Moves that change nothing but where the thread is. *)
Inductive quiet (s : conf) : thread → thread → Prop :=
  | Q_zero e ms p : p = W_fast ∨ p = Done WAIT_TIMEOUT 0 ∧ ms = 0 ∧ (∃ x, events s !! e = Some x ∧ State x = false) →
      quiet s (Thread (WaitForEvent e ms) W_zero) (Thread (WaitForEvent e ms) p)
  | Q_fast e ms x p : events s !! e = Some x → p = W_lock ∨ p = W_acquire ∧ AutoReset x = false →
      quiet s (Thread (WaitForEvent e ms) W_fast) (Thread (WaitForEvent e ms) p)
  | Q_acquire e ms x p : events s !! e = Some x → p = W_lock ∨ p = Done 0 0 ∧ State x = true →
      quiet s (Thread (WaitForEvent e ms) W_acquire) (Thread (WaitForEvent e ms) p)
  | Q_loaded e ms x p : events s !! e = Some x → p = W_load ∨ p = W_reload → State x = true →
      quiet s (Thread (WaitForEvent e ms) p) (Thread (WaitForEvent e ms) (after_load x))
  | Q_late e x : events s !! e = Some x → State x = false →
      quiet s (Thread (WaitForEvent e 0) W_load) (Thread (WaitForEvent e 0) (W_unlock WAIT_TIMEOUT))
  | Q_scanned es all ms f : (length es ≤ f_i f)%nat →
      quiet s (Thread (WaitForMultipleEvents es all ms) (M_head f))
        (Thread (WaitForMultipleEvents es all ms) (M_check f))
  | Q_head es all ms f p e x : es !! f_i f = Some e → events s !! e = Some x →
      p = M_lock f ∨ p = M_acquire f →
      quiet s (Thread (WaitForMultipleEvents es all ms) (M_head f))
        (Thread (WaitForMultipleEvents es all ms) p)
  | Q_macquire es all ms f p e x : es !! f_i f = Some e → events s !! e = Some x →
      p = M_lock f ∨ p = M_hit f ∧ State x = true →
      quiet s (Thread (WaitForMultipleEvents es all ms) (M_acquire f))
        (Thread (WaitForMultipleEvents es all ms) p)
  | Q_kept es all ms f k : 
      quiet s (Thread (WaitForMultipleEvents es all ms) (M_clean f k))
        (Thread (WaitForMultipleEvents es all ms) (M_clean f (S k)))
  | Q_expired es all ms f k e x i w : es !! f_i f = Some e → events s !! e = Some x →
      RegisteredWaits x !! k = Some i → waiters s !! Waiter i = Some w → StillWaiting w = false →
      quiet s (Thread (WaitForMultipleEvents es all ms) (M_clean f k))
        (Thread (WaitForMultipleEvents es all ms) (M_expire f k))
  | Q_cleaned es all ms f k :
      quiet s (Thread (WaitForMultipleEvents es all ms) (M_clean f k))
        (Thread (WaitForMultipleEvents es all ms) (M_try f))
  | Q_try es all ms f p e x : es !! f_i f = Some e → events s !! e = Some x →
      p = M_take f ∧ State x = true ∧ AutoReset x = true ∨
      p = M_unlock f ∧ State x = true ∧ AutoReset x = false ∨ p = M_push f ∧ State x = false →
      quiet s (Thread (WaitForMultipleEvents es all ms) (M_try f))
        (Thread (WaitForMultipleEvents es all ms) p)
  | Q_check es all ms f p w : waiters s !! f_wfmo f = Some w →
      p = M_finish f 0 ∧ fulfilled w = true ∨ p = M_finish f WAIT_TIMEOUT ∧ ms = 0 ∨ p = M_loop f ∧ ms ≠ 0 →
      quiet s (Thread (WaitForMultipleEvents es all ms) (M_check f))
        (Thread (WaitForMultipleEvents es all ms) p)
  | Q_fulfilled es all ms f w : waiters s !! f_wfmo f = Some w → fulfilled w = true →
      quiet s (Thread (WaitForMultipleEvents es all ms) (M_loop f))
        (Thread (WaitForMultipleEvents es all ms) (M_finish f 0))
  | Q_front c e x p : setter (Thread c S_front) = Some e → events s !! e = Some x →
      RegisteredWaits x = [] → p = (if AutoReset x then S_store else S_unlock_broadcast) →
      quiet s (Thread c S_front) (Thread c p)
  | Q_hand c e x i l w p : setter (Thread c S_front) = Some e → events s !! e = Some x →
      RegisteredWaits x = i :: l → waiters s !! Waiter i = Some w →
      p = (if StillWaiting w then S_lock_w i else S_expired i) →
      quiet s (Thread c S_front) (Thread c p)
  | Q_stale c e x w i : setter (Thread c (S_fire i)) = Some e → events s !! e = Some x →
      waiters s !! Waiter i = Some w → AutoReset x = true → StillWaiting w = false →
      quiet s (Thread c (S_fire i)) (Thread c (S_stale i))
  | Q_set c p e x : setter (Thread c p) = Some e → events s !! e = Some x → p = S_signal_e →
      map_Forall (λ _ th, asleep_on_event e th = false) (threads s) →
      quiet s (Thread c p) (Thread c match c with PulseEvent _ => R_store | _ => Done 0 0 end)
  | Q_woken th rc : is_asleep th = true → rc_ok (t_call th) rc → quiet s th (woken rc th).

Inductive locks (e : positive) (x : event) : thread → thread → Prop :=
  | L_wait ms : locks e x (Thread (WaitForEvent e ms) W_lock) (Thread (WaitForEvent e ms) W_load)
  | L_woken ms rc : locks e x (Thread (WaitForEvent e ms) (W_wake rc))
      (Thread (WaitForEvent e ms) (if rc =? 0 then W_reload else W_unlock rc))
  | L_multi es all ms f : es !! f_i f = Some e →
      locks e x (Thread (WaitForMultipleEvents es all ms) (M_lock f))
        (Thread (WaitForMultipleEvents es all ms) (M_clean f 0))
  | L_set c : setter (Thread c S_lock) = Some e →
      locks e x (Thread c S_lock) (Thread c (if AutoReset x then S_front else S_store_manual)).

Inductive unlocks (e : positive) (x : event) : thread → thread → Prop :=
  | U_sleep ms p : p = W_load ∧ ms ≠ 0 ∨ p = W_reload → State x = false →
      unlocks e x (Thread (WaitForEvent e ms) p) (Thread (WaitForEvent e ms) W_sleep)
  | U_wait ms rc : unlocks e x (Thread (WaitForEvent e ms) (W_unlock rc)) (Thread (WaitForEvent e ms) (Done rc 0))
  | U_got es all ms f : es !! f_i f = Some e →
      unlocks e x (Thread (WaitForMultipleEvents es all ms) (M_unlock f))
        (Thread (WaitForMultipleEvents es all ms) (M_hit f))
  | U_pushed es all ms f : es !! f_i f = Some e →
      unlocks e x (Thread (WaitForMultipleEvents es all ms) (M_pushed f))
        (Thread (WaitForMultipleEvents es all ms) (M_head (Frame (f_wfmo f) (S (f_i f)) (skipped_refs f))))
  | U_set c : setter (Thread c S_unlock) = Some e →
      unlocks e x (Thread c S_unlock) (Thread c match c with PulseEvent _ => R_store | _ => Done 0 0 end)
  | U_signal c : setter (Thread c S_unlock_signal) = Some e →
      unlocks e x (Thread c S_unlock_signal) (Thread c S_signal_e)
  | U_broadcast c : setter (Thread c S_unlock_broadcast) = Some e →
      unlocks e x (Thread c S_unlock_broadcast) (Thread c S_broadcast).

Inductive takes (e : positive) : thread → thread → Prop :=
  | T_wait ms : takes e (Thread (WaitForEvent e ms) W_take) (Thread (WaitForEvent e ms) (W_unlock 0))
  | T_multi es all ms f : es !! f_i f = Some e →
      takes e (Thread (WaitForMultipleEvents es all ms) (M_take f))
        (Thread (WaitForMultipleEvents es all ms) (M_unlock f)).

Inductive stores (e : positive) : thread → thread → Prop :=
  | S_auto c : setter (Thread c S_store) = Some e → stores e (Thread c S_store) (Thread c S_unlock_signal)
  | S_manual c : setter (Thread c S_store_manual) = Some e → stores e (Thread c S_store_manual) (Thread c S_front).

(** The [k]-th registration of an event, [i], is given up. *)
Inductive removes (e : positive) (x : event) (i : info) : nat → thread → thread → Prop :=
  | R_expire es all ms f k : es !! f_i f = Some e →
      removes e x i k (Thread (WaitForMultipleEvents es all ms) (M_expire f k))
        (Thread (WaitForMultipleEvents es all ms) (M_clean f k))
  | R_stale c : setter (Thread c (S_expired i)) = Some e →
      removes e x i 0 (Thread c (S_expired i)) (Thread c S_front)
  | R_drop c : setter (Thread c (S_drop i)) = Some e →
      removes e x i 0 (Thread c (S_drop i)) (Thread c (if AutoReset x then S_unlock else S_front)).

Inductive wlocks (w : positive) : thread → thread → Prop :=
  | LW_multi es all ms f rc : f_wfmo f = w →
      wlocks w (Thread (WaitForMultipleEvents es all ms) (M_wake f rc))
        (Thread (WaitForMultipleEvents es all ms) (if rc =? 0 then M_loop f else M_finish f rc))
  | LW_set c e i : setter (Thread c (S_lock_w i)) = Some e → Waiter i = w →
      wlocks w (Thread c (S_lock_w i)) (Thread c (S_fire i)).

Inductive wunlocks (w : positive) (y : wfmo) : thread → thread → Prop :=
  | UW_sleep es all ms f : f_wfmo f = w → fulfilled y = false →
      wunlocks w y (Thread (WaitForMultipleEvents es all ms) (M_loop f))
        (Thread (WaitForMultipleEvents es all ms) (M_sleep f))
  | UW_finish es all ms f rc idx : f_wfmo f = w →
      wunlocks w y (Thread (WaitForMultipleEvents es all ms) (M_unlock_w f rc idx))
        (Thread (WaitForMultipleEvents es all ms) (M_drop f rc idx))
  | UW_stale c e i : setter (Thread c (S_stale i)) = Some e → Waiter i = w →
      wunlocks w y (Thread c (S_stale i)) (Thread c (S_expired i))
  | UW_fired c e i : setter (Thread c (S_unlock_w i)) = Some e → Waiter i = w →
      wunlocks w y (Thread c (S_unlock_w i)) (Thread c (S_signal i)).

(** What is left of the waiters when [n] references to one of them are given back. *)
Definition released (m : gmap positive wfmo) (w : positive) (y : wfmo) (n : Z) (X : gset nat) : gmap positive wfmo :=
  if RefCount y =? n then delete w m else <[w := set_shares X (set_RefCount (RefCount y - n) y)]> m.

(** Who is woken up by a call of [pthread_cond_signal] on a waiter, or of
    [pthread_cond_broadcast]. *)
Inductive wakes : (thread → bool) → thread → thread → Prop :=
  | WK_signal c e i : setter (Thread c (S_signal i)) = Some e → wakes (asleep_on_waiter (Waiter i)) (Thread c (S_signal i)) (Thread c (S_drop i))
  | WK_broadcast c e : setter (Thread c S_broadcast) = Some e →
      wakes (asleep_on_event e) (Thread c S_broadcast)
        (Thread c match c with PulseEvent _ => R_store | _ => Done 0 0 end).

Inductive step (s : conf) : conf → Prop :=
  | St_create e manual initial : events s !! e = None → step s (put_event e (CreateEvent manual initial) s)
  | St_call t c : threads s !! t = None → (∀ e, e ∈ call_events c → is_Some (events s !! e)) →
      (∀ e, c ≠ DestroyEvent e) → step s (put_thread t (Thread c (entry c)) s)
  | St_quiet t th th' : threads s !! t = Some th → quiet s th th' → step s (put_thread t th' s)
  | St_lock t th th' e x : threads s !! t = Some th → events s !! e = Some x → Mutex x = None →
      locks e x th th' → step s (put_thread t th' (put_event e (set_Mutex (Some t) x) s))
  | St_unlock t th th' e x : threads s !! t = Some th → events s !! e = Some x →
      unlocks e x th th' → step s (put_thread t th' (put_event e (set_Mutex None x) s))
  | St_take t th th' e x : threads s !! t = Some th → events s !! e = Some x →
      takes e th th' → step s (put_thread t th' (put_event e (count_win (set_State false x)) s))
  | St_reset t c e x : threads s !! t = Some (Thread c R_store) → events s !! e = Some x →
      c = ResetEvent e ∨ c = PulseEvent e →
      step s (put_thread t (Thread c (Done 0 0)) (put_event e (set_State false x) s))
  | St_store t th th' e x : threads s !! t = Some th → events s !! e = Some x →
      stores e th th' → step s (put_thread t th' (put_event e (count_set (set_State true x)) s))
  | St_push t es all ms f e x y : threads s !! t = Some (Thread (WaitForMultipleEvents es all ms) (M_push f)) →
      es !! f_i f = Some e → events s !! e = Some x → waiters s !! f_wfmo f = Some y →
      step s (put_thread t (Thread (WaitForMultipleEvents es all ms) (M_pushed f))
        (put_waiter (f_wfmo f) (set_shares ({[f_i f]} ∪ shares y) y)
          (put_event e (set_Registered (RegisteredWaits x ++ [Info (f_wfmo f) (f_i f)]) x) s)))
  | St_remove t th th' e x k i y : threads s !! t = Some th → events s !! e = Some x →
      waiters s !! Waiter i = Some y → 0 < RefCount y → removes e x i k th th' →
      RegisteredWaits x !! k = Some i ∨ k = 0%nat ∧ (∃ b, hand th = Some (i, b)) →
      step s (Conf (<[t := th']> (threads s))
        (<[e := set_Registered (delete k (RegisteredWaits x)) x]> (events s))
        (released (waiters s) (Waiter i) y 1 (shares y ∖ {[WaitIndex i]})))
  | St_new t es all ms w : threads s !! t = Some (Thread (WaitForMultipleEvents es all ms) M_new) →
      waiters s !! w = None →
      step s (put_thread t (Thread (WaitForMultipleEvents es all ms) (M_head (Frame w 0 0)))
        (put_waiter w (Wfmo (Some t) (1 + Z.of_nat (length es)) (if all then Z.of_nat (length es) else -1)
          all true es ∅ ∅) s))
  | St_lock_w t th th' w y : threads s !! t = Some th → waiters s !! w = Some y → WMutex y = None →
      wlocks w th th' → step s (put_thread t th' (put_waiter w (set_WMutex (Some t) y) s))
  | St_unlock_w t th th' w y : threads s !! t = Some th → waiters s !! w = Some y →
      wunlocks w y th th' → step s (put_thread t th' (put_waiter w (set_WMutex None y) s))
  | St_hit_all t es ms f y : threads s !! t = Some (Thread (WaitForMultipleEvents es true ms) (M_hit f)) →
      waiters s !! f_wfmo f = Some y → 0 < Status y →
      step s (put_thread t (Thread (WaitForMultipleEvents es true ms)
          (M_head (Frame (f_wfmo f) (S (f_i f)) (S (skipped_refs f)))))
        (put_waiter (f_wfmo f) (add_hit (f_i f) (set_Status (Status y - 1) y)) s))
  | St_hit_any t es ms f y : threads s !! t = Some (Thread (WaitForMultipleEvents es false ms) (M_hit f)) →
      waiters s !! f_wfmo f = Some y →
      step s (put_thread t (Thread (WaitForMultipleEvents es false ms)
          (M_finish (Frame (f_wfmo f) (f_i f) (skipped_refs f + (length es - f_i f))) 0))
        (put_waiter (f_wfmo f) (add_hit (f_i f) (set_Status (Z.of_nat (f_i f)) y)) s))
  | St_fire t c e x i y : threads s !! t = Some (Thread c (S_fire i)) → setter (Thread c (S_fire i)) = Some e →
      events s !! e = Some x → waiters s !! Waiter i = Some y →
      (AutoReset x = true → StillWaiting y = true) → (WaitAll y = true → 0 < Status y) →
      step s (put_thread t (Thread c (S_unlock_w i))
        (put_waiter (Waiter i) (fire i y)
          (put_event e (if AutoReset x then count_set (count_win x) else x) s)))
  | St_finish t es all ms f rc y : threads s !! t = Some (Thread (WaitForMultipleEvents es all ms) (M_finish f rc)) →
      waiters s !! f_wfmo f = Some y →
      step s (put_thread t (Thread (WaitForMultipleEvents es all ms) (M_unlock_w f rc (Status y)))
        (put_waiter (f_wfmo f) (set_StillWaiting false y) s))
  | St_leave t es all ms f rc idx y :
      threads s !! t = Some (Thread (WaitForMultipleEvents es all ms) (M_drop f rc idx)) →
      waiters s !! f_wfmo f = Some y → 0 < RefCount y →
      step s (Conf (<[t := Thread (WaitForMultipleEvents es all ms) (Done rc idx)]> (threads s)) (events s)
        (released (waiters s) (f_wfmo f) y (1 + Z.of_nat (skipped_refs f)) (shares y)))
  | St_wake t th th' P : threads s !! t = Some th → wakes P th th' →
      step s (put_thread t th' (wake_if P s))
  | St_signal t u e c th : threads s !! t = Some (Thread c S_signal_e) → setter (Thread c S_signal_e) = Some e →
      threads s !! u = Some th → asleep_on_event e th = true → 
      step s (put_thread t (Thread c match c with PulseEvent _ => R_store | _ => Done 0 0 end)
        (put_thread u (woken 0 th) s)).

(** * The moves follow the rules *)

(** Nobody destroys an event. *)
Definition keeps (c : call) : bool := match c with DestroyEvent _ => false | _ => true end.
Definition lasting (m : move) : bool := match m with Call c => keeps c | _ => true end.

Inductive reachable : conf → Prop :=
  | R_start : reachable start
  | R_step s m s' : reachable s → lasting m = true → exec s m = Next s' → reachable s'.

(** Take a result apart. *)
Ltac outcome :=
  repeat match goal with
  | Hx : events ?s !! ?e = Some _, H : with_event ?s ?e _ = Next _ |- _ =>
      unfold with_event in H; rewrite Hx in H
  | Hx : waiters ?s !! ?w = Some _, H : with_waiter ?s ?w _ = Next _ |- _ =>
      unfold with_waiter in H; rewrite Hx in H
  | H : with_event ?s ?e _ = Next _ |- _ =>
      unfold with_event in H; destruct (events s !! e) as [?x|] eqn:?; [|discriminate H]
  | H : with_waiter ?s ?w _ = Next _ |- _ =>
      unfold with_waiter in H; destruct (waiters s !! w) as [?y|] eqn:?; [|discriminate H]
  | H : Next _ = Next _ |- _ => injection H as <-
  | H : Blocked = Next _ |- _ => discriminate H
  | H : Fault = Next _ |- _ => discriminate H
  | H : lock_event _ _ _ _ = _ |- _ => unfold lock_event in H
  | H : unlock_event _ _ _ = _ |- _ => unfold unlock_event in H
  | H : lock_waiter _ _ _ _ = _ |- _ => unfold lock_waiter in H
  | H : unlock_waiter _ _ _ = _ |- _ => unfold unlock_waiter in H
  | H : goto _ _ _ _ = _ |- _ => unfold goto in H
  | H : done _ _ _ _ _ = _ |- _ => unfold done in H
  | H : (match Mutex ?x with _ => _ end) = Next _ |- _ => destruct (Mutex x) eqn:?; [discriminate H|]
  | H : (match WMutex ?x with _ => _ end) = Next _ |- _ => destruct (WMutex x) eqn:?; [discriminate H|]
  | H : (match ?l !! ?k with _ => _ end) = Next _ |- _ => destruct (l !! k) eqn:?
  | H : (if ?b then _ else _) = Next _ |- _ => destruct b eqn:?
  end; simpl in *.

(** Giving back a registration, or one's own references, in the form of the rule. *)
Lemma released_last m w y n X : (RefCount y =? n) = true → released m w y n X = delete w m.
Proof. unfold released. by intros ->. Qed.
Lemma released_some m w y n X :
  (RefCount y =? n) = false → released m w y n X = <[w := set_shares X (set_RefCount (RefCount y - n) y)]> m.
Proof. unfold released. by intros ->. Qed.
Lemma tail_delete {A} (l : list A) : tail l = delete 0%nat l.
Proof. by destruct l. Qed.
Lemma step_eq s s1 s2 : step s s1 → s1 = s2 → step s s2.
Proof. by intros ? <-. Qed.
Ltac by_release rule :=
  eapply step_eq;
  [eapply rule; try eassumption; try (econstructor; eauto; fail); eauto
  |match goal with
   | E : (RefCount ?y =? ?n) = true |- _ => by rewrite ?tail_delete, (released_last _ _ _ _ _ E)
   | E : (RefCount ?y =? ?n) = false |- _ => by rewrite ?tail_delete, (released_some _ _ _ _ _ E)
   end].

Lemma wait_exec s s' t e ms p :
  threads s !! t = Some (Thread (WaitForEvent e ms) p) →
  wait_step s t (WaitForEvent e ms) e ms p = Next s' → step s s'.
Proof.
  intros Ht Hs. destruct p; simpl in Hs; try discriminate Hs; outcome.
  all: try (rewrite ?Z.eqb_eq, ?Z.eqb_neq in *; subst).
  all: try (eapply St_quiet; [exact Ht|]; econstructor; by eauto).
  all: try (eapply St_quiet; [exact Ht|]; apply Q_zero; right; split_and!; [done|done|by eexists]).
  all: try (eapply St_lock; [exact Ht|done..|]; econstructor; by eauto).
  all: try (eapply St_unlock; [exact Ht|done..|]; econstructor; by eauto).
  all: try (eapply St_take; [exact Ht|done..|]; econstructor; by eauto).
  eapply St_quiet; [exact Ht|]. econstructor; [done|]. apply andb_true_iff in Heqb as [?%negb_true_iff ?]. auto.
Qed.

Lemma scan_exec s s' t es all ms p :
  threads s !! t = Some (Thread (WaitForMultipleEvents es all ms) p) →
  scan_step s t (WaitForMultipleEvents es all ms) es all p = Next s' → step s s'.
Proof.
  intros Ht Hs. destruct p; simpl in Hs; try discriminate Hs; unfold expire_test, expire, release_info, release in Hs; outcome.
  all: rewrite ?Z.leb_gt, ?Z.ltb_ge in *.
  all: try (eapply St_quiet; [exact Ht|]; econstructor; by eauto using lookup_ge_None_1).
  all: try (eapply St_lock; [exact Ht|done..|]; econstructor; by eauto).
  all: try (eapply St_unlock; [exact Ht|done..|]; econstructor; by eauto).
  all: try (eapply St_take; [exact Ht|done..|]; econstructor; by eauto).
  - apply St_new; [done|]. apply not_elem_of_dom, is_fresh.
  - by_release (St_remove s t).
  - by_release (St_remove s t).
  - eapply St_quiet; [exact Ht|]. econstructor; [done..|]. destruct (State x), (AutoReset x); auto.
  - apply St_hit_all; [done..|lia].
  - by apply St_hit_any.
  - by eapply St_push.
Qed.

Lemma multi_exec s s' t es all ms p :
  threads s !! t = Some (Thread (WaitForMultipleEvents es all ms) p) →
  multi_step s t (WaitForMultipleEvents es all ms) ms p = Next s' → step s s'.
Proof.
  intros Ht Hs. destruct p; simpl in Hs; try discriminate Hs; unfold release in Hs; outcome.
  all: rewrite ?Z.leb_gt, ?Z.eqb_eq, ?Z.eqb_neq in *; subst.
  all: try (eapply St_quiet; [exact Ht|]; econstructor; by eauto).
  all: try (eapply St_lock_w; [exact Ht|done..|]; econstructor; by eauto).
  all: try (eapply St_unlock_w; [exact Ht|done..|]; econstructor; by eauto).
  - eapply St_quiet; [exact Ht|]. econstructor; [done|]. left. split; [done|]. unfold fulfilled.
    by apply andb_true_iff in Heqb as [-> ?].
  - by eapply St_finish.
  - apply Z.eqb_eq in Heqb0. by_release (St_leave s t).
  - apply Z.eqb_neq in Heqb0. by_release (St_leave s t).
Qed.

Lemma set_exec s s' t c e p :
  threads s !! t = Some (Thread c p) → c = SetEvent e ∨ c = PulseEvent e →
  set_step s t c e p = Next s' → step s s'.
Proof.
  intros Ht Hc Hs.
  assert (He : ∀ q, setter (Thread c q) = Some e) by (by destruct Hc as [->| ->]).
  destruct p; simpl in Hs; try discriminate Hs; unfold release_info, release, set_done in Hs; outcome.
  all: rewrite ?Z.leb_gt in *.
  all: try (eapply St_quiet; [exact Ht|]; econstructor; by eauto).
  all: try (eapply St_lock_w; [exact Ht|done..|]; econstructor; by eauto).
  all: try (eapply St_unlock_w; [exact Ht|done..|]; econstructor; by eauto).
  all: try (eapply St_unlock; [exact Ht|done..|]; econstructor; by eauto).
  all: try (eapply St_store; [exact Ht|done..|]; econstructor; by eauto).
  all: try (eapply St_wake; [exact Ht|]; econstructor; by eauto).
  - unfold with_event in *. simplify_map_eq. eapply St_lock; [exact Ht|done..|]. by constructor.
  - destruct (RegisteredWaits x) eqn:Hl; outcome; (eapply St_quiet; [exact Ht|]).
    + by eapply Q_front.
    + by eapply Q_hand.
  - destruct Hc as [->| ->]; by_release (St_remove s t).
  - destruct Hc as [->| ->]; by_release (St_remove s t).
  - apply andb_true_iff in Heqb as [? ?%negb_true_iff]. eapply St_quiet; [exact Ht|]. by eapply Q_stale.
  - eapply step_eq; [eapply (St_fire s t c e x i y); try done|].
    + intros Ha. rewrite Ha in Heqb. by apply negb_false_iff in Heqb.
    + intros Ha. rewrite Ha in Heqb0. simpl in Heqb0. lia.
    + destruct (AutoReset x); [done|]. unfold put_event. by rewrite insert_id by done; destruct s.
  - destruct Hc as [->| ->]; by_release (St_remove s t).
  - destruct Hc as [->| ->]; by_release (St_remove s t).
  - destruct Hc as [->| ->]; outcome; (eapply St_unlock; [exact Ht|done..|]).
    + by apply (U_set e x (SetEvent e)).
    + by apply (U_set e x (PulseEvent e)).
  - destruct Hc as [->| ->]; outcome; (eapply St_quiet; [exact Ht|]).
    + by apply (Q_set s (SetEvent e) _ e x).
    + by apply (Q_set s (PulseEvent e) _ e x).
  - destruct Hc as [->| ->]; outcome; (eapply St_wake; [exact Ht|]).
    + by apply (WK_broadcast (SetEvent e)).
    + by apply (WK_broadcast (PulseEvent e)).
Qed.

Lemma run_exec s s' t th :
  threads s !! t = Some th → keeps (t_call th) = true →
  run_thread s t (t_call th) (t_pc th) = Next s' → step s s'.
Proof.
  destruct th as [[e ms|es all ms|e|e|e|e] p]; simpl; intros Ht Hk Hs.
  - by eapply wait_exec.
  - destruct (scan_step _ _ _ _ _ _) eqn:Hsc; [|done|].
    + by eapply multi_exec.
    + injection Hs as <-. by eapply scan_exec.
  - eapply set_exec; [done| |done]. auto.
  - destruct p; simpl in Hs; try discriminate Hs. outcome. eapply St_reset; eauto.
  - destruct p; try (eapply set_exec; [done| |done]; auto). simpl in Hs. outcome. eapply St_reset; eauto.
  - done.
Qed.

Lemma exec_rule s m s' :
  map_Forall (λ _ th, keeps (t_call th) = true) (threads s) → lasting m = true →
  exec s m = Next s' → step s s'.
Proof.
  intros Hk Hl Hs. destruct m as [man ini|c|t|t u|t|t]; simpl in Hs.
  - injection Hs as <-. apply St_create, not_elem_of_dom, is_fresh.
  - destruct (forallb _ _) eqn:Hf; [|done]. injection Hs as <-. apply St_call.
    + apply not_elem_of_dom, is_fresh.
    + intros e He. rewrite forallb_forall in Hf. specialize (Hf e). rewrite <- list_elem_of_In in Hf.
      by apply bool_decide_eq_true in Hf.
    + by intros e ->.
  - destruct (threads s !! t) as [th|] eqn:Ht; [|done]. eapply run_exec; [done| |done]. by eapply Hk.
  - destruct (threads s !! t) as [[c []]|] eqn:Ht; try done. destruct (threads s !! u) as [th|] eqn:Hu; [|done].
    destruct c as [| |e| |e|]; try done; outcome; outcome; by eapply (St_signal s t u e _ th Ht eq_refl Hu).
  - destruct (threads s !! t) as [th|] eqn:Ht; [|done]. destruct (is_asleep th) eqn:Ha; [|done].
    injection Hs as <-. eapply St_quiet; [done|]. constructor; [done|by left].
  - destruct (threads s !! t) as [th|] eqn:Ht; [|done]. destruct (is_asleep th) eqn:Ha; [|done].
    simpl in Hs. destruct (limit (t_call th) =? WAIT_INFINITE) eqn:Hlim; [done|]. simpl in Hs. injection Hs as <-.
    eapply St_quiet; [done|]. constructor; [done|]. right. split; [done|]. by apply Z.eqb_neq.
Qed.

