(* ===== verification/PeventsInv.v ===== *)
(** What holds in every state [Pevents] reaches while nobody destroys an event:
    who holds which mutex, and what the reference counts of waiters count. *)
From S2P Require Import Prelude Pevents PeventsSteps.
Local Open Scope Z_scope.

(** * Looking threads up after a step *)

Lemma waked_holds_e P th : holds_e (waked P th) = holds_e th.
Proof. unfold waked. destruct (P th); [apply woken_holds_e|done]. Qed.
Lemma waked_holds_w P th : holds_w (waked P th) = holds_w th.
Proof. unfold waked. destruct (P th); [apply woken_holds_w|done]. Qed.
Lemma waked_owner P th : owner (waked P th) = owner th.
Proof. unfold waked. destruct (P th); [apply woken_owner|done]. Qed.
Lemma waked_hand P th : hand (waked P th) = hand th.
Proof. unfold waked. destruct (P th); [apply woken_hand|done]. Qed.
Lemma waked_call P th : t_call (waked P th) = t_call th.
Proof. unfold waked. by destruct (P th). Qed.

Create Rewrite HintDb woken.
#[export] Hint Rewrite woken_holds_e woken_holds_w woken_owner woken_hand woken_call
  waked_holds_e waked_holds_w waked_owner waked_hand waked_call : woken.

(** Split the lookups of updated maps, everywhere. *)
Ltac look :=
  repeat match goal with
  | H : <[_ := _]> _ !! _ = Some _ |- _ => apply lookup_insert_Some in H as [[? ?]|[? ?]]; simplify_eq/=
  | H : delete _ _ !! _ = Some _ |- _ => apply lookup_delete_Some in H as [? ?]; simplify_eq/=
  | H : (_ <$> _) !! _ = Some _ |- _ => apply lookup_fmap_Some in H as (? & ? & ?); simplify_eq/=
  end; autorewrite with woken in *.

(** What the rules leave alone. *)
Lemma quiet_view s th th' :
  quiet s th th' → holds_e th' = holds_e th ∧ holds_w th' = holds_w th ∧ owner th' = owner th ∧
    t_call th' = t_call th.
Proof.
  destruct 1; unfold after_load; destruct_or?; destruct_and?; subst;
    try match goal with c : call |- _ => destruct c; try done end;
    try (destruct (AutoReset x)); try (destruct (StillWaiting w)); try done.
  all: try (by autorewrite with woken).
  unfold owner; simpl; split_and!; try done. do 3 f_equal. lia.
Qed.

Lemma locks_view e x th th' :
  locks e x th th' → holds_e th = None ∧ holds_e th' = Some e ∧ holds_w th' = holds_w th ∧ owner th' = owner th ∧
    hand th = None ∧ hand th' = None ∧ t_call th' = t_call th.
Proof.
  destruct 1; try match goal with c : call |- _ => destruct c; simplify_eq/=; try done end;
    try (by destruct (AutoReset x)); try (by destruct (rc =? 0)); try done.
Qed.

Lemma unlocks_view e x th th' :
  unlocks e x th th' → holds_e th = Some e ∧ holds_e th' = None ∧ holds_w th' = holds_w th ∧ owner th' = owner th ∧
    hand th = None ∧ hand th' = None ∧ t_call th' = t_call th.
Proof.
  destruct 1; destruct_or?; destruct_and?; subst;
    try match goal with c : call |- _ => destruct c; simplify_eq/=; try done end; try done.
Qed.

Lemma takes_view e th th' :
  takes e th th' → holds_e th = Some e ∧ holds_e th' = Some e ∧ holds_w th' = holds_w th ∧ owner th' = owner th ∧
    hand th = None ∧ hand th' = None ∧ t_call th' = t_call th.
Proof. by destruct 1. Qed.

Lemma stores_view e th th' :
  stores e th th' → holds_e th = Some e ∧ holds_e th' = Some e ∧ holds_w th' = holds_w th ∧ owner th' = owner th ∧
    hand th = None ∧ hand th' = None ∧ t_call th' = t_call th.
Proof. destruct 1; destruct c; by simplify_eq/=. Qed.

Lemma removes_view e x i k th th' :
  removes e x i k th th' → holds_e th = Some e ∧ holds_e th' = Some e ∧ holds_w th' = holds_w th ∧ owner th' = owner th ∧
    hand th' = None ∧ t_call th' = t_call th ∧ (k = 0%nat → hand th = None ∨ ∃ b, hand th = Some (i, b)).
Proof.
  destruct 1; try match goal with c : call |- _ => destruct c; simplify_eq/=; try done end;
    try (by destruct (AutoReset x); eauto 10); eauto 10.
Qed.

Lemma wlocks_view w th th' :
  wlocks w th th' → holds_w th = None ∧ holds_w th' = Some w ∧ holds_e th' = holds_e th ∧ owner th' = owner th ∧
    hand th' = hand th ∧ t_call th' = t_call th.
Proof. destruct 1; subst; [by destruct (rc =? 0)|by destruct c; simplify_eq/=]. Qed.

Lemma wunlocks_view w y th th' :
  wunlocks w y th th' → holds_w th = Some w ∧ holds_w th' = None ∧ holds_e th' = holds_e th ∧ owner th' = owner th ∧
    hand th' = hand th ∧ t_call th' = t_call th.
Proof. destruct 1; subst; try done; by destruct c; simplify_eq/=. Qed.

Lemma wakes_view P th th' :
  wakes P th th' → holds_w th' = holds_w th ∧ holds_e th' = holds_e th ∧ owner th' = owner th ∧
    hand th' = hand th ∧ t_call th' = t_call th.
Proof. destruct 1; subst; destruct c; by simplify_eq/=. Qed.

(** Take a rule apart, down to who moves from where to where. *)
Ltac rule Hs :=
  destruct Hs; simpl in *;
  try match goal with
  | H : quiet _ _ _ |- _ => destruct H
  | H : locks _ _ _ _ |- _ => destruct H
  | H : unlocks _ _ _ _ |- _ => destruct H
  | H : takes _ _ _ |- _ => destruct H
  | H : stores _ _ _ |- _ => destruct H
  | H : removes _ _ _ _ _ _ |- _ => destruct H
  | H : wlocks _ _ _ |- _ => destruct H
  | H : wunlocks _ _ _ _ |- _ => destruct H
  | H : wakes _ _ _ |- _ => destruct H
  end; destruct_or?; destruct_and?; subst; simpl in *.

(** * The mutexes of the events *)

Record elock_inv (s : conf) : Prop := ElockInv {
  el_holder : ∀ t th e, threads s !! t = Some th → holds_e th = Some e →
    ∃ x, events s !! e = Some x ∧ Mutex x = Some t;
  el_held : ∀ e x t, events s !! e = Some x → Mutex x = Some t →
    ∃ th, threads s !! t = Some th ∧ holds_e th = Some e;
  el_call : ∀ t th e, threads s !! t = Some th → e ∈ call_events (t_call th) → is_Some (events s !! e);
}.

(** An update of an event that keeps its holder, and one of another. *)
Lemma holder_put (m : gmap positive event) e x x' e0 t :
  m !! e = Some x → Mutex x' = Mutex x → (∃ x0, m !! e0 = Some x0 ∧ Mutex x0 = Some t) →
  ∃ x0, <[e := x']> m !! e0 = Some x0 ∧ Mutex x0 = Some t.
Proof.
  intros He Hm (x0 & H0 & H1). destruct (decide (e0 = e)) as [->|].
  - exists x'. rewrite lookup_insert_eq. split; [done|]. simplify_eq. congruence.
  - exists x0. by rewrite lookup_insert_ne by done.
Qed.
Lemma holder_other (m : gmap positive event) e x' e0 t :
  e0 ≠ e → (∃ x0, m !! e0 = Some x0 ∧ Mutex x0 = Some t) → ∃ x0, <[e := x']> m !! e0 = Some x0 ∧ Mutex x0 = Some t.
Proof. intros ? (x0 & ? & ?). exists x0. by rewrite lookup_insert_ne by done. Qed.

(** A thread that does not move, or only wakes up. *)
Lemma find_other (m : gmap positive thread) t th' t0 (P : thread → Prop) :
  t0 ≠ t → (∃ th, m !! t0 = Some th ∧ P th) → ∃ th, <[t := th']> m !! t0 = Some th ∧ P th.
Proof. intros ? (th & ? & ?). exists th. by rewrite lookup_insert_ne by done. Qed.
Lemma find_moved (m : gmap positive thread) t th th' t0 (P : thread → Prop) :
  m !! t = Some th → (P th → P th') → (∃ th, m !! t0 = Some th ∧ P th) → ∃ th, <[t := th']> m !! t0 = Some th ∧ P th.
Proof.
  intros Ht HP (th0 & ? & ?). destruct (decide (t0 = t)) as [->|].
  - exists th'. rewrite lookup_insert_eq. split; [done|]. simplify_eq. auto.
  - exists th0. by rewrite lookup_insert_ne by done.
Qed.
Lemma find_waked (m : gmap positive thread) Q t0 (P : thread → Prop) :
  (∀ th, P th → P (waked Q th)) → (∃ th, m !! t0 = Some th ∧ P th) → ∃ th, (waked Q <$> m) !! t0 = Some th ∧ P th.
Proof. intros HP (th0 & H0 & ?). exists (waked Q th0). rewrite lookup_fmap, H0. auto. Qed.

Lemma find_woken (m : gmap positive thread) t th th' Q t0 (P : thread → Prop) :
  m !! t = Some th → (∀ th, P th → P (waked Q th)) → (P th → P th') →
  (∃ th, m !! t0 = Some th ∧ P th) → ∃ th, <[t := th']> (waked Q <$> m) !! t0 = Some th ∧ P th.
Proof.
  intros Ht HQ HP (th0 & H0 & Hp). destruct (decide (t0 = t)) as [->|].
  - exists th'. rewrite lookup_insert_eq. split; [done|]. simplify_eq. auto.
  - apply find_other; [done|]. apply find_waked; [done|]. eauto.
Qed.
Lemma find_signal (m : gmap positive thread) t th th' u thu t0 (P : thread → Prop) :
  m !! t = Some th → m !! u = Some thu → (P thu → P (woken 0 thu)) → (P th → P th') →
  (∃ th, m !! t0 = Some th ∧ P th) → ∃ th, <[t := th']> (<[u := woken 0 thu]> m) !! t0 = Some th ∧ P th.
Proof.
  intros Ht Hu HQ HP (th0 & H0 & Hp). destruct (decide (t0 = t)) as [->|].
  - exists th'. rewrite lookup_insert_eq. split; [done|]. simplify_eq. auto.
  - apply find_other; [done|]. eapply find_moved; eauto.
Qed.

(** Bring in what a rule leaves alone. *)
Ltac views :=
  repeat match goal with
  | H : quiet _ _ _ |- _ => apply quiet_view in H as (? & ? & ? & ?)
  | H : locks _ _ _ _ |- _ => apply locks_view in H as (? & ? & ? & ? & ? & ? & ?)
  | H : unlocks _ _ _ _ |- _ => apply unlocks_view in H as (? & ? & ? & ? & ? & ? & ?)
  | H : takes _ _ _ |- _ => apply takes_view in H as (? & ? & ? & ? & ? & ? & ?)
  | H : stores _ _ _ |- _ => apply stores_view in H as (? & ? & ? & ? & ? & ? & ?)
  | H : removes _ _ _ _ _ _ |- _ => apply removes_view in H as (? & ? & ? & ? & ? & ? & ?)
  | H : wlocks _ _ _ |- _ => apply wlocks_view in H as (? & ? & ? & ? & ? & ?)
  | H : wunlocks _ _ _ _ |- _ => apply wunlocks_view in H as (? & ? & ? & ? & ? & ?)
  | H : wakes _ _ _ |- _ => apply wakes_view in H as (? & ? & ? & ? & ?)
  end.

(** The thread that moves has kept what is asked of it. *)
Ltac kept :=
  intros; first
    [congruence
    |done
    |match goal with c : call |- _ => destruct c; simpl in *; done || congruence end].

Lemma elock_holder_step s s' : elock_inv s → step s s' →
  ∀ t th e, threads s' !! t = Some th → holds_e th = Some e → ∃ x, events s' !! e = Some x ∧ Mutex x = Some t.
Proof.
  intros [H1 H2 H3] Hs t0 th0 e0. destruct Hs; simpl; intros Ht0 He0; views; look.
  all: try (by destruct c).
  all: try (eapply H1; [eassumption|]; congruence).
  all: try (eapply holder_put; [eassumption|by try case_match|]; eapply H1; [eassumption|]; congruence).
  - apply holder_other; [|by eapply H1]. intros ->. destruct (H1 _ _ _ Ht0 He0) as (? & ? & _). congruence.
  - eexists. by rewrite lookup_insert_eq.
  - apply holder_other; [|by eapply H1]. intros ->. destruct (H1 _ _ _ H13 He0) as (? & ? & ?). congruence.
  - apply holder_other; [|by eapply H1]. intros ->. destruct (H1 _ _ _ H12 He0) as (? & ? & ?).
    destruct (H1 _ _ _ H H4) as (? & ? & ?). congruence.
  - eapply holder_put; [eassumption|done|]. by eapply H1.
  - eapply holder_put; [eassumption|by destruct (AutoReset x)|]. eapply H1; [eassumption|]. by destruct c.
Qed.

Lemma elock_held_step s s' : elock_inv s → step s s' →
  ∀ e x t, events s' !! e = Some x → Mutex x = Some t → ∃ th, threads s' !! t = Some th ∧ holds_e th = Some e.
Proof.
  intros [H1 H2 H3] Hs e0 x0 t0. destruct Hs; simpl; intros He0 Hm0; views; look.
  all: try (eapply find_moved; [eassumption|by kept|]; eapply H2; [eassumption|by repeat case_match]; fail).
  - by eapply H2.
  - apply find_other; [|by eapply H2]. intros ->. destruct (H2 _ _ _ He0 Hm0) as (? & ? & _). congruence.
  - eexists. by rewrite lookup_insert_eq.
  - eapply (find_woken _ _ th); [done|intros ?; by autorewrite with woken|congruence|]. by eapply H2.
  - eapply find_signal; [exact H|done|by autorewrite with woken|by kept|]. by eapply H2.
Qed.

Lemma elock_step s s' : elock_inv s → step s s' → elock_inv s'.
Proof.
  intros Hinv Hs. split.
  - by eapply elock_holder_step.
  - by eapply elock_held_step.
  - destruct Hinv as [_ _ H3]. intros t0 th0 e0.
    assert (Hx : ∀ e x, is_Some (events s !! e0) → is_Some (<[e := x]> (events s) !! e0)).
    { intros e x ?. rewrite lookup_insert_is_Some'. auto. }
    destruct Hs; simpl; intros Ht0 He0; views; look.
    all: try (eapply H3; [eassumption|]; by kept).
    all: try (apply Hx; eapply H3; [eassumption|]; by kept).
    + by apply H0.
    + eapply H3; [exact H|done].
Qed.

(** * Where a scan is *)

Definition index_ok (th : thread) : Prop :=
  match t_call th, t_pc th with
  | WaitForMultipleEvents es _ _,
    (M_acquire f | M_lock f | M_clean f _ | M_expire f _ | M_try f | M_take f | M_unlock f | M_hit f | M_push f
     | M_pushed f) => (f_i f < length es)%nat
  | _, _ => True
  end.
Definition index_inv (s : conf) : Prop := ∀ t th, threads s !! t = Some th → index_ok th.

Lemma woken_index_ok rc th : index_ok th → index_ok (woken rc th).
Proof. by destruct th as [[] []]. Qed.
Lemma waked_index_ok P th : index_ok th → index_ok (waked P th).
Proof. unfold waked. destruct (P th); [apply woken_index_ok|done]. Qed.

Lemma quiet_index s th th' : quiet s th th' → index_ok th → index_ok th'.
Proof.
  destruct 1; unfold after_load; destruct_or?; destruct_and?; subst;
    try match goal with c : call |- _ => destruct c; try done end;
    try (destruct (AutoReset x)); try (destruct (StillWaiting w)); try done;
    try (intros _; by eapply lookup_lt_Some).
  by apply woken_index_ok.
Qed.

Lemma index_step s s' : index_inv s → step s s' → index_inv s'.
Proof.
  intros Hi Hs t0 th0. destruct Hs; simpl; intros Ht0; look; try (by eapply Hi).
  all: try (apply waked_index_ok; by eapply Hi).
  all: try match goal with H : threads _ !! _ = Some _ |- _ => pose proof (Hi _ _ H) as Ho end.
  all: try match goal with
  | H : quiet _ _ _ |- _ => by eapply quiet_index
  | H : locks _ _ _ _ |- _ => destruct H
  | H : unlocks _ _ _ _ |- _ => destruct H
  | H : takes _ _ _ |- _ => destruct H
  | H : stores _ _ _ |- _ => destruct H
  | H : removes _ _ _ _ _ _ |- _ => destruct H
  | H : wlocks _ _ _ |- _ => destruct H
  | H : wunlocks _ _ _ _ |- _ => destruct H
  | H : wakes _ _ _ |- _ => destruct H
  | |- index_ok (woken _ _) => by apply woken_index_ok
  end.
  all: try match goal with c : call |- _ => by destruct c; repeat case_match end.
  all: try done; try (by destruct (_ =? _)); try by eapply lookup_lt_Some.
Qed.

(** * What the reference counts count *)

Definition owns (w : positive) (th : thread) : Prop := ∃ i k, owner th = Some (w, i, k).
Definition has_owner (m : gmap positive thread) (w : positive) : Prop := ∃ t th, m !! t = Some th ∧ owns w th.

(** A waiter's count is that of the registrations that name it, and, as long as
    its maker has not left, one for the maker and one for each event the maker
    has not registered with. *)
Record share_inv (s : conf) : Prop := ShareInv {
  sh_owner : ∀ t th w i k, threads s !! t = Some th → owner th = Some (w, i, k) →
    ∃ y, waiters s !! w = Some y ∧ asked y = call_events (t_call th) ∧ (∀ j, j ∈ shares y → (j < i)%nat) ∧
      RefCount y = Z.of_nat (size (shares y)) + 1 + Z.of_nat k + Z.of_nat (length (asked y) - i);
  sh_unique : ∀ t1 t2 th1 th2 w i1 i2 k1 k2, threads s !! t1 = Some th1 → owner th1 = Some (w, i1, k1) →
    threads s !! t2 = Some th2 → owner th2 = Some (w, i2, k2) → t1 = t2;
  sh_alone : ∀ w y, waiters s !! w = Some y →
    has_owner (threads s) w ∨
    RefCount y = Z.of_nat (size (shares y)) ∧ shares y ≠ ∅;
  sh_entry : ∀ e x i, events s !! e = Some x → i ∈ RegisteredWaits x →
    ∃ y, waiters s !! Waiter i = Some y ∧ WaitIndex i ∈ shares y ∧ asked y !! WaitIndex i = Some e;
  sh_nodup : ∀ e x, events s !! e = Some x → NoDup (RegisteredWaits x);
  sh_found : ∀ w y j, waiters s !! w = Some y → j ∈ shares y →
    ∃ e x, events s !! e = Some x ∧ Info w j ∈ RegisteredWaits x;
  sh_front : ∀ t th i b, threads s !! t = Some th → hand th = Some (i, b) →
    ∃ e x l, holds_e th = Some e ∧ events s !! e = Some x ∧ RegisteredWaits x = i :: l;
}.

(** Changes of a waiter that leave its references alone. *)
Definition same_refs (y y' : wfmo) : Prop :=
  asked y' = asked y ∧ RefCount y' = RefCount y ∧ shares y' = shares y.
Lemma same_refs_fire i y : same_refs y (fire i y).
Proof. unfold fire. by destruct (WaitAll y). Qed.

Lemma fire_mutex i y : WMutex (fire i y) = WMutex y.
Proof. unfold fire. by destruct (WaitAll y). Qed.

Definition owned (m : gmap positive wfmo) (w : positive) (es : list positive) (i k : nat) : Prop :=
  ∃ y, m !! w = Some y ∧ asked y = es ∧ (∀ j, j ∈ shares y → (j < i)%nat) ∧
    RefCount y = Z.of_nat (size (shares y)) + 1 + Z.of_nat k + Z.of_nat (length (asked y) - i).

Lemma owned_put m w0 y y' w es i k :
  m !! w0 = Some y → same_refs y y' → owned m w es i k → owned (<[w0 := y']> m) w es i k.
Proof.
  intros Hw (Ha & Hr & Hs) (y0 & H0 & H1 & H2 & H3). destruct (decide (w = w0)) as [->|].
  - exists y'. rewrite lookup_insert_eq. simplify_eq. by rewrite Ha, Hr, Hs.
  - exists y0. by rewrite lookup_insert_ne by done.
Qed.
Lemma owned_other m w0 y' w es i k : w ≠ w0 → owned m w es i k → owned (<[w0 := y']> m) w es i k.
Proof. intros ? (y0 & ?). exists y0. by rewrite lookup_insert_ne by done. Qed.

(** Giving back a registration. *)
Lemma size_less (X : gset nat) j : j ∈ X → size X = S (size (X ∖ {[j]})).
Proof.
  intros Hj. rewrite (size_difference X) by set_solver. rewrite size_singleton.
  enough (size ({[j]} : gset nat) ≤ size X)%nat by (rewrite size_singleton in *; lia).
  apply subseteq_size. set_solver.
Qed.
Lemma owned_released m w0 y j w es i k :
  m !! w0 = Some y → j ∈ shares y → owned m w es i k → owned (released m w0 y 1 (shares y ∖ {[j]})) w es i k.
Proof.
  intros Hw Hj (y0 & H0 & H1 & H2 & H3). pose proof (size_less _ _ Hj) as Hsz.
  unfold released. destruct (decide (w = w0)) as [->|].
  - simplify_eq. destruct (RefCount y =? 1) eqn:E; [lia|].
    eexists. rewrite lookup_insert_eq. split; [done|]. simpl. split_and!; [done|set_solver|lia].
  - exists y0. split; [|done]. case_match.
    + by rewrite lookup_delete_ne by done.
    + by rewrite lookup_insert_ne by done.
Qed.

Lemma owned_released_other m w0 y n X w es i k :
  w ≠ w0 → owned m w es i k → owned (released m w0 y n X) w es i k.
Proof.
  intros ? (y0 & ?). exists y0. unfold released. case_match.
  - by rewrite lookup_delete_ne by done.
  - by rewrite lookup_insert_ne by done.
Qed.

Lemma released_lookup m w0 y n X w y' :
  released m w0 y n X !! w = Some y' →
  w ≠ w0 ∧ m !! w = Some y' ∨
  w = w0 ∧ (RefCount y =? n) = false ∧ y' = set_shares X (set_RefCount (RefCount y - n) y).
Proof.
  unfold released. destruct (RefCount y =? n); intros Hw.
  - apply lookup_delete_Some in Hw as [? ?]. auto.
  - apply lookup_insert_Some in Hw as [[? ?]|[? ?]]; auto.
Qed.

(** The registration that a rule removes is one of the event's. *)
Lemma removed_entry s t th e x k i :
  share_inv s → threads s !! t = Some th → holds_e th = Some e → events s !! e = Some x →
  RegisteredWaits x !! k = Some i ∨ k = 0%nat ∧ (∃ b, hand th = Some (i, b)) →
  RegisteredWaits x !! k = Some i.
Proof.
  intros Hinv Ht He Hx [?|[-> [b Hb]]]; [done|].
  destruct (sh_front s Hinv _ _ _ _ Ht Hb) as (e' & x' & l & ? & ? & Hl). simplify_eq. by rewrite Hl.
Qed.

Ltac removed Hinv :=
  match goal with
  | Ht : threads ?s !! _ = Some ?th, He : holds_e ?th = Some ?e, Hx : events ?s !! ?e = Some ?x,
    Hor : RegisteredWaits ?x !! ?k = Some ?i ∨ _ = 0%nat ∧ (∃ b, hand ?th = Some (_, b)) |- _ =>
    pose proof (removed_entry _ _ _ _ _ _ _ Hinv Ht He Hx Hor) as Hentry;
    destruct (sh_entry _ Hinv _ _ _ Hx (list_elem_of_lookup_2 _ _ _ Hentry)) as (? & ? & ? & ?); simplify_eq; clear Hor
  end.

(** Read off what the view of a concrete thread is, without computing with numbers. *)
Ltac fields :=
  repeat match goal with
  | H : owner _ = Some _ |- _ => unfold owner in H
  | H : index_ok _ |- _ => unfold index_ok in H
  end;
  cbn [t_call t_pc f_wfmo f_i skipped_refs call_events] in *; simplify_eq.

Lemma owned_step s s' : elock_inv s → index_inv s → share_inv s → step s s' →
  ∀ t th w i k, threads s' !! t = Some th → owner th = Some (w, i, k) →
    owned (waiters s') w (call_events (t_call th)) i k.
Proof.
  intros Hlock Hidx Hinv Hs t0 th0 w0 i0 k0.
  assert (HO : ∀ t th w i k es, threads s !! t = Some th → owner th = Some (w, i, k) →
            call_events (t_call th) = es → owned (waiters s) w es i k).
  { intros t th w i k es Ht Ho <-. by eapply (sh_owner s Hinv). }
  destruct Hs; simpl; intros Ht0 Ho0; views; look.
  all: try (eapply HO; [eassumption|by kept..]).
  all: try (eapply owned_put; [eassumption|done|]; eapply HO; [eassumption|by kept..]).
  all: try (eapply owned_put; [eassumption|apply same_refs_fire|]; eapply HO; [eassumption|by kept..]).
  all: try (removed Hinv; apply owned_released; [done..|]; eapply HO; [eassumption|by kept..]).
  - by destruct c.
  - pose proof (Hidx _ _ H) as Hi.  fields.
    destruct (HO _ _ _ _ _ _ H eq_refl eq_refl) as (y0 & Hy0 & Ha & Hj & Hr). fields. simplify_eq.
    eexists. rewrite lookup_insert_eq. split; [done|]. cbn [set_shares add_hit set_Status asked shares RefCount]. split; [done|].
    assert (Hf : f_i f ∉ shares y) by (intros Hf; specialize (Hj _ Hf); lia).
    rewrite size_union by set_solver. rewrite size_singleton. split; [|lia].
    intros j [->%elem_of_singleton|Hj']%elem_of_union; [lia|]. specialize (Hj _ Hj'). lia.
  - apply owned_other; [|by eapply HO]. intros ->. apply H3. by eapply (sh_unique s Hinv).
  - fields. eexists. rewrite lookup_insert_eq. split; [done|]. cbn [asked shares RefCount].
    split_and!; [done|set_solver|rewrite size_empty; lia].
  - apply owned_other; [|by eapply HO]. intros ->. destruct (HO _ _ _ _ _ _ H2 Ho0 eq_refl) as (? & ? & _). congruence.
  - pose proof (Hidx _ _ H) as Hi.  fields.
    destruct (HO _ _ _ _ _ _ H eq_refl eq_refl) as (y0 & Hy0 & Ha & Hj & Hr). fields. simplify_eq.
    eexists. rewrite lookup_insert_eq. split; [done|]. cbn [set_shares add_hit set_Status asked shares RefCount]. split_and!; [done| |lia].
    intros j Hj'. specialize (Hj _ Hj'). lia.
  - pose proof (Hidx _ _ H) as Hi.  fields.
    destruct (HO _ _ _ _ _ _ H eq_refl eq_refl) as (y0 & Hy0 & Ha & Hj & Hr). fields. simplify_eq.
    eexists. rewrite lookup_insert_eq. split; [done|]. cbn [set_shares add_hit set_Status asked shares RefCount]. split_and!; [done| |lia].
    intros j Hj'. specialize (Hj _ Hj'). lia.
  - apply owned_released_other; [|by eapply HO]. intros ->. apply H2. by eapply (sh_unique s Hinv).
Qed.

(** Who owns a waiter owned it before, or has just made it. *)
Lemma owner_origin s s' : step s s' →
  ∃ tn, ∀ t th w i k, threads s' !! t = Some th → owner th = Some (w, i, k) →
    (∃ th0 i0 k0, threads s !! t = Some th0 ∧ owner th0 = Some (w, i0, k0) ∧ t_call th = t_call th0 ∧
      (i0 ≤ i)%nat) ∨ t = tn ∧ waiters s !! w = None.
Proof.
  destruct 1; exists t || exists xH; simpl; intros t0 th0 w0 i0 k0 Ht0 Ho0; views; look.
  all: try match goal with E : owner ?a = owner _, Ho : owner ?a = Some _ |- _ => rewrite E in Ho end.
  all: try (left; do 3 eexists; split_and!; [eassumption|eassumption|by autorewrite with woken|done]; fail).
  all: try (fields; left; do 3 eexists; split_and!; [eassumption|reflexivity|done|lia]; fail).
  all: try (by destruct c).
  - fields. auto.
Qed.

Lemma unique_step s s' : share_inv s → step s s' →
  ∀ t1 t2 th1 th2 w i1 i2 k1 k2, threads s' !! t1 = Some th1 → owner th1 = Some (w, i1, k1) →
    threads s' !! t2 = Some th2 → owner th2 = Some (w, i2, k2) → t1 = t2.
Proof.
  intros Hinv Hs t1 t2 th1 th2 w i1 i2 k1 k2 H1 O1 H2 O2. destruct (owner_origin s s' Hs) as [tn Ho].
  destruct (Ho _ _ _ _ _ H1 O1) as [(a & ? & ? & Ha & Oa & _)|[-> Hn]],
    (Ho _ _ _ _ _ H2 O2) as [(b & ? & ? & Hb & Ob & _)|[-> Hn']].
  - by eapply (sh_unique s Hinv).
  - destruct (sh_owner s Hinv _ _ _ _ _ Ha Oa) as (? & ? & _). congruence.
  - destruct (sh_owner s Hinv _ _ _ _ _ Hb Ob) as (? & ? & _). congruence.
  - done.
Qed.

(** A maker stays until it leaves. *)
Lemma owns_same w th th' : owner th' = owner th → owns w th → owns w th'.
Proof. unfold owns. by intros ->. Qed.

Lemma owners_step s s' : step s s' →
  (∀ w, has_owner (threads s) w → has_owner (threads s') w) ∨
  ∃ t es all ms f rc idx y,
    threads s !! t = Some (Thread (WaitForMultipleEvents es all ms) (M_drop f rc idx)) ∧
    waiters s !! f_wfmo f = Some y ∧
    s' = Conf (<[t := Thread (WaitForMultipleEvents es all ms) (Done rc idx)]> (threads s)) (events s)
           (released (waiters s) (f_wfmo f) y (1 + Z.of_nat (skipped_refs f)) (shares y)).
Proof.
  intros Hs. destruct Hs; simpl; [| | | | | | | | | | | | | | | | |right; by do 8 eexists| |]; left;
    intros w0 [t0 Ho]; views; exists t0.
  all: try exact Ho.
  all: try (eapply find_moved; [eassumption|by apply owns_same|exact Ho]; fail).
  all: try (eapply find_moved; [eassumption|by apply owns_same; destruct c|exact Ho]; fail).
  all: try (eapply find_moved; [eassumption|intros (? & ? & ?); fields; by do 2 eexists|exact Ho]; fail).
  - apply find_other; [|done]. destruct Ho as (? & ? & _). congruence.
  - eapply find_woken; [done|intros ?; by apply owns_same, waked_owner|by apply owns_same|done].
  - eapply find_signal; [exact H|done|by apply owns_same, woken_owner| |done]. apply owns_same. by destruct c.
Qed.

Definition alone (m : gmap positive thread) (w : positive) (y : wfmo) : Prop :=
  has_owner m w ∨ RefCount y = Z.of_nat (size (shares y)) ∧ shares y ≠ ∅.

Lemma has_owner_at m t th w i k : m !! t = Some th → owner th = Some (w, i, k) → has_owner m w.
Proof. intros. exists t, th. split; [done|]. by do 2 eexists. Qed.

(** A registration less: there are others, or somebody else counts. *)
Lemma alone_less m w y j :
  j ∈ shares y → (RefCount y =? 1) = false → alone m w y →
  alone m w (set_shares (shares y ∖ {[j]}) (set_RefCount (RefCount y - 1) y)).
Proof.
  intros Hj Hr [?|[Hc _]]; [by left|right]. simpl. rewrite (size_less _ _ Hj) in Hc. split; [lia|].
  intros E. rewrite E in Hc. rewrite size_empty in Hc. lia.
Qed.

Lemma alone_step s s' : share_inv s → step s s' → ∀ w y, waiters s' !! w = Some y → alone (threads s') w y.
Proof.
  intros Hinv Hs w0 y0.
  assert (HA : ∀ w y, waiters s !! w = Some y → alone (threads s) w y) by exact (sh_alone s Hinv).
  destruct (owners_step _ _ Hs) as [Hk|(t & es & all & ms & f & rc & idx & y & Ht & Hy & ->)].
  - assert (HA' : ∀ w y y', waiters s !! w = Some y → RefCount y' = RefCount y → shares y' = shares y →
              alone (threads s') w y').
    { intros w y y' Hw Hr Hsh. destruct (HA _ _ Hw) as [?|[? ?]]; [left; auto|right]. by rewrite Hr, Hsh. }
    destruct Hs; simpl in *; intros Hy0; views.
    all: try (look; eapply HA'; [eassumption|done..]; fail).
    + look; [left|by eapply HA']. by eapply has_owner_at; [apply lookup_insert_eq|].
    + removed Hinv. apply released_lookup in Hy0 as [[? ?]|(-> & Hr & ->)]; [by eapply HA'|].
      destruct (alone_less _ _ _ _ H12 Hr (HA _ _ H1)) as [?|?]; [left; auto|by right].
    + look; [left|by eapply HA']. by eapply has_owner_at; [apply lookup_insert_eq|].
    + look; eapply HA'; try done; apply same_refs_fire.
    + apply released_lookup in Hy0 as [[? ?]|(-> & Hr & ->)]; [by eapply HA'|].
      left. apply Hk. by eapply has_owner_at; [exact H|].
  - simpl. intros Hy0. destruct (sh_owner s Hinv _ _ _ _ _ Ht eq_refl) as (y1 & ? & Ha & Hj & Hr). fields.
    apply released_lookup in Hy0 as [[Hw ?]|(-> & Hn & ->)].
    + destruct (HA _ _ H) as [(t1 & th1 & Ht1 & Ho1)|?]; [left|by right].
      exists t1. apply find_other; [|by eauto]. intros ->. destruct Ho1 as (? & ? & Ho1). simplify_eq. by fields.
    + right. simpl. rewrite Nat.sub_diag in Hr. apply Z.eqb_neq in Hn. split; [lia|].
      intros E. rewrite E, size_empty in Hr. lia.
Qed.

(** ** Registrations *)

Definition entry_ok (m : gmap positive wfmo) (e : positive) (i : info) : Prop :=
  ∃ y, m !! Waiter i = Some y ∧ WaitIndex i ∈ shares y ∧ asked y !! WaitIndex i = Some e.

Lemma entry_put m w y y' e i :
  m !! w = Some y → asked y' = asked y → shares y ⊆ shares y' → entry_ok m e i → entry_ok (<[w := y']> m) e i.
Proof.
  intros Hw Ha Hs (y0 & H0 & H1 & H2). destruct (decide (Waiter i = w)) as [<-|].
  - exists y'. rewrite lookup_insert_eq. simplify_eq. rewrite Ha. split; [done|]. set_solver.
  - exists y0. by rewrite lookup_insert_ne by done.
Qed.
Lemma entry_put_new m w y' e i : m !! w = None → entry_ok m e i → entry_ok (<[w := y']> m) e i.
Proof. intros Hw (y0 & H0 & ?). exists y0. by rewrite lookup_insert_ne by congruence. Qed.

Lemma last_share s w y j :
  share_inv s → waiters s !! w = Some y → j ∈ shares y → RefCount y = 1 → shares y = {[j]}.
Proof.
  intros Hinv Hw Hj Hr. pose proof (size_less _ _ Hj) as Hsz.
  destruct (sh_alone s Hinv _ _ Hw) as [(t & th & Ht & i & k & Ho)|[Hc _]].
  - destruct (sh_owner s Hinv _ _ _ _ _ Ht Ho) as (y' & ? & _ & _ & Hc). simplify_eq. lia.
  - assert (Hz : size (shares y ∖ {[j]}) = 0%nat) by lia. apply size_empty_inv in Hz.
    apply set_eq. intros k. rewrite elem_of_singleton. split; [|by intros ->].
    intros Hk. destruct (decide (k = j)); [done|]. set_solver.
Qed.

Lemma entry_released s w y j e i :
  share_inv s → waiters s !! w = Some y → j ∈ shares y → i ≠ Info w j →
  entry_ok (waiters s) e i → entry_ok (released (waiters s) w y 1 (shares y ∖ {[j]})) e i.
Proof.
  intros Hinv Hw Hj Hi (y0 & H0 & H1 & H2). unfold released. destruct i as [w' j']; simpl in *.
  destruct (decide (w' = w)) as [->|].
  - simplify_eq. assert (j' ≠ j) by congruence. destruct (RefCount y =? 1) eqn:Hr.
    + apply Z.eqb_eq in Hr. pose proof (last_share s _ _ _ Hinv Hw Hj Hr). set_solver.
    + eexists. rewrite lookup_insert_eq. split; [done|]. simpl. set_solver.
  - exists y0. split; [|done]. case_match; [by rewrite lookup_delete_ne by done|by rewrite lookup_insert_ne by done].
Qed.

(** Its maker's references are not those of registrations. *)
Lemma entry_left s t th w k n y e i :
  share_inv s → threads s !! t = Some th → owner th = Some (w, n, k) → waiters s !! w = Some y →
  n = length (asked y) → entry_ok (waiters s) e i →
  entry_ok (released (waiters s) w y (1 + Z.of_nat k) (shares y)) e i.
Proof.
  intros Hinv Ht Ho Hw Hn (y0 & H0 & H1 & H2). unfold released. destruct (decide (Waiter i = w)) as [<-|].
  - simplify_eq. destruct (sh_owner s Hinv _ _ _ _ _ Ht Ho) as (y' & ? & Ha & _ & Hr). simplify_eq.
    rewrite (size_less _ _ H1), Nat.sub_diag in Hr. destruct (_ =? _) eqn:Hc; [lia|].
    eexists. by rewrite lookup_insert_eq.
  - exists y0. split; [|done]. case_match; [by rewrite lookup_delete_ne by done|by rewrite lookup_insert_ne by done].
Qed.

(** What is left of a list without repetitions when its [k]-th element is removed. *)
Lemma elem_of_delete {A} (l : list A) k x : x ∈ delete k l → x ∈ l.
Proof.
  revert k. induction l as [|a l IH]; intros [|k]; simpl; [done..| |].
  - by right.
  - intros [->|?]%elem_of_cons; [by left|]. right. eauto.
Qed.
Lemma NoDup_not_delete {A} (l : list A) k x : NoDup l → l !! k = Some x → x ∉ delete k l.
Proof.
  revert k. induction l as [|a l IH]; intros [|k] Hn; simpl; [done..| |]; apply NoDup_cons in Hn as [? Hn].
  - by intros [= ->].
  - intros Hk [->|Hx]%elem_of_cons.
    + by apply list_elem_of_lookup_2 in Hk.
    + by eapply IH.
Qed.
Lemma NoDup_delete {A} (l : list A) k : NoDup l → NoDup (delete k l).
Proof.
  revert k. induction l as [|a l IH]; intros [|k] Hn; simpl; [done..| |]; apply NoDup_cons in Hn as [? Hn]; [done|].
  constructor; [|by apply IH]. by intros ?%elem_of_delete.
Qed.

Lemma entry_step s s' : elock_inv s → share_inv s → step s s' →
  ∀ e x i, events s' !! e = Some x → i ∈ RegisteredWaits x → entry_ok (waiters s') e i.
Proof.
  intros Hlock Hinv Hs e0 x0 i0.
  assert (HE : ∀ e x i, events s !! e = Some x → i ∈ RegisteredWaits x → entry_ok (waiters s) e i)
    by exact (sh_entry s Hinv).
  destruct Hs; simpl; intros He0 Hi0; views.
  all: try (look; by eapply HE).
  all: try (look; eapply entry_put; [done..|by eapply HE]).
  - look; [by apply not_elem_of_nil in Hi0|by eapply HE].
  - assert (Hold : entry_ok (waiters s) e0 i0 →
      entry_ok (<[f_wfmo f := set_shares ({[f_i f]} ∪ shares y) y]> (waiters s)) e0 i0).
    { eapply entry_put; [done|done|]. simpl. set_solver. }
    look; [|by eapply Hold, HE]. apply elem_of_app in Hi0 as [?| ->%list_elem_of_singleton]; [by eapply Hold, HE|].
    destruct (sh_owner s Hinv _ _ _ _ _ H eq_refl) as (y1 & ? & Ha & _). fields.
    eexists. simpl. rewrite lookup_insert_eq. split; [done|]. simpl. set_solver.
  - removed Hinv. apply (entry_released s); [done..| |].
    + intros ->. destruct i as [wi ji]. simpl in *. look.
      * by apply (NoDup_not_delete _ _ _ (sh_nodup s Hinv _ _ H0) Hentry).
      * rename select (events s !! e0 = _) into Hx0. destruct (HE _ _ _ Hx0 Hi0) as (? & ? & _ & ?). by simplify_eq/=.
    + look; [apply elem_of_delete in Hi0|]; by eapply HE.
  - apply entry_put_new; [done|]. by eapply HE.
  - eapply entry_put; [done|apply same_refs_fire| |].
    + by rewrite (proj2 (proj2 (same_refs_fire i y))).
    + look; [|by eapply HE]. eapply HE; [done|]. by destruct (AutoReset x).
  - eapply (entry_left s); [done|exact H|done..| |by eapply HE].
    destruct (sh_owner s Hinv _ _ _ _ _ H eq_refl) as (y1 & ? & Ha & _). by fields.
Qed.

Lemma nodup_step s s' : elock_inv s → index_inv s → share_inv s → step s s' →
  ∀ e x, events s' !! e = Some x → NoDup (RegisteredWaits x).
Proof.
  intros Hlock Hidx Hinv Hs e0 x0. pose proof (sh_nodup s Hinv) as HN.
  destruct Hs; simpl; intros He0; look; try (by eapply HN); try (by eapply NoDup_delete, HN).
  - constructor.
  - apply NoDup_app. split_and!; [by eapply HN| |apply NoDup_singleton].
    intros i Hi ->%list_elem_of_singleton. destruct (sh_entry s Hinv _ _ _ H1 Hi) as (y' & ? & Hj & _). simplify_eq/=.
    destruct (sh_owner s Hinv _ _ _ _ _ H eq_refl) as (y1 & ? & Ha & Hlt & _). pose proof (Hidx _ _ H). fields.
    specialize (Hlt _ Hj). lia.
  - destruct (AutoReset x); by apply (HN e0 x).
Qed.

(** A registration stays where it is when an event is updated. *)
Definition registered (m : gmap positive event) (i : info) : Prop :=
  ∃ e x, m !! e = Some x ∧ i ∈ RegisteredWaits x.
Lemma registered_put m e x x' i :
  m !! e = Some x → (i ∈ RegisteredWaits x → i ∈ RegisteredWaits x') → registered m i → registered (<[e := x']> m) i.
Proof.
  intros He Hi (e0 & x0 & H0 & H1). destruct (decide (e0 = e)) as [->|].
  - exists e, x'. rewrite lookup_insert_eq. simplify_eq. auto.
  - exists e0, x0. by rewrite lookup_insert_ne by done.
Qed.
Lemma registered_new m e x' i : m !! e = None → registered m i → registered (<[e := x']> m) i.
Proof. intros He (e0 & x0 & H0 & H1). exists e0, x0. by rewrite lookup_insert_ne by congruence. Qed.
Lemma elem_of_delete_ne {A} (l : list A) k x y : l !! k = Some y → x ≠ y → x ∈ l → x ∈ delete k l.
Proof.
  revert k. induction l as [|a l IH]; intros [|k] Hk Hne Hx; simpl in *; [done..| |];
    apply elem_of_cons in Hx as [->|Hx]; simplify_eq; [done|by left|]. right. by apply IH.
Qed.

Lemma found_step s s' : elock_inv s → share_inv s → step s s' →
  ∀ w y j, waiters s' !! w = Some y → j ∈ shares y → registered (events s') (Info w j).
Proof.
  intros Hlock Hinv Hs w0 y0 j0.
  assert (HF : ∀ w y j, waiters s !! w = Some y → j ∈ shares y → registered (events s) (Info w j))
    by exact (sh_found s Hinv).
  destruct Hs; simpl; intros Hy0 Hj0; views.
  all: try (look; first [by apply elem_of_empty in Hj0|by eapply HF]).
  all: try (eapply registered_put; [done|done|]; look; by eapply HF).
  - apply registered_new; [done|]. by eapply HF.
  - assert (Hold : registered (events s) (Info w0 j0) →
      registered (<[e := set_Registered (RegisteredWaits x ++ [Info (f_wfmo f) (f_i f)]) x]> (events s)) (Info w0 j0)).
    { eapply registered_put; [done|]. simpl. set_solver. }
    look; [|by eapply Hold, HF]. apply elem_of_union in Hj0 as [->%elem_of_singleton|?]; [|by eapply Hold, HF].
    eexists _, _. rewrite lookup_insert_eq. split; [done|]. simpl. set_solver.
  - removed Hinv.
    assert (Hold : registered (events s) (Info w0 j0) → Info w0 j0 ≠ i →
      registered (<[e := set_Registered (delete k (RegisteredWaits x)) x]> (events s)) (Info w0 j0)).
    { intros ? Hne. eapply registered_put; [done| |done]. by eapply elem_of_delete_ne. }
    apply released_lookup in Hy0 as [[? ?]|(-> & Hr & ->)]; (apply Hold; [|destruct i; simpl in *; congruence || set_solver]).
    + by eapply HF.
    + eapply HF; [done|]. simpl in Hj0. set_solver.
  - eapply registered_put; [done|by destruct (AutoReset x)|]. look; [|by eapply HF].
    rewrite (proj2 (proj2 (same_refs_fire i y))) in Hj0. by eapply HF.
  - apply released_lookup in Hy0 as [[? ?]|(-> & Hr & ->)]; by eapply HF.
Qed.

(** A thread turns to the first of the registrations. *)
Lemma quiet_hand s th th' i b : quiet s th th' → hand th' = Some (i, b) →
  hand th = Some (i, b) ∨
  ∃ e x l, holds_e th' = Some e ∧ events s !! e = Some x ∧ RegisteredWaits x = i :: l.
Proof.
  destruct 1; unfold after_load; destruct_or?; destruct_and?; subst; simpl; try done.
  all: try (by destruct (AutoReset x)). all: try (by destruct c). all: auto.
  - by destruct c, (AutoReset x).
  - intros Hi. right. exists e, x, l. destruct c, (StillWaiting w); unfold setter, hand, holds_e in *; by simplify_eq/=.
  - rewrite woken_hand. auto.
Qed.

Definition fronted (m : gmap positive event) (th : thread) (i : info) : Prop :=
  ∃ e x l, holds_e th = Some e ∧ m !! e = Some x ∧ RegisteredWaits x = i :: l.
Lemma fronted_put m e x x' th i :
  m !! e = Some x → (holds_e th = Some e → RegisteredWaits x' = RegisteredWaits x) →
  fronted m th i → fronted (<[e := x']> m) th i.
Proof.
  intros He Hx (e1 & x1 & l & H1 & H2 & H3). destruct (decide (e1 = e)) as [->|].
  - exists e, x', l. rewrite lookup_insert_eq. simplify_eq. by rewrite Hx.
  - exists e1, x1, l. by rewrite lookup_insert_ne by done.
Qed.

(** Two threads do not hold one event's mutex. *)
Lemma holds_e_unique s t1 t2 th1 th2 e :
  elock_inv s → threads s !! t1 = Some th1 → holds_e th1 = Some e → threads s !! t2 = Some th2 →
  holds_e th2 = Some e → t1 = t2.
Proof.
  intros Hlock H1 E1 H2 E2. destruct (el_holder s Hlock _ _ _ H1 E1) as (? & ? & ?).
  destruct (el_holder s Hlock _ _ _ H2 E2) as (? & ? & ?). congruence.
Qed.

Lemma front_step s s' : elock_inv s → share_inv s → step s s' →
  ∀ t th i b, threads s' !! t = Some th → hand th = Some (i, b) → fronted (events s') th i.
Proof.
  intros Hlock Hinv Hs t0 th0 i0 b0.
  assert (HF : ∀ t th th' i b, threads s !! t = Some th → hand th = Some (i, b) → holds_e th' = holds_e th →
    fronted (events s) th' i).
  { intros t th th' i b Ht Hi He. unfold fronted. rewrite He. by eapply (sh_front s Hinv). }
  destruct Hs; simpl; intros Ht0 Hi0.
  all: try match goal with H : quiet _ _ _ |- _ => pose proof (λ i b, quiet_hand _ _ _ i b H) as Hq end.
  all: views; look.
  all: try match goal with E : hand _ = hand _ |- _ => rewrite E in Hi0 end.
  all: try (by destruct c).
  all: try congruence.
  all: try (eapply HF; [eassumption|exact Hi0|by autorewrite with woken]).
  all: try (eapply HF; [eassumption|by kept|by kept]).
  all: try (eapply fronted_put; [eassumption|done|]; eapply HF; [eassumption|by kept|by kept]).
  all: try (eapply fronted_put; [eassumption|by destruct (AutoReset x)|]; eapply HF; [eassumption|done|by destruct c]).
  - destruct (HF _ _ th0 _ _ Ht0 Hi0 eq_refl) as (e1 & x1 & l & ? & ? & ?). exists e1, x1, l.
    by rewrite lookup_insert_ne by congruence.
  - destruct (Hq _ _ Hi0) as [?|?]; [by eapply HF|done].
  - eapply fronted_put; [done| |by eapply HF]. intros He. simpl.
    assert (t = t0); [|done]. by eapply (holds_e_unique s).
  - eapply fronted_put; [done| |by eapply HF]. intros He. simpl.
    assert (t = t0); [|done]. by eapply (holds_e_unique s).
  - eapply fronted_put; [done|by destruct (AutoReset x)|].
    destruct c; unfold hand in Hi0; simplify_eq/=; (eapply HF; [exact H|reflexivity|reflexivity]).
Qed.

Lemma share_step s s' : elock_inv s → index_inv s → share_inv s → step s s' → share_inv s'.
Proof.
  intros Hlock Hidx Hinv Hs. split.
  - intros t th w i k Ht Ho. by eapply owned_step.
  - by eapply unique_step.
  - by eapply alone_step.
  - by eapply entry_step.
  - by eapply nodup_step.
  - by eapply found_step.
  - by eapply front_step.
Qed.

(** * The mutexes of the waiters *)

Record wlock_inv (s : conf) : Prop := WlockInv {
  wl_holder : ∀ t th w, threads s !! t = Some th → holds_w th = Some w →
    ∃ y, waiters s !! w = Some y ∧ WMutex y = Some t;
  wl_held : ∀ w y t, waiters s !! w = Some y → WMutex y = Some t →
    ∃ th, threads s !! t = Some th ∧ holds_w th = Some w;
}.

(** Who holds a waiter's mutex made it, or has a registration that names it. *)
Lemma holds_w_live s t th w :
  share_inv s → threads s !! t = Some th → holds_w th = Some w →
  (∃ i k, owner th = Some (w, i, k)) ∨ (∃ i b, hand th = Some (i, b) ∧ Waiter i = w).
Proof. 
  intros Hinv Ht Hw. unfold holds_w, owner, hand in *. destruct th as [[] p]; destruct p; simplify_eq/=; eauto 10.
Qed.

Lemma waiter_live s t th w :
  share_inv s → threads s !! t = Some th → holds_w th = Some w → ∃ y, waiters s !! w = Some y.
Proof.
  intros Hinv Ht Hw. destruct (holds_w_live s t th w Hinv Ht Hw) as [(i & k & Ho)|(i & b & Hh & <-)].
  - destruct (sh_owner s Hinv _ _ _ _ _ Ht Ho) as (y & ? & _). eauto.
  - destruct (sh_front s Hinv _ _ _ _ Ht Hh) as (e & x & l & _ & Hx & Hl).
    destruct (sh_entry s Hinv e x i Hx) as (y & ? & _); [rewrite Hl; by left|]. eauto.
Qed.

Lemma wlock_holder_step s s' : elock_inv s → share_inv s → wlock_inv s → share_inv s' → step s s' →
  ∀ t th w, threads s' !! t = Some th → holds_w th = Some w → ∃ y, waiters s' !! w = Some y ∧ WMutex y = Some t.
Proof.
  intros Hlock Hinv [H1 H2] Hinv' Hs t0 th0 w0 Ht0 Hw0.
  destruct (waiter_live s' _ _ _ Hinv' Ht0 Hw0) as [y0 Hy0]. exists y0. split; [done|].
  assert (HW : ∀ w t th y y', threads s !! t = Some th → holds_w th = Some w → waiters s !! w = Some y →
            WMutex y' = WMutex y → WMutex y' = Some t).
  { intros w t th y y' Ht Hw Hy ->. destruct (H1 _ _ _ Ht Hw) as (? & ? & ?). by simplify_eq. }
  destruct Hs; simpl in *; views; look.
  all: try (by destruct c).
  all: try (eapply (HW w0); [eassumption|by kept|eassumption|done]; fail).
  all: try match goal with H : released _ _ _ _ _ !! _ = Some _ |- _ => apply released_lookup in H as [[? ?]|(? & ? & ?)]; subst end.
  all: try (eapply (HW w0); [eassumption|by kept|eassumption|done]; fail).
  all: try (eapply HW; [eassumption|by kept|eassumption|done]; fail).
  all: try (eapply (HW (Waiter i)); [eassumption|by kept|eassumption|unfold fire; by case_match]; fail).
  all: try done.
  - eapply (HW (Waiter i)); [exact H|congruence|exact H3|done].
  - destruct (H1 _ _ _ H4 Hw0) as (? & ? & _). congruence.
  - unfold holds_w in Hw0. by simplify_eq/=.
  - match goal with Ht : threads _ !! t0 = Some th0 |- _ => destruct (H1 _ _ _ Ht Hw0) as (? & ? & ?) end. congruence.
  - match goal with Ht : threads _ !! t0 = Some th0 |- _ => destruct (H1 _ _ _ Ht Hw0) as (? & ? & ?) end.
    match goal with Ht : threads _ !! t = Some th, Hw : holds_w th = _ |- _ => destruct (H1 _ _ _ Ht Hw) as (? & ? & ?) end.
    congruence.
  - by eapply (HW (Waiter i)); [exact H|destruct c|done|apply fire_mutex].
  - by eapply HW; [..|done|apply fire_mutex].
Qed.

Lemma wlock_held_step s s' : elock_inv s → share_inv s → wlock_inv s → step s s' →
  ∀ w y t, waiters s' !! w = Some y → WMutex y = Some t → ∃ th, threads s' !! t = Some th ∧ holds_w th = Some w.
Proof.
  intros Hlock Hinv [H1 H2] Hs w0 y0 t0. destruct Hs; simpl; intros Hy0 Hm0; views; look.
  all: try match goal with H : released _ _ _ _ _ !! _ = Some _ |- _ => apply released_lookup in H as [[? ?]|(? & ? & ?)]; subst end.
  all: try (eapply find_moved; [eassumption|by kept|]; eapply H2; [eassumption|done]; fail).
  - by eapply H2.
  - apply find_other; [|by eapply H2]. intros ->. destruct (H2 _ _ _ Hy0 Hm0) as (? & ? & _). congruence.
  - eexists. rewrite lookup_insert_eq. done.
  - eexists. by rewrite lookup_insert_eq.
  - rewrite fire_mutex in Hm0. eapply find_moved; [exact H|by kept|]. by eapply H2.
  - eapply (find_woken _ _ th); [done|intros ?; by autorewrite with woken|congruence|]. by eapply H2.
  - eapply find_signal; [exact H|done|by autorewrite with woken|by kept|]. by eapply H2.
Qed.

Lemma wlock_step s s' : elock_inv s → share_inv s → wlock_inv s → share_inv s' → step s s' → wlock_inv s'.
Proof.
  intros ? ? ? ? ?. split.
  - by eapply wlock_holder_step.
  - by eapply wlock_held_step.
Qed.

(** * In every state that is reached *)

Record inv (s : conf) : Prop := Inv {
  inv_keeps : map_Forall (λ _ th, keeps (t_call th) = true) (threads s);
  inv_elock : elock_inv s;
  inv_index : index_inv s;
  inv_share : share_inv s;
  inv_wlock : wlock_inv s;
}.

Lemma keeps_step s s' : map_Forall (λ _ th, keeps (t_call th) = true) (threads s) → step s s' →
  map_Forall (λ _ th, keeps (t_call th) = true) (threads s').
Proof.
  intros Hk Hs t0 th0. destruct Hs; simpl; intros Ht0; views; look.
  all: try (by eapply Hk).
  all: try (match goal with H : t_call ?a = t_call ?b |- keeps (t_call ?a) = true => rewrite H end; by eapply Hk).
  all: try match goal with Hk : map_Forall _ (threads ?s), H : threads ?s !! _ = Some _ |- _ => by apply (Hk _ _ H) end.
  destruct c as [| | | | |e]; try done. by destruct (H1 e).
Qed.

Lemma inv_step s s' : inv s → step s s' → inv s'.
Proof.
  intros [Hk He Hi Hr Hw] Hs. assert (share_inv s') by (by eapply share_step). split; [| | |done|].
  - by eapply keeps_step.
  - by eapply elock_step.
  - by eapply index_step.
  - by eapply wlock_step.
Qed.

Lemma inv_of_start : inv start.
Proof. by split; [|split|..|split|split]; intros *; simpl; rewrite ?lookup_empty. Qed.

Lemma reachable_inv s : reachable s → inv s.
Proof.
  induction 1 as [|s m s' _ IH Hl Hm]; [apply inv_of_start|]. eapply inv_step; [done|]. eapply exec_rule; [apply IH|done..].
Qed.
