(* ===== verification/PeventsSafe.v ===== *)
(** What [Pevents] promises to those who call it, while nobody destroys an event:
    nothing that was deleted is touched, no assertion fails, waiters are given
    back, and a wait for several events succeeds only when their events did. *)
From S2P Require Import Prelude Pevents PeventsSteps PeventsInv.
Local Open Scope Z_scope.

(** * The state of a wait *)

Definition asks_all (th : thread) : bool :=
  match t_call th with WaitForMultipleEvents _ all _ => all | _ => false end.

(** The count of the events left, or the event that fired, against the hits. *)
Definition status_ok (y : wfmo) : Prop :=
  (∀ j, j ∈ hits y → (j < length (asked y))%nat) ∧
  if WaitAll y then Status y = Z.of_nat (length (asked y)) - Z.of_nat (size (hits y))
  else Status y = -1 ∧ hits y = ∅ ∨ ∃ j, Status y = Z.of_nat j ∧ j ∈ hits y.

Record status_inv (s : conf) : Prop := StatusInv {
  st_ok : ∀ w y, waiters s !! w = Some y → status_ok y;
  st_flag : ∀ t th w i k y, threads s !! t = Some th → owner th = Some (w, i, k) → waiters s !! w = Some y →
    WaitAll y = asks_all th;
  st_scan : ∀ t th w i k y j, threads s !! t = Some th → owner th = Some (w, i, k) → waiters s !! w = Some y →
    j ∈ hits y → (j < i)%nat;
  st_told : ∀ i y, waiters s !! Waiter i = Some y → WaitIndex i ∈ shares y → WaitIndex i ∈ hits y →
    ∃ t th, threads s !! t = Some th ∧ hand th = Some (i, true);
}.

Lemma fire_hits i y : hits (fire i y) = {[WaitIndex i]} ∪ hits y.
Proof. unfold fire. by destruct (WaitAll y). Qed.
Lemma fire_asked i y : asked (fire i y) = asked y.
Proof. unfold fire. by destruct (WaitAll y). Qed.
Lemma fire_shares i y : shares (fire i y) = shares y.
Proof. unfold fire. by destruct (WaitAll y). Qed.
Lemma fire_all i y : WaitAll (fire i y) = WaitAll y.
Proof. unfold fire. by destruct (WaitAll y) eqn:E. Qed.
Lemma fire_count i y : RefCount (fire i y) = RefCount y.
Proof. unfold fire. by destruct (WaitAll y) eqn:E. Qed.
Create Rewrite HintDb fire.
#[export] Hint Rewrite fire_hits fire_asked fire_shares fire_all fire_mutex fire_count : fire.

(** One more hit. *)
Lemma size_more (X : gset nat) j : j ∉ X → size ({[j]} ∪ X) = S (size X).
Proof. intros Hj. rewrite size_union by set_solver. by rewrite size_singleton. Qed.
Lemma hit_all_ok y j : status_ok y → WaitAll y = true → j ∉ hits y → (j < length (asked y))%nat →
  status_ok (add_hit j (set_Status (Status y - 1) y)).
Proof.
  intros [Hh Hs] Ha Hj Hl. split; simpl.
  - intros j' [->%elem_of_singleton|?]%elem_of_union; auto.
  - rewrite Ha in *. rewrite size_more by done. lia.
Qed.
Lemma hit_any_ok y j : status_ok y → WaitAll y = false → (j < length (asked y))%nat →
  status_ok (add_hit j (set_Status (Z.of_nat j) y)).
Proof.
  intros [Hh Hs] Ha Hl. split; simpl.
  - intros j' [->%elem_of_singleton|?]%elem_of_union; auto.
  - rewrite Ha. right. exists j. split; [done|set_solver].
Qed.
Lemma fire_ok i y : status_ok y → WaitIndex i ∉ hits y → (WaitIndex i < length (asked y))%nat →
  status_ok (fire i y).
Proof.
  intros Hy Hj Hl. unfold fire. destruct (WaitAll y) eqn:Ha; [by apply hit_all_ok|].
  apply (hit_any_ok y (WaitIndex i)) in Hy; done.
Qed.

(** An event that has not hit yet leaves something to wait for. *)
Lemma hits_left y j : status_ok y → WaitAll y = true → j ∉ hits y → (j < length (asked y))%nat → 0 < Status y.
Proof.
  intros [Hh Hs] Ha Hj Hl. rewrite Ha in Hs. rewrite Hs.
  assert (size ({[j]} ∪ hits y) ≤ length (asked y))%nat; [|rewrite size_more in *; [lia|done]].
  replace (length (asked y)) with (size (list_to_set (seq 0 (length (asked y))) : gset nat))
    by (rewrite size_list_to_set by apply NoDup_seq; by rewrite length_seq).
  apply subseteq_size. intros j' [->%elem_of_singleton|Hj']%elem_of_union; apply elem_of_list_to_set, elem_of_seq; [lia|].
  specialize (Hh _ Hj'). lia.
Qed.

(** Nobody has told the waiter of a registration that is yet to be dealt with. *)
Lemma entry_event s e x e' x' i :
  share_inv s → events s !! e = Some x → i ∈ RegisteredWaits x → events s !! e' = Some x' →
  i ∈ RegisteredWaits x' → e' = e.
Proof.
  intros Hinv Hx Hi Hx' Hi'. destruct (sh_entry s Hinv _ _ _ Hx Hi) as (y & Hy & _ & Ha).
  destruct (sh_entry s Hinv _ _ _ Hx' Hi') as (y' & Hy' & _ & Ha'). congruence.
Qed.
Lemma hand_unique s t1 t2 th1 th2 i b1 b2 :
  inv s → threads s !! t1 = Some th1 → hand th1 = Some (i, b1) → threads s !! t2 = Some th2 →
  hand th2 = Some (i, b2) → t1 = t2.
Proof.
  intros [_ Hlock _ Hinv _] H1 E1 H2 E2.
  destruct (sh_front s Hinv _ _ _ _ H1 E1) as (e1 & x1 & l1 & ? & ? & Hl1).
  destruct (sh_front s Hinv _ _ _ _ H2 E2) as (e2 & x2 & l2 & ? & ? & Hl2).
  assert (e2 = e1) as -> by (eapply (entry_event s e1 x1 e2 x2 i); try done; rewrite ?Hl1, ?Hl2; by left).
  by eapply (holds_e_unique s).
Qed.
Lemma fresh_hand s t th i y :
  inv s → status_inv s → threads s !! t = Some th → hand th = Some (i, false) →
  waiters s !! Waiter i = Some y →
  (WaitIndex i ∉ hits y) ∧ (WaitIndex i < length (asked y))%nat ∧ WaitIndex i ∈ shares y.
Proof.
  intros Hi Hst Ht Hh Hy. pose proof (inv_share s Hi) as Hinv.
  destruct (sh_front s Hinv _ _ _ _ Ht Hh) as (e & x & l & He & Hx & Hl).
  destruct (sh_entry s Hinv e x i Hx) as (y' & ? & Hs & Ha); [rewrite Hl; by left|]. simplify_eq.
  split_and!; [|by eapply lookup_lt_Some|done].
  intros Hhit. destruct (st_told s Hst i y Hy Hs Hhit) as (u & thu & Hu & Hhu).
  assert (t = u) as -> by (by eapply hand_unique). congruence.
Qed.

Lemma status_ok_refs y y' : asked y' = asked y → WaitAll y' = WaitAll y → Status y' = Status y →
  hits y' = hits y → status_ok y → status_ok y'.
Proof. unfold status_ok. by intros -> -> -> ->. Qed.

(** A scan that has found an event set. *)
Lemma scan_hit s t es all ms f y :
  inv s → status_inv s → threads s !! t = Some (Thread (WaitForMultipleEvents es all ms) (M_hit f)) →
  waiters s !! f_wfmo f = Some y →
  WaitAll y = all ∧ (f_i f ∉ hits y) ∧ (f_i f < length (asked y))%nat ∧ (f_i f ∉ shares y).
Proof.
  intros Hinv Hst Ht Hy. pose proof (inv_index s Hinv _ _ Ht) as Hi. unfold index_ok in Hi; simpl in Hi.
  destruct (sh_owner s (inv_share s Hinv) _ _ _ _ _ Ht eq_refl) as (y' & Hy' & Ha & Hs & _). simplify_eq/=.
  split_and!; [exact (st_flag s Hst _ _ _ _ _ _ Ht eq_refl Hy)| |done|].
  - intros Hj. pose proof (st_scan s Hst _ _ _ _ _ _ _ Ht eq_refl Hy Hj). lia.
  - intros Hj. specialize (Hs _ Hj). lia.
Qed.
Lemma setter_fire c e i : setter (Thread c (S_fire i)) = Some e → hand (Thread c (S_fire i)) = Some (i, false).
Proof. by destruct c. Qed.

Lemma status_ok_step s s' : inv s → status_inv s → step s s' →
  ∀ w y, waiters s' !! w = Some y → status_ok y.
Proof.
  intros Hinv Hst Hs w0 y0. pose proof (st_ok s Hst) as HO. destruct Hs; simpl; intros Hy0; views; look.
  all: try match goal with H : released _ _ _ _ _ !! _ = Some _ |- _ => apply released_lookup in H as [[? ?]|(? & ? & ?)]; subst end.
  all: try (by eapply HO).
  all: try (eapply (status_ok_refs y); [done..|by eapply HO]).
  - split; [set_solver|]. cbn [WaitAll Status hits asked]. destruct all; [rewrite size_empty; lia|auto].
  - destruct (scan_hit s _ _ _ _ _ _ Hinv Hst H H0) as (? & ? & ? & _). by apply hit_all_ok; eauto.
  - destruct (scan_hit s _ _ _ _ _ _ Hinv Hst H H0) as (? & ? & ? & _). by apply hit_any_ok; eauto.
  - destruct (fresh_hand s _ _ _ _ Hinv Hst H (setter_fire _ _ _ H0) H2) as (? & ? & _). by apply fire_ok; eauto.
Qed.

(** A waiter was there before, or has just been made. *)
Lemma waiter_origin s s' : step s s' → ∀ w y', waiters s' !! w = Some y' →
  (∃ y, waiters s !! w = Some y ∧ WaitAll y' = WaitAll y ∧ asked y' = asked y) ∨
  waiters s !! w = None ∧ hits y' = ∅ ∧ StillWaiting y' = true ∧
  ∃ t es ms, threads s' !! t = Some (Thread (WaitForMultipleEvents es (WaitAll y') ms) (M_head (Frame w 0 0))).
Proof.
  intros Hs w0 y0. destruct Hs; simpl; intros Hy0; views; look.
  all: try match goal with H : released _ _ _ _ _ !! _ = Some _ |- _ => apply released_lookup in H as [[? ?]|(? & ? & ?)]; subst end.
  all: try (left; eexists; split; [eassumption|by autorewrite with fire]).
  right. split_and!; [done..|]. exists t, es, ms. by rewrite lookup_insert_eq.
Qed.

Lemma flag_step s s' : inv s → inv s' → status_inv s → step s s' →
  ∀ t th w i k y, threads s' !! t = Some th → owner th = Some (w, i, k) → waiters s' !! w = Some y →
    WaitAll y = asks_all th.
Proof.
  intros Hinv Hinv' Hst Hs t0 th0 w0 i0 k0 y0 Ht0 Ho0 Hy0. destruct (owner_origin s s' Hs) as [tn Hor].
  destruct (waiter_origin s s' Hs _ _ Hy0) as [(y & Hy & -> & _)|(Hy & _ & _ & t & es & ms & Ht)],
    (Hor _ _ _ _ _ Ht0 Ho0) as [(th & i & k & Hth & Ho & Hc & _)|[_ Hn]]; try congruence.
  - unfold asks_all. rewrite Hc. by eapply (st_flag s Hst).
  - destruct (sh_owner s (inv_share s Hinv) _ _ _ _ _ Hth Ho) as (? & ? & _). congruence.
  - assert (t0 = t) as -> by (by eapply (sh_unique s' (inv_share s' Hinv'))). by simplify_eq.
Qed.

(** Where a new hit comes from: the scan, or a registration. *)
Lemma hits_origin s s' : inv s → status_inv s → step s s' →
  ∀ w y y' j, waiters s !! w = Some y → waiters s' !! w = Some y' → j ∈ hits y' →
  j ∈ hits y ∨ j ∈ shares y ∨
  ∃ t th i k, threads s' !! t = Some th ∧ owner th = Some (w, i, k) ∧ (j < i)%nat.
Proof.
  intros Hinv Hst Hs w0 y0 y0' j0 Hy. destruct Hs; simpl; intros Hy0 Hj; views; look.
  all: try match goal with H : released _ _ _ _ _ !! _ = Some _ |- _ => apply released_lookup in H as [[? ?]|(? & ? & ?)]; subst end.
  all: simplify_eq/=; auto.
  all: try match goal with Hinv : inv ?s, H : threads ?s !! _ = Some _ |- _ => pose proof (inv_index s Hinv _ _ H) as Hi; fields end.
  - apply elem_of_union in Hj as [->%elem_of_singleton|?]; [|auto]. right; right.
    eexists t, _, _, _. rewrite lookup_insert_eq. split_and!; [done..|]. cbn [f_i]. lia.
  - apply elem_of_union in Hj as [->%elem_of_singleton|?]; [|auto]. right; right.
    eexists t, _, _, _. rewrite lookup_insert_eq. split_and!; [done..|]. cbn [f_i]. lia.
  - rewrite fire_hits in Hj. apply elem_of_union in Hj as [->%elem_of_singleton|?]; [|auto]. right; left.
    by apply (fresh_hand s _ _ _ _ Hinv Hst H (setter_fire _ _ _ H0) H2).
Qed.

Lemma scan_step_ok s s' : inv s → inv s' → status_inv s → step s s' →
  ∀ t th w i k y j, threads s' !! t = Some th → owner th = Some (w, i, k) → waiters s' !! w = Some y →
    j ∈ hits y → (j < i)%nat.
Proof.
  intros Hinv Hinv' Hst Hs t0 th0 w0 i0 k0 y0 j0 Ht0 Ho0 Hy0 Hj0. destruct (owner_origin s s' Hs) as [tn Hor].
  destruct (waiter_origin s s' Hs _ _ Hy0) as [(y & Hy & _)|(_ & Hn & _)]; [|by rewrite Hn in Hj0].
  destruct (Hor _ _ _ _ _ Ht0 Ho0) as [(th & i & k & Hth & Ho & _ & Hi)|[_ Hn]]; [|congruence].
  destruct (hits_origin s s' Hinv Hst Hs _ _ _ _ Hy Hy0 Hj0) as [?|[?|(t & th' & i' & k' & Ht' & Ho' & ?)]].
  - enough (j0 < i)%nat by lia. by eapply (st_scan s Hst).
  - destruct (sh_owner s (inv_share s Hinv) _ _ _ _ _ Hth Ho) as (y' & Hy' & _ & Hs' & _). simplify_eq.
    enough (j0 < i)%nat by lia. auto.
  - assert (t0 = t) as -> by (by eapply (sh_unique s' (inv_share s' Hinv'))). by simplify_eq.
Qed.

(** A thread that has told a waiter has that registration at hand until it gives it up. *)
Lemma quiet_told s th th' i : quiet s th th' → hand th = Some (i, true) → hand th' = Some (i, true).
Proof.
  destruct 1; unfold after_load; destruct_or?; destruct_and?; subst; simpl; try done.
  all: try (by destruct c). by rewrite woken_hand.
Qed.

(** There is a thread that ... *)
Definition some_thread (m : gmap positive thread) (P : thread → Prop) : Prop := ∃ t th, m !! t = Some th ∧ P th.
Lemma some_put m t th th' P : m !! t = Some th → (P th → P th') → some_thread m P → some_thread (<[t := th']> m) P.
Proof. intros Ht HP [t0 H]. exists t0. by eapply find_moved. Qed.
Lemma some_new m t th' P : m !! t = None → some_thread m P → some_thread (<[t := th']> m) P.
Proof. intros Ht (t0 & th & H & ?). exists t0. apply find_other; [congruence|eauto]. Qed.
Lemma some_this m t th (P : thread → Prop) : P th → some_thread (<[t := th]> m) P.
Proof. intros HP. exists t, th. by rewrite lookup_insert_eq. Qed.
Lemma some_woken m t th th' Q P : m !! t = Some th → (∀ th, P th → P (waked Q th)) → (P th → P th') →
  some_thread m P → some_thread (<[t := th']> (waked Q <$> m)) P.
Proof. intros Ht HQ HP [t0 H]. exists t0. by eapply find_woken. Qed.
Lemma some_signal m t th th' u thu P : m !! t = Some th → m !! u = Some thu → (P thu → P (woken 0 thu)) →
  (P th → P th') → some_thread m P → some_thread (<[t := th']> (<[u := woken 0 thu]> m)) P.
Proof. intros Ht Hu HQ HP [t0 H]. exists t0. by eapply find_signal. Qed.

Lemma removes_hand e x i k th th' : removes e x i k th th' → hand th = None ∨ ∃ b, hand th = Some (i, b).
Proof. destruct 1; try (destruct c; simplify_eq/=); eauto. Qed.

Lemma told_step s s' : inv s → status_inv s → step s s' →
  ∀ i y, waiters s' !! Waiter i = Some y → WaitIndex i ∈ shares y → WaitIndex i ∈ hits y →
    some_thread (threads s') (λ th, hand th = Some (i, true)).
Proof.
  intros Hinv Hst Hs i0 y0. pose proof (inv_share s Hinv) as Hsh.
  assert (HF : ∀ y, waiters s !! Waiter i0 = Some y → WaitIndex i0 ∈ shares y → WaitIndex i0 ∈ hits y →
    some_thread (threads s) (λ th, hand th = Some (i0, true))) by (intros ?; by apply (st_told s Hst)).
  destruct Hs; simpl; intros Hy0 Hs0 Hj0.
  all: try match goal with H : quiet _ _ _ |- _ => pose proof (λ i, quiet_told _ _ _ i H) as Hq end.
  all: try match goal with H : removes _ _ _ _ _ _ |- _ => pose proof (removes_hand _ _ _ _ _ _ H) as Hr end.
  all: views; look.
  all: try match goal with H : released _ _ _ _ _ !! _ = Some _ |- _ => apply released_lookup in H as [[? ?]|(? & ? & ?)]; subst end.
  all: try match goal with E : f_wfmo _ = Waiter _ |- _ => rewrite E in * end.
  all: try match goal with E : Waiter _ = f_wfmo _ |- _ => rewrite <- E in * end.
  all: try (eapply some_put; [eassumption|by eauto || kept|]; eapply HF; [eassumption|done|done]; fail).
  - by eapply HF.
  - eapply some_new; [done|]. by eapply HF.
  - eapply some_put; [exact H|done|]. eapply HF; [done| |done].
    apply elem_of_union in Hs0 as [Hs0%elem_of_singleton|?]; [|done].
    rewrite <- H3 in *. pose proof (st_scan s Hst _ _ _ _ _ _ _ H eq_refl H2 Hj0). lia.
  - eapply some_put; [exact H| |by eapply HF]. intros Hi. destruct Hr as [?|[b ?]]; congruence.
  - assert (waiters s !! Waiter i0 = Some y) by congruence. eapply some_put; [exact H| |eapply HF; [done|set_solver|done]].
    intros Hi. destruct Hr as [?|[b ?]]; [congruence|]. assert (i = i0) as -> by congruence. set_solver.
  - set_solver.
  - destruct (scan_hit s _ _ _ _ _ y Hinv Hst H) as (_ & _ & _ & Hn); [congruence|].
    eapply some_put; [exact H|done|]. eapply HF; [done|done|].
    apply elem_of_union in Hj0 as [Hj0%elem_of_singleton|?]; [congruence|done].
  - destruct (scan_hit s _ _ _ _ _ y Hinv Hst H) as (_ & _ & _ & Hn); [congruence|].
    eapply some_put; [exact H|done|]. eapply HF; [done|done|].
    apply elem_of_union in Hj0 as [Hj0%elem_of_singleton|?]; [congruence|done].
  - destruct (decide (i = i0)) as [->|Hne]; [apply some_this; by destruct c|].
    rewrite fire_hits in Hj0. rewrite fire_shares in Hs0.
    assert (waiters s !! Waiter i0 = Some y) by congruence.
    eapply some_put; [exact H|by destruct c|]. eapply HF; [done|done|].
    apply elem_of_union in Hj0 as [Hj0%elem_of_singleton|?]; [|done]. destruct i, i0; simplify_eq/=.
  - eapply (some_woken _ _ th); [done|intros ?; by autorewrite with woken|congruence|]. by eapply HF.
  - eapply some_signal; [exact H|done|by autorewrite with woken|simpl; by kept|]. by eapply HF.
Qed.

Lemma status_step s s' : inv s → status_inv s → step s s' → status_inv s'.
Proof.
  intros Hinv Hst Hs. assert (inv s') by (by eapply inv_step). split.
  - exact (status_ok_step _ _ Hinv Hst Hs).
  - exact (flag_step _ _ Hinv H Hst Hs).
  - exact (scan_step_ok _ _ Hinv H Hst Hs).
  - exact (told_step _ _ Hinv Hst Hs).
Qed.

Lemma reachable_status s : reachable s → status_inv s.
Proof.
  induction 1 as [|s m s' Hr IH Hl Hm]; [by split; intros *; simpl; rewrite ?lookup_empty|].
  pose proof (reachable_inv s Hr) as Hinv. eapply status_step; [done..|]. eapply exec_rule; [apply Hinv|done..].
Qed.

(** * Nothing is touched that was deleted *)

Section no_fault.
Context (s : conf) (Hinv : inv s) (Hst : status_inv s).

Lemma call_event t th e : threads s !! t = Some th → e ∈ call_events (t_call th) → is_Some (events s !! e).
Proof. apply (el_call s (inv_elock s Hinv)). Qed.

Lemma hand_waiter t th i b : threads s !! t = Some th → hand th = Some (i, b) →
  ∃ y, waiters s !! Waiter i = Some y ∧ WaitIndex i ∈ shares y.
Proof.
  intros Ht Hh. destruct (sh_front s (inv_share s Hinv) _ _ _ _ Ht Hh) as (e & x & l & _ & Hx & Hl).
  destruct (sh_entry s (inv_share s Hinv) e x i Hx) as (y & ? & ? & _); [rewrite Hl; by left|]. eauto.
Qed.

Lemma own_waiter t th w i k : threads s !! t = Some th → owner th = Some (w, i, k) →
  ∃ y, waiters s !! w = Some y ∧ 1 + Z.of_nat k ≤ RefCount y.
Proof.
  intros Ht Ho. destruct (sh_owner s (inv_share s Hinv) _ _ _ _ _ Ht Ho) as (y & ? & _ & _ & ?).
  exists y. split; [done|lia].
Qed.

(** A registration is a reference. *)
Lemma share_count w y j : waiters s !! w = Some y → j ∈ shares y → 0 < RefCount y.
Proof.
  intros Hy Hj. pose proof (size_less _ _ Hj).
  destruct (sh_alone s (inv_share s Hinv) w y Hy) as [(t & th & Ht & i & k & Ho)|[? _]]; [|lia].
  destruct (own_waiter _ _ _ _ _ Ht Ho) as (y' & ? & ?). simplify_eq. lia.
Qed.

Lemma with_event_ok e (k : event → outcome) x :
  events s !! e = Some x → k x ≠ Fault → with_event s e k ≠ Fault.
Proof. unfold with_event. by intros ->. Qed.
Lemma with_waiter_ok w (k : wfmo → outcome) y :
  waiters s !! w = Some y → k y ≠ Fault → with_waiter s w k ≠ Fault.
Proof. unfold with_waiter. by intros ->. Qed.
Lemma lock_event_ok t e k : is_Some (events s !! e) → (∀ s', k s' ≠ Fault) → lock_event s t e k ≠ Fault.
Proof. intros [x Hx] Hk. eapply with_event_ok; [done|]. by destruct (Mutex x). Qed.
Lemma unlock_event_ok e k : is_Some (events s !! e) → (∀ s', k s' ≠ Fault) → unlock_event s e k ≠ Fault.
Proof. intros [x Hx] Hk. by eapply with_event_ok. Qed.
Lemma lock_waiter_ok t w k : is_Some (waiters s !! w) → (∀ s', k s' ≠ Fault) → lock_waiter s t w k ≠ Fault.
Proof. intros [x Hx] Hk. eapply with_waiter_ok; [done|]. by destruct (WMutex x). Qed.
Lemma unlock_waiter_ok w k : is_Some (waiters s !! w) → (∀ s', k s' ≠ Fault) → unlock_waiter s w k ≠ Fault.
Proof. intros [x Hx] Hk. by eapply with_waiter_ok. Qed.
Lemma release_ok w y n f k : waiters s !! w = Some y → 0 < RefCount y →
  (∀ s', events s' = events s → k s' ≠ Fault) → release s w n f k ≠ Fault.
Proof.
  intros Hy Hc Hk. eapply with_waiter_ok; [done|]. case_match; [lia|]. case_match; by apply Hk.
Qed.

Lemma wait_ok t e ms p : threads s !! t = Some (Thread (WaitForEvent e ms) p) →
  wait_step s t (WaitForEvent e ms) e ms p ≠ Fault.
Proof.
  intros Ht. destruct (call_event t _ e Ht) as [x Hx]; [by left|].
  destruct p; simpl; try done; try (by apply lock_event_ok); try (by apply unlock_event_ok).
  - case_match; [|done]. eapply with_event_ok; [done|]. by case_match.
  - eapply with_event_ok; [done|]. by case_match.
  - eapply with_event_ok; [done|]. by case_match.
  - eapply with_event_ok; [done|]. case_match; [done|]. case_match; [done|]. by apply unlock_event_ok.
  - eapply with_event_ok; [done|]. case_match; [done|]. by apply unlock_event_ok.
  - by eapply with_event_ok.
Qed.

(** The [k]-th registration of an event that is scanned. *)
Lemma entry_waiter e x k i : events s !! e = Some x → RegisteredWaits x !! k = Some i →
  ∃ y, waiters s !! Waiter i = Some y ∧ 0 < RefCount y.
Proof.
  intros Hx Hk. destruct (sh_entry s (inv_share s Hinv) e x i Hx) as (y & Hy & Hj & _);
    [by eapply list_elem_of_lookup_2|].
  exists y. split; [done|]. by eapply share_count.
Qed.
Lemma expire_test_ok e k a b c : is_Some (events s !! e) →
  a s ≠ Fault → b s ≠ Fault → c s ≠ Fault → expire_test s e k a b c ≠ Fault.
Proof.
  intros [x Hx] Ha Hb Hc. eapply with_event_ok; [done|]. destruct (RegisteredWaits x !! k) as [i|] eqn:Hk; [|done].
  destruct (entry_waiter _ _ _ _ Hx Hk) as (y & Hy & _). eapply with_waiter_ok; [done|]. by case_match.
Qed.
Lemma expire_ok e k n : is_Some (events s !! e) → (∀ s', n s' ≠ Fault) → expire s e k n ≠ Fault.
Proof.
  intros [x Hx] Hn. eapply with_event_ok; [done|]. destruct (RegisteredWaits x !! k) as [i|] eqn:Hk; [|done].
  destruct (entry_waiter _ _ _ _ Hx Hk) as (y & Hy & ?). by eapply release_ok.
Qed.

Lemma scan_ok t es all ms p : threads s !! t = Some (Thread (WaitForMultipleEvents es all ms) p) →
  scan_step s t (WaitForMultipleEvents es all ms) es all p ≠ Fault.
Proof.
  intros Ht.
  assert (He : ∀ i (k : positive → outcome),
    (∀ e, es !! i = Some e → is_Some (events s !! e) → k e ≠ Fault) →
    match es !! i with Some e => k e | None => Blocked end ≠ Fault).
  { intros i k Hk. destruct (es !! i) as [e|] eqn:Hi; [|done]. apply Hk; [done|].
    eapply call_event; [exact Ht|]. by eapply list_elem_of_lookup_2. }
  destruct p; simpl; try done.
  all: try (apply He; intros e _ Hx; by first [apply lock_event_ok|apply unlock_event_ok|apply expire_test_ok|apply expire_ok]).
  all: try (apply He; intros e _ [x Hx]; eapply with_event_ok; [done|]; by try case_match).
  - destruct (es !! f_i f) as [e|] eqn:Hi; [|done].
    destruct (call_event _ _ e Ht) as [x Hx]; [by eapply list_elem_of_lookup_2|].
    eapply with_event_ok; [done|]. by case_match.
  - destruct (own_waiter _ _ _ _ _ Ht eq_refl) as (y & Hy & _). eapply with_waiter_ok; [done|].
    destruct all; [|done].
    destruct (scan_hit s _ _ _ _ _ _ Hinv Hst Ht Hy) as (Ha & Hj & Hl & _).
    pose proof (hits_left y (f_i f) (st_ok s Hst _ _ Hy) Ha Hj Hl). case_match; [lia|done].
  - apply He. intros e _ [x Hx]. eapply with_event_ok; [done|].
    destruct (own_waiter _ _ _ _ _ Ht eq_refl) as (y & Hy & _). by eapply with_waiter_ok.
Qed.

Lemma multi_ok t es all ms p : threads s !! t = Some (Thread (WaitForMultipleEvents es all ms) p) →
  multi_step s t (WaitForMultipleEvents es all ms) ms p ≠ Fault.
Proof.
  intros Ht. destruct p; simpl; try done;
    destruct (own_waiter _ _ _ _ _ Ht eq_refl) as (y & Hy & ?); try (by apply lock_waiter_ok);
    try (by apply unlock_waiter_ok); try (eapply with_waiter_ok; [done|]; repeat case_match; try done).
  - by apply unlock_waiter_ok.
  - lia.
Qed.

Lemma set_ok t c e p : threads s !! t = Some (Thread c p) → c = SetEvent e ∨ c = PulseEvent e →
  set_step s t c e p ≠ Fault.
Proof.
  intros Ht Hc. assert (Hn : ∀ s', set_done t c s' ≠ Fault) by (by destruct Hc as [->| ->]).
  destruct (call_event t _ e Ht) as [x Hx]; [by destruct Hc as [->| ->]; left|].
  assert (Hw : ∀ i b, hand (Thread c p) = Some (i, b) →
    ∃ y, waiters s !! Waiter i = Some y ∧ 0 < RefCount y).
  { intros i b Hi. destruct (hand_waiter _ _ _ _ Ht Hi) as (y & ? & ?). exists y. split; [done|]. by eapply share_count. }
  assert (Hh : ∀ i q b, p = q → hand (Thread (SetEvent e) q) = Some (i, b) → hand (Thread c p) = Some (i, b))
    by (intros ? ? ? ->; by destruct Hc as [->| ->]).
  destruct p; simpl; try done; try (by apply unlock_event_ok);
    try (destruct (Hw _ _ (Hh _ _ _ eq_refl eq_refl)) as (y & Hy & Hr); clear Hw Hh);
    try (by apply lock_waiter_ok); try (by apply unlock_waiter_ok); try (by eapply with_event_ok);
    try (by eapply with_waiter_ok).
  - unfold lock_event, with_event. rewrite Hx. case_match; [done|]. simpl. by rewrite lookup_insert_eq.
  - eapply with_event_ok; [done|]. destruct (RegisteredWaits x) as [|i l] eqn:Hl; [done|].
    destruct (entry_waiter e x 0 i Hx) as (y & Hy & _); [by rewrite Hl|]. by eapply with_waiter_ok.
  - eapply release_ok; [done..|]. intros s' Es. unfold with_event. by rewrite Es, Hx.
  - eapply with_event_ok; [done|]. eapply with_waiter_ok; [done|]. case_match; [done|].
    destruct (WaitAll y) eqn:Ha; simpl; [|done].
    destruct (fresh_hand s t _ i y Hinv Hst Ht) as (Hj & Hl & _); [by destruct Hc as [->| ->]|done|].
    pose proof (hits_left y _ (st_ok s Hst _ _ Hy) Ha Hj Hl). case_match; [lia|done].
  - eapply release_ok; [done..|]. intros s' Es. unfold with_event. by rewrite Es, Hx.
  - eapply with_event_ok; [done|]. by case_match.
Qed.

Lemma run_ok t th : threads s !! t = Some th → run_thread s t (t_call th) (t_pc th) ≠ Fault.
Proof.
  intros Ht. pose proof (inv_keeps s Hinv _ _ Ht) as Hk.
  destruct th as [[e ms|es all ms|e|e|e|e] p]; simpl in *.
  - by apply wait_ok.
  - pose proof (scan_ok _ _ _ _ _ Ht). case_match; [by eapply multi_ok|done..].
  - eapply set_ok; eauto.
  - destruct (call_event t _ e Ht) as [x Hx]; [by left|]. destruct p; try done. by eapply with_event_ok.
  - destruct (call_event t _ e Ht) as [x Hx]; [by left|].
    destruct p; try (eapply set_ok; by eauto). by eapply with_event_ok.
  - done.
Qed.
End no_fault.

(** C18: while nobody destroys an event, no call touches an event or a waiter that was
    deleted, takes more references than there are, or counts below zero: in every
    state that is reached, no move of any thread fails. *)
Theorem events_no_fault s m : reachable s → lasting m = true → exec s m ≠ Fault.
Proof.
  intros Hr Hl. pose proof (reachable_inv s Hr) as Hinv. pose proof (reachable_status s Hr) as Hst.
  destruct m as [man ini|c|t|t u|t|t]; simpl; try done.
  - by case_match.
  - destruct (threads s !! t) as [th|] eqn:Ht; [|done]. by apply run_ok.
  - destruct (threads s !! t) as [[c []]|] eqn:Ht; try done. destruct (threads s !! u); [|done].
    destruct c as [| |e| |e|]; try done.
    + destruct (call_event s Hinv t _ e Ht) as [x Hx]; [by left|]. eapply with_event_ok; [done|]. by case_match.
    + destruct (call_event s Hinv t _ e Ht) as [x Hx]; [by left|]. eapply with_event_ok; [done|]. by case_match.
  - repeat case_match; done.
  - repeat case_match; done.
Qed.

(** C21: A waiter is there as long as its maker waits, or an event names it, and no longer. *)
Theorem waiter_in_use s w : reachable s →
  is_Some (waiters s !! w) ↔
  has_owner (threads s) w ∨ ∃ e x j, events s !! e = Some x ∧ Info w j ∈ RegisteredWaits x.
Proof.
  intros Hr. pose proof (inv_share s (reachable_inv s Hr)) as Hinv. split.
  - intros [y Hy]. destruct (sh_alone s Hinv w y Hy) as [?|[_ Hne]]; [by left|right].
    apply set_choose_L in Hne as [j Hj]. destruct (sh_found s Hinv w y j Hy Hj) as (e & x & ? & ?). eauto.
  - intros [(t & th & Ht & i & k & Ho)|(e & x & j & Hx & Hj)].
    + destruct (sh_owner s Hinv _ _ _ _ _ Ht Ho) as (y & ? & _). eauto.
    + destruct (sh_entry s Hinv _ _ _ Hx Hj) as (y & ? & _). eauto.
Qed.
