(* ===== verification/PeventsWait.v ===== *)
(** What a wait for several events says when it returns, and how many waits the
    sets of an event let through ([Pevents], while nobody destroys an event). *)
From S2P Require Import Prelude Pevents PeventsSteps PeventsInv PeventsSafe.
Local Open Scope Z_scope.

(** * The result of [WaitForMultipleEvents] *)

(** The waiter of a call about to succeed, and the index it will return once that
    is known. *)
Definition claim (th : thread) : option (positive * option Z) :=
  match t_call th, t_pc th with
  | WaitForMultipleEvents _ _ _, M_finish f rc => if rc =? 0 then Some (f_wfmo f, None) else None
  | WaitForMultipleEvents _ _ _, (M_unlock_w f rc idx | M_drop f rc idx) =>
    if rc =? 0 then Some (f_wfmo f, Some idx) else None
  | _, _ => None
  end.

(** All events were found set, or the one whose index is returned. *)
Definition claim_ok (y : wfmo) (o : option Z) : Prop :=
  if WaitAll y then (∀ j, (j < length (asked y))%nat → j ∈ hits y) ∧ (∀ idx, o = Some idx → idx = 0)
  else match o with
       | None => hits y ≠ ∅
       | Some idx => ∃ j, idx = Z.of_nat j ∧ j ∈ hits y
       end.

Definition claim_inv (s : conf) : Prop :=
  ∀ t th w o y, threads s !! t = Some th → claim th = Some (w, o) → waiters s !! w = Some y → claim_ok y o.

Lemma claim_mono y y' o :
  asked y' = asked y → WaitAll y' = WaitAll y → hits y ⊆ hits y' → claim_ok y o → claim_ok y' o.
Proof.
  unfold claim_ok. intros -> -> Hh. destruct (WaitAll y).
  - intros [? ?]. split; [auto|done].
  - destruct o; [intros (j & ? & ?); eauto|set_solver].
Qed.

(** Nothing is left to wait for exactly when enough events have hit. *)
Lemma full_hits (X : gset nat) n : (∀ j, j ∈ X → (j < n)%nat) → size X = n → ∀ j, (j < n)%nat → j ∈ X.
Proof.
  intros Hb Hs j Hj. assert (X ≡ list_to_set (seq 0 n)) as ->.
  - apply set_subseteq_size_equiv.
    + intros i Hi. apply elem_of_list_to_set, elem_of_seq. specialize (Hb _ Hi). lia.
    + rewrite size_list_to_set by apply NoDup_seq. rewrite length_seq. lia.
  - apply elem_of_list_to_set, elem_of_seq. lia.
Qed.
Lemma hits_full (X : gset nat) n : (∀ j, j ∈ X → (j < n)%nat) → (∀ j, (j < n)%nat → j ∈ X) → size X = n.
Proof.
  intros Hb Hf. assert (X ≡ list_to_set (seq 0 n)) as ->.
  - intros i. rewrite elem_of_list_to_set, elem_of_seq. split; intros Hi; [specialize (Hb _ Hi); lia|apply Hf; lia].
  - rewrite size_list_to_set by apply NoDup_seq. apply length_seq.
Qed.
Lemma fulfilled_claim y : status_ok y → fulfilled y = true ↔ claim_ok y None.
Proof.
  intros [Hb Hs]. unfold fulfilled, claim_ok. destruct (WaitAll y).
  - rewrite Z.eqb_eq. split.
    + intros H0. split; [|done]. apply full_hits; [done|lia].
    + intros [Hf _]. pose proof (hits_full _ _ Hb Hf). lia.
  - rewrite negb_true_iff, Z.eqb_neq. split.
    + intros Hn. destruct Hs as [[? _]|(j & _ & ?)]; [done|set_solver].
    + intros Hn. destruct Hs as [[_ ?]|(j & -> & _)]; [done|lia].
Qed.
Lemma claim_status y : status_ok y → claim_ok y None → claim_ok y (Some (Status y)).
Proof.
  intros Hy Hc. pose proof (proj2 (fulfilled_claim y Hy) Hc) as Hf. destruct Hy as [Hb Hs].
  unfold fulfilled, claim_ok in *. destruct (WaitAll y).
  - split; [by apply Hc|]. intros idx [= <-]. lia.
  - destruct Hs as [[? ?]|(j & ? & ?)]; [done|eauto].
Qed.

(** A waiter's hits grow; what was asked of it stays. *)
Lemma waiter_grows s s' : step s s' → ∀ w y y', waiters s !! w = Some y → waiters s' !! w = Some y' →
  asked y' = asked y ∧ WaitAll y' = WaitAll y ∧ hits y ⊆ hits y'.
Proof.
  intros Hs w0 y0 y0' Hy. destruct Hs; simpl; intros Hy0; views; look.
  all: try match goal with H : released _ _ _ _ _ !! _ = Some _ |- _ => apply released_lookup in H as [[? ?]|(? & ? & ?)]; subst end.
  all: simplify_eq/=; autorewrite with fire; split_and!; try done; set_solver +.
Qed.

Lemma woken_claim rc th : claim (woken rc th) = claim th.
Proof. by destruct th as [[] []]. Qed.
Lemma waked_claim P th : claim (waked P th) = claim th.
Proof. unfold waked. destruct (P th); [apply woken_claim|done]. Qed.

Lemma quiet_claim s th th' w o : quiet s th th' → claim th' = Some (w, o) →
  claim th = Some (w, o) ∨ o = None ∧ ∃ y, waiters s !! w = Some y ∧ fulfilled y = true.
Proof.
  destruct 1; unfold after_load; destruct_or?; destruct_and?; subst; simpl; try done.
  all: try (by destruct c; repeat case_match). all: try (by repeat case_match).
  - intros [= <- <-]. right. eauto.
  - intros [= <- <-]. right. eauto.
  - rewrite woken_claim. auto.
Qed.
Lemma locks_claim e x th th' : locks e x th th' → claim th' = None.
Proof. destruct 1; try done; try (by destruct c, (AutoReset x)); by destruct (rc =? 0). Qed.
Lemma unlocks_claim e x th th' : unlocks e x th th' → claim th' = None.
Proof. destruct 1; try done; by destruct c. Qed.
Lemma takes_claim e th th' : takes e th th' → claim th' = None.
Proof. by destruct 1. Qed.
Lemma stores_claim e th th' : stores e th th' → claim th' = None.
Proof. by destruct 1; destruct c. Qed.
Lemma removes_claim e x i k th th' : removes e x i k th th' → claim th' = None.
Proof. destruct 1; try done; by destruct c, (AutoReset x). Qed.
Lemma wlocks_claim w th th' : wlocks w th th' → claim th' = None.
Proof. destruct 1; [|by destruct c]. unfold claim. simpl. destruct (rc =? 0) eqn:E; simpl; [done|by rewrite E]. Qed.
Lemma wunlocks_claim w y th th' : wunlocks w y th th' → claim th' = claim th.
Proof. destruct 1; try done; by destruct c. Qed.
Lemma wakes_claim P th th' : wakes P th th' → claim th' = None.
Proof. destruct 1; by destruct c. Qed.

(** A claim is kept, or justified when it is made. *)
Lemma claim_origin s s' : inv s → status_inv s → claim_inv s → step s s' →
  ∀ t th w o, threads s' !! t = Some th → claim th = Some (w, o) →
  (∃ th0, threads s !! t = Some th0 ∧ claim th0 = Some (w, o)) ∨
  (∀ y, waiters s' !! w = Some y → claim_ok y o).
Proof.
  intros Hinv Hst Hcl Hs t0 th0 w0 o0. destruct Hs; simpl; intros Ht0 Hc0; look.
  all: try (left; by eauto).
  all: try match goal with
  | H : locks _ _ _ _ |- _ => apply locks_claim in H; congruence
  | H : unlocks _ _ _ _ |- _ => apply unlocks_claim in H; congruence
  | H : takes _ _ _ |- _ => apply takes_claim in H; congruence
  | H : stores _ _ _ |- _ => apply stores_claim in H; congruence
  | H : removes _ _ _ _ _ _ |- _ => apply removes_claim in H; congruence
  | H : wlocks _ _ _ |- _ => apply wlocks_claim in H; congruence
  | H : wakes _ _ _ |- _ => apply wakes_claim in H; congruence
  | H : wunlocks _ _ _ _ |- _ => apply wunlocks_claim in H; left; eexists; split; [eassumption|congruence]
  | c : call |- _ => by destruct c
  end.
  all: try (rewrite ?woken_claim, ?waked_claim in Hc0; left; by eauto).
  all: try (left; eexists; split; [eassumption|exact Hc0]; fail).
  - destruct (quiet_claim _ _ _ _ _ H0 Hc0) as [?|(-> & y & Hy & Hf)]; [left; by eauto|right].
    intros y' Hy'. simplify_eq. by apply fulfilled_claim; [eapply (st_ok s Hst)|].
  - right. intros y' Hy'. unfold claim in Hc0; simplify_eq/=. rewrite lookup_insert_eq in Hy'. simplify_eq.
    destruct (scan_hit s _ _ _ _ _ _ Hinv Hst H H0) as (Ha & _). unfold claim_ok; simpl. rewrite Ha. set_solver.
  - right. intros y' Hy'. unfold claim in Hc0; simpl in Hc0. destruct (rc =? 0) eqn:E; [|done]. simplify_eq.
    rewrite lookup_insert_eq in Hy'. simplify_eq. apply (claim_mono y); [done..|].
    apply claim_status; [by apply (st_ok s Hst _ _ H0)|]. eapply Hcl; [exact H| |exact H0]. unfold claim; simpl. by rewrite E.
Qed.

Lemma claim_owner th w o : claim th = Some (w, o) → ∃ i k, owner th = Some (w, i, k).
Proof. destruct th as [[] []]; unfold claim, owner; simpl; try done; destruct (rc =? 0); naive_solver. Qed.

Lemma claim_step s s' : inv s → status_inv s → claim_inv s → step s s' → claim_inv s'.
Proof.
  intros Hinv Hst Hcl Hs t th w o y' Ht Hc Hy'.
  destruct (claim_origin _ _ Hinv Hst Hcl Hs _ _ _ _ Ht Hc) as [(th0 & Ht0 & Hc0)|Hn]; [|by apply Hn].
  destruct (claim_owner _ _ _ Hc0) as (i & k & Ho).
  destruct (own_waiter s Hinv _ _ _ _ _ Ht0 Ho) as (y & Hy & _).
  destruct (waiter_grows _ _ Hs _ _ _ Hy Hy') as (? & ? & ?). eapply claim_mono; [done..|]. by eapply Hcl.
Qed.

Lemma reachable_claim s : reachable s → claim_inv s.
Proof.
  induction 1 as [|s m s' Hr IH Hl Hm]; [by intros ?????; simpl; rewrite lookup_empty|].
  pose proof (reachable_inv s Hr) as Hinv. eapply claim_step; [done|by apply reachable_status|done|].
  eapply exec_rule; [apply Hinv|done..].
Qed.

(** The only way [WaitForMultipleEvents] returns. *)
Lemma multi_returns s t es all ms p rc idx s' :
  run_thread s t (WaitForMultipleEvents es all ms) p = Next s' →
  threads s' !! t = Some (Thread (WaitForMultipleEvents es all ms) (Done rc idx)) →
  ∃ f, p = M_drop f rc idx.
Proof.
  intros Hs Ht. destruct p; simpl in Hs; unfold expire_test, expire, release_info, release in Hs; outcome;
    rewrite ?lookup_insert_eq in Ht; simplify_eq; eauto; repeat case_match; outcome; rewrite ?lookup_insert_eq in Ht;
    simplify_eq; eauto; repeat case_match; simplify_eq.
Qed.


(** * How many waits the sets of an event let through *)

(** About to take an event. *)
Definition taking (e : positive) (th : thread) : Prop :=
  match t_call th, t_pc th with
  | WaitForEvent e' _, W_take => e' = e
  | WaitForMultipleEvents es _ _, M_take f => es !! f_i f = Some e
  | _, _ => False
  end.

Lemma taking_holds e th : taking e th → holds_e th = Some e.
Proof. destruct th as [[] []]; unfold taking, holds_e; simpl; by intros ?; subst. Qed.
Lemma woken_taking e rc th : taking e (woken rc th) ↔ taking e th.
Proof. by destruct th as [[] []]. Qed.
Lemma waked_taking e P th : taking e (waked P th) ↔ taking e th.
Proof. unfold waked. destruct (P th); [apply woken_taking|done]. Qed.

Record take_inv (s : conf) : Prop := TakeInv {
  tk_state : ∀ e x, events s !! e = Some x → AutoReset x = true →
    (wins x + (if State x then 1 else 0) ≤ sets x)%nat;
  tk_taker : ∀ t th e x, threads s !! t = Some th → taking e th → events s !! e = Some x → AutoReset x = true →
    (S (wins x) ≤ sets x)%nat;
}.

Lemma quiet_taking s th th' e : quiet s th th' → taking e th' →
  taking e th ∨ ∃ x, events s !! e = Some x ∧ State x = true.
Proof.
  destruct 1; unfold after_load; destruct_or?; destruct_and?; subst; simpl; try done.
  all: try (by destruct c; repeat case_match). all: try (by repeat case_match).
  - destruct (AutoReset x); [|done]. intros Ht. unfold taking in Ht; simpl in Ht. subst. eauto.
  - destruct (AutoReset x); [|done]. intros Ht. unfold taking in Ht; simpl in Ht. subst. eauto.
  - intros Ht. unfold taking in Ht; simpl in Ht. simplify_eq. eauto.
  - rewrite woken_taking. auto.
Qed.
Lemma locks_taking e0 e x th th' : locks e x th th' → ¬ taking e0 th'.
Proof. destruct 1; try (intros Ht; exact Ht); try (destruct c, (AutoReset x); intros Ht; exact Ht);
  destruct (rc =? 0); intros Ht; exact Ht. Qed.
Lemma unlocks_taking e0 e x th th' : unlocks e x th th' → ¬ taking e0 th'.
Proof. destruct 1; try (intros Ht; exact Ht); destruct c; intros Ht; exact Ht. Qed.
Lemma takes_taking e th th' : takes e th th' → taking e th ∧ ∀ e0, ¬ taking e0 th'.
Proof. destruct 1; (split; [done|intros ? K; exact K]). Qed.
Lemma stores_taking e0 e th th' : stores e th th' → ¬ taking e0 th'.
Proof. destruct 1; destruct c; intros Ht; exact Ht. Qed.
Lemma removes_taking e0 e x i k th th' : removes e x i k th th' → ¬ taking e0 th'.
Proof. destruct 1; try (intros Ht; exact Ht); destruct c, (AutoReset x); intros Ht; exact Ht. Qed.
Lemma wlocks_taking e0 w th th' : wlocks w th th' → ¬ taking e0 th'.
Proof. destruct 1; [destruct (rc =? 0)|destruct c]; intros Ht; exact Ht. Qed.
Lemma wunlocks_taking e0 w y th th' : wunlocks w y th th' → ¬ taking e0 th'.
Proof. destruct 1; try (intros Ht; exact Ht); destruct c; intros Ht; exact Ht. Qed.
Lemma wakes_taking e0 P th th' : wakes P th th' → ¬ taking e0 th'.
Proof. destruct 1; destruct c; intros Ht; exact Ht. Qed.

(** Two threads are not about to take one event. *)
Lemma taking_unique s t1 t2 th1 th2 e : elock_inv s → threads s !! t1 = Some th1 → taking e th1 →
  threads s !! t2 = Some th2 → holds_e th2 = Some e → t1 = t2.
Proof. intros Hl H1 T1 H2 T2. eapply (holds_e_unique s); [done..| |done|done]. by apply taking_holds. Qed.

Lemma take_taker_step s s' : inv s → take_inv s → step s s' →
  ∀ t th e x, threads s' !! t = Some th → taking e th → events s' !! e = Some x → AutoReset x = true →
    (S (wins x) ≤ sets x)%nat.
Proof.
  intros Hinv [HS HT] Hs t0 th0 e0 x0. pose proof (inv_elock s Hinv) as Hlock.
  destruct Hs; simpl; intros Ht0 Hk0 Hx0 Ha0; look.
  all: try match goal with
  | H : locks _ _ _ ?th, K : taking _ ?th |- _ => by apply (locks_taking _ _ _ _ _ H) in K
  | H : unlocks _ _ _ ?th, K : taking _ ?th |- _ => by apply (unlocks_taking _ _ _ _ _ H) in K
  | H : takes _ _ ?th, K : taking _ ?th |- _ => by apply (proj2 (takes_taking _ _ _ H)) in K
  | H : stores _ _ ?th, K : taking _ ?th |- _ => by apply (stores_taking _ _ _ _ H) in K
  | H : removes _ _ _ _ _ ?th, K : taking _ ?th |- _ => by apply (removes_taking _ _ _ _ _ _ _ H) in K
  | H : wlocks _ _ ?th, K : taking _ ?th |- _ => by apply (wlocks_taking _ _ _ _ H) in K
  | H : wunlocks _ _ _ ?th, K : taking _ ?th |- _ => by apply (wunlocks_taking _ _ _ _ _ H) in K
  | H : wakes _ _ ?th, K : taking _ ?th |- _ => by apply (wakes_taking _ _ _ _ H) in K
  end.
  all: rewrite ?woken_taking, ?waked_taking in *.
  all: try (by eapply HT). all: try (by destruct c).
  all: try (match goal with H : events ?s !! ?e = Some ?x, Ht : threads ?s !! _ = Some ?th, K : taking ?e ?th |- _ => specialize (HT _ _ _ _ Ht K H Ha0) end; simpl; lia).
  - destruct (el_call s Hlock _ _ e0 Ht0); [|congruence]. destruct th0 as [[] []]; unfold taking in Hk0; simpl in *; subst;
      try done; [by left|by eapply list_elem_of_lookup_2].
  - destruct (quiet_taking _ _ _ _ H0 Hk0) as [?|(x & Hx & Hb)]; [by eapply HT|]. simplify_eq.
    specialize (HS _ _ Hx0 Ha0). rewrite Hb in HS. lia.
  - destruct (H2 (taking_unique s _ _ _ _ _ Hlock H (proj1 (takes_taking _ _ _ H1)) H3 (taking_holds _ _ Hk0))).
  - assert (AutoReset x = true) as Ha by (by destruct (AutoReset x) eqn:E; simpl in *; rewrite ?E in *).
    rewrite Ha. specialize (HT _ _ _ _ H6 Hk0 H1 Ha). simpl. lia.
Qed.

Lemma take_state_step s s' : inv s → take_inv s → step s s' →
  ∀ e x, events s' !! e = Some x → AutoReset x = true → (wins x + (if State x then 1 else 0) ≤ sets x)%nat.
Proof.
  intros Hinv [HS HT] Hs e0 x0. destruct Hs; simpl; intros Hx0 Ha0; look.
  all: try (by eapply HS).
  all: try (match goal with H : events _ !! _ = Some ?x |- _ => specialize (HS _ x H Ha0); by repeat case_match; simpl in *; lia end).
  - lia.
  - specialize (HT _ _ _ _ H (proj1 (takes_taking _ _ _ H1)) H0 Ha0). lia.
  - assert (AutoReset x = true) as Ha by (by destruct (AutoReset x) eqn:E; simpl in *; rewrite ?E in *).
    specialize (HS _ _ H1 Ha). rewrite Ha. by case_match; simpl in *; lia.
Qed.

Lemma reachable_take s : reachable s → take_inv s.
Proof.
  induction 1 as [|s m s' Hr IH Hl Hm]; [by split; intros *; simpl; rewrite lookup_empty|].
  pose proof (reachable_inv s Hr) as Hinv.
  assert (step s s') by (eapply exec_rule; [apply Hinv|done..]). split.
  - by eapply take_state_step.
  - by eapply take_taker_step.
Qed.


(** * When a wait is late *)

(** What a call will return, once that is known. *)
Definition returns (th : thread) : option Z :=
  match t_pc th with
  | W_wake rc | W_unlock rc | M_wake _ rc | M_finish _ rc | M_unlock_w _ rc _ | M_drop _ rc _ | Done rc _ => Some rc
  | _ => None
  end.
Definition rc_inv (s : conf) : Prop :=
  ∀ t th rc, threads s !! t = Some th → returns th = Some rc → rc_ok (t_call th) rc.

Lemma woken_rc rc rc' th : is_asleep th = true → rc_ok (t_call th) rc → returns (woken rc th) = Some rc' →
  rc_ok (t_call th) rc'.
Proof. destruct th as [c []]; try done; intros _ Hr; unfold returns; simpl; by intros [= <-]. Qed.
Lemma zero_limit c : limit c = 0 → rc_ok c WAIT_TIMEOUT.
Proof. right. split; [done|]. by rewrite H. Qed.


Lemma asleep_event_is e th : asleep_on_event e th = true → is_asleep th = true.
Proof. by destruct th as [[] []]. Qed.
Lemma asleep_waiter_is w th : asleep_on_waiter w th = true → is_asleep th = true.
Proof. by destruct th as [[] []]. Qed.
Lemma waked_rc P rc th : (P th = true → is_asleep th = true) → (∀ rc, returns th = Some rc → rc_ok (t_call th) rc) →
  returns (waked P th) = Some rc → rc_ok (t_call th) rc.
Proof.
  unfold waked. intros Hp Hold. destruct (P th); [|apply Hold]. apply woken_rc; [by apply Hp|by left].
Qed.

Lemma rc_step s s' : rc_inv s → step s s' → rc_inv s'.
Proof.
  intros Hrc Hs t0 th0 rc0 Ht0 Hr0. rule Hs; look; try done.
  all: try (by eapply Hrc).
  all: try (eapply (Hrc _ _ _ ltac:(eassumption)); exact Hr0).
  all: try (by destruct c). all: try (by destruct c, (AutoReset x)). all: try (by destruct c, (StillWaiting w)).
  all: try (unfold returns, after_load in Hr0; simpl in Hr0; try destruct (AutoReset x); simplify_eq;
            first [by left|by apply zero_limit]).
  all: try (match goal with K : setter _ = Some _ |- _ => apply setter_call in K as [->| ->] end;
            unfold returns in Hr0; simplify_eq/=; by left).
  - by eapply woken_rc.
  - destruct (rc =? 0); [done|]. by eapply (Hrc _ _ _ H).
  - destruct (rc =? 0); [done|]. by eapply (Hrc _ _ _ H).
  - eapply waked_rc; [apply asleep_waiter_is| |exact Hr0]. intros ?. by eapply Hrc.
  - eapply waked_rc; [apply asleep_event_is| |exact Hr0]. intros ?. by eapply Hrc.
  - eapply woken_rc; [by eapply asleep_event_is|by left|exact Hr0].
Qed.

(** A wait returns 0 or [WAIT_TIMEOUT], and the latter only when it was given a time
    limit. *)
Theorem wait_returns s t c rc idx : reachable s → threads s !! t = Some (Thread c (Done rc idx)) →
  rc = 0 ∨ rc = WAIT_TIMEOUT ∧ limit c ≠ WAIT_INFINITE.
Proof.
  intros Hr Ht. enough (rc_inv s) as Hrc by (by apply (Hrc _ _ _ Ht)). clear Ht.
  induction Hr as [|s m s' Hr IH Hl Hm]; [by intros ???; simpl; rewrite lookup_empty|].
  eapply rc_step; [done|]. eapply exec_rule; [apply (reachable_inv s Hr)|done..].
Qed.
