(* ===== verification/PeventsWake.v ===== *)
(** No wake-up is lost ([Pevents], while nobody destroys an event): when every call
    has returned or sleeps, those that sleep have nothing to wake up for. *)
From S2P Require Import Prelude Pevents PeventsSteps PeventsInv PeventsSafe PeventsWait.
Local Open Scope Z_scope.

#[local] Arguments woken : simpl never.
#[local] Arguments waked : simpl never.
#[local] Arguments asleep_on_event : simpl never.

(** * Which kind of event a setter deals with *)

Definition auto (s : conf) (e : positive) : option bool := AutoReset <$> events s !! e.

Definition kind_ok (b : bool) (p : pc) : Prop :=
  match p with
  | S_store_manual | S_unlock_broadcast | S_broadcast => b = false
  | S_store | S_unlock | S_unlock_signal | S_signal_e | S_stale _ => b = true
  | _ => True
  end.
Definition kind_inv (s : conf) : Prop :=
  ∀ t th e b, threads s !! t = Some th → setter th = Some e → auto s e = Some b → kind_ok b (t_pc th).

Lemma auto_put m e0 e x x' : m !! e = Some x → AutoReset x' = AutoReset x →
  AutoReset <$> (<[e := x']> m : gmap positive event) !! e0 = AutoReset <$> m !! e0.
Proof.
  intros He Hx. destruct (decide (e0 = e)) as [->|].
  - by rewrite lookup_insert_eq, He; simpl; rewrite Hx.
  - by rewrite lookup_insert_ne by done.
Qed.
Lemma auto_step s s' e : step s s' → is_Some (events s !! e) → auto s' e = auto s e.
Proof.
  intros Hs [x0 Hx0]. unfold auto. destruct Hs; simpl; try done.
  all: try (by eapply auto_put).
  - by rewrite lookup_insert_ne by congruence.
  - eapply auto_put; [done|]. by destruct (AutoReset x) eqn:E; simpl; rewrite ?E.
Qed.

Lemma woken_setter rc th : setter (woken rc th) = setter th.
Proof. done. Qed.
Lemma waked_setter P th : setter (waked P th) = setter th.
Proof. unfold waked. by destruct (P th). Qed.
Lemma woken_kind b rc th : kind_ok b (t_pc th) → kind_ok b (t_pc (woken rc th)).
Proof. by destruct th as [? []]. Qed.
Lemma waked_kind b P th : kind_ok b (t_pc th) → kind_ok b (t_pc (waked P th)).
Proof. unfold waked. destruct (P th); [apply woken_kind|done]. Qed.

Lemma kind_step s s' : inv s → kind_inv s → step s s' → kind_inv s'.
Proof.
  intros Hinv Hk Hs t0 th0 e0 b0 Ht0 He0 Ha0.
  assert (HE : ∀ t th, threads s !! t = Some th → setter th = Some e0 → auto s e0 = Some b0).
  { intros t th Ht He. rewrite <- (auto_step s s' e0 Hs); [done|]. apply (el_call s (inv_elock s Hinv) t th); [done|].
    destruct th as [[] p]; unfold setter in He; simplify_eq/=; by left. }
  assert (HF : ∀ t th, threads s !! t = Some th → setter th = Some e0 → kind_ok b0 (t_pc th)).
  { intros t th Ht He. eapply Hk; [done..|]. by eapply HE. }
  clear Ha0. rule Hs; look.
  all: rewrite ?woken_setter, ?waked_setter in *.
  all: try (by eapply HF).
  all: try (apply woken_kind || apply waked_kind; by eapply HF).
  all: try match goal with H : threads _ !! _ = Some (Thread ?c _) |- _ => specialize (HE _ _ H He0); specialize (HF _ _ H He0) end.
  all: try done. all: try (by destruct c). all: try (by destruct (StillWaiting w)).
  all: assert (e0 = e) as -> by (destruct c; unfold setter in *; by simplify_eq/=).
  all: match goal with Hx : events _ !! _ = Some _ |- _ => unfold auto in HE; rewrite Hx in HE end.
  all: simplify_eq/=; by destruct (AutoReset x).
Qed.

(** * Who sleeps on an event *)

(** Will wake up those who sleep on an event, or take it. *)
Definition wakeful (b : bool) (e : positive) (th : thread) : Prop :=
  match t_call th, t_pc th with
  | (SetEvent e' | PulseEvent e'), (S_front | S_expired _ | S_lock_w _ | S_fire _ | S_stale _ | S_unlock_w _
    | S_signal _ | S_drop _ | S_unlock_broadcast | S_broadcast) => e' = e ∧ b = false
  | (SetEvent e' | PulseEvent e'), (S_unlock_signal | S_signal_e) => e' = e ∧ b = true
  | WaitForEvent e' _, (W_reload | W_take | W_wake 0) => e' = e ∧ b = true
  | _, _ => False
  end.

Definition sleep_inv (s : conf) : Prop :=
  ∀ t th e x, threads s !! t = Some th → asleep_on_event e th = true → events s !! e = Some x → State x = true →
    some_thread (threads s) (wakeful (AutoReset x) e).

Lemma woken_wakeful b e rc th : wakeful b e th → wakeful b e (woken rc th).
Proof. by destruct th as [[] []]. Qed.
Lemma waked_wakeful b e P th : wakeful b e th → wakeful b e (waked P th).
Proof. unfold waked. destruct (P th); [apply woken_wakeful|done]. Qed.
Lemma woken_sleep e rc th : asleep_on_event e (woken rc th) = false.
Proof. by destruct th as [[] []]. Qed.
Lemma waked_sleep e P th : asleep_on_event e (waked P th) = true → asleep_on_event e th = true ∧ P th = false.
Proof. unfold waked. destruct (P th) eqn:E; [by rewrite woken_sleep|done]. Qed.

Lemma asleep_call e th : asleep_on_event e th = true → e ∈ call_events (t_call th).
Proof. destruct th as [[] []]; try done. unfold asleep_on_event. intros ->%bool_decide_eq_true. by left. Qed.
Lemma counted x : let x' := if AutoReset x then count_set (count_win x) else x in
  AutoReset x' = AutoReset x ∧ State x' = State x ∧ RegisteredWaits x' = RegisteredWaits x.
Proof. by destruct (AutoReset x) eqn:E; simpl; rewrite ?E. Qed.

Lemma setter_wakeful c p e e0 b : setter (Thread c p) = Some e → wakeful b e0 (Thread c p) → e = e0.
Proof. destruct c; try done; intros [= ->]; destruct p; by intros []. Qed.

Lemma sleep_step s s' : inv s → kind_inv s → sleep_inv s → step s s' → sleep_inv s'.
Proof.
  intros Hinv Hk HF Hs t0 th0 e0 x0 Ht0 Ha0 Hx0 Hs0. 
  rule Hs; look.
  all: rewrite ?woken_sleep in *; try done.
  all: try (by destruct c).
  all: try discriminate Ha0.
  all: try (unfold after_load in Ha0; first [destruct (AutoReset x)|destruct (rc =? 0)]; discriminate Ha0).
  all: try (eapply some_put; [eassumption| |eapply HF; [eassumption|done|done|done]];
            clear; unfold wakeful; cbn [t_call t_pc]; try match goal with c : call |- _ => destruct c end;
            try match goal with |- context [StillWaiting ?w] => destruct (StillWaiting w) end; tauto).
  all: try (by eapply HF).
  all: try (rewrite woken_sleep in Ha0; discriminate Ha0).
  all: try (eapply some_put; [eassumption|apply woken_wakeful|by eapply HF]).
  all: try (eapply some_new; [done|by eapply HF]).
  all: try congruence.
  all: try (eapply some_put; [eassumption| |eapply HF; [eassumption|done|done|done]];
            unfold wakeful, after_load; cbn [t_call t_pc];
            first [ intros [-> Hb]; simplify_eq; by rewrite Hb
                  | destruct c; try done; unfold setter in *; intros [-> Hb]; simplify_eq/=; by rewrite Hb
                  | by destruct rc
                  | by destruct (AutoReset x)]; fail).
  - destruct (el_call s (inv_elock s Hinv) t0 th0 e0 Ht0); [by apply asleep_call|congruence].
  - eapply some_put; [eassumption| |by eapply HF]. intros Hw. rewrite <- (setter_wakeful _ _ _ _ _ H0 Hw) in Ha0.
    by rewrite (H3 _ _ H4) in Ha0.
  - by destruct (rc =? 0).
  - by destruct (rc =? 0).
  - unfold asleep_on_event in Ha0. by rewrite bool_decide_eq_false_2 in Ha0.
  - unfold asleep_on_event in Ha0. by rewrite bool_decide_eq_false_2 in Ha0.
  - assert (AutoReset x = true) as -> by (apply (Hk _ _ e0 _ H H1); unfold auto; by rewrite H0).
    apply some_this. by apply setter_call in H1 as [->| ->].
  - assert (AutoReset x = false) as -> by (apply (Hk _ _ e0 _ H H1); unfold auto; by rewrite H0).
    apply some_this. by apply setter_call in H1 as [->| ->].
  - destruct (counted x) as (-> & Hc & _). rewrite Hc in Hs0.
    eapply some_put; [exact H| |by eapply HF]. by destruct c.
  - apply waked_sleep in Ha0 as [Ha0 _]. eapply (some_woken _ _ (Thread c (S_signal i))); [done|by apply waked_wakeful| |by eapply HF].
    by destruct c.
  - apply waked_sleep in Ha0 as [Ha0 Hn]. eapply (some_woken _ _ (Thread c S_broadcast)); [done|by apply waked_wakeful| |by eapply HF].
    intros Hw. rewrite <- (setter_wakeful _ _ _ _ _ H0 Hw) in Ha0. congruence.
  - destruct (decide (e = e0)) as [->|Hne].
    + assert (AutoReset x0 = true) as -> by (apply (Hk _ _ e0 _ H H0); unfold auto; by rewrite Hx0).
      exists u, (woken 0 th). rewrite lookup_insert_ne, lookup_insert_eq by (intros ->; simplify_eq; by destruct c).
      split; [done|]. destruct th as [[] []]; try done. unfold asleep_on_event in H2.
      apply bool_decide_eq_true in H2 as ->. done.
    + eapply some_signal; [exact H|exact H1|apply woken_wakeful| |by eapply HF].
      intros Hw. destruct Hne. by eapply setter_wakeful.
Qed.

(** * What is registered with an event that is set *)

(** Goes through the registrations of an event, and is about to register. *)
Definition sweeping (e : positive) (th : thread) : Prop :=
  match t_call th, t_pc th with
  | (SetEvent e' | PulseEvent e'), (S_front | S_expired _ | S_lock_w _ | S_fire _ | S_stale _ | S_unlock_w _
    | S_signal _ | S_drop _) => e' = e
  | _, _ => False
  end.
Definition pushing (e : positive) (th : thread) : Prop :=
  match t_call th, t_pc th with WaitForMultipleEvents es _ _, M_push f => es !! f_i f = Some e | _, _ => False end.
Definition swept (e : positive) (th : thread) : Prop :=
  match t_call th, t_pc th with
  | (SetEvent e' | PulseEvent e'), (S_store | S_unlock_broadcast) => e' = e
  | _, _ => False
  end.

Record reg_inv (s : conf) : Prop := RegInv {
  rg_auto : ∀ e x, events s !! e = Some x → AutoReset x = true → State x = true → RegisteredWaits x = [];
  rg_manual : ∀ e x, events s !! e = Some x → AutoReset x = false → State x = true → RegisteredWaits x ≠ [] →
    some_thread (threads s) (sweeping e);
  rg_push : ∀ t th e x, threads s !! t = Some th → pushing e th → events s !! e = Some x → State x = false;
  rg_swept : ∀ t th e x, threads s !! t = Some th → swept e th → events s !! e = Some x → RegisteredWaits x = [];
}.

Lemma pushing_holds e th : pushing e th → holds_e th = Some e.
Proof. by destruct th as [[] []]. Qed.
Lemma swept_holds e th : swept e th → holds_e th = Some e.
Proof. destruct th as [[] []]; try done; by intros <-. Qed.
Lemma woken_pushing e rc th : pushing e (woken rc th) → pushing e th.
Proof. by destruct th as [[] []]. Qed.
Lemma woken_swept e rc th : swept e (woken rc th) → swept e th.
Proof. by destruct th as [[] []]. Qed.
Lemma woken_sweeping e rc th : sweeping e th → sweeping e (woken rc th).
Proof. by destruct th as [[] []]. Qed.
Lemma waked_pushing e P th : pushing e (waked P th) → pushing e th.
Proof. unfold waked. destruct (P th); [apply woken_pushing|done]. Qed.
Lemma waked_swept e P th : swept e (waked P th) → swept e th.
Proof. unfold waked. destruct (P th); [apply woken_swept|done]. Qed.
Lemma waked_sweeping e P th : sweeping e th → sweeping e (waked P th).
Proof. unfold waked. destruct (P th); [apply woken_sweeping|done]. Qed.
#[local] Arguments pushing : simpl never.
#[local] Arguments swept : simpl never.
#[local] Arguments sweeping : simpl never.

Lemma setter_sweeping c p e e0 : setter (Thread c p) = Some e → sweeping e0 (Thread c p) → e = e0.
Proof. destruct c; try done; intros [= ->]; by destruct p. Qed.
Lemma delete_ne {A} (l : list A) k : delete k l ≠ [] → l ≠ [].
Proof. by intros Hd ->. Qed.

Lemma reg_auto_step s s' : inv s → kind_inv s → reg_inv s → step s s' →
  ∀ e x, events s' !! e = Some x → AutoReset x = true → State x = true → RegisteredWaits x = [].
Proof.
  intros Hinv Hk [HA HM HP HE] Hs e0 x0 Hx0 Ha0 Hs0. destruct Hs; simpl in *; look; try (by eapply HA).
  - done.
  - destruct H1 as [c He|c He].
    + eapply (HE _ _ e0); [exact H| |done]. by apply setter_call in He as [->| ->].
    + pose proof (Hk _ _ e0 (AutoReset x) H He) as Hb. rewrite Ha0 in Hb. unfold auto in Hb. rewrite H0 in Hb.
      simpl in Hb. rewrite Ha0 in Hb. by specialize (Hb eq_refl).
  - rewrite (HP _ _ e0 x H H0 H1) in Hs0. done.
  - by rewrite (HA _ _ H0 Ha0 Hs0).
  - destruct (counted x) as (Ha & Hc & Hl). rewrite Hl. rewrite Ha in Ha0. rewrite Hc in Hs0. by eapply HA.
Qed.

Lemma reg_manual_step s s' : inv s → kind_inv s → reg_inv s → step s s' →
  ∀ e x, events s' !! e = Some x → AutoReset x = false → State x = true → RegisteredWaits x ≠ [] →
    some_thread (threads s') (sweeping e).
Proof.
  intros Hinv Hk [HA HM HP HE] Hs e0 x0 Hx0 Ha0 Hs0 Hl0. rule Hs; look; try done.
  all: try (by eapply HM).
  all: try (eapply some_put; [eassumption|apply woken_sweeping|by eapply HM]).
  all: try (eapply some_new; [done|by eapply HM]).
  all: try congruence.
  all: try (eapply some_put; [eassumption| |eapply HM; [eassumption|done|done|done]];
            clear; unfold sweeping; cbn [t_call t_pc]; try match goal with c : call |- _ => destruct c end;
            try match goal with |- context [StillWaiting ?w] => destruct (StillWaiting w) end; tauto).
  all: try (eapply some_put; [eassumption| |eapply HM; [eassumption|done|done|by eapply delete_ne]];
            clear -Ha0; unfold sweeping; cbn [t_call t_pc]; try match goal with c : call |- _ => destruct c end;
            rewrite ?Ha0; tauto).
  - eapply some_put; [eassumption| |by eapply HM]. intros Hw. pose proof (setter_sweeping _ _ _ _ H0 Hw). congruence.
  - pose proof (Hk _ _ e0 (AutoReset x) H H1) as Hb. unfold auto in Hb. rewrite H0 in Hb. simpl in Hb.
    specialize (Hb eq_refl). congruence.
  - apply some_this. by apply setter_call in H1 as [->| ->].
  - rewrite (HP _ _ e0 x H H0 H1) in Hs0. done.
  - eapply some_put; [eassumption| |by eapply HM]. intros Hw. destruct H5. by eapply setter_sweeping.
  - eapply some_put; [eassumption| |by eapply HM]. intros Hw. destruct H4. by eapply setter_sweeping.
  - destruct (counted x) as (Ha & Hc & Hl). rewrite Hl in Hl0. rewrite Ha in Ha0. rewrite Hc in Hs0.
    eapply some_put; [exact H| |by eapply HM]. by destruct c.
  - eapply (some_woken _ _ (Thread c (S_signal i))); [done|by apply waked_sweeping|by destruct c|by eapply HM].
  - eapply (some_woken _ _ (Thread c S_broadcast)); [done|by apply waked_sweeping|by destruct c|by eapply HM].
  - eapply some_signal; [exact H|exact H1|apply woken_sweeping|by destruct c|by eapply HM].
Qed.

(** Who does not move keeps what it knows about an event it holds. *)
Lemma reg_push_step s s' : inv s → reg_inv s → step s s' →
  ∀ t th e x, threads s' !! t = Some th → pushing e th → events s' !! e = Some x → State x = false.
Proof.
  intros Hinv [HA HM HP HE] Hs t0 th0 e0 x0 Ht0 Hp0 Hx0. rule Hs; look; try done.
  all: try (by eapply HP).
  all: try (by destruct c).
  all: try (apply woken_pushing in Hp0 || apply waked_pushing in Hp0; by eapply HP).
  - destruct (el_call s (inv_elock s Hinv) t0 th0 e0 Ht0); [|congruence].
    destruct th0 as [[] []]; try done. exact (list_elem_of_lookup_2 _ _ _ Hp0).
  - unfold pushing in Hp0; simpl in Hp0. congruence.
  - destruct H2. eapply (holds_e_unique s); [apply Hinv|exact H| |exact H3|by apply pushing_holds].
    by apply setter_call in H1 as [->| ->].
  - destruct H2. eapply (holds_e_unique s); [apply Hinv|exact H| |exact H3|by apply pushing_holds].
    by apply setter_call in H1 as [->| ->].
  - by destruct (rc =? 0).
  - destruct (counted x) as (_ & -> & _). by eapply HP.
Qed.

Lemma reg_swept_step s s' : inv s → kind_inv s → reg_inv s → step s s' →
  ∀ t th e x, threads s' !! t = Some th → swept e th → events s' !! e = Some x → RegisteredWaits x = [].
Proof.
  intros Hinv Hk [HA HM HP HE] Hs t0 th0 e0 x0 Ht0 Hp0 Hx0. rule Hs; look; try done.
  all: try (by eapply HE).
  all: try (by destruct c).
  all: try (apply woken_swept in Hp0 || apply waked_swept in Hp0; by eapply HE).
  all: try (match goal with H : events _ !! _ = Some _, Ht : threads _ !! _ = Some ?th, K : swept _ ?th |- _ =>
      rewrite (HE _ _ _ _ Ht K H) end; done).
  all: try (by destruct c, (AutoReset x)). all: try (by destruct c, (StillWaiting w)).
  - assert (e = e0) as ->; [|congruence].
    apply setter_call in H0 as [->| ->]; destruct (AutoReset x); unfold swept in Hp0; by simplify_eq/=.
  - destruct H3. eapply (holds_e_unique s); [apply Hinv|exact H|exact H0|exact H4|by apply swept_holds].
  - destruct (counted x) as (_ & _ & ->). by eapply HE.
Qed.

Record event_inv (s : conf) : Prop := EventInv {
  ev_inv : inv s;
  ev_kind : kind_inv s;
  ev_sleep : sleep_inv s;
  ev_reg : reg_inv s;
}.

Lemma reachable_event s : reachable s → event_inv s.
Proof.
  induction 1 as [|s m s' Hr [IH Hk Hsl [HA HM HP HE]] Hl Hm].
  - split; [apply inv_of_start|intros ????; simpl; by rewrite ?lookup_empty..|].
    split; intros *; simpl; by rewrite ?lookup_empty.
  - assert (step s s') by (eapply exec_rule; [apply IH|done..]). split; [by eapply inv_step| | |split].
    + by eapply kind_step.
    + by eapply sleep_step.
    + by eapply reg_auto_step.
    + by eapply reg_manual_step.
    + by eapply reg_push_step.
    + by eapply reg_swept_step.
Qed.
