(* ===== verification/PeventsAsleep.v ===== *)
(** What a call of [WaitForMultipleEvents] that waits is still registered with, and
    who will wake it up ([Pevents], while nobody destroys an event). *)
From S2P Require Import Prelude Pevents PeventsSteps PeventsInv PeventsSafe PeventsWait PeventsWake.
Local Open Scope Z_scope.

#[local] Arguments woken : simpl never.
#[local] Arguments waked : simpl never.
#[local] Arguments asleep_on_event : simpl never.
#[local] Arguments asleep_on_waiter : simpl never.

(** * What a waiting call knows *)

(** The waiter of a call that has not made up its mind, and how many of its events
    it has dealt with. *)
Definition waiting (th : thread) : option (positive * nat) :=
  match t_call th with
  | WaitForMultipleEvents es _ _ =>
    match t_pc th with
    | M_head f | M_acquire f | M_lock f | M_clean f _ | M_expire f _ | M_try f | M_take f | M_unlock f | M_hit f
    | M_push f => Some (f_wfmo f, min (f_i f) (length es))
    | M_pushed f => Some (f_wfmo f, min (S (f_i f)) (length es))
    | M_check f | M_loop f | M_sleep f | M_wake f _ => Some (f_wfmo f, length es)
    | _ => None
    end
  | _ => None
  end.

(** Is about to give up registration [i] because its wait is over. *)
Definition giving_up (m : gmap positive event) (i : info) (th : thread) : Prop :=
  match t_call th, t_pc th with
  | (SetEvent _ | PulseEvent _), (S_expired i' | S_stale i') => i' = i
  | WaitForMultipleEvents es _ _, M_expire f k =>
    ∃ e x, es !! f_i f = Some e ∧ m !! e = Some x ∧ RegisteredWaits x !! k = Some i
  | _, _ => False
  end.

(** Is about to signal a waiter. *)
Definition signals (w : positive) (th : thread) : Prop :=
  match t_call th, t_pc th with
  | (SetEvent _ | PulseEvent _), (S_unlock_w i | S_signal i) => Waiter i = w
  | _, _ => False
  end.

Record wait_inv (s : conf) : Prop := WaitInv {
  wt_live : ∀ t th w i y, threads s !! t = Some th → waiting th = Some (w, i) → waiters s !! w = Some y →
    StillWaiting y = false → WaitAll y = false ∧ hits y ≠ ∅;
  wt_cover : ∀ t th w i y j, threads s !! t = Some th → waiting th = Some (w, i) → waiters s !! w = Some y →
    StillWaiting y = true → (j < i)%nat → j ∈ shares y ∨ j ∈ hits y;
  wt_over : ∀ t th i y, threads s !! t = Some th → giving_up (events s) i th → waiters s !! Waiter i = Some y →
    StillWaiting y = false;
  wt_told : ∀ t th i y, threads s !! t = Some th → hand th = Some (i, true) → waiters s !! Waiter i = Some y →
    WaitIndex i ∈ hits y;
  wt_sleep : ∀ t th w y, threads s !! t = Some th → asleep_on_waiter w th = true → waiters s !! w = Some y →
    fulfilled y = true → some_thread (threads s) (signals w);
}.

Lemma waiting_owner th w i : waiting th = Some (w, i) → ∃ k, owner th = Some (w, i, k).
Proof. destruct th as [[] []]; unfold waiting, owner; simpl; try done; naive_solver. Qed.
Lemma woken_waiting rc th : waiting (woken rc th) = waiting th.
Proof. by destruct th as [[] []]. Qed.
Lemma waked_waiting P th : waiting (waked P th) = waiting th.
Proof. unfold waked. destruct (P th); [apply woken_waiting|done]. Qed.
Lemma woken_giving m i rc th : giving_up m i (woken rc th) → giving_up m i th.
Proof. by destruct th as [[] []]. Qed.
Lemma waked_giving m i P th : giving_up m i (waked P th) → giving_up m i th.
Proof. unfold waked. destruct (P th); [apply woken_giving|done]. Qed.
Lemma woken_signals w rc th : signals w th → signals w (woken rc th).
Proof. by destruct th as [[] []]. Qed.
Lemma waked_signals w P th : signals w th → signals w (waked P th).
Proof. unfold waked. destruct (P th); [apply woken_signals|done]. Qed.
Lemma woken_multi w rc th : asleep_on_waiter w (woken rc th) = false.
Proof. by destruct th as [[] []]. Qed.
Lemma waked_multi w P th : asleep_on_waiter w (waked P th) = true → asleep_on_waiter w th = true ∧ P th = false.
Proof. unfold waked. destruct (P th) eqn:E; [by rewrite woken_multi|done]. Qed.
Lemma multi_waiting w th : asleep_on_waiter w th = true → ∃ i, waiting th = Some (w, i).
Proof.
  destruct th as [[] []]; try done. unfold asleep_on_waiter, waiting; simpl. intros <-%bool_decide_eq_true. eauto.
Qed.

(** A wait that is over stays so. *)
Lemma over_mono s s' : step s s' → ∀ w y y', waiters s !! w = Some y → waiters s' !! w = Some y' →
  StillWaiting y = false → StillWaiting y' = false.
Proof.
  intros Hs w0 y0 y0' Hy. destruct Hs; simpl; intros Hy0; views; look.
  all: try match goal with H : released _ _ _ _ _ !! _ = Some _ |- _ => apply released_lookup in H as [[? ?]|(? & ? & ?)]; subst end.
  all: simplify_eq/=; try done. intros Hw. unfold fire. by destruct (WaitAll _).
Qed.

(** A waiter that a waiting call has is not a new one, unless the call has just made it. *)
Lemma waiting_origin s s' : index_inv s → step s s' → ∀ t th w i, threads s' !! t = Some th → waiting th = Some (w, i) →
  (∃ th0 i0, threads s !! t = Some th0 ∧ waiting th0 = Some (w, i0) ∧
     ∀ j y', (j < i)%nat → waiters s' !! w = Some y' → (j < i0)%nat ∨ j ∈ shares y' ∨ j ∈ hits y') ∨
  waiters s !! w = None ∧ i = 0%nat.
Proof.
  intros Hidx Hs t0 th0 w0 i0. rule Hs; intros Ht0 Hw0; look; rewrite ?woken_waiting, ?waked_waiting in *.
  all: try (left; eexists _, i0; split_and!; [eassumption|assumption|by auto]; fail).
  all: try (left; eexists _, i0; split_and!; [eassumption|exact Hw0|by auto]; fail).
  all: try (by destruct c). all: try (by destruct c, (AutoReset x)). all: try (by destruct c, (StillWaiting w)).
  - unfold waiting in Hw0; cbn [t_call t_pc] in Hw0; simplify_eq. left. do 2 eexists. split_and!; [exact H|reflexivity|].
    intros. left. lia.
  - unfold waiting in Hw0; cbn [t_call t_pc] in Hw0; simplify_eq. left. do 2 eexists. split_and!; [exact H|reflexivity|].
    intros j y' Hj Hy'. rewrite lookup_insert_eq in Hy'. simplify_eq.
    destruct (decide (j = f_i f)) as [->|]; [right; left; set_solver +|left; lia].
  - unfold waiting in Hw0; cbn [t_call t_pc f_wfmo f_i] in Hw0; simplify_eq. auto.
  - destruct (rc =? 0); [|done]. left. do 2 eexists. split_and!; [exact H|exact Hw0|auto].
  - unfold waiting in Hw0; cbn [t_call t_pc f_wfmo f_i] in Hw0; simplify_eq. left. do 2 eexists. split_and!; [exact H|reflexivity|].
    intros j y' Hj Hy'. rewrite lookup_insert_eq in Hy'. simplify_eq.
    destruct (decide (j = f_i f)) as [->|]; [right; right; set_solver +|left; lia].
Qed.

(** A waiting call's waiter. *)
Lemma waiting_waiter s t th w i : inv s → threads s !! t = Some th → waiting th = Some (w, i) → is_Some (waiters s !! w).
Proof.
  intros Hinv Ht Hw. destruct (waiting_owner _ _ _ Hw) as [k Ho].
  destruct (own_waiter s Hinv _ _ _ _ _ Ht Ho) as (y & ? & _). eauto.
Qed.

(** A wait ends early only by an event, and not for all. *)
Lemma wait_ends s s' : inv s → step s s' → ∀ w y y', waiters s !! w = Some y → waiters s' !! w = Some y' →
  StillWaiting y = true → StillWaiting y' = false →
  WaitAll y' = false ∧ hits y' ≠ ∅ ∨ ∃ t th i k, threads s' !! t = Some th ∧ owner th = Some (w, i, k) ∧ waiting th = None.
Proof.
  intros Hinv Hs w0 y0 y0' Hy. destruct Hs; simpl; intros Hy0 Hb Hb'; views; look.
  all: try match goal with H : released _ _ _ _ _ !! _ = Some _ |- _ => apply released_lookup in H as [[? ?]|(? & ? & ?)]; subst end.
  all: simplify_eq/=; try congruence.
  - left. rewrite fire_all, fire_hits. split; [|set_solver +]. unfold fire in Hb'. destruct (WaitAll y); [|done].
    simpl in Hb'. congruence.
  - right. do 4 eexists. rewrite lookup_insert_eq. split_and!; done.
Qed.

Lemma live_step s s' : inv s → inv s' → wait_inv s → step s s' →
  ∀ t th w i y, threads s' !! t = Some th → waiting th = Some (w, i) → waiters s' !! w = Some y →
    StillWaiting y = false → WaitAll y = false ∧ hits y ≠ ∅.
Proof.
  intros Hinv Hinv' Hwt Hs t th w i y' Ht Hw Hy' Hb.
  destruct (waiting_origin _ _ (inv_index s Hinv) Hs _ _ _ _ Ht Hw) as [(th0 & i0 & Ht0 & Hw0 & _)|[Hn _]].
  - destruct (waiting_waiter s _ _ _ _ Hinv Ht0 Hw0) as [y Hy].
    destruct (waiter_grows _ _ Hs _ _ _ Hy Hy') as (_ & Ha & Hh).
    destruct (StillWaiting y) eqn:Hb0.
    + destruct (wait_ends _ _ Hinv Hs _ _ _ Hy Hy' Hb0 Hb) as [?|(t1 & th1 & i1 & k1 & Ht1 & Ho1 & Hw1)]; [done|].
      destruct (waiting_owner _ _ _ Hw) as [k Ho].
      assert (t = t1) as -> by (by eapply (sh_unique s' (inv_share s' Hinv'))). congruence.
    + destruct (wt_live s Hwt _ _ _ _ _ Ht0 Hw0 Hy Hb0). rewrite Ha. split; [done|]. set_solver.
  - destruct (waiter_origin _ _ Hs _ _ Hy') as [(? & ? & _)|(_ & _ & Hb' & _)]; congruence.
Qed.

(** A registration goes only after it has told its waiter, or when the wait is over. *)
Lemma shares_kept s s' : inv s → wait_inv s → step s s' → ∀ w y y' j, waiters s !! w = Some y →
  waiters s' !! w = Some y' → StillWaiting y' = true → j ∈ shares y → j ∈ shares y' ∨ j ∈ hits y.
Proof.
  intros Hinv Hwt Hs w0 y0 y0' j Hy. pose proof (inv_share s Hinv) as Hsh. destruct Hs; simpl; intros Hy0 Hb Hj; look.
  all: simplify_eq/=; autorewrite with fire; auto.
  all: try (apply released_lookup in Hy0 as [[? ?]|(? & ? & ?)]; simplify_eq/=; auto).
  - set_solver.
  - destruct (decide (j = WaitIndex i)) as [->|]; [|left; set_solver].
    pose proof (wt_told s Hwt t th i y H) as Htold. destruct H3; simpl in *.
    + destruct H4 as [Hk|[_ [b ?]]]; [|done].
      rewrite (wt_over s Hwt _ _ i y H) in Hb; [done| |done]. unfold giving_up; simpl. eauto.
    + rewrite (wt_over s Hwt _ _ i y H) in Hb; [done| |done]. by apply setter_call in H3 as [->| ->].
    + right. apply Htold; [|done]. by apply setter_call in H3 as [->| ->].
Qed.

Lemma cover_step s s' : inv s → inv s' → wait_inv s → step s s' →
  ∀ t th w i y j, threads s' !! t = Some th → waiting th = Some (w, i) → waiters s' !! w = Some y →
    StillWaiting y = true → (j < i)%nat → j ∈ shares y ∨ j ∈ hits y.
Proof.
  intros Hinv Hinv' Hwt Hs t th w i y' j Ht Hw Hy' Hb Hj.
  destruct (waiting_origin _ _ (inv_index s Hinv) Hs _ _ _ _ Ht Hw) as [(th0 & i0 & Ht0 & Hw0 & Hc)|[_ ->]]; [|lia].
  destruct (Hc j y' Hj Hy') as [Hj0|?]; [|done].
  destruct (waiting_waiter s _ _ _ _ Hinv Ht0 Hw0) as [y Hy].
  destruct (waiter_grows _ _ Hs _ _ _ Hy Hy') as (_ & _ & Hh).
  assert (StillWaiting y = true) as Hb0.
  { destruct (StillWaiting y) eqn:E; [done|]. by rewrite (over_mono _ _ Hs _ _ _ Hy Hy' E) in Hb. }
  destruct (wt_cover s Hwt _ _ _ _ _ _ Ht0 Hw0 Hy Hb0 Hj0) as [Hs0|?]; [|right; set_solver].
  destruct (shares_kept _ _ Hinv Hwt Hs _ _ _ _ Hy Hy' Hb Hs0); [by left|right; set_solver].
Qed.

(** Whose registration is given up was there before. *)
Lemma giving_waiter s t th i : inv s → threads s !! t = Some th → giving_up (events s) i th → is_Some (waiters s !! Waiter i).
Proof.
  intros Hinv Ht Hg. destruct th as [c p]. unfold giving_up in Hg; simpl in Hg.
  destruct c; try done; destruct p; try done.
  1: destruct Hg as (e & x & He & Hx & Hk); destruct (entry_waiter s Hinv _ _ _ _ Hx Hk) as (y & ? & _); eauto.
  all: subst; destruct (hand_waiter s Hinv _ _ _ false Ht eq_refl) as (y & ? & _); eauto.
Qed.

Lemma giving_put m i e x x' th : m !! e = Some x → (holds_e th = Some e → RegisteredWaits x' = RegisteredWaits x) →
  giving_up (<[e := x']> m) i th → giving_up m i th.
Proof.
  intros He Hx Hg. destruct th as [[] []]; try done. destruct Hg as (e0 & x0 & He0 & Hx0 & Hk).
  exists e0. apply lookup_insert_Some in Hx0 as [[-> ->]|[? ?]]; [|by exists x0].
  exists x. split_and!; [done..|]. by rewrite <- Hx.
Qed.
Lemma giving_new m i e x' th : m !! e = None → (∀ e0, e0 ∈ call_events (t_call th) → is_Some (m !! e0)) →
  giving_up (<[e := x']> m) i th → giving_up m i th.
Proof.
  intros He Hx Hg. destruct th as [[] []]; try done. destruct Hg as (e0 & x0 & He0 & Hx0 & Hk).
  destruct (Hx e0) as [x1 Hx1]; [by eapply list_elem_of_lookup_2|].
  rewrite lookup_insert_ne in Hx0 by congruence. by exists e0, x0.
Qed.

Lemma giving_origin s s' : inv s → step s s' → ∀ t th i, threads s' !! t = Some th → giving_up (events s') i th →
  (∃ t0 th0, threads s !! t0 = Some th0 ∧ giving_up (events s) i th0) ∨
  ∃ y, waiters s !! Waiter i = Some y ∧ StillWaiting y = false.
Proof.
  intros Hinv Hs t0 th0 i0. rule Hs; intros Ht0 Hg0; look.
  all: try (left; do 2 eexists; split; [eassumption|exact Hg0]; fail).
  all: try (by destruct c). all: try (by destruct c, (AutoReset x)).
  all: try (apply woken_giving in Hg0 || apply waked_giving in Hg0; left; do 2 eexists; split; [eassumption|exact Hg0]; fail).
  all: try (eapply giving_put in Hg0; [left; by eauto|eassumption|done]).
  all: try (eapply giving_put in Hg0; [left; by eauto|eassumption|]; intros He; exfalso;
    match goal with Hi : inv ?s, Hne : ?t ≠ ?t0, H : threads ?s !! ?t = Some _ |- _ =>
      apply Hne; eapply (holds_e_unique s); [apply Hi|exact H| |eassumption|exact He];
      first [assumption|match goal with K : setter _ = Some _ |- _ => by apply setter_call in K as [->| ->] end]
    end).
  - left. do 2 eexists. split; [exact Ht0|]. eapply giving_new; [done| |exact Hg0]. intros e0. by apply (el_call s (inv_elock s Hinv) t0 th0).
  - right. destruct Hg0 as (e0 & x0 & ? & ? & ?). simplify_eq/=. eauto.
  - right. exists w. destruct (StillWaiting w) eqn:E; [by destruct c|].
    apply setter_call in H0 as [->| ->]; unfold giving_up in Hg0; by simplify_eq/=.
  - right. exists w. apply setter_call in H0 as [->| ->]; unfold giving_up in Hg0; by simplify_eq/=.
  - by destruct (rc =? 0).
Qed.

Lemma over_step s s' : inv s → wait_inv s → step s s' →
  ∀ t th i y, threads s' !! t = Some th → giving_up (events s') i th → waiters s' !! Waiter i = Some y →
    StillWaiting y = false.
Proof.
  intros Hinv Hwt Hs t th i y' Ht Hg Hy'.
  destruct (giving_origin _ _ Hinv Hs _ _ _ Ht Hg) as [(t0 & th0 & Ht0 & Hg0)|(y & Hy & Hb)].
  - destruct (giving_waiter s _ _ _ Hinv Ht0 Hg0) as [y Hy].
    eapply (over_mono _ _ Hs); [done..|]. by eapply (wt_over s Hwt).
  - by eapply (over_mono _ _ Hs).
Qed.

Lemma hand_origin s s' : step s s' → ∀ t th i, threads s' !! t = Some th → hand th = Some (i, true) →
  (∃ t0 th0, threads s !! t0 = Some th0 ∧ hand th0 = Some (i, true)) ∨
  ∃ y, waiters s' !! Waiter i = Some y ∧ WaitIndex i ∈ hits y.
Proof.
  intros Hs t0 th0 i0. rule Hs; intros Ht0 Hh0; look.
  all: try (left; do 2 eexists; split; [eassumption|exact Hh0]; fail).
  all: try (by destruct c). all: try (by destruct c, (AutoReset x)). all: try (by destruct c, (StillWaiting w)).
  right. assert (i = i0) as -> by (apply setter_call in H0 as [->| ->]; unfold hand in Hh0; by simplify_eq/=).
  eexists. rewrite lookup_insert_eq. split; [done|]. rewrite fire_hits. set_solver +.
Qed.

Lemma told_hits_step s s' : inv s → wait_inv s → step s s' →
  ∀ t th i y, threads s' !! t = Some th → hand th = Some (i, true) → waiters s' !! Waiter i = Some y →
    WaitIndex i ∈ hits y.
Proof.
  intros Hinv Hwt Hs t th i y' Ht Hh Hy'.
  destruct (hand_origin _ _ Hs _ _ _ Ht Hh) as [(t0 & th0 & Ht0 & Hh0)|(y & Hy & Hb)]; [|by simplify_eq].
  destruct (hand_waiter s Hinv _ _ _ _ Ht0 Hh0) as (y & Hy & _).
  destruct (waiter_grows _ _ Hs _ _ _ Hy Hy') as (_ & _ & Hh'). apply Hh'. by eapply (wt_told s Hwt).
Qed.

(** A sleeper whose wait is fulfilled will be signalled. *)
Lemma fulfilled_same y y' : WaitAll y' = WaitAll y → Status y' = Status y → fulfilled y' = fulfilled y.
Proof. unfold fulfilled. by intros -> ->. Qed.

(** Nobody but the sleeper made its waiter. *)
Lemma sleeper_owner s t th t' th' w i k : inv s → threads s !! t = Some th → asleep_on_waiter w th = true →
  threads s !! t' = Some th' → owner th' = Some (w, i, k) → t' = t.
Proof.
  intros Hinv Ht Ha Ht' Ho. destruct (multi_waiting _ _ Ha) as [i' Hw]. destruct (waiting_owner _ _ _ Hw) as [k' Ho'].
  by eapply (sh_unique s (inv_share s Hinv)).
Qed.

Lemma sleep_multi_step s s' : inv s → wait_inv s → step s s' →
  ∀ t th w y, threads s' !! t = Some th → asleep_on_waiter w th = true → waiters s' !! w = Some y →
    fulfilled y = true → some_thread (threads s') (signals w).
Proof.
  intros Hinv Hwt Hs t0 th0 w0 y0.
  assert (HF : ∀ t th w y y', threads s !! t = Some th → asleep_on_waiter w th = true → waiters s !! w = Some y →
    WaitAll y' = WaitAll y → Status y' = Status y → fulfilled y' = true → some_thread (threads s) (signals w)).
  { intros t th w y y' ? ? ? Ha Hs' Hf. rewrite (fulfilled_same _ _ Ha Hs') in Hf. by eapply (wt_sleep s Hwt). }
  rule Hs; intros Ht0 Ha0 Hy0 Hf0; look; rewrite ?woken_multi in *; try done.
  all: try (by destruct c).
  all: try discriminate Ha0.
  all: try (by destruct c, (AutoReset x)). all: try (by destruct c, (StillWaiting w)). all: try (by destruct (rc =? 0)).
  all: try match goal with H : released _ _ _ _ _ !! _ = Some _ |- _ => apply released_lookup in H as [[? ?]|(? & ? & ?)]; subst end.
  all: try (by eapply HF).
  all: try (eapply some_put; [eassumption|apply woken_signals|by eapply HF]).
  all: try (eapply some_new; [done|by eapply HF]).
  all: try (eapply some_put; [eassumption| |eapply HF; [eassumption|eassumption|eassumption|done|done|done]];
            clear; unfold signals; cbn [t_call t_pc]; try match goal with c : call |- _ => destruct c end;
            try match goal with |- context [StillWaiting ?w] => destruct (StillWaiting w) end; 
            try match goal with |- context [AutoReset ?w] => destruct (AutoReset w) end; tauto).
  - destruct (multi_waiting _ _ Ha0) as [i Hw]. destruct (waiting_waiter s _ _ _ _ Hinv H2 Hw) as [? ?]. congruence.
  - unfold fulfilled in *; simpl in *. congruence.
  - unfold asleep_on_waiter in Ha0. by rewrite bool_decide_eq_false_2 in Ha0.
  - destruct H2. by eapply (sleeper_owner s).
  - destruct H1. by eapply (sleeper_owner s).
  - apply some_this. by apply setter_call in H0 as [->| ->].
  - apply waked_multi in Ha0 as [Ha0 Hn].
    eapply (some_woken _ _ (Thread c (S_signal i))); [done|by apply waked_signals| |by eapply (wt_sleep s Hwt)].
    intros Hw. assert (Waiter i = w0) by (apply setter_call in H0 as [->| ->]; exact Hw). congruence.
  - apply waked_multi in Ha0 as [Ha0 Hn].
    eapply (some_woken _ _ (Thread c S_broadcast)); [done|by apply waked_signals|by destruct c|by eapply (wt_sleep s Hwt)].
  - eapply some_signal; [exact H|exact H1|apply woken_signals|by destruct c|by eapply (wt_sleep s Hwt)].
Qed.

Lemma wait_inv_step s s' : inv s → inv s' → wait_inv s → step s s' → wait_inv s'.
Proof.
  intros Hinv Hinv' Hwt Hs. split.
  - exact (live_step _ _ Hinv Hinv' Hwt Hs).
  - exact (cover_step _ _ Hinv Hinv' Hwt Hs).
  - exact (over_step _ _ Hinv Hwt Hs).
  - exact (told_hits_step _ _ Hinv Hwt Hs).
  - exact (sleep_multi_step _ _ Hinv Hwt Hs).
Qed.

Lemma reachable_wait s : reachable s → wait_inv s.
Proof.
  induction 1 as [|s m s' Hr IH Hl Hm]; [by split; intros *; simpl; rewrite ?lookup_empty|].
  pose proof (reachable_inv s Hr) as Hinv.
  assert (step s s') by (eapply exec_rule; [apply Hinv|done..]). eapply wait_inv_step; [done| |done|done]. by eapply inv_step.
Qed.

(** * When nobody runs *)

(** Every call has returned, or sleeps. *)
Definition at_rest (s : conf) : Prop :=
  map_Forall (λ _ th, is_asleep th = true ∨ ∃ rc idx, t_pc th = Done rc idx) (threads s).

Lemma rest_nobody s (P : thread → Prop) : at_rest s → some_thread (threads s) P →
  (∀ th, P th → is_asleep th = false ∧ ∀ rc idx, t_pc th ≠ Done rc idx) → False.
Proof.
  intros Hs (t & th & Ht & HP) Hn. destruct (Hn _ HP) as [Ha Hd].
  destruct (Hs _ _ Ht) as [?|(rc & idx & ?)]; [congruence|by eapply Hd].
Qed.

(** An event that somebody is registered with, or sleeps on, is not set then. *)
Lemma rest_registered s e x : reachable s → at_rest s → events s !! e = Some x → RegisteredWaits x ≠ [] →
  State x = false.
Proof.
  intros Hr Hs Hx Hl. destruct (State x) eqn:Hb; [|done]. destruct (reachable_event s Hr) as [_ _ _ [HA HM _ _]].
  destruct (AutoReset x) eqn:Ha; [by rewrite (HA _ _ Hx Ha Hb) in Hl|].
  destruct (rest_nobody s _ Hs (HM _ _ Hx Ha Hb Hl)). intros [[] []]; try done.
Qed.
Lemma rest_share s w y j : reachable s → at_rest s → waiters s !! w = Some y → j ∈ shares y →
  ∃ e x, asked y !! j = Some e ∧ events s !! e = Some x ∧ State x = false.
Proof.
  intros Hr Hs Hy Hj. pose proof (inv_share s (reachable_inv s Hr)) as Hsh.
  destruct (sh_found s Hsh _ _ _ Hy Hj) as (e & x & Hx & Hi).
  destruct (sh_entry s Hsh _ _ _ Hx Hi) as (y' & Hy' & _ & Ha). simplify_eq/=.
  exists e, x. split_and!; [done..|]. eapply rest_registered; [done..|]. intros E. rewrite E in Hi. by apply not_elem_of_nil in Hi.
Qed.
Lemma rest_fulfilled s t th w y : reachable s → at_rest s → threads s !! t = Some th →
  asleep_on_waiter w th = true → waiters s !! w = Some y → fulfilled y = false.
Proof.
  intros Hr Hs Ht Ha Hy. destruct (fulfilled y) eqn:Hf; [|done].
  destruct (rest_nobody s _ Hs (wt_sleep s (reachable_wait s Hr) _ _ _ _ Ht Ha Hy Hf)). intros [[] []]; try done.
Qed.

(** C16: no wake-up is lost: when every call has returned or sleeps, an event somebody
    sleeps on is not set; who waits for one of several events has none that is
    set; and who waits for all of them has one that is not set and has not been
    counted. *)
Theorem no_lost_wakeup s t th : reachable s → at_rest s → threads s !! t = Some th →
  match th with
  | Thread (WaitForEvent e _) W_sleep => ∃ x, events s !! e = Some x ∧ State x = false
  | Thread (WaitForMultipleEvents es false _) (M_sleep f) =>
    ∀ e, e ∈ es → ∃ x, events s !! e = Some x ∧ State x = false
  | Thread (WaitForMultipleEvents es true _) (M_sleep f) =>
    ∃ y j e x, waiters s !! f_wfmo f = Some y ∧ es !! j = Some e ∧ (j ∉ hits y) ∧
      events s !! e = Some x ∧ State x = false
  | _ => True
  end.
Proof.
  intros Hr Hs Ht. destruct th as [[e ms|es all ms|e|e|e|e] p]; [..|done|done|done|done].
  - destruct p; try done. destruct (call_event s (reachable_inv s Hr) t _ e Ht) as [x Hx]; [by left|].
    exists x. split; [done|]. destruct (State x) eqn:Hb; [|done].
    destruct (rest_nobody s _ Hs (ev_sleep s (reachable_event s Hr) _ _ e _ Ht (bool_decide_eq_true_2 _ eq_refl) Hx Hb)).
    intros [[] []]; try done.
  - assert (Hall : ∀ f, p = M_sleep f → ∃ y, waiters s !! f_wfmo f = Some y ∧ asked y = es ∧ WaitAll y = all ∧
      status_ok y ∧ fulfilled y = false ∧ StillWaiting y = true ∧
      ∀ j, (j < length es)%nat → j ∈ shares y ∨ j ∈ hits y).
    { intros f ->. destruct (sh_owner s (inv_share s (reachable_inv s Hr)) _ _ _ _ _ Ht eq_refl) as (y & Hy & Ha & _).
      exists y. pose proof (st_ok s (reachable_status s Hr) _ _ Hy) as Hok.
      assert (fulfilled y = false) as Hf by (eapply (rest_fulfilled s); [done..|apply bool_decide_eq_true_2; done|done]).
      assert (StillWaiting y = true) as Hb.
      { destruct (StillWaiting y) eqn:Hb; [done|].
        destruct (wt_live s (reachable_wait s Hr) _ _ _ _ _ Ht eq_refl Hy Hb) as [Hn Hh].
        assert (claim_ok y None) as Hc by (unfold claim_ok; by rewrite Hn).
        apply fulfilled_claim in Hc; [congruence|done]. }
      split_and!; [done..| |done|done|done|].
      - exact (st_flag s (reachable_status s Hr) _ _ _ _ _ _ Ht eq_refl Hy).
      - intros j Hj. by eapply (wt_cover s (reachable_wait s Hr) _ _ _ _ _ _ Ht eq_refl Hy). }
    destruct all, p; try done; destruct (Hall _ eq_refl) as (y & Hy & Ha & Hw & Hok & Hf & Hb & Hc).
    + assert (Hex : ∃ j, (j < length es)%nat ∧ j ∉ hits y).
      { destruct (decide (Forall (λ j, j ∈ hits y) (seq 0 (length es)))) as [Hall'|Hn].
        - assert (claim_ok y None) as Hcl; [|apply fulfilled_claim in Hcl; [congruence|done]].
          unfold claim_ok. rewrite Hw. split; [|done]. intros j Hj. rewrite Forall_forall in Hall'.
          apply Hall', elem_of_seq. rewrite Ha in Hj. lia.
        - apply not_Forall_Exists, Exists_exists in Hn as (j & Hj%elem_of_seq & Hh); [|apply _].
          exists j. split; [lia|done]. }
      destruct Hex as (j & Hj & Hh). destruct (Hc j Hj) as [Hsh|?]; [|done].
      destruct (rest_share s _ _ _ Hr Hs Hy Hsh) as (e & x & He & Hx & Hst). exists y, j, e, x. by rewrite <- Ha.
    + intros e (j & He)%list_elem_of_lookup. destruct (Hc j) as [Hsh|Hh]; [by eapply lookup_lt_Some| |].
      * destruct (rest_share s _ _ _ Hr Hs Hy Hsh) as (e' & x & He' & Hx & Hst). exists x. split; [congruence|done].
      * assert (claim_ok y None) as Hcl; [|apply fulfilled_claim in Hcl; [congruence|done]].
        unfold claim_ok. rewrite Hw. set_solver.
Qed.
