(* ===== verification/PeventsRefine.v ===== *)
(** What [Pevents] promises a program that waits for one event at a time: each
    call takes effect at one point between its begin and its return, as the
    event of [ThreadPool.Event] does.

    [spec] is that promise: events without mutexes, and calls that have not yet
    taken effect, sleep, or know what they return.  [abs] reads it off a state of
    [Pevents], and every step of [Pevents] is a step of [spec] or none. *)
From S2P Require Import Prelude ThreadPool Pevents PeventsSteps PeventsInv PeventsWait PeventsWake.
Local Open Scope Z_scope.

Module E := ThreadPool.Event.

#[local] Arguments woken : simpl never.
#[local] Arguments waked : simpl never.
#[local] Arguments asleep_on_event : simpl never.

(** * The specification *)

(** How far a call is. *)
Inductive phase := ToWait | Asleep | ToSet | ToReset | Returns (rc : Z).
Definition first_phase (c : call) : phase :=
  match c with
  | WaitForEvent _ _ | WaitForMultipleEvents _ _ _ => ToWait
  | SetEvent _ | PulseEvent _ => ToSet
  | ResetEvent _ | DestroyEvent _ => ToReset
  end.

Record spec := Spec { sp_calls : gmap positive (call * phase); sp_events : gmap positive E.event }.

(** A call takes effect on its event. *)
Inductive effect (e : positive) : call → phase → E.event → phase → E.event → Prop :=
  | Ef_enter ms a rc a' : E.enter ms a = E.Returned rc a' →
      effect e (WaitForEvent e ms) ToWait a (Returns rc) a'
  | Ef_block ms a : E.enter ms a = E.Blocked → effect e (WaitForEvent e ms) ToWait a Asleep a
  | Ef_resume ms late a rc a' : (late = true → ms ≠ WAIT_INFINITE) → E.resume late a = E.Returned rc a' →
      effect e (WaitForEvent e ms) Asleep a (Returns rc) a'
  | Ef_set a : effect e (SetEvent e) ToSet a (Returns 0) (E.SetEvent a)
  | Ef_pulse a : effect e (PulseEvent e) ToSet a ToReset (E.SetEvent a)
  | Ef_reset c a : c = ResetEvent e ∨ c = PulseEvent e → effect e c ToReset a (Returns 0) (E.ResetEvent a).

Inductive spec_step : spec → spec → Prop :=
  | Sp_create cs es e manual initial : es !! e = None →
      spec_step (Spec cs es) (Spec cs (<[e := E.CreateEvent manual initial]> es))
  | Sp_call cs es t c : cs !! t = None → spec_step (Spec cs es) (Spec (<[t := (c, first_phase c)]> cs) es)
  | Sp_effect cs es t c p e a p' a' : cs !! t = Some (c, p) → es !! e = Some a → effect e c p a p' a' →
      spec_step (Spec cs es) (Spec (<[t := (c, p')]> cs) (<[e := a']> es)).

(** * What a state means *)

(** Whoever is at [W_take] has already got the event. *)
Definition at_take (th : thread) : bool := match t_pc th with W_take => true | _ => false end.
Definition being_taken (ths : gmap positive thread) (x : event) : bool :=
  match Mutex x with
  | Some t => match ths !! t with Some th => at_take th | None => false end
  | None => false
  end.
Definition abs_event (ths : gmap positive thread) (x : event) : E.event :=
  E.Event (AutoReset x) (State x && negb (being_taken ths x)).

(** The phase of a call; [auto] is whether its event resets itself. *)
Definition set_phase (c : call) : phase := match c with PulseEvent _ => ToReset | _ => Returns 0 end.
Definition phase_of (auto : bool) (th : thread) : phase :=
  match t_pc th with
  | W_zero | W_fast | W_acquire | W_lock | W_load => ToWait
  | W_sleep | W_reload => Asleep
  | W_wake rc => if rc =? 0 then Asleep else Returns rc
  | W_take => Returns 0
  | W_unlock rc | Done rc _ => Returns rc
  | S_lock | S_store_manual | S_store => ToSet
  | S_front => if auto then ToSet else set_phase (t_call th)
  | R_store => ToReset
  | M_new => ToWait
  | D_lock => ToReset
  | _ => set_phase (t_call th)
  end.
Definition event_of (c : call) : positive :=
  match c with
  | WaitForEvent e _ | SetEvent e | ResetEvent e | PulseEvent e | DestroyEvent e => e
  | WaitForMultipleEvents _ _ _ => 1%positive
  end.
Definition resets (es : gmap positive event) (e : positive) : bool :=
  match es !! e with Some x => AutoReset x | None => false end.
Definition abs_call (es : gmap positive event) (th : thread) : call * phase :=
  (t_call th, phase_of (resets es (event_of (t_call th))) th).
Definition abs (s : conf) : spec :=
  Spec (abs_call (events s) <$> threads s) (abs_event (threads s) <$> events s).

(** Nobody waits for several events, or ever did. *)
Definition is_single (c : call) : Prop :=
  match c with WaitForMultipleEvents _ _ _ => False | _ => True end.
Definition single (s : conf) : Prop := map_Forall (λ _ th, is_single (t_call th)) (threads s).

(** * Invariants *)

Definition take_ok (auto : bool) (p : pc) : Prop :=
  match p with W_acquire => auto = false | W_take => auto = true | _ => True end.

(** No registrations, and which events are taken by whom. *)
Record single_inv (s : conf) : Prop := SingleInv {
  si_registered : ∀ e x, events s !! e = Some x → RegisteredWaits x = [];
  si_kind : ∀ t e ms p x, threads s !! t = Some (Thread (WaitForEvent e ms) p) → events s !! e = Some x →
    take_ok (AutoReset x) p;
}.

Lemma woken_take b rc th : take_ok b (t_pc th) → take_ok b (t_pc (woken rc th)).
Proof. by destruct th as [? []]. Qed.
Lemma waked_take b P th : take_ok b (t_pc th) → take_ok b (t_pc (waked P th)).
Proof. unfold waked. destruct (P th); [apply woken_take|done]. Qed.

Lemma single_back s s' : step s s' → single s' → single s.
Proof.
  intros Hs Hn t0 th0 Ht0.
  assert (HC : ∃ th', threads s' !! t0 = Some th' ∧ t_call th' = t_call th0).
  { assert (HC : ∃ th', threads s !! t0 = Some th' ∧ t_call th' = t_call th0) by eauto.
    destruct Hs; simpl; views; try done.
    all: try (eapply find_moved; [eassumption|simpl; congruence|exact HC]; fail).
    - apply find_other; [congruence|done].
    - eapply (find_woken _ _ th); [done|intros ?; by autorewrite with woken|congruence|done].
    - eapply find_signal; [exact H|done|by autorewrite with woken|done|done]. }
  destruct HC as (th' & Ht' & <-). by apply (Hn _ _ Ht').
Qed.

Lemma single_call s t es all ms p : single s → threads s !! t = Some (Thread (WaitForMultipleEvents es all ms) p) → False.
Proof. intros Hs Ht. exact (Hs _ _ Ht). Qed.

Lemma single_inv_step s s' : inv s → single_inv s → single s → step s s' → single_inv s'.
Proof.
  intros Hinv [HR HK] Hsi Hs. split.
  - intros e0 x0. destruct Hs; simpl; intros Hx0; look; try (by eapply HR).
    all: try (match goal with H : events _ !! ?e = Some ?x |- _ => specialize (HR e x H) end).
    + done.
    + by destruct (single_call _ _ _ _ _ _ Hsi H).
    + rewrite HR. by destruct k.
    + by destruct (AutoReset x).
  - intros t0 e0 ms0 p0 x0 Ht0 Hx0.
    assert (HA : ∀ t p, threads s !! t = Some (Thread (WaitForEvent e0 ms0) p) → auto s e0 = Some (AutoReset x0)).
    { intros t p Ht. rewrite <- (auto_step s s' e0 Hs); [unfold auto; by rewrite Hx0|].
      apply (el_call s (inv_elock s Hinv) _ _ e0 Ht). by left. }
    assert (HB : ∀ t th, threads s !! t = Some th → t_call th = WaitForEvent e0 ms0 → take_ok (AutoReset x0) (t_pc th)).
    { intros t [c p] Ht [= ->]. specialize (HA _ _ Ht). unfold auto in HA.
      destruct (events s !! e0) as [x1|] eqn:H1; [|done]. injection HA as <-. by eapply HK. }
    clear Hx0. rule Hs; look.
    all: try done. all: try (by eapply (HB _ _ ltac:(eassumption))). all: try (by destruct c). all: try (by destruct p0).
    all: try (specialize (HA _ _ ltac:(eassumption)); unfold auto in HA; simplify_option_eq).
    all: try (by rewrite HA). all: try (unfold after_load; by destruct (AutoReset x)).
    all: try match goal with
    | E : woken ?rc ?th = Thread ?c ?p |- take_ok _ ?p =>
      change p with (t_pc (Thread c p)); rewrite <- E; apply woken_take; eapply HB; [eassumption|]; by rewrite <- (woken_call rc), E
    | E : waked ?P ?th = Thread ?c ?p |- take_ok _ ?p =>
      change p with (t_pc (Thread c p)); rewrite <- E; apply waked_take; eapply HB; [eassumption|]; by rewrite <- (waked_call P), E
    end.
    by destruct (rc =? 0).
Qed.

Lemma reachable_single s : reachable s → single s → single_inv s.
Proof.
  induction 1 as [|s m s' Hr IH Hl Hm]; intros Hsi.
  - split; intros *; simpl; by rewrite lookup_empty.
  - pose proof (reachable_inv s Hr) as Hinv.
    assert (Hs : step s s') by (eapply exec_rule; [apply Hinv|done..]).
    pose proof (single_back s s' Hs Hsi). eapply single_inv_step; eauto.
Qed.

Lemma no_hand s t th : inv s → single_inv s → threads s !! t = Some th → hand th = None.
Proof.
  intros Hinv Hsi Ht. destruct (hand th) as [[i b]|] eqn:Hh; [|done].
  destruct (sh_front s (inv_share s Hinv) _ _ _ _ Ht Hh) as (e & x & l & _ & Hx & Hl).
  by rewrite (si_registered s Hsi e x Hx) in Hl.
Qed.

(** A thread that waits for one event, or sets it, holds no other. *)
Lemma holds_own th e : is_single (t_call th) → holds_e th = Some e → e = event_of (t_call th).
Proof. destruct th as [[] []]; unfold holds_e; simpl; intros ? ?; by simplify_eq. Qed.

(** * Reading off a state after a move *)

Lemma abs_event_free ths x : Mutex x = None → abs_event ths x = E.Event (AutoReset x) (State x).
Proof. intros Hm. unfold abs_event, being_taken. by rewrite Hm, andb_true_r. Qed.
Lemma abs_event_held ths x t th : Mutex x = Some t → ths !! t = Some th →
  abs_event ths x = E.Event (AutoReset x) (State x && negb (at_take th)).
Proof. intros Hm Ht. unfold abs_event, being_taken. by rewrite Hm, Ht. Qed.
Lemma abs_event_low ths x : State x = false → abs_event ths x = E.Event (AutoReset x) false.
Proof. intros Hx. unfold abs_event. by rewrite Hx. Qed.
(** A move that neither begins nor ends a taking. *)
Lemma abs_event_move ths x t th th' : ths !! t = Some th → at_take th' = at_take th →
  abs_event (<[t := th']> ths) x = abs_event ths x.
Proof.
  intros Ht Hk. unfold abs_event, being_taken. destruct (Mutex x) as [t0|]; [|done].
  destruct (decide (t0 = t)) as [->|]; [by rewrite lookup_insert_eq, Ht, Hk|by rewrite lookup_insert_ne].
Qed.
Lemma abs_event_waked ths x P : abs_event (waked P <$> ths) x = abs_event ths x.
Proof.
  unfold abs_event, being_taken. destruct (Mutex x) as [t|]; [|done]. rewrite lookup_fmap.
  destruct (ths !! t) as [th|]; [|done]. simpl. unfold waked. destruct (P th); [|done]. by destruct th as [? []].
Qed.

Lemma abs_put s t th th' e x x' :
  inv s → single s → threads s !! t = Some th → t_call th' = t_call th → event_of (t_call th) = e →
  events s !! e = Some x → AutoReset x' = AutoReset x →
  abs (put_thread t th' (put_event e x' s)) =
    Spec (<[t := (t_call th, phase_of (AutoReset x) th')]> (sp_calls (abs s)))
      (<[e := abs_event (<[t := th']> (threads s)) x']> (sp_events (abs s))).
Proof.
  intros Hinv Hsi Ht Hc He Hx Ha. unfold abs, put_thread, put_event. simpl. f_equal.
  - rewrite fmap_insert. f_equal.
    + unfold abs_call. rewrite Hc, He. unfold resets. by rewrite lookup_insert_eq, Ha.
    + apply map_fmap_ext. intros t0 th0 _. unfold abs_call, resets. do 2 f_equal.
      destruct (decide (event_of (t_call th0) = e)) as [->|]; [by rewrite lookup_insert_eq, Hx|by rewrite lookup_insert_ne].
  - rewrite fmap_insert. rewrite <- (insert_delete_eq (abs_event (threads s) <$> _)), <- (insert_delete_eq (_ <$> _)).
    f_equal. rewrite <- !fmap_delete. apply map_fmap_ext. intros e1 x1 [He1 Hx1]%lookup_delete_Some.
    unfold abs_event, being_taken. destruct (Mutex x1) as [t1|] eqn:Hm; [|done].
    destruct (decide (t1 = t)) as [->|]; [|by rewrite lookup_insert_ne].
    destruct (el_held s (inv_elock s Hinv) e1 x1 t Hx1 Hm) as (th1 & Ht1 & Hh). simplify_eq.
    destruct He1. symmetry. apply (holds_own th e1); [apply (Hsi _ _ Ht)|done].
Qed.

(** A move of a thread on its event is what the specification does, or nothing. *)
Lemma simulate s t th th' e x x' :
  inv s → single s → threads s !! t = Some th → t_call th' = t_call th → event_of (t_call th) = e →
  events s !! e = Some x → AutoReset x' = AutoReset x →
  (phase_of (AutoReset x) th' = phase_of (AutoReset x) th ∧
    abs_event (<[t := th']> (threads s)) x' = abs_event (threads s) x) ∨
  effect e (t_call th) (phase_of (AutoReset x) th) (abs_event (threads s) x) (phase_of (AutoReset x) th')
    (abs_event (<[t := th']> (threads s)) x') →
  let s' := put_thread t th' (put_event e x' s) in abs s = abs s' ∨ spec_step (abs s) (abs s').
Proof.
  intros Hinv Hsi Ht Hc He Hx Ha Hor s'. unfold s'. rewrite (abs_put s t th th' e x x') by done.
  assert (Hcall : sp_calls (abs s) !! t = Some (t_call th, phase_of (AutoReset x) th)).
  { simpl. rewrite lookup_fmap, Ht. simpl. unfold abs_call, resets. by rewrite He, Hx. }
  assert (Hev : sp_events (abs s) !! e = Some (abs_event (threads s) x)) by (simpl; by rewrite lookup_fmap, Hx).
  destruct Hor as [[Hp Hb]|Heff].
  - left. rewrite Hp, Hb, !insert_id by done. by destruct (abs s).
  - right. destruct (abs s) as [cs es]. simpl in *. by eapply Sp_effect.
Qed.

(** The same without a change of the event. *)
Lemma simulate_quiet s t th th' e x :
  inv s → single s → threads s !! t = Some th → t_call th' = t_call th → event_of (t_call th) = e →
  events s !! e = Some x →
  (phase_of (AutoReset x) th' = phase_of (AutoReset x) th ∧
    abs_event (<[t := th']> (threads s)) x = abs_event (threads s) x) ∨
  effect e (t_call th) (phase_of (AutoReset x) th) (abs_event (threads s) x) (phase_of (AutoReset x) th')
    (abs_event (<[t := th']> (threads s)) x) →
  abs s = abs (put_thread t th' s) ∨ spec_step (abs s) (abs (put_thread t th' s)).
Proof.
  intros Hinv Hsi Ht Hc He Hx Hor. destruct (simulate s t th th' e x x Hinv Hsi Ht Hc He Hx eq_refl Hor) as [E|E];
    unfold put_event in E; rewrite insert_id in E by done; [left|right]; by destruct s.
Qed.

(** * Every step *)
Section Steps.
Context (s : conf) (Hinv : inv s) (Hsi : single_inv s) (Hkind : kind_inv s) (Hn : single s).

Lemma own_event t th : threads s !! t = Some th → is_Some (events s !! event_of (t_call th)).
Proof.
  intros Ht. apply (el_call s (inv_elock s Hinv) t th _ Ht). pose proof (Hn _ _ Ht) as Hc.
  destruct th as [[] ?]; simpl in *; [by left|done|by left..].
Qed.

(** The one who holds an event's mutex. *)
Lemma own_held t th e x : threads s !! t = Some th → holds_e th = Some e → events s !! e = Some x →
  abs_event (threads s) x = E.Event (AutoReset x) (State x && negb (at_take th)).
Proof.
  intros Ht He Hx. destruct (el_holder s (inv_elock s Hinv) t th e Ht He) as (x0 & Hx0 & Hm). simplify_eq.
  by eapply abs_event_held.
Qed.

(** An event that does not reset itself is not taken. *)
Lemma own_manual e x : events s !! e = Some x → AutoReset x = false → abs_event (threads s) x = E.Event false (State x).
Proof.
  intros Hx Ha. unfold abs_event, being_taken. rewrite Ha. destruct (Mutex x) as [t|] eqn:Hm; [|by rewrite andb_true_r].
  destruct (el_held s (inv_elock s Hinv) e x t Hx Hm) as (th & Ht & He). rewrite Ht.
  destruct (at_take th) eqn:Hk; [|by rewrite andb_true_r]. destruct th as [c p]. destruct p; try done.
  destruct c; try done. unfold holds_e in He. simplify_eq/=.
  pose proof (si_kind s Hsi _ _ _ _ _ Ht Hx) as Hs. simpl in Hs. congruence.
Qed.

(** A thread that moves on without taking effect. *)
Lemma stutters t th th' : threads s !! t = Some th → t_call th' = t_call th → at_take th' = at_take th →
  (∀ x, events s !! event_of (t_call th) = Some x → phase_of (AutoReset x) th' = phase_of (AutoReset x) th) →
  abs s = abs (put_thread t th' s) ∨ spec_step (abs s) (abs (put_thread t th' s)).
Proof.
  intros Ht Hc Hk Hp. destruct (own_event t th Ht) as [x Hx].
  eapply (simulate_quiet s t th th' _ x); try done. left. split; [by apply Hp|]. by eapply abs_event_move.
Qed.

(** A wait that is over; it has the event if it returns 0. *)
Lemma wait_decides e ms t p x p' :
  threads s !! t = Some (Thread (WaitForEvent e ms) p) → events s !! e = Some x →
  effect e (WaitForEvent e ms) (phase_of (AutoReset x) (Thread (WaitForEvent e ms) p)) (abs_event (threads s) x)
    (phase_of (AutoReset x) (Thread (WaitForEvent e ms) p'))
    (abs_event (<[t := Thread (WaitForEvent e ms) p']> (threads s)) x) →
  abs s = abs (put_thread t (Thread (WaitForEvent e ms) p') s) ∨
    spec_step (abs s) (abs (put_thread t (Thread (WaitForEvent e ms) p') s)).
Proof. intros Ht Hx Heff. eapply (simulate_quiet s t _ _ e x); try done. by right. Qed.

(** ... because the event was seen set, by its holder; it is taken if it resets
    itself. *)
Lemma loaded e ms t p x : threads s !! t = Some (Thread (WaitForEvent e ms) p) → events s !! e = Some x →
  p = W_load ∨ p = W_reload → State x = true →
  abs s = abs (put_thread t (Thread (WaitForEvent e ms) (after_load x)) s) ∨
    spec_step (abs s) (abs (put_thread t (Thread (WaitForEvent e ms) (after_load x)) s)).
Proof.
  intros Ht Hx Hp Hst. eapply wait_decides; [done..|].
  assert (He : holds_e (Thread (WaitForEvent e ms) p) = Some e) by (by destruct Hp as [->| ->]).
  destruct (el_holder s (inv_elock s Hinv) t _ e Ht He) as (x0 & Hx0 & Hm). simplify_eq.
  rewrite (abs_event_held _ x t _ Hm (lookup_insert_eq _ _ _)).
  rewrite (own_held t _ e x Ht He Hx), Hst. unfold after_load.
  destruct Hp as [->| ->], (AutoReset x) eqn:Ha; simpl; rewrite ?Ha.
  1-2: by apply Ef_enter. all: by apply (Ef_resume e ms false).
Qed.

Lemma quiet_refines t th th' : threads s !! t = Some th → quiet s th th' →
  abs s = abs (put_thread t th' s) ∨ spec_step (abs s) (abs (put_thread t th' s)).
Proof.
  intros Ht Hq. assert (Hh := no_hand s t th Hinv Hsi Ht). destruct Hq.
  all: try (by destruct (single_call _ _ _ _ _ _ Hn Ht)).
  - destruct H as [->|(-> & -> & x & Hx & Hst)]; [by apply (stutters t _ _ Ht)|].
    eapply wait_decides; [done..|]. rewrite !abs_event_low by done. by apply Ef_enter.
  - destruct H0 as [->|[-> _]]; by apply (stutters t _ _ Ht).
  - destruct H0 as [->|[-> Hst]]; [by apply (stutters t _ _ Ht)|].
    assert (Ha : AutoReset x = false) by exact (si_kind s Hsi t e ms W_acquire x Ht H).
    eapply wait_decides; [done..|]. rewrite (abs_event_move _ _ t _ _ Ht) by done. rewrite (own_manual e x), Hst by done.
    by apply Ef_enter.
  - by eapply loaded.
  - eapply wait_decides; [done..|]. rewrite !abs_event_low by done. by apply Ef_enter.
  - apply setter_call in H as Hc. destruct Hc as [->| ->]; subst p; (apply (stutters t _ _ Ht); [done|by destruct (AutoReset x)|]);
      simplify_eq/=; intros y Hy; unfold phase_of; simplify_eq/=; by destruct (AutoReset _).
  - by rewrite (si_registered s Hsi e x) in H1.
  - by destruct c.
  - subst p. apply setter_call in H as Hc. destruct Hc as [->| ->]; by apply (stutters t _ _ Ht).
  - destruct H0 as [->|[-> Hlim]]; [apply (stutters t _ _ Ht); [done|by destruct th as [? []]|by destruct th as [? []]]|].
    destruct th as [[e ms| | | | |] p]; try done; [|by destruct (single_call _ _ _ _ _ _ Hn Ht)].
    destruct p; try done; [|by apply (stutters t _ _ Ht)].
    destruct (own_event t _ Ht) as [x Hx]. eapply wait_decides; [done|exact Hx|].
    rewrite (abs_event_move _ _ t _ _ Ht) by done. by apply (Ef_resume e ms true).
Qed.

(** The rules that change an event. *)
Lemma locks_refines t th th' e x : threads s !! t = Some th → events s !! e = Some x → Mutex x = None →
  locks e x th th' →
  let s' := put_thread t th' (put_event e (set_Mutex (Some t) x) s) in abs s = abs s' ∨ spec_step (abs s) (abs s').
Proof.
  intros Ht Hx Hm Hl. destruct Hl; try (by destruct (single_call _ _ _ _ _ _ Hn Ht)).
  all: try match goal with H : setter _ = Some _ |- _ => apply setter_call in H as [->| ->] end.
  all: eapply (simulate s t _ _ e x); try done; left; rewrite (abs_event_free _ x) by done.
  all: erewrite (abs_event_held _ _ t); [|done|apply lookup_insert_eq].
  all: unfold phase_of; simpl; try destruct (rc =? 0) eqn:Hrc; destruct (AutoReset x); simpl; by rewrite ?Hrc, ?andb_true_r.
Qed.

Lemma unlocks_refines t th th' e x : threads s !! t = Some th → events s !! e = Some x → unlocks e x th th' →
  let s' := put_thread t th' (put_event e (set_Mutex None x) s) in abs s = abs s' ∨ spec_step (abs s) (abs s').
Proof.
  intros Ht Hx Hu. assert (Hh : holds_e th = Some e) by apply (unlocks_view _ _ _ _ Hu).
  destruct Hu; try (by destruct (single_call _ _ _ _ _ _ Hn Ht)).
  all: try match goal with H : setter _ = Some _ |- _ => apply setter_call in H as [->| ->] end.
  all: eapply (simulate s t _ _ e x); try done; rewrite (own_held t _ e x Ht Hh Hx), (abs_event_free _ (set_Mutex None x)) by done.
  all: simpl; rewrite ?andb_true_r; try (by left).
  destruct H as [[-> Hms]| ->]; rewrite H0; simpl; [right|by left].
  apply Ef_block. unfold E.enter. simpl. by rewrite (proj2 (Z.eqb_neq _ _) Hms).
Qed.

Lemma takes_refines t th th' e x : threads s !! t = Some th → events s !! e = Some x → takes e th th' →
  let s' := put_thread t th' (put_event e (count_win (set_State false x)) s) in abs s = abs s' ∨ spec_step (abs s) (abs s').
Proof.
  intros Ht Hx Hu. assert (Hh : holds_e th = Some e) by apply (takes_view _ _ _ Hu).
  destruct Hu; try (by destruct (single_call _ _ _ _ _ _ Hn Ht)).
  eapply (simulate s t _ _ e x); try done. left. rewrite (own_held t _ e x Ht Hh Hx), abs_event_low by done.
  simpl. by rewrite andb_false_r.
Qed.

Lemma resets_refines t c e x : threads s !! t = Some (Thread c R_store) → events s !! e = Some x →
  c = ResetEvent e ∨ c = PulseEvent e →
  let s' := put_thread t (Thread c (Done 0 0)) (put_event e (set_State false x) s) in abs s = abs s' ∨ spec_step (abs s) (abs s').
Proof.
  intros Ht Hx Hc. eapply (simulate s t _ _ e x); try done; [by destruct Hc as [->| ->]|].
  right. rewrite (abs_event_low _ (set_State false x)) by done. by apply Ef_reset.
Qed.

Lemma stores_refines t th th' e x : threads s !! t = Some th → events s !! e = Some x → stores e th th' →
  let s' := put_thread t th' (put_event e (count_set (set_State true x)) s) in abs s = abs s' ∨ spec_step (abs s) (abs s').
Proof.
  intros Ht Hx Hu. assert (Hh : holds_e th = Some e) by apply (stores_view _ _ _ Hu).
  destruct (el_holder s (inv_elock s Hinv) t th e Ht Hh) as (x0 & Hx0 & Hm). simplify_eq.
  assert (Hk : ∀ c p, th = Thread c p → setter th = Some e → kind_ok (AutoReset x) p).
  { intros c p -> He. apply (Hkind t (Thread c p) e); [done..|]. unfold auto. by rewrite Hx. }
  destruct Hu as [c Hc|c Hc]; specialize (Hk _ _ eq_refl Hc); simpl in Hk; apply setter_call in Hc as [->| ->].
  all: eapply (simulate s t _ _ e x); try done; right.
  all: rewrite (own_held t _ e x Ht Hh Hx); erewrite (abs_event_held _ _ t); [|done|apply lookup_insert_eq].
  all: simpl; rewrite ?Hk; constructor.
Qed.

(** Events and calls that begin. *)
Lemma create_refines e manual initial : events s !! e = None →
  spec_step (abs s) (abs (put_event e (CreateEvent manual initial) s)).
Proof.
  intros He. assert (E : abs (put_event e (CreateEvent manual initial) s) =
    Spec (sp_calls (abs s)) (<[e := E.CreateEvent manual initial]> (sp_events (abs s)))).
  { unfold abs, put_event. simpl. f_equal.
    - apply map_fmap_ext. intros t th Ht. unfold abs_call, resets. rewrite lookup_insert_ne; [done|].
      intros ->. destruct (own_event t th Ht) as [x Hx]. congruence.
    - rewrite fmap_insert. f_equal. by apply abs_event_free. }
  rewrite E. destruct (abs s) as [cs es] eqn:Ha. apply Sp_create.
  change es with (sp_events (Spec cs es)). rewrite <- Ha. simpl. by rewrite lookup_fmap, He.
Qed.

Lemma call_refines t c : threads s !! t = None →
  spec_step (abs s) (abs (put_thread t (Thread c (entry c)) s)).
Proof.
  intros Ht. assert (E : abs (put_thread t (Thread c (entry c)) s) =
    Spec (<[t := (c, first_phase c)]> (sp_calls (abs s))) (sp_events (abs s))).
  { unfold abs, put_thread. simpl. f_equal.
    - rewrite fmap_insert. f_equal. by destruct c.
    - apply map_fmap_ext. intros e x Hx. unfold abs_event, being_taken. destruct (Mutex x) as [t0|]; [|done].
      destruct (decide (t0 = t)) as [->|]; [rewrite lookup_insert_eq, Ht; by destruct c|by rewrite lookup_insert_ne]. }
  rewrite E. destruct (abs s) as [cs es] eqn:Ha. apply Sp_call.
  change cs with (sp_calls (Spec cs es)). rewrite <- Ha. simpl. by rewrite lookup_fmap, Ht.
Qed.
End Steps.

(** Waking up takes effect later. *)
Lemma woken_abs es th : abs_call es (woken 0 th) = abs_call es th.
Proof. by destruct th as [? []]. Qed.
Lemma abs_wake_if s P : abs (wake_if P s) = abs s.
Proof.
  unfold abs, wake_if. simpl. f_equal.
  - rewrite <- map_fmap_compose. apply map_fmap_ext. intros t th _. simpl. unfold waked.
    destruct (P th); [apply woken_abs|done].
  - apply map_fmap_ext. intros e x _. apply abs_event_waked.
Qed.
Lemma abs_wake_one s u th : threads s !! u = Some th → abs (put_thread u (woken 0 th) s) = abs s.
Proof.
  intros Hu. unfold abs, put_thread. simpl. f_equal.
  - rewrite fmap_insert, woken_abs. apply insert_id. by rewrite lookup_fmap, Hu.
  - apply map_fmap_ext. intros e x _. apply (abs_event_move _ _ _ _ _ Hu). by destruct th as [? []].
Qed.

Lemma signalled_refines s t c p : inv s → single s → threads s !! t = Some (Thread c p) → p = S_broadcast ∨ p = S_signal_e →
  (∃ e, c = SetEvent e ∨ c = PulseEvent e) →
  let s' := put_thread t (Thread c match c with PulseEvent _ => R_store | _ => Done 0 0 end) s in
  abs s = abs s' ∨ spec_step (abs s) (abs s').
Proof.
  intros Hinv Hn Ht Hp [e [->| ->]]; apply (stutters s Hinv Hn t _ _ Ht); try done; by destruct Hp as [->| ->].
Qed.

Lemma step_refines s s' :
  inv s → single_inv s → kind_inv s → single s → step s s' → abs s = abs s' ∨ spec_step (abs s) (abs s').
Proof.
  intros Hinv Hsi Hkind Hn Hs.
  assert (Hmulti : ∀ t es all ms p, threads s !! t = Some (Thread (WaitForMultipleEvents es all ms) p) → False)
    by (intros *; by apply single_call).
  assert (Hhand : ∀ t c p e, threads s !! t = Some (Thread c p) → setter (Thread c p) = Some e → hand (Thread c p) = None)
    by (intros * Ht _; by eapply no_hand).
  destruct Hs.
  - right. by apply create_refines.
  - right. by apply call_refines.
  - by eapply quiet_refines.
  - by eapply locks_refines.
  - by eapply unlocks_refines.
  - by eapply takes_refines.
  - by eapply resets_refines.
  - by eapply stores_refines.
  - by destruct (Hmulti _ _ _ _ _ H).
  - destruct H3; [by destruct (Hmulti _ _ _ _ _ H)|specialize (Hhand _ _ _ _ H H3)|specialize (Hhand _ _ _ _ H H3)];
      by destruct c; simplify_eq/=.
  - by destruct (Hmulti _ _ _ _ _ H).
  - destruct H2; [by destruct (Hmulti _ _ _ _ _ H)|]. specialize (Hhand _ _ _ _ H H2). by destruct c; simplify_eq/=.
  - destruct H1; [by destruct (Hmulti _ _ _ _ _ H)..|specialize (Hhand _ _ _ _ H H1)|specialize (Hhand _ _ _ _ H H1)];
      by destruct c; simplify_eq/=.
  - by destruct (Hmulti _ _ _ _ _ H).
  - by destruct (Hmulti _ _ _ _ _ H).
  - specialize (Hhand _ _ _ _ H H0). by destruct c; simplify_eq/=.
  - by destruct (Hmulti _ _ _ _ _ H).
  - by destruct (Hmulti _ _ _ _ _ H).
  - destruct H0 as [c e i Hc|c e Hc]; [specialize (Hhand _ _ _ _ H Hc); by destruct c; simplify_eq/=|].
    assert (E : ∀ th', waked (asleep_on_event e) th' = th' →
      put_thread t th' (wake_if (asleep_on_event e) s) = wake_if (asleep_on_event e) (put_thread t th' s)).
    { intros th' Hw. unfold put_thread, wake_if. simpl. by rewrite fmap_insert, Hw. }
    apply setter_call in Hc. rewrite E by (by destruct Hc as [->| ->]). rewrite abs_wake_if.
    eapply signalled_refines; eauto.
  - assert (Hne : u ≠ t) by (intros ->; simplify_eq; by destruct c).
    unfold put_thread at 1 3. simpl. rewrite insert_insert_ne by done.
    change (Conf (<[u := woken 0 th]> ?m) (events s) (waiters s)) with (put_thread u (woken 0 th) (Conf m (events s) (waiters s))).
    rewrite abs_wake_one by (simpl; by rewrite lookup_insert_ne).
    apply setter_call in H0. eapply (signalled_refines s t c S_signal_e); eauto.
Qed.

(** * The theorem *)

(** C17: When nobody waits for several events at once, or destroys one, events are
    what the pool takes them for: any number of threads that wait, set, reset
    and pulse, interleaved access by access, do what the specification does, in
    which every call takes effect at once; and so does everything that may
    happen next. *)
Theorem events_atomic s : reachable s → single s →
  rtc spec_step (abs start) (abs s) ∧
  ∀ m s', lasting m = true → exec s m = Next s' → single s' → abs s = abs s' ∨ spec_step (abs s) (abs s').
Proof.
  assert (Hnext : ∀ s m s', reachable s → lasting m = true → exec s m = Next s' → single s' →
    abs s = abs s' ∨ spec_step (abs s) (abs s')).
  { intros s0 m s' Hr Hl Hm Hn. pose proof (reachable_event s0 Hr) as [Hinv Hkind _ _].
    assert (Hs : step s0 s') by (eapply exec_rule; [apply Hinv|done..]). pose proof (single_back s0 s' Hs Hn).
    apply step_refines; try done. by apply reachable_single. }
  intros Hr Hn. split; [|by intros; eapply Hnext].
  induction Hr as [|s m s' Hr IH Hl Hm]; [done|].
  assert (Hn0 : single s).
  { eapply single_back; [|exact Hn]. eapply exec_rule; [apply (reachable_inv s Hr)|done..]. }
  destruct (Hnext s m s' Hr Hl Hm Hn) as [<-|Hs]; [by apply IH|]. eapply rtc_r; [by apply IH|exact Hs].
Qed.
