(* ===== verification/PeventsRuns.v ===== *)
(** Runs of [Pevents]: where its promises end, and inputs at which the theorems
    about it apply. *)
From S2P Require Import Prelude Pevents PeventsSteps PeventsInv PeventsSafe PeventsWait PeventsWake PeventsAsleep PeventsRefine.
Local Open Scope Z_scope.

Definition runs (t : positive) (n : nat) : list move := repeat (Run t) n.

Lemma runs_reachable ms s s' : reachable s → forallb lasting ms = true → execs ms s = Some s' → reachable s'.
Proof.
  revert s. induction ms as [|m ms IH]; intros s Hr Hl Hs; simpl in *; [by simplify_eq|].
  apply andb_true_iff in Hl as [? ?]. destruct (exec s m) as [| |s1] eqn:Hm; [done|done|].
  apply (IH s1); [by eapply R_step|done|done].
Qed.

(** A decision procedure for what a state looks like after a run. *)
Definition after (ms : list move) (P : conf → bool) : bool :=
  match execs ms start with Some s => P s | None => false end.
Lemma after_exists ms P : after ms P = true → ∃ s, execs ms start = Some s ∧ P s = true.
Proof. unfold after. destruct (execs ms start) as [s|]; [eauto|done]. Qed.

Definition outcome_blocked (o : outcome) : bool := match o with Blocked => true | _ => false end.
Definition outcome_fault (o : outcome) : bool := match o with Fault => true | _ => false end.
Definition result_of (s : conf) (t : positive) : option (Z * Z) :=
  match threads s !! t with Some (Thread _ (Done rc idx)) => Some (rc, idx) | _ => None end.

(** Nobody can go on, and nobody sleeps. *)
Definition stuck (s : conf) : Prop :=
  map_Forall (λ t th, exec s (Run t) = Blocked ∧ is_asleep th = false ∧ ∀ rc idx, t_pc th ≠ Done rc idx) (threads s).
Definition is_done (p : pc) : bool := match p with Done _ _ => true | _ => false end.
Definition stuckb (s : conf) : bool :=
  bool_decide (map_Forall (λ t th, outcome_blocked (exec s (Run t)) && negb (is_asleep th) && negb (is_done (t_pc th)))
    (threads s)).
Lemma stuckb_stuck s : stuckb s = true → stuck s.
Proof.
  intros Hs%bool_decide_eq_true t th Ht. specialize (Hs _ _ Ht). simpl in Hs.
  apply andb_True in Hs as [Hs Hd]. apply andb_True in Hs as [Hb Ha].
  apply negb_True in Ha. split_and!.
  - unfold outcome_blocked in Hb. by case_match.
  - by apply Is_true_false in Ha.
  - intros rc idx E. by rewrite E in Hd.
Qed.

(** * Two waits and two sets that wait for each other *)

Definition deadlock : list move :=
  [Create false false; Create false false;
   Call (WaitForMultipleEvents [1%positive; 2%positive] false WAIT_INFINITE);
   Call (WaitForMultipleEvents [2%positive; 1%positive] false WAIT_INFINITE);
   Call (SetEvent 1); Call (SetEvent 2)] ++
  runs 1 8 ++ runs 2 8 ++ runs 3 2 ++ runs 4 2.


(** * An event destroyed after a wait for it *)

Definition destroyed : list move :=
  [Create false false; Call (SetEvent 1); Call (WaitForEvent 1 WAIT_INFINITE)] ++ runs 1 4 ++ runs 2 6 ++
  [Call (DestroyEvent 1)] ++ runs 3 4.

(** Who waits for an event and then destroys it can be ahead of the [SetEvent] that
    ended the wait: that signals the condition variable after it has released the
    mutex, when the event is gone. *)
Theorem set_destroy_race :
  ∃ s, execs destroyed start = Some s ∧ result_of s 2 = Some (0, 0) ∧ result_of s 3 = Some (0, 0) ∧
    exec s (Run 1) = Fault.
Proof.
  destruct (after_exists destroyed (λ s, bool_decide (result_of s 2 = Some (0, 0)) &&
    bool_decide (result_of s 3 = Some (0, 0)) && outcome_fault (exec s (Run 1)))) as (s & Hs & Hp); [by vm_compute|].
  apply andb_true_iff in Hp as [[H2 H3]%andb_true_iff H1]. exists s.
  split_and!; [done|by apply bool_decide_eq_true in H2|by apply bool_decide_eq_true in H3|].
  unfold outcome_fault in H1. by case_match.
Qed.

(** * Sets that are lost *)

(** How a state answers: what a call returned, and the state, the sets and the
    wins of an event. *)
Definition event_of (s : conf) (e : positive) : option (bool * nat * nat) :=
  (λ x, (State x, sets x, wins x)) <$> events s !! e.

Definition late : list move :=
  [Create false false; Call (WaitForMultipleEvents [1%positive] false 5); Call (SetEvent 1)] ++
  runs 1 10 ++ [Timeout 1] ++ runs 2 8 ++ runs 1 4.
Definition overtaken : list move :=
  [Create false false; Create true false;
   Call (WaitForMultipleEvents [1%positive; 2%positive] false WAIT_INFINITE); Call (SetEvent 2); Call (SetEvent 1)] ++
  runs 1 16 ++ runs 2 3 ++ runs 3 8 ++ runs 2 8 ++ runs 1 5.
Definition swallowed : list move :=
  [Create false true; Create false false; Call (WaitForMultipleEvents [1%positive; 2%positive] true 5)] ++
  runs 1 17 ++ [Timeout 1] ++ runs 1 4.

(** A set of an event that resets itself can be lost: the wait it was given to has
    just run out of time and returns [WAIT_TIMEOUT]; or returns the index of a
    manual event whose [SetEvent] came second and overwrote [FiredEvent]; or was for
    all of several events, took this one, and ran out of time. *)
Theorem sets_are_lost :
  (∃ s, execs late start = Some s ∧ result_of s 1 = Some (WAIT_TIMEOUT, 0) ∧ event_of s 1 = Some (false, 1%nat, 1%nat)) ∧
  (∃ s, execs overtaken start = Some s ∧ result_of s 1 = Some (0, 1) ∧ event_of s 1 = Some (false, 1%nat, 1%nat)) ∧
  (∃ s, execs swallowed start = Some s ∧ result_of s 1 = Some (WAIT_TIMEOUT, 1) ∧
        event_of s 1 = Some (false, 1%nat, 1%nat)).
Proof.
  assert (H : ∀ ms r v, after ms (λ s, bool_decide (result_of s 1 = Some r) && bool_decide (event_of s 1 = Some v)) = true →
    ∃ s, execs ms start = Some s ∧ result_of s 1 = Some r ∧ event_of s 1 = Some v).
  { intros ms r v (s & Hs & [Hr Hv]%andb_true_iff)%after_exists. exists s.
    by apply bool_decide_eq_true in Hr, Hv. }
  split_and!; apply H; by vm_compute.
Qed.

(** * Inputs at which the theorems apply *)

Lemma after_eq {A} ms (f : conf → A) v : f <$> execs ms start = Some v → ∃ s, execs ms start = Some s ∧ f s = v.
Proof. destruct (execs ms start) as [s|]; [|done]. intros [= <-]. eauto. Qed.
Lemma after_reachable ms s : execs ms start = Some s → forallb lasting ms = true → reachable s.
Proof. intros Hs Hl. exact (runs_reachable ms start s R_start Hl Hs). Qed.

Definition restb (s : conf) : bool :=
  bool_decide (map_Forall (λ _ th, is_asleep th || is_done (t_pc th)) (threads s)).
Lemma restb_rest s : restb s = true → at_rest s.
Proof.
  intros Hs%bool_decide_eq_true t th Ht. specialize (Hs _ _ Ht). simpl in Hs.
  destruct (is_asleep th); [by left|right]. destruct (t_pc th); try done. eauto.
Qed.

(** Both kinds of waits, asleep. *)
Definition sleepers : list move :=
  [Create false false; Create true false;
   Call (WaitForMultipleEvents [1%positive; 2%positive] false WAIT_INFINITE); Call (WaitForEvent 1 WAIT_INFINITE)] ++
  runs 1 16 ++ runs 2 4.

Lemma events_no_fault_witness : ∃ s, execs deadlock start = Some s ∧ exec s (Run 1) ≠ Fault.
Proof.
  destruct (after_eq deadlock (λ _, tt) tt) as (s & Hs & _); [by vm_compute|].
  exists s. split; [done|]. apply events_no_fault; [exact (after_reachable _ s Hs eq_refl)|done].
Defined.

Lemma waiter_in_use_witness : ∃ s, execs sleepers start = Some s ∧
  (is_Some (waiters s !! 1%positive) ↔
   has_owner (threads s) 1 ∨ ∃ e x j, events s !! e = Some x ∧ Info 1 j ∈ RegisteredWaits x).
Proof.
  destruct (after_eq sleepers (λ _, tt) tt) as (s & Hs & _); [by vm_compute|].
  exists s. split; [done|]. apply waiter_in_use. exact (after_reachable _ s Hs eq_refl).
Defined.


Lemma wait_returns_witness : ∃ s, execs late start = Some s ∧
  (WAIT_TIMEOUT = 0 ∨ WAIT_TIMEOUT = WAIT_TIMEOUT ∧
   limit (WaitForMultipleEvents [1%positive] false 5) ≠ WAIT_INFINITE).
Proof.
  destruct (after_eq late (λ s, threads s !! 1%positive)
    (Some (Thread (WaitForMultipleEvents [1%positive] false 5) (Done WAIT_TIMEOUT 0)))) as (s & Hs & Ht); [by vm_compute|].
  exists s. split; [done|]. eapply wait_returns; [exact (after_reachable _ s Hs eq_refl)|exact Ht].
Defined.

(** Where thread 1 is after its next step. *)
Definition next_pc (s : conf) : option thread :=
  match exec s (Run 1) with Next s' => threads s' !! 1%positive | _ => None end.


Lemma no_lost_wakeup_witness : ∃ s, execs sleepers start = Some s ∧
  ∀ e, e ∈ [1%positive; 2%positive] → ∃ x, events s !! e = Some x ∧ State x = false.
Proof.
  destruct (after_eq sleepers (λ s, (threads s !! 1%positive, restb s))
    (Some (Thread (WaitForMultipleEvents [1%positive; 2%positive] false WAIT_INFINITE) (M_sleep (Frame 1 2 0))), true))
    as (s & Hs & [= Ht Hr]); [by vm_compute|].
  exists s. split; [done|].
  apply (no_lost_wakeup s 1 (Thread (WaitForMultipleEvents [1%positive; 2%positive] false WAIT_INFINITE)
    (M_sleep (Frame 1 2 0))));
    [exact (after_reachable _ s Hs eq_refl)|exact (restb_rest s Hr)|exact Ht].
Defined.

(** A wait that slept, was woken by a set, and has just taken the event. *)
Definition handover : list move :=
  [Create false false; Call (WaitForEvent 1 WAIT_INFINITE); Call (SetEvent 1)] ++ runs 1 4 ++ runs 2 4 ++
  [Wake 2 1] ++ runs 1 2.

Lemma events_atomic_witness : ∃ s, execs handover start = Some s ∧ rtc spec_step (abs start) (abs s) ∧
  sp_calls (abs s) !! 1%positive = Some (WaitForEvent 1 WAIT_INFINITE, Returns 0) ∧
  sp_events (abs s) !! 1%positive = Some (E.Event true false).
Proof.
  destruct (execs handover start) as [s|] eqn:Hs; [|vm_compute in Hs; discriminate].
  exists s. split; [reflexivity|]. split.
  - refine (proj1 (events_atomic s (runs_reachable handover start s R_start _ Hs) _)); [reflexivity|].
    intros t th Ht. vm_compute in Hs. injection Hs as <-.
    destruct t as [[]|[]|]; try discriminate Ht; injection Ht as <-; exact I.
  - vm_compute in Hs. injection Hs as <-. split; reflexivity.
Defined.
