(* ===== verification/PeventsTime.v ===== *)
(** [TEADFS-utils/pevents.cpp], the clock: when a wait with a time limit ends, and
    the waits of the Windows build, which cuts long ones into pieces. *)
From S2P Require Import Prelude.
Local Open Scope Z_scope.

(** * The deadline of [pthread_cond_timedwait] *)

Record timespec := Timespec { tv_sec : Z; tv_nsec : Z }.

(** [UnlockedWaitForEvent] and [WaitForMultipleEvents]: the time of the day, in
    seconds and microseconds, and the milliseconds to wait.  All sums and products
    are of 64 bits, without sign. *)
Definition deadline (sec usec milliseconds : Z) : timespec :=
  let nanoseconds :=
    u64 (u64 (u64 (sec * 1000 * 1000 * 1000) + u64 (milliseconds * 1000 * 1000)) + u64 (usec * 1000)) in
  let s := nanoseconds / 1000 / 1000 / 1000 in
  Timespec s (u64 (nanoseconds - u64 (s * 1000 * 1000 * 1000))).

(** What a point in time is, in nanoseconds. *)
Definition instant (ts : timespec) : Z := tv_sec ts * 10 ^ 9 + tv_nsec ts.

Lemma deadline_sum sec usec ms :
  instant (deadline sec usec ms) = u64 (sec * 10 ^ 9 + ms * 10 ^ 6 + usec * 10 ^ 3) ∧
  0 ≤ tv_nsec (deadline sec usec ms) < 10 ^ 9.
Proof.
  unfold deadline, instant, u64. cbn [tv_sec tv_nsec].
  set (n := (_ + _ mod _) mod _). assert (Hn : n = (sec * 10 ^ 9 + ms * 10 ^ 6 + usec * 10 ^ 3) mod 2 ^ 64).
  { unfold n. rewrite <- Zplus_mod, Zplus_mod, <- (Zplus_mod (sec * _ * _ * _)), <- Zplus_mod. f_equal. lia. }
  assert (Hb : 0 ≤ n < 2 ^ 64) by (unfold n; apply Z.mod_pos_bound; lia). rewrite <- Hn. clearbody n.
  replace (n / 1000 / 1000 / 1000) with (n / 10 ^ 9) by (rewrite !Z.div_div by lia; f_equal; lia).
  pose proof (Z.div_mod n (10 ^ 9) ltac:(lia)) as Hd. pose proof (Z.mod_pos_bound n (10 ^ 9) ltac:(lia)) as Hm.
  set (s := n / 10 ^ 9) in *. replace (s * 1000 * 1000 * 1000) with (s * 10 ^ 9) by lia.
  assert (0 ≤ s) by (apply Z.div_pos; lia).
  rewrite (Z.mod_small (s * 10 ^ 9)) by lia. rewrite Z.mod_small by lia. lia.
Qed.

(** The time limit is a valid [timespec], and is as many milliseconds from now as
    were asked for, when the sum is below 2^64 nanoseconds (the year 2554). *)
Theorem deadline_exact sec usec ms :
  0 ≤ sec → 0 ≤ usec → 0 ≤ ms → sec * 10 ^ 9 + ms * 10 ^ 6 + usec * 10 ^ 3 < 2 ^ 64 →
  instant (deadline sec usec ms) = instant (Timespec sec (usec * 10 ^ 3)) + ms * 10 ^ 6 ∧
  0 ≤ tv_nsec (deadline sec usec ms) < 10 ^ 9.
Proof.
  intros. destruct (deadline_sum sec usec ms) as [-> ?]. split; [|done].
  unfold u64, instant. cbn [tv_sec tv_nsec]. rewrite Z.mod_small; lia.
Qed.
Lemma deadline_exact_witness :
  let now := 1700000000 in
  instant (deadline now 250000 1500) = instant (Timespec now (250000 * 10 ^ 3)) + 1500 * 10 ^ 6 ∧
  0 ≤ tv_nsec (deadline now 250000 1500) < 10 ^ 9.
Proof. apply (deadline_exact 1700000000 250000 1500); lia. Defined.

(** A longer limit wraps around: a wait of 585 years, asked for in 2023, would be
    over at once, its deadline in 1970. *)
Theorem deadline_wraps :
  let now := 1700000000 in let ms := 2 ^ 64 / 10 ^ 6 + 1 - now * 1000 in
  0 < ms < 2 ^ 64 - 1 ∧ tv_sec (deadline now 0 ms) = 0.
Proof. by vm_compute. Qed.

(** * The Windows build *)

Module Win.
Definition WAIT_INFINITE : Z := 2 ^ 64 - 1.
Definition INFINITE : Z := 2 ^ 32 - 1.
Definition WAIT_OBJECT_0 : Z := 0.
Definition WAIT_ABANDONED_0 : Z := 128.
Definition WAIT_TIMEOUT : Z := 258.
Definition WAIT_FAILED : Z := 2 ^ 32 - 1.

Section Calls.
(** The system, and its calls; [wait] is [WaitForSingleObject] or
    [WaitForMultipleObjects] of the handles at hand. *)
Context {W : Type} (wait : Z → W → Z * W) (GetLastError : W → Z).

(** [CreateEvent]: its arguments, as the system takes them. *)
Definition CreateEvent (handle : bool → bool → W → Z * W) (manualReset initialState : bool) (w : W) : Z * W :=
  handle manualReset initialState w.

(** What the one call each of the others makes comes to. *)
Definition checked (call : W → bool * W) (w : W) : Z * W :=
  let '(ok, w) := call w in (if ok then 0 else GetLastError w, w).

Definition DestroyEvent (CloseHandle : W → bool * W) : W → Z * W := checked CloseHandle.
Definition SetEvent (SetEvent : W → bool * W) : W → Z * W := checked SetEvent.
Definition ResetEvent (ResetEvent : W → bool * W) : W → Z * W := checked ResetEvent.
Definition PulseEvent (PulseEvent : W → bool * W) : W → Z * W := checked PulseEvent.

Definition waitUnit : Z := u32 WAIT_INFINITE - 1.

(** [while (result == WAIT_TIMEOUT && rounds-- != 0)]. *)
Fixpoint rounds_loop (rounds : nat) (result : Z) (w : W) : Z * W :=
  if result =? WAIT_TIMEOUT then
    match rounds with
    | O => (result, w)
    | S rounds => let '(result, w) := wait waitUnit w in rounds_loop rounds result w
    end
  else (result, w).

Definition long_wait (milliseconds : Z) (w : W) : Z * W :=
  if (milliseconds =? WAIT_INFINITE) || (Z.shiftr milliseconds 32 =? 0) then wait (u32 milliseconds) w
  else
    let rounds := milliseconds / waitUnit in
    let remainder := milliseconds mod waitUnit in
    let '(result, w) := wait remainder w in
    rounds_loop (Z.to_nat rounds) result w.

Definition WaitForEvent (milliseconds : Z) (w : W) : Z * W :=
  let '(result, w) := long_wait milliseconds w in
  if (result =? WAIT_OBJECT_0) || (result =? WAIT_ABANDONED_0) then (0, w)
  else if result =? WAIT_TIMEOUT then (WAIT_TIMEOUT, w)
  else (GetLastError w, w).

(** The result and, when it was stored, [index]. *)
Definition WaitForMultipleEvents (count milliseconds : Z) (w : W) : Z * option Z * W :=
  let '(result, w) := long_wait milliseconds w in
  if (WAIT_OBJECT_0 <=? result) && (result <? WAIT_OBJECT_0 + count) then (0, Some (result - WAIT_OBJECT_0), w)
  else if (WAIT_ABANDONED_0 <=? result) && (result <? WAIT_ABANDONED_0 + count)
  then (0, Some (result - WAIT_ABANDONED_0), w)
  else if result =? WAIT_FAILED then (GetLastError w, None, w)
  else (result, None, w).

(** The system's promise: a wait that ends with [WAIT_TIMEOUT] has lasted as long
    as it was asked to, and it was not asked to last for ever. *)
Context (elapsed : W → Z).
Hypothesis wait_timeout : ∀ ms w r w', 0 ≤ ms ≤ INFINITE → wait ms w = (r, w') →
  r = WAIT_TIMEOUT → ms ≠ INFINITE ∧ elapsed w' = elapsed w + ms.

Lemma unit_ok : 0 ≤ waitUnit ≤ INFINITE.
Proof. by vm_compute. Qed.

Lemma rounds_elapsed n r w r' w' : rounds_loop n r w = (r', w') → r' = WAIT_TIMEOUT →
  r = WAIT_TIMEOUT ∧ elapsed w' = elapsed w + Z.of_nat n * waitUnit.
Proof.
  revert r w. induction n as [|n IH]; intros r w Hl Hr; simpl in Hl; destruct (r =? WAIT_TIMEOUT) eqn:E;
    simplify_eq; try (by rewrite Z.eqb_refl in E); apply Z.eqb_eq in E; [split; [done|lia]|].
  destruct (wait waitUnit w) as [r1 w1] eqn:Hw. destruct (IH _ _ Hl eq_refl) as [-> He].
  destruct (wait_timeout _ _ _ _ unit_ok Hw eq_refl) as [_ Hw1]. split; [done|]. lia.
Qed.


(** But a limit of 2^32 - 1 ms is passed on as it is, and means for ever. *)
Theorem longest_short_wait w : WaitForEvent INFINITE w = WaitForEvent WAIT_INFINITE w.
Proof. done. Qed.

Lemma multi_index count ms w i w' r : WaitForMultipleEvents count ms w = (r, Some i, w') → r = 0 ∧ 0 ≤ i < count.
Proof.
  unfold WaitForMultipleEvents. destruct (long_wait ms w) as [r0 w0].
  destruct ((WAIT_OBJECT_0 <=? r0) && (r0 <? WAIT_OBJECT_0 + count)) eqn:E1;
    [|destruct ((WAIT_ABANDONED_0 <=? r0) && (r0 <? WAIT_ABANDONED_0 + count)) eqn:E2].
  - intros [= <- <- <-]. apply andb_true_iff in E1 as [?%Z.leb_le ?%Z.ltb_lt]. lia.
  - intros [= <- <- <-]. apply andb_true_iff in E2 as [?%Z.leb_le ?%Z.ltb_lt]. lia.
  - by case_match.
Qed.
End Calls.

(** A system where nothing happens: every wait that ends times out. *)
Definition idle (ms now : Z) : Z * Z := if ms =? INFINITE then (WAIT_OBJECT_0, now) else (WAIT_TIMEOUT, now + ms).

End Win.
