(* ===== verification/Process.v ===== *)
(** The user process as a whole: [StartTEADFS] of [TEADFS-utils/main.cpp], the
    socket and receive thread of [netlink.cpp], the pool of [ThreadPool] and the
    dispatcher of [Daemon], interleaved.  What the system calls give is part of
    the turn that makes them. *)
From S2P Require Import Prelude Protocol Netlink Daemon ThreadPool.
Import Event Pool.
Local Open Scope Z_scope.

Module Process.

(** * State *)

(** Where [StartTEADFS] is: before each of its system calls, and with its
    result. *)
Inductive main_pc := MDevice | MNetlink | MSocket | MBind | MHello | MReturned (nRst : Z).
(** Where the receive thread is: at the head of its loop, in [poll] on a
    descriptor, before [recvfrom], in the handler, or gone. *)
Inductive rcv_pc := RTop | RPoll (fd : Z) | RReceive | RHandler | RDone.

(** [m_handler] is whether it was set; the thread does not exist before
    [CNetlinkInfo] does.  [sent] is what was given to [SendMsg], [received] what
    the handler was called with. *)
Record process := MkProcess {
  main : main_pc;
  rcv : option rcv_pc;
  m_skfd : Z;
  m_bExist : bool;
  m_handler : bool;
  pool : Pool.state (T := bytes);
  requests : request_state;
  sent : list bytes;
  received : list bytes;
}.

(** After [g_deal_db] and [g_ptrThreadPool] are set. *)
Definition start_process : process :=
  MkProcess MDevice None (-1) false false (Pool.start []) (RequestState 0 ∅) [] [].

Definition set_main (pc : main_pc) (s : process) : process :=
  MkProcess pc (rcv s) (m_skfd s) (m_bExist s) (m_handler s) (pool s) (requests s) (sent s) (received s).
Definition set_rcv (pc : rcv_pc) (s : process) : process :=
  MkProcess (main s) (Some pc) (m_skfd s) (m_bExist s) (m_handler s) (pool s) (requests s) (sent s) (received s).
Definition set_exist (s : process) : process :=
  MkProcess (main s) (rcv s) (m_skfd s) true (m_handler s) (pool s) (requests s) (sent s) (received s).
Definition set_threads (p : Pool.state) (s : process) : process :=
  MkProcess (main s) (rcv s) (m_skfd s) (m_bExist s) (m_handler s) p (requests s) (sent s) (received s).
Definition give (msg : bytes) (p : Pool.state) : Pool.state :=
  Pool.St (m_list p) (p_event p) (p_pc p) (m_threadPool p) (workers p) (adding p) (todo p ++ [msg])
    (taken p) (finished p).

(** A turn changes the state, cannot be taken, or is undefined behaviour. *)
Inductive outcome := Next (s : process) | Stuck | Crash.

#[local] Instance byte_countable : Countable byte :=
  inj_countable' byte_val byte_of byte_of_val.

Section Process.
Context (cb : TEAFS_DEAL_CB) (nCode pid : Z).

(** * Starting *)

(** The constructor of [CNetlinkInfo]: no socket, and the thread runs. *)
Definition CNetlinkInfo (s : process) : process :=
  MkProcess MSocket (Some RTop) (-1) false false (pool s) (requests s) (sent s) (received s).
(** [StartNetlink] sets the handler and makes the socket. *)
Definition StartNetlink (fd : Z) (s : process) : process :=
  MkProcess (if fd <? 0 then MReturned (-1) else MBind) (rcv s) fd (m_bExist s) true (pool s) (requests s)
    (sent s) (received s).
Definition say_hello (s : process) : process :=
  let '(st, pkt) := SendHello None pid (requests s) in
  MkProcess (MReturned 1) (rcv s) (m_skfd s) (m_bExist s) (m_handler s) (pool s) st (sent s ++ [pkt]) (received s).

(** The destructor of [CNetlinkInfo], with which the socket is closed. *)
Definition CloseNetlink (s : process) : process :=
  MkProcess (main s) (rcv s) (-1) true (m_handler s) (pool s) (requests s) (sent s) (received s).

(** [StartTEADFS]; [rc] is what the system call of the turn returns. *)
Definition main_step (rc : Z) (s : process) : outcome :=
  match main s with
  | MDevice => Next (set_main (if rc <? 0 then MReturned (-1) else MNetlink) s)
  | MNetlink => Next (CNetlinkInfo s)
  | MSocket => Next (StartNetlink rc s)
  | MBind => Next (set_main (if rc =? 0 then MHello else MReturned (-1)) s)
  | MHello => Next (say_hello s)
  | MReturned _ => Stuck
  end.

(** * Receiving *)

(** The results of [poll] and of [recvfrom]; an error of [recvfrom] makes
    [resize] throw, which is caught. *)
Inductive poll_result := PollError | PollTimeout | PollReady.

(** [ThreadRcv]; a negative descriptor is never ready. *)
Definition rcv_step (p : poll_result) (dgram : option bytes) (garbage : bytes) (s : process) : outcome :=
  match rcv s with
  | None | Some RDone => Stuck
  | Some RTop => Next (set_rcv (if m_bExist s then RDone else RPoll (m_skfd s)) s)
  | Some (RPoll fd) =>
    match p with
    | PollError => Next (set_rcv RDone (set_exist s))
    | PollTimeout => Next (set_rcv RTop s)
    | PollReady => if fd <? 0 then Stuck else Next (set_rcv RReceive s)
    end
  | Some RReceive =>
    match dgram with
    | None => Next (set_rcv RTop s)
    | Some d =>
      if m_handler s then
        match ThreadRcv_message garbage d with
        | None => Crash
        | Some msg =>
          Next (MkProcess (main s) (Some RHandler) (m_skfd s) (m_bExist s) (m_handler s) (give msg (pool s))
                  (requests s) (sent s) (received s ++ [msg]))
        end
      else Next (set_rcv RTop s)
    end
  | Some RHandler =>                        (* netlink_rcv_cb_func: AddTask *)
    match add_step (pool s) with
    | Some p => Next (set_threads p s)
    | None => Next (set_rcv RTop s)
    end
  end.

(** * Answering *)

(** A worker in its handler runs [thread_pool_cb_func]. *)
Definition work_step (late : bool) (i : nat) (s : process) : outcome :=
  match worker_step late i (pool s) with
  | None => Stuck
  | Some p =>
    match workers (pool s) !! i with
    | Some (Worker _ _ _ _ (WHandle msg)) =>
      match thread_pool_cb_func cb nCode msg (requests s) with
      | None => Crash
      | Some (st, act) =>
        Next (MkProcess (main s) (rcv s) (m_skfd s) (m_bExist s) (m_handler s) p st
          (sent s ++ match act with PA_reply data => [data] | PA_handler _ => [] end) (received s))
      end
    | _ => Next (set_threads p s)
    end
  end.

Inductive turn :=
  | MainTurn (rc : Z)
  | RcvTurn (p : poll_result) (dgram : option bytes) (garbage : bytes)
  | PoolTurn (late : bool)
  | WorkTurn (late : bool) (i : nat).
Definition take_turn (t : turn) (s : process) : outcome :=
  match t with
  | MainTurn rc => main_step rc s
  | RcvTurn p dgram garbage => rcv_step p dgram garbage s
  | PoolTurn late =>
    match pool_step late (pool s) with Some p => Next (set_threads p s) | None => Stuck end
  | WorkTurn late i => work_step late i s
  end.
Fixpoint take_turns (ts : list turn) (s : process) : outcome :=
  match ts with
  | [] => Next s
  | t :: ts => match take_turn t s with Next s => take_turns ts s | o => o end
  end.


(** * What the process is for *)

(** The answer to a message of the kernel; a message that answers the process
    has none. *)
Definition reply_of (msg : bytes) : option bytes :=
  initiator ← str_fld h_initiator msg;
  if 1 =? initiator then None else deal_teadfs_msg cb nCode msg.

(** The HELLO of a process that has started. *)
Definition hellos (s : process) : list bytes :=
  match main s with MReturned 1 => [hello_packet (get_next_msg_id 0) pid] | _ => [] end.

Record faithful (s : process) : Prop := Faithful {
  ps_accounted : accounted (received s) (pool s);
  ps_sent : sent s ≡ₚ hellos s ++ omap reply_of (finished (pool s));
  ps_ids : hellos s = [] → g_next_id (requests s) = 0;
}.

Lemma thread_pool_cb_reply msg st st' act : thread_pool_cb_func cb nCode msg st = Some (st', act) →
  g_next_id st' = g_next_id st ∧
  match act with PA_reply data => [data] | PA_handler _ => [] end = option_list (reply_of msg).
Proof.
  unfold thread_pool_cb_func, reply_of. intros (ini & -> & Hm)%bind_Some. cbn [mbind option_bind].
  destruct (1 =? ini).
  - apply bind_Some in Hm as (id & Hid & Hm). unfold ResponseMsg in Hm.
    destruct (s_map st !! id); simpl in Hm; by simplify_eq.
  - apply bind_Some in Hm as (rsp & -> & [= <- <-]). done.
Qed.

(** A worker handles a task only where it says so. *)
Lemma worker_step_finished late i (p p' : Pool.state (T := bytes)) : worker_step late i p = Some p' →
  finished p' = finished p ++
    match workers p !! i with Some (Worker _ _ _ _ (WHandle msg)) => [msg] | _ => [] end.
Proof.
  unfold worker_step. intros ([e x st n pc] & Hw & Hs)%bind_Some. rewrite Hw.
  destruct pc; simpl in Hs; try done; try (injection Hs as <-; by rewrite ?app_nil_r).
  - destruct (m_list p); injection Hs as <-; by rewrite app_nil_r.
  - apply bind_Some in Hs as (w' & _ & [= <-]). by rewrite app_nil_r.
  - apply bind_Some in Hs as (w' & _ & [= <-]). by rewrite app_nil_r.
Qed.
Lemma other_step_finished (p p' : Pool.state (T := bytes)) a :
  (∀ late i, a ≠ WorkThread late i) → step a p = Some p' → finished p' = finished p.
Proof.
  destruct a as [|late|late i]; intros Ha Hs; simpl in Hs; [| |naive_solver].
  - unfold add_step in Hs. repeat case_match; by simplify_eq.
  - by pose proof (pool_step_abstract _ _ _ Hs) as [= _ _ _ ->].
Qed.

Lemma faithful_pool s p : faithful s → accounted (received s) p → finished p = finished (pool s) →
  faithful (set_threads p s).
Proof. intros [Ha Hs Hi] Hp Hf. split; simpl; [done|by rewrite Hf|done]. Qed.

Lemma faithful_rcv s pc : faithful s → faithful (set_rcv pc s).
Proof. by intros [Ha Hs Hi]. Qed.

Lemma faithful_turn t s s' : faithful s → take_turn t s = Next s' → faithful s'.
Proof.
  intros [Ha Hs Hi] Ht. destruct t as [rc|p dgram garbage|late|late i]; simpl in Ht.
  - unfold main_step in Ht. destruct (main s) eqn:Em; simplify_eq; unfold hellos in *; rewrite Em in *.
    all: try (split; unfold hellos; simpl; by repeat case_match).
    unfold say_hello, SendHello. rewrite (Hi eq_refl). split; simpl; [done| |done].
    unfold hellos. simpl. rewrite Hs. simpl. symmetry. apply Permutation_cons_append.
  - unfold rcv_step in Ht. destruct (rcv s) as [[]|]; try done.
    + simplify_eq. by apply faithful_rcv.
    + destruct p; [|by simplify_eq|]. 
      * simplify_eq. by split.
      * destruct (fd <? 0); simplify_eq. by split.
    + destruct dgram as [d|]; [|by simplify_eq]. destruct (m_handler s); [|by simplify_eq].
      destruct (ThreadRcv_message garbage d) as [msg|]; simplify_eq. split; [|done|done].
      destruct Ha as [Ha Hb]. split; [|exact Hb]. simpl. by rewrite <- Ha, !app_assoc.
    + destruct (add_step (pool s)) as [p'|] eqn:Ep; simplify_eq; [|by split].
      apply faithful_pool; [by split| |by eapply (other_step_finished _ _ Adder)].
      by eapply (step_accounted _ Adder).
  - destruct (pool_step late (pool s)) as [p'|] eqn:Ep; simplify_eq.
    apply faithful_pool; [by split| |by eapply (other_step_finished _ _ (PoolThread late))].
    by eapply (step_accounted _ (PoolThread late)).
  - unfold work_step in Ht. destruct (worker_step late i (pool s)) as [p'|] eqn:Ep; [|done].
    assert (Ha' : accounted (received s) p') by by eapply (step_accounted _ (WorkThread late i)).
    pose proof (worker_step_finished _ _ _ _ Ep) as Hf.
    destruct (workers (pool s) !! i) as [[e x st n pc]|]; [|simplify_eq; apply faithful_pool; [by split|done|by rewrite Hf, app_nil_r]].
    destruct pc as [| | | | |msg| |];
      try (simplify_eq; apply faithful_pool; [by split|done|by rewrite Hf, app_nil_r]).
    destruct (thread_pool_cb_func cb nCode msg (requests s)) as [[st' act]|] eqn:Ecb; [|done].
    apply thread_pool_cb_reply in Ecb as [Hid Hact]. simplify_eq. split; simpl; [done| |by rewrite Hid].
    unfold hellos in *. simpl. rewrite Hact, Hf, omap_app, app_assoc.
    apply Permutation_app; [exact Hs|]. simpl. by destruct (reply_of msg).
Qed.

Lemma list_to_set_disj_elements (l : list bytes) : elements (list_to_set_disj l : gmultiset bytes) ≡ₚ l.
Proof.
  induction l as [|x l IH]; [done|]. simpl.
  by rewrite gmultiset_elements_disj_union, gmultiset_elements_singleton, IH.
Qed.

(** C15: the user process, whatever its threads' order and whatever the system
    calls give it: the messages received are in the queue of the pool, in the
    hands of its workers, or finished, each once; what it has sent is its HELLO
    and one answer for each finished message of the kernel; once nothing is left
    to do, every message received has been answered, with what the callbacks
    made of it. *)
Theorem process_answers (ts : list turn) (s : process) :
  take_turns ts start_process = Next s →
  accounted (received s) (pool s) ∧
  sent s ≡ₚ hellos s ++ omap reply_of (finished (pool s)) ∧
  (m_list (pool s) = [] → todo (pool s) = [] → busy (workers (pool s)) = ∅ →
    sent s ≡ₚ hellos s ++ omap reply_of (received s)).
Proof.
  intros Hr. assert (Hf : faithful s).
  { assert (H0 : faithful start_process) by (split; [split; [done|simpl; multiset_solver]|done|done]).
    revert H0 Hr. generalize start_process. induction ts as [|t ts IH]; intros s0 H0 Hr; simpl in Hr; [by simplify_eq|].
    destruct (take_turn t s0) as [s1| |] eqn:Et; [|done..]. eapply IH; [by eapply faithful_turn|done]. }
  destruct Hf as [Ha Hs _]. split; [exact Ha|]. split; [exact Hs|]. intros Hl Ht Hb. rewrite Hs.
  destruct Ha as [Ho Hm]. rewrite Hl, Ht, !app_nil_r in Ho. rewrite Hb, (left_id_L ∅ (⊎)) in Hm.
  apply Permutation_app_head, omap_Permutation.
  by rewrite <- (list_to_set_disj_elements (finished (pool s))), <- Hm, Ho, list_to_set_disj_elements.
Qed.

(** An error of [poll] makes the process deaf: nothing is received any
    more, whatever happens. *)
Theorem poll_error_deafens (ts : list turn) (s : process) (fd : Z) (d : option bytes) (g : bytes) :
  rcv s = Some (RPoll fd) → main s = MReturned 1 →
  ∃ s1, take_turn (RcvTurn PollError d g) s = Next s1 ∧
    ∀ s2, take_turns ts s1 = Next s2 → received s2 = received s.
Proof.
  intros Hr Hm. simpl. unfold rcv_step. rewrite Hr. eexists. split; [done|].
  match goal with |- context [take_turns _ ?x] => set (s1 := x) end.
  assert (H1 : rcv s1 = Some RDone ∧ main s1 = MReturned 1 ∧ received s1 = received s) by done.
  clearbody s1. revert s1 H1. induction ts as [|t ts IH]; intros s1 (H1 & H2 & H3) s2 Hs2; simpl in Hs2; [by simplify_eq|].
  destruct (take_turn t s1) as [s'| |] eqn:Et; [|done..]. eapply IH; [|exact Hs2].
  destruct t as [rc|p dg gb|late|late i]; simpl in Et.
  - unfold main_step in Et. by rewrite H2 in Et.
  - unfold rcv_step in Et. by rewrite H1 in Et.
  - by destruct (pool_step late (pool s1)); simplify_eq.
  - unfold work_step in Et. repeat case_match; by simplify_eq.
Qed.
(** Whether the receive thread may still call the handler, after it was told to
    leave. *)
Definition in_turn (s : process) : nat := match rcv s with Some (RPoll _ | RReceive) => 1 | _ => 0 end.

Lemma turn_closing t (s s' : process) n :
  main s = MReturned n → m_bExist s = true → take_turn t s = Next s' →
  main s' = MReturned n ∧ m_bExist s' = true ∧
  (length (received s') + in_turn s' ≤ length (received s) + in_turn s)%nat.
Proof.
  intros Hm He Ht. destruct t as [rc|p d g|late|late i]; simpl in Ht.
  - unfold main_step in Ht. by rewrite Hm in Ht.
  - unfold rcv_step in Ht. rewrite He in Ht. unfold in_turn.
    destruct (rcv s) as [[]|] eqn:Er; [|destruct p| | |done|done].
    + by simplify_eq.
    + simplify_eq. simpl. auto with lia.
    + simplify_eq. simpl. auto with lia.
    + destruct (fd <? 0); simplify_eq. simpl. auto with lia.
    + destruct d as [d|]; [destruct (m_handler s); [destruct (ThreadRcv_message g d)|]|]; simplify_eq; simpl;
        rewrite ?length_app; simpl; auto with lia.
    + destruct (add_step (pool s)); simplify_eq; simpl; rewrite ?Er; auto with lia.
  - by destruct (pool_step late (pool s)); simplify_eq.
  - unfold work_step in Ht. destruct (worker_step late i (pool s)); [|done].
    repeat case_match; by simplify_eq.
Qed.

(** Once the socket is closed, the process receives at most one more message,
    the one its receive thread was at. *)
Theorem close_ends (ts : list turn) (s s' : process) (n : Z) :
  main s = MReturned n → take_turns ts (CloseNetlink s) = Next s' →
  (length (received s') ≤ S (length (received s)))%nat.
Proof.
  intros Hm Hr.
  assert (Hle : (length (received s') + in_turn s' ≤ length (received (CloseNetlink s)) + in_turn (CloseNetlink s))%nat).
  { assert (Hm' : main (CloseNetlink s) = MReturned n) by done. assert (He : m_bExist (CloseNetlink s) = true) by done.
    revert Hm' He Hr. generalize (CloseNetlink s). induction ts as [|t ts IH]; intros s0 H0 He Hr; simpl in Hr; [by simplify_eq|].
    destruct (take_turn t s0) as [s1| |] eqn:Et; [|done..].
    destruct (turn_closing _ _ _ _ H0 He Et) as (H1 & He1 & Hle). specialize (IH _ H1 He1 Hr). lia. }
  simpl in Hle. assert (in_turn (CloseNetlink s) ≤ 1)%nat by (unfold in_turn; repeat case_match; lia). lia.
Qed.
End Process.
End Process.
