(* ===== verification/Demo.v ===== *)
(** A concrete world at which the theorems' hypotheses hold: a kernel that has
    memory, a lower file system of byte strings, the process of [TEADFS-utils]
    with the shipped client connected to it, and one file, open. *)
From S2P Require Import Prelude Kernel Protocol Wp GlobalParam Netlink UserCom Requests Daemon Client Session Vfs File Mmap Buffered Super Lookup Refs Dentry Inode Main.
Local Open Scope Z_scope.

(** The callbacks: [OPEN] is answered with [answer]. *)
Definition demo_open (answer : Z) (file pid : Z) (p : bytes) : Z := answer.
Definition demo_release (file pid : Z) (p : bytes) : Z := TRFR_NORMAL.
Definition demo_cb (answer : Z) : TEAFS_DEAL_CB := client_cb (demo_open answer) demo_release.

Definition demo_path : bytes := str "/t/a.txt".
Definition demo_path_buf : bytes := splice 0 demo_path (zeros PATH_MAX).

(** Lower files are named by their lower dentries. *)
Abbreviation demo_lfs := (gmap positive bytes).
Definition demo_dentry_open (ok : bool) (fs : demo_lfs) (p : path) (flags : Z) : demo_lfs * kptr :=
  (fs, if ok then KObj (default 1%positive (p_dentry p)) else KErr (- 2)).
Definition demo_read (fs : demo_lfs) (f : positive) (offset n : Z) : Z + bytes :=
  match fs !! f with Some c => inr (slice offset n c) | None => inl (- EIO) end.
Definition demo_write (fs : demo_lfs) (f : positive) (bs : bytes) (offset : Z) : Z * demo_lfs :=
  let c := default [] (fs !! f) in
  (blen bs, <[f := splice offset bs (c ++ zeros (offset - blen c))]> fs).

(** ** Names of the lower file system

    A lower dentry has an inode when it has contents; 50 and 51 are two
    directories, the second with the dentries from 60 on.  The inode of 25 can
    never be referenced. *)
Definition demo_ino (d : positive) : positive := if bool_decide (d = 22%positive) then 31 else (d + 100)%positive.
Definition demo_file_of (i : positive) : positive := if bool_decide (i = 31%positive) then 22 else (i - 100)%positive.
Definition demo_d_inode (fs : demo_lfs) (d : positive) : option positive :=
  if bool_decide (d = 50%positive ∨ d = 51%positive) then Some (demo_ino d)
  else if bool_decide (is_Some (fs !! d)) then Some (demo_ino d) else None.
Definition demo_parent (fs : demo_lfs) (d : positive) : positive := if (60 <=? d)%positive then 51 else 50.
Definition demo_attr (fs : demo_lfs) (i : positive) : attr :=
  Attr (if bool_decide (i = 150%positive ∨ i = 151%positive) then 16877 else 33188)
    0 0 0 11 (Z.of_nat (size fs)) 12 12 0 1.
Definition demo_lookup (fs : demo_lfs) (dir : positive) (name : bytes) : demo_lfs * kptr :=
  (fs, KObj (if bool_decide (name = str "a.txt") then 22 else if bool_decide (name = str "stale") then 25 else 24)).
Definition demo_make (fs : demo_lfs) (d : positive) (c : bytes) : Z * demo_lfs :=
  match fs !! d with Some _ => (- 17, fs) | None => (0, <[d := c]> fs) end.
Definition demo_do (fs : demo_lfs) (op : lower_op) : Z * demo_lfs :=
  match op with
  | LO_create _ d _ _ => (0, <[d := default [] (fs !! d)]> fs)
  | LO_mkdir _ d _ | LO_mknod _ d _ _ => demo_make fs d []
  | LO_symlink _ d text => demo_make fs d text
  | LO_link old _ d => demo_make fs d (default [] (fs !! old))
  | LO_unlink _ d | LO_rmdir _ d => (0, delete d fs)
  | LO_rename _ old _ d => (0, <[d := default [] (fs !! old)]> (delete old fs))
  | LO_notify_change d ia =>
    (0, if has_bits (ia_valid ia) ATTR_SIZE then alter (take (Z.to_nat (ia_size ia))) d fs else fs)
  | LO_setxattr _ _ _ _ | LO_removexattr _ _ => (0, fs)
  end.
Definition demo_entries : list dirent :=
  [Dirent (str ".") 1 150 4; Dirent (str "a.txt") 2 31 8; Dirent (str "b") 3 131 8].

(** What the process sends back to the last packet it was sent. *)
Definition demo_turn (cb : TEAFS_DEAL_CB) (req : bytes) : option bytes :=
  daemon_turn cb (RequestState 0 ∅) 0 0 0 (zeros (NLMSG_SPACE MAX_MSG_SIZE))
    (zeros NLMSG_HDRLEN ++ req ++ []).
Definition demo_deliveries (cb : TEAFS_DEAL_CB) (sent : list (Z * bytes)) : list bytes :=
  match last sent with
  | Some (_, req) => match demo_turn cb req with Some d => [d] | None => [] end
  | None => []
  end.

(** The kernel, given what the netlink socket receives and whether lower files
    can be opened. *)
Definition demo_env_rc (dels : list (Z * bytes) → list bytes) (ok : bool) (rc : vcall → Z) : KernelEnv := {|
  kzalloc_ok := λ _ _, true;
  sizeof_msg_ctx := 168;
  sizeof_inode_info := 1024;
  sizeof_dentry_info := 32;
  sizeof_sb_info := 64;
  stale := λ bs, bs;
  junk := λ n, byte_of (Z.of_nat n);
  current_tgid := 77;
  d_path := λ _ n, Some (0, splice 0 demo_path (zeros n));
  nlmsg_new_ok := λ _ _, true;
  netlink_unicast := λ _ p, blen p;
  deliveries := dels;
  lfs := demo_lfs;
  dentry_open := demo_dentry_open ok;
  fput := λ fs _, fs;
  kernel_read := demo_read;
  kernel_write := demo_write;
  lower_i_size := λ fs i, blen (default [] (fs !! demo_file_of i));
  lower_i_blocks := λ fs i, 8;
  lower_attr := demo_attr;
  lower_i_ino := λ fs i, Zpos i;
  lower_i_sb := λ fs i, 70%positive;
  lower_d_inode := demo_d_inode;
  lower_d_parent := demo_parent;
  lower_lookup := demo_lookup;
  lower_do := demo_do;
  lower_has_op := λ fs i op, true;
  lower_trap := λ fs p1 p2, Some 22%positive;
  igrab_ok := λ fs i, negb (bool_decide (i = 125%positive));
  lower_readlink := λ fs d, inr (default [] (fs !! d));
  lower_stat_blocks := λ fs p, 8;
  kern_path := λ fs name, inr (Path (Some 50%positive) (Some 23%positive));
  lower_d_sb := λ fs d, 70%positive;
  lower_s_type := λ fs b, str "ext4";
  lower_s_flags := λ fs b, 1;
  lower_s_maxbytes := λ fs b, 2 ^ 63 - 1;
  lower_s_blocksize := λ fs b, 4096;
  lower_entries := λ fs f pos, demo_entries;
  lower_readdir_end := λ fs f pos n, (0, Z.of_nat n);
  lower_file_inode := λ fs f, demo_ino f;
  file_addr := λ f, 4096 * Zpos f;
  lower_has := λ _ _, false;
  vcall_rc := λ _ c, rc c;
|}.
Definition demo_env (dels : list (Z * bytes) → list bytes) (ok : bool) : KernelEnv :=
  demo_env_rc dels ok (λ _, 0).

Lemma demo_d_inode_mono fs fs' d :
  (is_Some (fs !! d) ↔ is_Some (fs' !! d)) → demo_d_inode fs d = demo_d_inode fs' d.
Proof. intros E. unfold demo_d_inode. by rewrite (bool_decide_ext _ _ E). Qed.

Lemma demo_laws dels ok rc : @LowerLaws (demo_env_rc dels ok rc).
Proof.
  split.
  - intros l op d Hd. simpl in l. apply demo_d_inode_mono. simpl.
    assert (Hne : ∀ x, x ∈ op_entries op → x ≠ d) by (intros x Hx ->; done).
    destruct op; simpl in *; unfold demo_make; repeat case_match; simpl;
      rewrite ?lookup_insert_ne, ?lookup_delete_ne by (apply Hne; set_solver);
      rewrite ?lookup_alter_is_Some; done.
  - intros l dir d mode excl _. simpl. unfold demo_d_inode. case_bool_decide; [done|].
    rewrite bool_decide_eq_true_2; [done|]. rewrite lookup_insert_eq. done.
Qed.

Lemma demo_file_of_ino d : demo_file_of (demo_ino d) = d.
Proof. unfold demo_file_of, demo_ino. repeat case_bool_decide; try lia; done. Qed.

#[export] Instance demo_bytes dels ok rc : @LowerBytes (demo_env_rc dels ok rc).
Proof.
  refine (@Build_LowerBytes (demo_env_rc dels ok rc) (λ l f, (l : demo_lfs) !! f) _ _ _).
  - intros l f c offset n Hc _. simpl. unfold demo_read. by rewrite Hc.
  - intros l f c bs offset Hc Ho. eexists. split; [done|]. simpl. rewrite lookup_insert_eq, Hc. split; [|done].
    simpl. do 2 f_equal. unfold zeros. replace (Z.to_nat (offset - blen c)) with 0%nat by lia. apply app_nil_r.
  - intros l f c Hc. simpl. by rewrite demo_file_of_ino, Hc.
Defined.

Lemma demo_connected cb ok : @connected_to (demo_env (demo_deliveries cb) ok) cb.
Proof.
  intros sent port req.
  exists (zeros NLMSG_HDRLEN), [], (zeros (NLMSG_SPACE MAX_MSG_SIZE)), (RequestState 0 ∅), 0, 0, 0.
  split_and!; [done|done|done|]. intros d Hd. unfold deliveries, demo_env, demo_deliveries.
  unfold demo_env_rc. rewrite last_snoc. unfold demo_turn. by rewrite Hd.
Qed.

(** ** The state

    File 10 of inode 30, through dentry 20, over the lower dentry 22; its file
    information is block 1, its page 40 is mapped at block 2, its path is in
    block 4; block 3 is a caller's buffer. *)
Definition demo_text : bytes := str "the quick brown fox".
Definition demo_mapping : address_space := AddressSpace 1 30 0 GFP_HIGHUSER_MOVABLE 0 0 0.
Definition demo_file : file := File (Some 20%positive) (Some 21%positive) (Some 30%positive) 0 (Ptr 1 0) MUpper.
Definition demo_info (mode : Z) : teadfs_file_info :=
  FileInfo (KObj 22) mode (Ptr 4 0) (blen demo_path) (Ptr 4 0).
Definition demo_inode : inode :=
  Inode (Attr 33188 0 0 0 11 1 12 12 0 1) (IMeta 7 31 1 8 teadfs_main_iops teadfs_main_fops false)
    100 (Some 31%positive) 1 0 demo_mapping demo_mapping.
Definition demo_dir (l : positive) : inode :=
  Inode (Attr 16877 0 0 0 11 1 12 12 0 1) (IMeta 7 (Zpos l) 1 8 teadfs_dir_iops teadfs_dir_fops false)
    0 (Some l) 0 0 demo_mapping demo_mapping.
Definition demo_over (l : positive) : option path := Some (Path (Some l) (Some 23%positive)).
Definition demo_dentry : dentry := Dentry (Some 30%positive) (demo_over 22) (str "a.txt") 26 true.
(** Two directories, with the inodes 32 and 33; a name without an inode in each,
    28 and 34, and the stale 35; and names not looked up yet, 36, 37 and 38. *)
Definition demo_root : dentry := Dentry (Some 32%positive) (demo_over 50) [] 26 true.
Definition demo_sub : dentry := Dentry (Some 33%positive) (demo_over 51) (str "sub") 26 true.
Definition demo_new : dentry := Dentry None (demo_over 24) (str "new") 26 true.
Definition demo_new_sub : dentry := Dentry None (demo_over 64) (str "new") 27 true.
Definition demo_stale : dentry := Dentry None (demo_over 25) (str "stale") 26 true.
Definition demo_blank (name : bytes) : dentry := Dentry None None name 26 false.
Definition demo_super : super := Super (Some (Some 70%positive)) 0 (2 ^ 63 - 1) 4096 0 (Some 26%positive) 0 true.
Definition demo_inodes : gmap positive inode :=
  <[30%positive := demo_inode]> (<[32%positive := demo_dir 150]> {[33%positive := demo_dir 151]}).
Definition demo_dentries : gmap positive dentry :=
  <[20%positive := demo_dentry]> (<[26%positive := demo_root]> (<[27%positive := demo_sub]>
  (<[28%positive := demo_new]> (<[34%positive := demo_new_sub]> (<[35%positive := demo_stale]>
  (<[36%positive := demo_blank (str "a.txt")]> (<[37%positive := demo_blank (str "new")]>
  {[38%positive := demo_blank (str "stale")]}))))))).
Definition demo_refs : gmultiset ref := {[+ RInode 31 +]} ⊎ ({[+ RInode 150 +]} ⊎ {[+ RInode 151 +]}).
Definition demo_page : page := Page 30 0 (Ptr 2 0) false true 1.

Definition demo_heap (mode : Z) : gmap positive obj :=
  <[1%positive := OFileInfo (demo_info mode)]> (<[2%positive := OBytes (zeros 4096)]>
  (<[3%positive := OBytes demo_text]> {[4%positive := OBytes demo_path_buf]})).

Section DemoState.
Context `{KernelEnv}.

Definition demo_state (connect mode : Z) (fs : lfs) : kstate :=
  KState (Memory (demo_heap mode) ∅ 0 0) (GlobalParam 0 4242 connect) [] [] fs
    {[10%positive := demo_file]} demo_inodes demo_dentries
    {[40%positive := demo_page]} {[7%positive := demo_super]} demo_refs ∅ [].
End DemoState.
