(* ===== verification/Witness.v ===== *)
(** The theorems at concrete inputs, where their hypotheses hold: the world of
    [Demo], and variations of it. *)
From S2P Require Import Prelude Kernel Protocol Wp GlobalParam Netlink UserCom Requests Daemon Client Session Vfs File Mmap Miscdev Concurrent Demo.
Local Open Scope Z_scope.

(** Evaluate both sides; settle a closed comparison. *)
Ltac evaluate := vm_compute; first [reflexivity|split; [reflexivity|eexists; reflexivity]|eexists; reflexivity].
Ltac decided := apply (bool_decide_eq_true_1 _); evaluate.
Ltac within := vm_compute; repeat split; discriminate.

(** * The process is connected *)
Module Connected.

#[local] Instance env : KernelEnv := demo_env (demo_deliveries (demo_cb TOR_DECRYPT)) true.

Definition world (mode : Z) (contents : bytes) : kstate :=
  demo_state 1 mode ({[22%positive := contents]} : demo_lfs).

Lemma world_session mode contents : session (world mode contents).
Proof. split; try done. by apply Forall_nil. Qed.

Lemma world_opened mode contents : opened (world mode contents) 10 1 demo_file 22 mode.
Proof. exists (demo_info mode). by split_and!. Qed.

Lemma world_path : path_ok (file_f_path demo_file) 0 (blen demo_path) demo_path_buf.
Proof. by split. Qed.

Lemma readpage_labelled_witness :
  wp (teadfs_readpage 10 40) (λ rc s', rc = 0 ∧
    live s' !! 2%positive = Some (OBytes (demo_text ++ zeros (4096 - blen demo_text))))
    (world OFR_DECRYPT (label demo_text)).
Proof.
  eapply wp_mono.
  - refine (readpage_labelled (demo_open TOR_DECRYPT) demo_release (world OFR_DECRYPT (label demo_text))
      10 1 22 40 2 demo_file demo_page demo_text (zeros 4096) _ _ _ _ _ _ _ _ _).
    + apply demo_connected.
    + apply world_session.
    + apply world_opened.
    + evaluate.
    + evaluate.
    + within.
    + evaluate.
    + evaluate.
    + evaluate.
  - intros rc s' (Hrc & _ & _ & HL). split; [exact Hrc|]. rewrite HL. evaluate.
Defined.



Lemma open_opens_witness :
  wp (teadfs_open 30 10) (λ rc s', rc = 0 ∧
    ks_inodes s' = <[30%positive := opened_inode OFR_DECRYPT demo_file demo_inode]>
      demo_inodes) (world OFR_INIT (label demo_text)).
Proof.
  eapply wp_mono.
  - refine (open_opens (demo_cb TOR_DECRYPT) (demo_open TOR_DECRYPT) (world OFR_INIT (label demo_text))
      30 10 20 22 demo_file demo_inode demo_dentry 0 (blen demo_path) demo_path_buf
      {[22%positive := label demo_text]} _ _ _ _ _ _ _ _ _ _ _ _ _).
    + reflexivity.
    + apply demo_connected.
    + apply world_session.
    + within.
    + evaluate.
    + evaluate.
    + evaluate.
    + apply world_path.
    + evaluate.
    + evaluate.
    + within.
    + evaluate.
    + within.
  - intros rc s' (Hrc & _ & Hi & _). split; [exact Hrc|exact Hi].
Defined.

Lemma release_keeps_lower_file_witness :
  wp (teadfs_release 30 10) (λ rc s', rc = 0 ∧
    ks_inodes s' = <[30%positive := set_lower_file_count 0 demo_inode]> demo_inodes ∧
    ks_lfs s' = ({[22%positive := demo_text]} : demo_lfs)) (world OFR_INIT demo_text).
Proof.
  eapply wp_mono.
  - refine (release_keeps_lower_file (demo_cb TOR_DECRYPT) demo_release (world OFR_INIT demo_text)
      30 10 1 20 22 23 21 4 demo_file (demo_info OFR_INIT) demo_inode demo_dentry 0 demo_path_buf
      _ _ _ _ _ _ _ _ _ _ _ _ _ _ _ _ _).
    + reflexivity.
    + apply demo_connected.
    + apply world_session.
    + within.
    + split; [|split]; evaluate.
    + evaluate.
    + evaluate.
    + evaluate.
    + evaluate.
    + evaluate.
    + evaluate.
    + evaluate.
    + evaluate.
    + evaluate.
    + evaluate.
    + evaluate.
    + within.
  - intros rc s' (Hrc & _ & _ & Hi & Hl). split; [exact Hrc|]. split; [exact Hi|exact Hl].
Defined.

Lemma aio_read_result_witness :
  wp (teadfs_aio_read_update_atime 10 0) (λ rc _, rc = -256) (world OFR_DECRYPT demo_text).
Proof.
  eapply wp_mono.
  - refine (aio_read_result (world OFR_DECRYPT demo_text) 10 1 20 demo_file (demo_info OFR_DECRYPT)
      demo_dentry 0 _ _ _ _).
    + split; [|split]; evaluate.
    + evaluate.
    + evaluate.
    + within.
  - intros rc s' [Hrc _]. exact Hrc.
Defined.

Lemma readpage_plain_witness :
  wp (teadfs_readpage 10 40) (λ rc s', rc = 0 ∧
    live s' !! 2%positive = Some (OBytes (demo_text ++ drop (length demo_text) (zeros 4096))))
    (world OFR_ENCRYPT demo_text).
Proof.
  eapply wp_mono.
  - refine (readpage_plain (world OFR_ENCRYPT demo_text) 10 1 22 40 2 demo_file OFR_ENCRYPT demo_page
      demo_text (zeros 4096) _ _ _ _ _ _ _ _).
    + apply world_opened.
    + within.
    + evaluate.
    + evaluate.
    + evaluate.
    + evaluate.
    + within.
    + evaluate.
  - intros rc s' (Hrc & _ & _ & HL). split; [exact Hrc|]. rewrite HL. evaluate.
Defined.

Lemma write_encrypt_refused_witness :
  wp (teadfs_write_lower 10 (Ptr 3 0) 0 5) (λ rc s', rc = - EIO ∧
    ks_lfs s' = ks_lfs (world OFR_ENCRYPT demo_text)) (world OFR_ENCRYPT demo_text).
Proof.
  eapply wp_mono.
  - refine (write_encrypt_refused (world OFR_ENCRYPT demo_text) 10 1 22 demo_file (Ptr 3 0) 0 5 _ _).
    + intros k z. reflexivity.
    + apply world_opened.
  - intros rc s' (Hrc & _ & Hl & _). split; [exact Hrc|exact Hl].
Defined.

Lemma truncate_shrinks_witness :
  wp (teadfs_truncate 20 40) (λ _ s',
    ks_inodes s' = <[30%positive := set_i_size 40 demo_inode]> demo_inodes)
    (world OFR_INIT demo_text).
Proof.
  eapply wp_mono.
  - refine (truncate_shrinks (world OFR_INIT demo_text) 20 30 22 31 demo_dentry demo_inode 40
      _ _ _ _ _ _ _ _); try evaluate.
    + within.
    + decided.
  - intros rc s' (_ & _ & Hi & _). exact Hi.
Defined.
End Connected.

(** * Requests and their answers *)
Module Asking.

#[local] Instance env : KernelEnv := demo_env (demo_deliveries (demo_cb TOR_DECRYPT)) true.

Definition world : kstate := demo_state 1 OFR_INIT (∅ : demo_lfs).

#[local] Opaque path_packet data_packet data_reply code_reply SendMsg get put splice slice.

Lemma asking_session : session world.
Proof. split; try done. by apply Forall_nil. Qed.

Lemma no_failure : ¬ alloc_fails.
Proof. by intros (? & ? & ?). Qed.

Definition path_req (ty : Z) : bytes := path_packet ty (next_id world) 77 40960 demo_path.

Lemma open_pre : ∃ t q, req_pre world (path_req PR_MSG_OPEN)
  (Some (SendMsg t q (code_reply (path_req PR_MSG_OPEN) TOR_DECRYPT))).
Proof.
  refine (req_pre_path (demo_cb TOR_DECRYPT) (demo_open TOR_DECRYPT) PR_MSG_OPEN world 40960 demo_path
    _ _ _ _ _); [left; split; reflexivity|apply demo_connected|apply asking_session|within|within].
Qed.

Lemma release_pre : ∃ t q, req_pre world (path_req PR_MSG_RELEASE)
  (Some (SendMsg t q (code_reply (path_req PR_MSG_RELEASE) TRFR_NORMAL))).
Proof.
  refine (req_pre_path (demo_cb TOR_DECRYPT) demo_release PR_MSG_RELEASE world 40960 demo_path
    _ _ _ _ _); [right; split; reflexivity|apply demo_connected|apply asking_session|within|within].
Qed.

Lemma path_req_sized ty : pkt_sized (path_req ty).
Proof. unfold path_req. apply path_packet_sized. Qed.

Lemma request_open_correct_witness :
  wp (teadfs_request_open (Ptr 4 0) 8 40960) (λ rc s', rc = TOR_DECRYPT ∧ live s' = live world ∧
    ks_sent s' = [(4242, path_req PR_MSG_OPEN)]) world.
Proof.
  destruct open_pre as (t & q & Hpre). eapply wp_mono.
  - refine (request_open_correct world 4 0 8 40960 demo_path_buf _ _ _ _ _ _ Hpre).
    + within.
    + within.
    + evaluate.
    + evaluate.
    + within.
  - intros rc s' (HL & _ & [[Hs Hrc]|[Hf _]]); [|by destruct no_failure].
    split; [|split; [exact HL|exact Hs]].
    rewrite Hrc, code_result_reply by apply path_req_sized. evaluate.
Defined.

Lemma request_release_correct_witness :
  wp (teadfs_request_release (Ptr 4 0) 8 (Some (40960, Path (Some 20%positive) (Some 21%positive))))
    (λ rc s', rc = TRFR_NORMAL ∧ live s' = live world) world.
Proof.
  destruct release_pre as (t & q & Hpre). eapply wp_mono.
  - refine (request_release_correct world 4 20 21 0 8 40960 demo_path_buf _ _ _ _ _ _ Hpre).
    + within.
    + within.
    + evaluate.
    + evaluate.
    + within.
  - intros rc s' (HL & _ & [[Hs Hrc]|[Hf _]]); [|by destruct no_failure].
    split; [|exact HL]. rewrite Hrc, code_result_reply by apply path_req_sized. evaluate.
Defined.

Definition ciphered : bytes := map xor13 demo_text.
Definition filled : bytes := ciphered ++ zeros 32.

Lemma data_pre ty : ty = PR_MSG_READ ∨ ty = PR_MSG_WRITE →
  let req := data_packet ty (next_id world) 77 256 demo_text in
  ∃ t q, req_pre world req (Some (SendMsg t q (data_reply req 19 filled))).
Proof.
  intros Hty. destruct Hty as [-> | ->].
  - refine (req_pre_data (demo_cb TOR_DECRYPT) Client.read PR_MSG_READ world 256 demo_text _ _ _ _ _ _);
      [left; split; reflexivity|apply read_cb_ok|apply demo_connected|apply asking_session|within|evaluate].
  - refine (req_pre_data (demo_cb TOR_DECRYPT) Client.write PR_MSG_WRITE world 256 demo_text _ _ _ _ _ _);
      [right; split; reflexivity|apply write_cb_ok|apply demo_connected|apply asking_session|within|evaluate].
Qed.

Lemma data_req_sized ty : pkt_sized (data_packet ty (next_id world) 77 256 demo_text).
Proof. apply data_packet_sized. Qed.

(** The verdict on the answer, and that what it copies is there. *)
Lemma data_ok ty t q :
  let d := SendMsg t q (data_reply (data_packet ty (next_id world) 77 256 demo_text) 19 filled) in
  data_verdict 4096 (Some d) = Copy sizeof_packet_info 19 ∧
  copy_in_bounds (Some d) (data_verdict 4096 (Some d)) 0 (zeros 4096) ∧
  copied (Some d) sizeof_packet_info 19 = ciphered.
Proof.
  intros d. pose proof (data_req_sized ty) as Hsz.
  assert (Hv : data_verdict 4096 (Some d) = Copy sizeof_packet_info 19).
  { unfold d. rewrite data_verdict_reply; [reflexivity|exact Hsz|within|reflexivity]. }
  split; [exact Hv|]. rewrite Hv. split; [split; [|evaluate]|].
  - unfold reply_block, d. rewrite payload_SendMsg. apply in_range_spec.
    rewrite blen_app, blen_data_reply by (exact Hsz || within). within.
  - unfold d. rewrite copied_reply; [evaluate|exact Hsz|within].
Qed.

Lemma request_read_correct_witness :
  wp (teadfs_request_read 256 (Ptr 3 0) 19 (Ptr 2 0) 4096) (λ rc s', rc = 19 ∧
    live s' !! 2%positive = Some (OBytes (splice 0 ciphered (zeros 4096)))) world.
Proof.
  destruct (data_pre PR_MSG_READ) as (t & q & Hpre); [by left|].
  destruct (data_ok PR_MSG_READ t q) as (Hv & Hin & Hc). eapply wp_mono.
  - refine (request_read_correct world 3 2 0 19 256 0 4096 demo_text (zeros 4096) _ _ _ _ _ _ _ _ Hin Hpre).
    + intros k z. reflexivity.
    + within.
    + within.
    + evaluate.
    + evaluate.
    + within.
    + evaluate.
  - intros rc s' (b & _ & _ & _ & Hcase). rewrite Hv in Hcase. destruct Hcase as [Hrc HL].
    split; [rewrite Hrc; evaluate|]. by rewrite HL, Hc, lookup_insert_eq.
Defined.

Lemma request_write_use_after_free_witness :
  wp (teadfs_request_write 256 (Ptr 3 0) 19 (Ptr 2 0) 4096) (λ rc s', m_uaf (ks_mem s') = 1%nat) world.
Proof.
  destruct (data_pre PR_MSG_WRITE) as (t & q & Hpre); [by right|].
  destruct (data_ok PR_MSG_WRITE t q) as (Hv & Hin & _). eapply wp_mono.
  - refine (request_write_use_after_free world 3 2 0 19 256 0 4096 demo_text (zeros 4096) _ _ _ _ _ _ _ _ Hin Hpre).
    + intros k z. reflexivity.
    + within.
    + within.
    + evaluate.
    + evaluate.
    + within.
    + evaluate.
  - intros rc s' (b & _ & Hcase). rewrite Hv in Hcase. destruct Hcase as (_ & Hu & _). exact Hu.
Defined.

Lemma open_answered_witness :
  wp (teadfs_request_open (Ptr 4 0) 8 40960) (λ rc s', rc = TOR_DECRYPT) world.
Proof.
  eapply wp_mono.
  - refine (open_answered (demo_cb TOR_DECRYPT) (demo_open TOR_DECRYPT) world 4 0 8 40960 demo_path_buf
      _ _ _ _ _ _ _).
    + reflexivity.
    + apply demo_connected.
    + apply asking_session.
    + within.
    + evaluate.
    + evaluate.
    + within.
  - intros rc s' [Hrc _]. rewrite Hrc. evaluate.
Defined.

Lemma read_answered_witness :
  wp (teadfs_request_read 256 (Ptr 3 0) 19 (Ptr 2 0) 4096) (λ rc s', rc = 19 ∧
    live s' !! 2%positive = Some (OBytes (splice 0 ciphered (zeros 4096)))) world.
Proof.
  eapply wp_mono.
  - refine (read_answered (demo_cb TOR_DECRYPT) Client.read world 3 2 0 19 256 0 4096 demo_text (zeros 4096)
      _ _ _ _ _ _ _ _ _ _ _).
    + reflexivity.
    + apply read_cb_ok.
    + apply demo_connected.
    + apply asking_session.
    + within.
    + evaluate.
    + evaluate.
    + within.
    + evaluate.
    + evaluate.
    + evaluate.
  - intros rc s' [_ Hcase]. destruct Hcase as [Hrc HL]. split; [rewrite Hrc; evaluate|].
    rewrite HL. evaluate.
Defined.
End Asking.

(** * A process that prohibits *)
Module Prohibited.

#[local] Instance env : KernelEnv := demo_env (demo_deliveries (demo_cb TOR_PROHIBIT)) true.

Definition world : kstate := demo_state 1 OFR_INIT ({[22%positive := demo_text]} : demo_lfs).

Lemma open_prohibited_witness :
  wp (teadfs_open 30 10) (λ rc s', rc = - EACCES ∧
    ks_lfs s' = ({[22%positive := demo_text]} : demo_lfs)) world.
Proof.
  eapply wp_mono.
  - refine (open_prohibited (demo_cb TOR_PROHIBIT) (demo_open TOR_PROHIBIT) world 30 10 demo_file
      demo_inode 0 (blen demo_path) demo_path_buf _ _ _ _ _ _ _ _ _).
    + reflexivity.
    + apply demo_connected.
    + split; try done. by apply Forall_nil.
    + within.
    + evaluate.
    + evaluate.
    + evaluate.
    + by split.
    + evaluate.
  - intros rc s' (Hrc & Hl & _). split; [exact Hrc|exact Hl].
Defined.
End Prohibited.

(** * Nobody is connected *)
Module Alone.

#[local] Instance env : KernelEnv := demo_env (λ _, []) true.

Definition world (mode : Z) : kstate := demo_state 0 mode ({[22%positive := demo_text]} : demo_lfs).

Lemma request_refused_witness :
  teadfs_request_read 0 (Ptr 3 0) 19 (Ptr 2 0) 4096 (world OFR_INIT) = Ret (- ENOMEM) (world OFR_INIT).
Proof.
  refine (proj1 (proj2 (proj2 (request_refused (world OFR_INIT) (Ptr 3 0) (Ptr 2 0) 19 4096 40960 0 None _)))).
  left. reflexivity.
Defined.

Lemma readpage_undecrypted_witness :
  wp (teadfs_readpage 10 40) (λ rc s', rc = 0 ∧
    ks_pages s' = <[40%positive := page_done true demo_page]> {[40%positive := demo_page]})
    (demo_state 0 OFR_DECRYPT ({[22%positive := label demo_text]} : demo_lfs)).
Proof.
  eapply wp_mono.
  - refine (readpage_undecrypted (demo_state 0 OFR_DECRYPT ({[22%positive := label demo_text]} : demo_lfs))
      10 1 22 40 2 demo_file demo_page (map xor13 demo_text) (zeros 4096) _ _ _ _ _ _ _ _).
    + left. reflexivity.
    + exists (demo_info OFR_DECRYPT). split; [split; [|split]|split]; evaluate.
    + evaluate.
    + evaluate.
    + evaluate.
    + evaluate.
    + within.
    + evaluate.
  - intros rc s' (Hrc & Hp & _). split; [exact Hrc|exact Hp].
Defined.


Lemma msg_ids_unique_witness :
  ∃ us s', take_ids 3 (set_global (λ _, GlobalParam 1 0 0) (world OFR_INIT)) = Ret us s' ∧
    NoDup us ∧ Forall id_ok us.
Proof.
  refine (msg_ids_unique (set_global (λ _, GlobalParam 1 0 0) (world OFR_INIT)) 3 _ _);
    [within|evaluate].
Defined.
End Alone.

(** * Lower files cannot be opened *)
Module Unopenable.

#[local] Instance env : KernelEnv := demo_env (λ _, []) false.

Definition world : kstate := demo_state 1 OFR_INIT (∅ : demo_lfs).

Lemma failed_open_locks_out_witness :
  wp (r1 ← teadfs_get_lower_file (Some 20%positive) (Some 30%positive) 0;
      teadfs_put_lower_file (Some 30%positive) 10;;
      r2 ← teadfs_get_lower_file (Some 20%positive) (Some 30%positive) 0;
      mret (r1, r2)) (λ r s', r = (KErr (- 2), KErr (- EINVAL))) world.
Proof.
  eapply wp_mono.
  - refine (failed_open_locks_out world 30 10 1 20 demo_file (demo_info OFR_INIT) demo_inode demo_dentry
      0 (- 2) ∅ _ _ _ _ _ _ _ _).
    + split; [|split]; evaluate.
    + evaluate.
    + evaluate.
    + evaluate.
    + within.
    + within.
    + evaluate.
    + evaluate.
  - intros r s' [Hr _]. exact Hr.
Defined.
End Unopenable.

(** * A process that lies about where its data is *)
Module Hostile.

Definition lie (req : bytes) : bytes :=
  SendMsg 0 0 (put read_data_offset 5000 (data_reply req 4 (zeros 4))).
Definition answer (sent : list (Z * bytes)) : list bytes :=
  match last sent with Some (_, req) => [lie req] | None => [] end.

#[local] Instance env : KernelEnv := demo_env answer true.

Definition world : kstate := demo_state 1 OFR_INIT (∅ : demo_lfs).

(** The packet of a READ of the caller's buffer, and the reply to it. *)
Definition read_req : bytes := data_packet PR_MSG_READ (next_id world) 77 0 demo_text.

Lemma read_pre : req_pre world read_req (Some (lie read_req)).
Proof.
  split; [intros k z; reflexivity|by apply Forall_nil|].
  exists [], []. split; [evaluate|]. split; [by apply Forall_nil|]. split; [by apply Forall_nil|].
  split; [|evaluate]. split; [split; [within|evaluate]|within].
Qed.

Lemma hostile_offset_overread_witness :
  teadfs_request_read 0 (Ptr 3 0) 19 (Ptr 2 0) 4096 world = Ub OutOfBounds.
Proof.
  refine (proj1 (hostile_offset_overread world 3 2 0 19 0 0 4096 5000 4 demo_text (lie read_req)
    _ _ _ _ _ _ _ _) _).
  - intros k z. reflexivity.
  - within.
  - within.
  - evaluate.
  - evaluate.
  - within.
  - evaluate.
  - evaluate.
  - exact read_pre.
Defined.
End Hostile.

(** * Datagrams *)
Module Datagrams.

#[local] Instance env : KernelEnv := demo_env (λ _, []) true.

Definition waiting : teadfs_msg_ctx := MsgCtx TEADFS_MSG_CTX_STATE_PENDING 7 72 (Ptr 3 0) 0 NULL.
Definition world : kstate :=
  Kernel.set_queue (λ _, [5%positive])
    (upd 5 (OCtx waiting) (demo_state 1 OFR_INIT (∅ : demo_lfs))).
Definition reply : bytes := SendMsg 0 0 (put h_msg_id 7 (zeros sizeof_packet_info)).

Lemma reply_is_reply : is_reply reply.
Proof. split; [split; [within|evaluate]|within]. Qed.

Lemma reply_routed_witness :
  wp (teadfs_netlink_receive reply) (λ _ s', ∃ r,
    live s' !! 5%positive = Some (OCtx (MsgCtx TEADFS_MSG_CTX_STATE_DONE 7 72 (Ptr 3 0) 56 (Ptr r 0)))) world.
Proof.
  eapply wp_mono.
  - refine (reply_routed world [] [] 5 waiting reply _ reply_is_reply _ _ _ _).
    + intros k z. reflexivity.
    + reflexivity.
    + by apply Forall_nil.
    + evaluate.
    + evaluate.
  - intros _ s' (r & Hr & HL & _). exists r. rewrite HL.
    rewrite lookup_insert_ne by (intros ->; revert Hr; by vm_compute). by rewrite lookup_insert_eq.
Defined.

Lemma duplicate_reply_leaks_witness :
  wp (receive_all [reply; reply]) (λ _ s', ∃ r1 r2, r1 ≠ r2 ∧
    live s' !! r1 = Some (OBytes (reply_block reply))) world.
Proof.
  eapply wp_mono.
  - refine (duplicate_reply_leaks world [] [] 5 waiting reply reply _ reply_is_reply reply_is_reply _ _ _ _ _).
    + intros k z. reflexivity.
    + reflexivity.
    + reflexivity.
    + by apply Forall_nil.
    + evaluate.
    + evaluate.
  - intros _ s' (r1 & r2 & Hne & _ & _ & _ & _ & Hr). exists r1, r2. split; [exact Hne|exact Hr].
Defined.

Definition hello : bytes := SendMsg 0 0 (hello_packet 1 4242).

Lemma user_request_handled_witness :
  wp (teadfs_netlink_receive hello) (λ _ s', said_hello world hello s') world.
Proof.
  refine (proj1 (user_request_handled world hello _ _ _) _).
  - intros k z. reflexivity.
  - within.
  - evaluate.
  - evaluate.
Defined.

Lemma hello_reply_discloses_witness : slice 36 20 (hello_reply hello) = map junk (seq 36 20).
Proof. refine (hello_reply_discloses hello _). within. Defined.

Lemma handshake_witness :
  let '(st', pkt) := SendHello (Some 9%positive) 4242 (RequestState 0 ∅) in
  wp (teadfs_netlink_receive (SendMsg 0 0 pkt)) (λ _ s', pid (ks_global s') = 4242) world.
Proof.
  pose proof (handshake world (demo_cb TOR_DECRYPT) (RequestState 0 ∅) (Some 9%positive) 4242 0 0 0 [])
    as Hh.
  destruct (SendHello _ _ _) as [st' pkt] eqn:E. eapply wp_mono.
  - refine (Hh _ _ _).
    + intros k z. reflexivity.
    + within.
    + reflexivity.
  - intros _ s' [Hp _]. exact Hp.
Defined.

Lemma empty_reply_overread_witness : ∃ rsp,
  deal_teadfs_msg (demo_cb TOR_DECRYPT) 0 (put h_msg_type PR_MSG_CLEANUP (zeros sizeof_packet_info)) = Some rsp ∧
  teadfs_netlink_receive (SendMsg 0 0 rsp) world = Ub OutOfBounds.
Proof.
  refine (empty_reply_overread (demo_cb TOR_DECRYPT) world 0 0 0 PR_MSG_CLEANUP _ _ _).
  - evaluate.
  - apply (bool_decide_eq_true_1 _). evaluate.
Defined.
End Datagrams.

(** * The client's files *)
Module ClientFiles.

Definition disk : files := {[demo_path := demo_text]}.


Lemma release_idempotent_witness :
  release true demo_path (<[demo_path := label demo_text]> disk) =
    Some (TRFR_NORMAL, <[demo_path := label demo_text]> disk).
Proof. refine (release_idempotent demo_path true disk _ _ _). evaluate. Defined.

Lemma release_keeps_stale_tail_witness : ∃ fs',
  release true demo_path (<[tmp_path demo_path := zeros 300]> disk) = Some (TRFR_NORMAL, fs') ∧
  fs' !! demo_path = Some (label demo_text ++ zeros 25).
Proof.
  refine (release_keeps_stale_tail demo_path demo_text (zeros 300) _ _ _ _ _); evaluate.
Defined.

Lemma client_cipher_witness :
  let '(sz, out) := Client.write 0 19 demo_text 51 (zeros 51) in
  sz = 19 ∧ blen out = 51 ∧ drop 19 out = zeros 32 ∧
  let '(sz', out') := Client.read 256 sz (slice 0 sz out) 4096 (zeros 4096) in
  sz' = 19 ∧ slice 0 sz' out' = demo_text.
Proof. refine (client_cipher 0 51 256 4096 demo_text (zeros 51) (zeros 4096) _ _); within. Defined.
End ClientFiles.

(** * Interleavings *)
Module Schedules.

Lemma opens_race_witness : ∃ sched s, Opener.turns sched (Opener.start 2) = Some s ∧ Opener.holders s = 2%nat.
Proof. refine (Opener.opens_race 2 _). discriminate. Defined.

(** A request and its answer: up to the receiver's copy, and to the end. *)
Definition halfway : list move := take 10 (schedule 9).
Definition all_done : list move := schedule 9.

Lemma no_use_after_free_witness :
  match execs halfway (Concurrent.start 0) with Some s => exec s (Run 1) ≠ Uaf | None => False end.
Proof.
  destruct (execs halfway (Concurrent.start 0)) as [s|] eqn:E; [|vm_compute in E; discriminate].
  refine (no_use_after_free 0 s (Run 1) _). eapply execs_reachable; [apply R_start|exact E].
Defined.

Lemma reply_is_own_witness :
  match execs all_done (Concurrent.start 0) with
  | Some s => ∃ d, cf_blocks s !! 1%positive = Some (Block d true) ∧ dgram_id d = 1
  | None => False
  end.
Proof.
  destruct (execs all_done (Concurrent.start 0)) as [s|] eqn:E; [|vm_compute in E; discriminate].
  refine (reply_is_own 0 s 1 1 56 1 _ _).
  - eapply execs_reachable; [apply R_start|exact E].
  - vm_compute in E. injection E as <-. evaluate.
Defined.

Lemma queue_lock_released_witness :
  match execs halfway (Concurrent.start 0) with
  | Some s => ∃ n s', (n ≤ 8)%nat ∧ execs (repeat (Run 2) n) s = Some s' ∧ cf_qlock s' = None
  | None => False
  end.
Proof.
  destruct (execs halfway (Concurrent.start 0)) as [s|] eqn:E; [|vm_compute in E; discriminate].
  refine (queue_lock_released 0 s 2 _ _).
  - eapply execs_reachable; [apply R_start|exact E].
  - vm_compute in E. injection E as <-. evaluate.
Defined.
End Schedules.
