(* ===== verification/WitnessFs.v ===== *)
(** The theorems on names, inodes and mounts at concrete inputs, in the world of
    [Demo], and those on the pool of threads. *)
From S2P Require Import Prelude Kernel Protocol Wp GlobalParam Netlink UserCom Requests Daemon Client Session Vfs File Mmap Buffered Super Lookup Refs Dentry Inode Main ThreadPool Process Demo.
Local Open Scope Z_scope.

Ltac evaluate := vm_compute; repeat first [reflexivity|split|eexists]; fail.
Ltac decided := apply (bool_decide_eq_true_1 _); vm_compute; reflexivity.
Ltac within := vm_compute; repeat split; discriminate.

(** * Names *)
Module Names.

#[local] Instance env : KernelEnv := demo_env (λ _, []) true.
#[local] Instance laws : LowerLaws := demo_laws _ _ _.

Definition fs : demo_lfs := {[22%positive := demo_text]}.
Definition world : kstate := demo_state 0 OFR_INIT fs.
(** With the lower file that cannot be referenced any more. *)
Definition stale_fs : demo_lfs := <[25%positive := demo_text]> fs.
Definition stale_world : kstate := demo_state 0 OFR_INIT stale_fs.

Lemma demo_inodes_cases i x : demo_inodes !! i = Some x →
  i = 30%positive ∧ x = demo_inode ∨ i = 32%positive ∧ x = demo_dir 150 ∨ i = 33%positive ∧ x = demo_dir 151.
Proof.
  unfold demo_inodes. intros Hi.
  apply lookup_insert_Some in Hi as [[<- <-]|[_ Hi]]; [by left|].
  apply lookup_insert_Some in Hi as [[<- <-]|[_ Hi]]; [by right; left|].
  apply lookup_singleton_Some in Hi as [<- <-]. by right; right.
Qed.

Lemma world_old i x : demo_inodes !! i = Some x → i_new (i_meta x) = false.
Proof. by intros [[_ ->]|[[_ ->]|[_ ->]]]%demo_inodes_cases. Qed.

Lemma world_icache (l : demo_lfs) : icache_ok ∅ (demo_state 0 OFR_INIT l).
Proof.
  split.
  - intros k. change (ks_refs _) with demo_refs. change (ks_inodes _) with demo_inodes.
    unfold demo_refs, demo_inodes.
    rewrite !multiplicity_disj_union, !multiplicity_singleton, <- insert_empty.
    rewrite !sharers_insert_new by done.
    simpl lower_inode. repeat case_decide; simplify_eq; done.
  - intros i j x y k Hi Hj Hx Hy _.
    destruct (demo_inodes_cases _ _ Hi) as [[-> ->]|[[-> ->]|[-> ->]]], (demo_inodes_cases _ _ Hj) as [[-> ->]|[[-> ->]|[-> ->]]];
      simpl in Hx, Hy; congruence.
  - intros i x Hi _. by eapply world_old.
Qed.

Lemma new_name : name_at world 28 24 demo_new 50 150.
Proof. split; [evaluate|evaluate|evaluate|discriminate|evaluate|decided]. Qed.

Lemma names_balanced_witness :
  wp (teadfs_create 32 28 33188 true) (λ _ s', ks_locks s' = ∅ ∧ icache_ok ∅ s') world.
Proof.
  eapply wp_mono.
  - refine (names_balanced world (OpCreate 32 28 33188 true) (world_icache fs) _).
    split; [do 4 eexists; exact new_name|]. split; evaluate.
  - intros rc s' (Hl & Hc & _). split; [exact Hl|exact Hc].
Defined.

Lemma new_creating : creating world 32 28 24 50 150 demo_new (demo_dir 150) demo_super.
Proof. split; [exact new_name|evaluate|evaluate|evaluate|exact world_old]. Qed.


Lemma stale_creating : creating world 32 35 25 50 150 demo_stale (demo_dir 150) demo_super.
Proof. split; [|evaluate|evaluate|evaluate|exact world_old]. split; [evaluate|evaluate|evaluate|discriminate|evaluate|decided]. Qed.

Lemma create_hides_failure_witness :
  wp (teadfs_create 32 35 33188 true) (λ rc s', rc = 0 ∧
    ks_lfs s' = delete 25%positive (<[25%positive := []]> fs) ∧ ks_dentries s' = demo_dentries) world.
Proof.
  eapply wp_mono.
  - refine (create_hides_failure world 32 35 25 50 150 125 demo_stale (demo_dir 150) demo_super (Some 70%positive)
      33188 true stale_creating _ _ _ _); try evaluate. right. evaluate.
  - intros rc s' (Hrc & Hl & Hd & _). split; [exact Hrc|]. split; [exact Hl|exact Hd].
Defined.

(** The file and the new name, in the one directory; and the file and a name in
    the other directory, which the file is an ancestor of. *)
Lemma names_renaming : renaming world 20 28 22 24 50 50 150 150 demo_dentry demo_new.
Proof. split; try evaluate; [by intros []|decided|decided]. Qed.
Lemma dirs_renaming : renaming world 20 34 22 64 50 51 150 151 demo_dentry demo_new_sub.
Proof. split; try evaluate; [discriminate|decided|decided]. Qed.


Lemma rename_leaks_locks_witness :
  wp (teadfs_rename 32 20 33 34) (λ rc s', rc = - EINVAL ∧
    teadfs_create 32 28 33188 true s' = Ub Deadlock) world.
Proof.
  eapply wp_mono.
  - refine (rename_leaks_locks world 32 20 33 34 22 64 50 51 150 151 22 demo_dentry demo_new_sub
      dirs_renaming _ _ _); [discriminate|evaluate|by left].
  - intros rc s' (Hrc & _ & _ & _ & Hstuck). split; [exact Hrc|].
    eapply Hstuck; evaluate.
Defined.

(** ** Looking names up *)
Lemma name_looking (d : positive) (name : bytes) (l : demo_lfs) :
  demo_dentries !! d = Some (demo_blank name) → d ≠ 26%positive →
  looking (demo_state 0 OFR_INIT l) 32 d 26 (demo_blank name) demo_root (demo_dir 150) (demo_dir 150) 32 50 150 23.
Proof. intros Hd Hne. split; try done; try evaluate; decided. Qed.

Lemma lookup_finds_witness :
  wp (teadfs_lookup 32 36) (λ r s', r = KNull ∧
    ks_refs s' = {[+ RMnt 23 +]} ⊎ ({[+ RDentry 22 +]} ⊎ demo_refs)) world.
Proof.
  eapply wp_mono.
  - refine (lookup_finds world 32 36 26 (demo_blank (str "a.txt")) demo_root (demo_dir 150) (demo_dir 150)
      32 50 150 23 22 31 fs demo_super (name_looking 36 _ _ _ _) _ _ _ _ _ _ _ world_old);
      try evaluate; discriminate.
  - intros r s' (Hr & _ & _ & Hrefs & _). split; [exact Hr|exact Hrefs].
Defined.

Lemma lookup_leaks_witness :
  wp (teadfs_lookup 32 38) (λ r s', (r = KErr (- EXDEV) ∨ r = KErr (- ESTALE)) ∧
    ks_refs s' = {[+ RMnt 23 +]} ⊎ ({[+ RDentry 25 +]} ⊎ demo_refs)) stale_world.
Proof.
  eapply wp_mono.
  - refine (lookup_leaks stale_world 32 38 26 (demo_blank (str "stale")) demo_root (demo_dir 150) (demo_dir 150)
      32 50 150 23 25 125 stale_fs demo_super (Some 70%positive) (name_looking 38 _ _ _ _) _ _ _ _ _ _ _ world_old);
      try evaluate; [discriminate|right; evaluate].
  - intros r s' (Hr & _ & Hrefs). split; [exact Hr|exact Hrefs].
Defined.

Lemma lookup_released_witness :
  wp (teadfs_lookup 32 37;; teadfs_d_release 37) (λ _ s', ks_refs s' = demo_refs ∧ ks_locks s' = ∅) world.
Proof.
  eapply wp_mono.
  - refine (lookup_released world 32 37 26 (demo_blank (str "new")) demo_root (demo_dir 150) (demo_dir 150)
      32 50 150 23 24 fs (name_looking 37 _ _ _ _) _ _ _ _); try evaluate; discriminate.
  - intros r s' (Hr & Hl & _). split; [exact Hr|exact Hl].
Defined.

Lemma get_inode_unique_witness :
  wp (a ← teadfs_get_inode 31 7; b ← teadfs_get_inode 31 7; mret (a, b))
    (λ r _, ∃ i, r = (KObj i, KObj i)) world.
Proof.
  eapply wp_mono.
  - refine (get_inode_unique world 31 7 demo_super _ _ _ _ world_old); evaluate.
  - intros r s' (i & x & Hr & _). exists i. exact Hr.
Defined.
End Names.

(** * Attributes *)
Module Attributes.

#[local] Instance env : KernelEnv := demo_env (λ _, []) true.

Definition world (text : bytes) : kstate := demo_state 0 OFR_INIT {[22%positive := text]}.

Lemma world_standing (text : bytes) : standing (world text) 20 30 31 22 31 demo_dentry demo_inode.
Proof. split; evaluate. Qed.


Lemma getattr_mirrors_witness :
  wp (teadfs_getattr 20) (λ r s',
    r = (0, Some (Kstat 31 (demo_attr {[22%positive := demo_text]} 31) 100 8)) ∧ ks_sent s' = []) (world demo_text).
Proof.
  eapply wp_mono.
  - refine (getattr_mirrors (world demo_text) 20 30 31 22 31 demo_dentry demo_inode (world_standing _) _). evaluate.
  - intros r s' (Hr & Hs & _). split; [exact Hr|exact Hs].
Defined.

Lemma follow_link_text_witness :
  wp (teadfs_follow_link 20) (λ buf s', ∃ b, buf = Ptr b 0 ∧
    live s' !! b = Some (OBytes (splice 0 demo_text (zeros PATH_MAX)))) (world demo_text).
Proof.
  eapply wp_mono.
  - refine (follow_link_text (world demo_text) 20 30 31 22 31 demo_dentry demo_inode (world_standing _) _ _);
      [evaluate|within].
  - intros buf s' (_ & b & Hb & HL & _). exists b. split; [exact Hb|]. rewrite HL. by rewrite lookup_insert_eq.
Defined.

Lemma follow_link_overruns_witness : teadfs_follow_link 20 (world []) = Ub OutOfBounds.
Proof.
  refine (follow_link_overruns (world []) 20 30 31 22 31 demo_dentry demo_inode (world_standing _) _ _); evaluate.
Defined.

Lemma d_revalidate_mirrors_witness :
  wp (teadfs_d_revalidate 20 0) (λ rc _, rc = 0) (world demo_text).
Proof.
  pose proof (d_revalidate_mirrors (world demo_text) 20 30 31 22 demo_dentry demo_inode 0) as Hd. cbv zeta in Hd.
  eapply wp_mono; [apply Hd; evaluate|].
  intros rc s' [Hrc _]. exact Hrc.
Defined.

Lemma statfs_passes_through_witness :
  wp (teadfs_statfs 20) (λ r _, r = (0, Some TEADFS_SUPER_MAGIC)) (world demo_text).
Proof. refine (statfs_passes_through (world demo_text) 20 22 demo_dentry _ _); evaluate. Defined.

Lemma evict_puts_lower_witness :
  wp (teadfs_evict_inode 30) (λ _ s', ks_refs s' = {[+ RInode 150 +]} ⊎ {[+ RInode 151 +]}) (world demo_text).
Proof.
  eapply wp_mono.
  - refine (evict_puts_lower (world demo_text) 30 31 demo_inode ({[+ RInode 150 +]} ⊎ {[+ RInode 151 +]}) _ _ _);
      [evaluate|evaluate|reflexivity].
  - intros r s' [Hr _]. exact Hr.
Defined.

Lemma destroy_use_after_free_witness : teadfs_i_callback 30 (world demo_text) = Ub WildPointer.
Proof. refine (destroy_use_after_free (world demo_text) 30 _). evaluate. Defined.

(** A caller that refuses the second name. *)
Definition count_names (e : dirent) (n : nat) : Z * nat := (if bool_decide (n = 1%nat) then - 22 else 0, S n).

Lemma readdir_relays_witness :
  wp (teadfs_readdir 10 0 count_names 0%nat) (λ r _, r = ((0, 1), 2%nat)) (world demo_text).
Proof.
  eapply wp_mono.
  - refine (readdir_relays (world demo_text) 10 1 30 22 demo_file (demo_info OFR_INIT) demo_inode 0
      count_names 0%nat _ _ _ _ _); evaluate.
  - intros r s' [Hr _]. rewrite Hr. evaluate.
Defined.
End Attributes.

(** * Mounts *)
Module Mounts.

Section Mounts.
Context (rc : vcall → Z).
#[local] Instance env : KernelEnv := demo_env_rc (λ _, []) true rc.
Definition world : kstate := demo_state 0 OFR_INIT {[50%positive := []]}.
End Mounts.

Definition fails (c : vcall) : Z := match c with VC_sget => - ENOMEM | _ => 0 end.

Lemma mount_umount_witness :
  let _ := env (λ _, 0) in
  wp (r ← teadfs_mount 0 (str "/lower");
      (match r with KObj d => umount d | _ => mret () end);; mret r)
    (λ r s', r ≠ KNull ∧ ks_refs s' = demo_refs) (world (λ _, 0)).
Proof.
  refine (@mount_umount (env (λ _, 0)) (world (λ _, 0)) 0 (str "/lower") 50 23 150 _).
  split; [within|evaluate|evaluate|].
  intros i x [[_ ->]|[[_ ->]|[_ ->]]]%Names.demo_inodes_cases; evaluate.
Defined.

Lemma mount_sget_error_witness :
  let _ := env fails in teadfs_mount 0 (str "/lower") (world fails) = Ub WildPointer.
Proof. refine (@mount_sget_error (env fails) (world fails) 0 (str "/lower") _ _); evaluate. Defined.

Lemma mount_flags_spec_witness : Z.testbit (mount_flags 0 1) 0 = true.
Proof. refine (mount_flags_spec 0 1 0 _). within. Defined.
End Mounts.

(** * The pool *)
Module Workers.
Import Event Pool.

(** One task: added, given to a new worker, and taken; a worker that waits is
    woken for the second. *)
Definition first : list actor :=
  [Adder; Adder; PoolThread false; PoolThread false; PoolThread false; PoolThread false;
   WorkThread false 0; WorkThread false 0].
Definition waits : list actor :=
  first ++ replicate 9 (WorkThread false 0) ++
  [Adder; Adder; PoolThread false; PoolThread false; PoolThread false; PoolThread false].

Lemma pool_accounts_witness :
  match run first (Pool.start [1%nat; 2%nat]) with Some s => accounted [1%nat; 2%nat] s | None => False end.
Proof.
  destruct (run first _) as [s|] eqn:E; [|vm_compute in E; discriminate].
  refine (pool_accounts [1%nat; 2%nat] first s E).
Defined.

Lemma pool_refines_witness :
  match run first (Pool.start [1%nat; 2%nat]) with
  | Some s => match step Adder s with
              | Some s' => abstract s' = abstract s ∨ spec_step (abstract s) (abstract s')
              | None => False
              end
  | None => False
  end.
Proof.
  destruct (run first _) as [s|] eqn:E; [|vm_compute in E; discriminate].
  destruct (step Adder s) as [s'|] eqn:E'; [refine (pool_refines Adder s s' E')|].
  vm_compute in E. injection E as <-. vm_compute in E'. discriminate.
Defined.

(** The pool looks for a worker after the only one has left, and lets go of it. *)
Definition reclaimed : list actor := stranding ++ [Adder; Adder; PoolThread false; PoolThread false].

Lemma destroyed_unused_witness :
  match run reclaimed (Pool.start [1%nat; 2%nat; 3%nat]) with
  | Some s => destroyed 0 s ∧ (∃ w, workers s !! 0%nat = Some w ∧ w_pc w = WDone) ∧
      step (PoolThread false) (set_worker 0 (new_worker) s) = set_worker 0 new_worker <$> step (PoolThread false) s
  | None => False
  end.
Proof.
  destruct (run reclaimed _) as [s|] eqn:E; [|vm_compute in E; discriminate].
  assert (Hd : destroyed 0 s).
  { vm_compute in E. injection E as <-. split; [apply Nat.ltb_lt; reflexivity|]. split; [apply not_elem_of_nil|discriminate]. }
  destruct (destroyed_unused [1%nat; 2%nat; 3%nat] reclaimed s 0 E Hd) as [Hw Ha].
  split; [exact Hd|]. split; [exact Hw|]. apply (Ha (PoolThread false)). intros late. discriminate.
Defined.

Lemma woken_takes_witness :
  match run waits (Pool.start [1%nat; 2%nat]) with
  | Some s => ∃ s' w', run (replicate 3 (WorkThread false 0)) s = Some s' ∧ workers s' !! 0%nat = Some w' ∧
      w_pc w' = WHandle 2%nat
  | None => False
  end.
Proof.
  destruct (run waits _) as [s|] eqn:E; [|vm_compute in E; discriminate].
  destruct (woken_takes 0 s (Worker (Event.Event true true) false TS_WAIT MAX_REPEAT_COUNT WBlocked) 2%nat [])
    as (s' & w' & Hr & Hw & Hpc & _); try (vm_compute in E; injection E as <-; reflexivity).
  exists s', w'. split; [exact Hr|]. split; [exact Hw|exact Hpc].
Defined.
End Workers.

(** * The page cache *)
Module Pages.

#[local] Instance env : KernelEnv := demo_env (demo_deliveries (demo_cb TOR_DECRYPT)) true.
#[local] Instance bytes_laws : LowerBytes := demo_bytes _ _ _.

(** The file, labelled, its one page not read yet; its inode has the size of the
    lower file. *)
Definition frames : gmap positive frame := {[40%positive := Frame 0 2 1]}.
Definition world : kstate :=
  set_pages (λ _, {[40%positive := Page 30 0 (Ptr 2 0) false false 1]})
    (set_inodes (insert 30%positive (set_i_size 275 demo_inode))
      (demo_state 1 OFR_DECRYPT ({[22%positive := label demo_text]} : demo_lfs))).

Lemma world_file : labelled_file 10 1 22 30 demo_file (label_header demo_text) demo_text world.
Proof.
  split.
  - split; try done. by apply Forall_nil.
  - evaluate.
  - exists (demo_info OFR_DECRYPT). evaluate.
  - evaluate.
  - exists (set_i_size 275 demo_inode). evaluate.
Qed.

Lemma world_serving : serving 10 1 22 30 demo_file (label_header demo_text) frames demo_text world.
Proof.
  split; [exact world_file|]. apply map_Forall_singleton.
  exists false, (zeros 4096). split_and!; [evaluate|evaluate|evaluate|discriminate].
Qed.

Lemma world_frames : frames_ok frames.
Proof.
  split; [by apply map_Forall_singleton|].
  unfold frames. intros pg pg' fr fr' Hpg Hpg' Hne.
  apply lookup_singleton_Some in Hpg as [<- _], Hpg' as [<- _]. done.
Qed.

(** Read, write at the end, read what is there now. *)
Definition ops : list page_op := [ReadPage 40 5; WritePage 40 19 (str " jumps"); ReadPage 40 25].


Lemma write_end_hides_short_witness :
  wp (teadfs_write_end 10 40 2 5 5) (λ r s', r = 5 ∧
    (ks_lfs s' : demo_lfs) !! 22%positive = Some (splice 2 (zeros 5) demo_text)) (demo_state 1 OFR_INIT {[22%positive := demo_text]}).
Proof.
  pose (w := demo_write {[22%positive := demo_text]} 22 (zeros 5) 2).
  eapply wp_mono.
  - refine (write_end_hides_short (demo_state 1 OFR_INIT {[22%positive := demo_text]}) 10 1 22 40 2 30 31 demo_file
      OFR_INIT demo_page demo_inode (zeros 4096) 2 5 w.1 w.2 _ _ _ _ _ _ _ _ _ _ _ _ _); try evaluate; discriminate.
  - intros r s' (Hr & Hl & _). split; [exact Hr|]. rewrite Hl. evaluate.
Defined.
End Pages.

(** * The user process *)
Module Serving.
Import Process.

(** The process starts, although its receive thread first polls no socket; it
    receives an OPEN, and a worker answers. *)
Definition request : bytes := path_packet PR_MSG_OPEN 1 77 40960 demo_path.
Definition datagram : bytes := zeros NLMSG_HDRLEN ++ request.
Definition rcv (p : poll_result) : turn := RcvTurn p (Some datagram) (zeros (NLMSG_SPACE MAX_MSG_SIZE)).
Definition ts : list turn :=
  [MainTurn 3; MainTurn 0; rcv PollReady; MainTurn 5; MainTurn 0; MainTurn 0;
   rcv PollTimeout; rcv PollReady; rcv PollReady; rcv PollReady; rcv PollReady; rcv PollReady; rcv PollReady;
   PoolTurn false; PoolTurn false; PoolTurn false; WorkTurn false 0; WorkTurn false 0; WorkTurn false 0].

Lemma process_answers_witness :
  match take_turns (demo_cb TOR_DECRYPT) 0 4242 ts start_process with
  | Next s => sent s ≡ₚ [hello_packet 1 4242] ++ omap (reply_of (demo_cb TOR_DECRYPT) 0) (received s) ∧
      length (sent s) = 2%nat
  | _ => False
  end.
Proof.
  destruct (take_turns _ _ _ ts start_process) as [s| |] eqn:E; [|vm_compute in E; discriminate..].
  destruct (process_answers (demo_cb TOR_DECRYPT) 0 4242 ts s E) as (_ & _ & Hidle).
  assert (Hlen : length (sent s) = 2%nat) by (vm_compute in E; injection E as <-; reflexivity).
  split; [|exact Hlen].
  assert (Hh : hellos 4242 s = [hello_packet 1 4242]) by (vm_compute in E; injection E as <-; vm_compute; reflexivity).
  rewrite <- Hh. apply Hidle; vm_compute in E; injection E as <-; vm_compute; reflexivity.
Defined.

(** The receive thread in [poll], after the start. *)
Lemma poll_error_deafens_witness :
  match take_turns (demo_cb TOR_DECRYPT) 0 4242 (take 8 ts) start_process with
  | Next s => ∃ s1, take_turn (demo_cb TOR_DECRYPT) 0 4242 (rcv PollError) s = Next s1 ∧
      (∀ s2, take_turns (demo_cb TOR_DECRYPT) 0 4242 (drop 8 ts) s1 = Next s2 → received s2 = received s)
  | _ => False
  end.
Proof.
  destruct (take_turns _ _ _ (take 8 ts) start_process) as [s| |] eqn:E; [|vm_compute in E; discriminate..].
  refine (poll_error_deafens (demo_cb TOR_DECRYPT) 0 4242 (drop 8 ts) s 5 _ _ _ _);
    vm_compute in E; injection E as <-; reflexivity.
Defined.
End Serving.
